(* ===== verification/_CoqProject ===== *)
-Q . S2P
Prelude.v
GoLib.v
Crypto.v
Instances.v
Dwire.v
Sector.v
Wire.v
OsFile.v
BlobIO.v
BlobTx.v
BlobSpec.v
BlobSys.v
BlobHash.v
Names.v
BlobStore.v
Util.v
StoreDB.v
StoreInstances.v
Store.v
StorePeers.v
Queue.v
UpdateQueueProofs.v
Syncer.v
SyncerProofs.v
Updater.v
UpdaterProofs.v
UpdaterComplete.v
EpochRules.v
SectorServer.v
ServerProofs.v
BanList.v
NetIP.v
Peer.v
Handshake.v
Mux.v
PeerManager.v
ManagerProofs.v
HnsEncoding.v
HnsDns.v
HnsDnsProofs.v
HnsPrimitives.v
HnsProofs.v
NameImporter.v
ImporterProofs.v
ImporterLife.v
ImportedKeys.v
Rpc.v
RpcClient.v
RpcProofs.v
RpcReads.v
Strconv.v
Config.v
Log.v
ConfigFile.v
TomlInstance.v
ConfigFileProofs.v
Home.v
HomeProofs.v
PeerExchanger.v
Pinger.v
NameSyncer.v
Start.v
Services.v
Cli.v
WriteInput.v
Commands.v
Propagation.v
