(* ===== verification/Prelude.v ===== *)
(** * fnd: a verification development

    fnd is a node of a peer-to-peer network that stores one blob of at most a
    mebibyte for each name of the Handshake chain.  The owner of a name writes
    sectors to its blob and signs the tip of their hash chain; nodes announce
    such updates to each other, fetch the sectors and check the signature
    against the key found on the chain.  An owner who signs two different
    continuations of one epoch equivocates, and the proof bans the name.

    ** The parts and the files that model them

    The files are in dependency order; paths are under [src/].

    - [Prelude] (this file): results and the state-and-error monad [M] the
      handlers are written in, machine words as [Z] with their wrap-around,
      lists by [Z] index, the tactics and the hint databases.
    - [GoLib], [OsFile], [NetIP], [Strconv]: what the sources use of Go's
      standard library (readers, binary, hex, varints, time; files; addresses;
      decimal numbers).
    - [Crypto], [Instances]: [crypto/].  BLAKE2b and secp256k1 are the classes
      [Blake2b] and [Secp256k1] with laws; [Instances] are concrete functions
      that satisfy them, on which the witnesses compute.
    - [Dwire], [Wire]: [vendor/fnd.localhost/dwire] over a universe of the types
      it switches on, and every message and the envelope of [wire/].
    - [Sector], [BlobIO], [BlobTx], [BlobSpec], [BlobSys], [BlobHash],
      [BlobStore]: [blob/].  Sectors, hash chain and seals; bounded reads and
      writes; blobs and transactions on files; their specification and the
      refinement; the pool and the store.
    - [Names]: names and their paths ([vendor/.../primitives/rules.go],
      [blob/pathify.go]).
    - [Util]: the lock table, cache, observers and samples of [util/].
    - [StoreDB], [StoreInstances], [Store], [StorePeers]: [store/].  goleveldb
      and the text format of encoding/json are the classes [LevelDB] and [JSON].
    - [Queue], [UpdateQueueProofs]: the state [World] the handlers share (the
      database, the blobs, the locks on names, the messages sent) and
      [protocol/update_queue.go], with [peer_set.go] and [epoch.go].
    - [Syncer], [SyncerProofs], [Updater], [UpdaterProofs], [UpdaterComplete],
      [EpochRules]: [protocol/syncer.go] and [updater.go].
    - [SectorServer], [ServerProofs]: [protocol/sector_server.go] and
      [update_server.go], and the server of one node against the syncer of
      another.
    - [BanList]: [protocol/ban_list.go] and [moderation.go].
    - [Peer], [Handshake], [Mux], [PeerManager], [ManagerProofs]: [p2p/].
    - [HnsEncoding], [HnsDns], [HnsDnsProofs], [HnsPrimitives], [HnsProofs]:
      [vendor/fnd.localhost/handshake], the library for the Handshake chain: the
      resources of names with their compressed records, and transactions,
      covenants and blocks.  The packing of domain names is the class [MiekgDNS].
    - [NameImporter], [ImporterProofs], [ImporterLife], [ImportedKeys]:
      [protocol/name_importer.go] on the blocks as they are decoded.
    - [Rpc], [RpcClient], [RpcProofs], [RpcReads]: [rpc/], the server with the
      transactions that are checked out, and the clients against it.
    - [Config], [ConfigFile], [TomlInstance], [ConfigFileProofs]: [config/], the
      structs with their tags and defaults, the template of the default file and
      reading it.  go-toml is the class [TOML]; a small parser satisfies its law.
    - [Log]: [log/].
    - [Home], [HomeProofs]: the home directory and the key file ([config/home.go],
      [paths.go], [node_identity.go], [cli/]), and the commands that make or
      wipe it.
    - [PeerExchanger], [Pinger], [NameSyncer]: the services of [protocol/] of
      these names.
    - [Start], [Services]: [cmd/fnd/cmd/start.go] with [p2p/listener.go]: seeds,
      the wait for the Handshake node, and the services that are made from the
      configuration, among them [protocol/heartbeater.go].
    - [Cli], [WriteInput], [Commands]: the commands of [cmd/fnd-cli]: writing and
      reading blobs, with the input and the signer, and those on peers, on the
      status of the node and on its blobs.

    ** How code corresponds to definitions

    A definition has the name of its function, with the type first where two
    types share a method name ([Tx_Commit], [Cache_Set]).  A function that can
    fail returns [result]: [Ok], [Err] with the error value the code makes
    (sentinels and their wrappings), or [Panic].  A function that changes state
    is in [M S] for the state [S] it can reach; deferred calls are [M_defer],
    and an error that is logged and dropped is [M_try].  An object behind a
    mutex takes one step per call; where the code lets go of the mutex, or waits
    for a peer, the operation is split there and the steps interleave
    ([q_step], [link_step], the sessions of the peer manager).  The clock, random
    draws, and what the network and other processes answer are arguments.  So
    are laws of third-party code, as hypotheses; each theorem that has one has a
    witness that applies it on the concrete instances.

    ** What the theorems show

    - Storage: concurrent transactions behave like private copies and atomic
      assignments ([transactions_refine]); headers read back as stored; locks
      exclude; ban lists ban what they list.
    - Syncing: an update changes header and blob together, to values the owner
      signed, or neither ([sync_blob_atomic], [sync_sectors_authentic]); an
      honest response completes it ([sync_blob_completes]), and what one node
      serves another accepts ([served_blob_accepted]); epochs follow the rules;
      equivocation is recorded and its proofs are signed.
    - The whole way: what an owner publishes at one node is served by it, taken
      by the updater of another and read there ([published_reaches_peer]).
    - Network: envelopes and messages round trip; links deliver in order
      ([peer_delivery]); two nodes agree in the handshake, which authenticates;
      the limits on peers, up to the connections that are pending; peers that
      are silent are closed, and stored peers reach others.
    - Names: blocks and resources round trip, what decodes is well formed, and
      decoding ends on any bytes; over its life the importer holds the names of
      a whole number of blocks ([importer_life]), and an import of good blocks
      completes; the key an owner publishes on the chain is the key
      the node stores ([imported_key]).
    - Clients: what a writer publishes is in the blob, signed, and a reader
      reads it; the commands of the command line compose to a round trip on
      inputs of whole sectors ([write_command_roundtrip]).
    - The home: [init] makes a key once, on which node, command line and chain
      agree ([init_identity]); the file of the configuration is read as it was
      written ([config_roundtrip]); a reset removes what it names.
    - Failures: theorems of kind error state what the code does wrong, on every
      input that leads there (panics on network input, a forged handshake, a
      proof without a conflict, names that a reset loses, unbounded retries).

    ** Fuel

    Recursion is structural on the data wherever the code walks data.  The
    loops that are not have fuel that suffices, by theorem: varints have ten
    groups of seven bits; [io_Copy] runs 33 rounds of 32 KiB, one more than a
    blob has; the import of names is given at least the number of blocks, the
    hypothesis of its theorems; a retry loop with a bound in the code
    ([bufferSendCtx]) has that bound; a stream of names has the length of its
    iterator; the records of a resource have the number of its bytes; a decimal
    number has twenty digits, an amount of traffic seven units.

    ** Not modelled

    The transport of gRPC and the generated code of its messages; LevelDB,
    secp256k1, BLAKE2b, JSON, TOML, the names of DNS and the table writer, which
    are libraries; sockets below the bytes they carry, deadlines, and the rate
    limiter, which only delay steps; which lines the services log; the
    registration of commands and flags; the profiler; failures of the disk; the
    helpers of the tests. *)

From Stdlib Require Export ZArith Lia Strings.Byte.
From stdpp Require Export base option gmap strings numbers list.

#[global] Set Default Goal Selector "!".

Declare Scope go_scope.
Delimit Scope go_scope with go.
Open Scope Z_scope.

(** ** Bytes *)

Abbreviation bytes := (list byte).

#[global] Instance byte_eq_decision : EqDecision byte := Byte.byte_eq_dec.

#[global] Program Instance byte_countable : Countable byte :=
  inj_countable Byte.to_N Byte.of_N _.
Next Obligation. apply Byte.of_to_N. Qed.

#[global] Instance byte_inhabited : Inhabited byte := populate x00.

Definition Z_of_byte (b : byte) : Z := Z.of_N (Byte.to_N b).

Definition byte_of_Z (z : Z) : byte :=
  default x00 (Byte.of_N (Z.to_N (z mod 256))).

(** A Go string literal as its bytes. *)
Definition bs (s : string) : bytes := String.list_byte_of_string s.

(** ** Machine integers: unsigned and two's complement wrap-around *)

Definition u8 (z : Z) : Z := z mod 2 ^ 8.
Definition u16 (z : Z) : Z := z mod 2 ^ 16.
Definition u32 (z : Z) : Z := z mod 2 ^ 32.
Definition u64 (z : Z) : Z := z mod 2 ^ 64.
Definition i32 (z : Z) : Z := (z + 2 ^ 31) mod 2 ^ 32 - 2 ^ 31.
Definition i64 (z : Z) : Z := (z + 2 ^ 63) mod 2 ^ 64 - 2 ^ 63.

Definition is_u8 (z : Z) : Prop := 0 ≤ z < 2 ^ 8.
Definition is_u16 (z : Z) : Prop := 0 ≤ z < 2 ^ 16.
Definition is_u32 (z : Z) : Prop := 0 ≤ z < 2 ^ 32.
Definition is_u64 (z : Z) : Prop := 0 ≤ z < 2 ^ 64.

(** Length of a slice as Go's [len]. *)
Definition zlen {A} (l : list A) : Z := Z.of_nat (length l).

(** ** Errors, results and panics *)

(** [ESentinel] is a package-level error variable, compared by identity;
    [ENew] is an error made where it is returned; [EWrap] is
    [errors.Wrap] on a non-nil error. *)
Inductive error : Type :=
| ESentinel (name : string)
| ENew (msg : string)
| EWrap (e : error) (msg : string).

#[global] Instance error_eq_decision : EqDecision error.
Proof. solve_decision. Defined.

(** [errors.Is]. *)
Fixpoint errors_Is (e target : error) : bool :=
  bool_decide (e = target) ||
  match e with
  | EWrap e' _ => errors_Is e' target
  | _ => false
  end.

(** [errors.Wrap]: wrapping a nil error gives nil. *)
Definition errors_Wrap (e : option error) (msg : string) : option error :=
  match e with
  | Some e => Some (EWrap e msg)
  | None => None
  end.

(** What a call can do: return, return an error, or panic. *)
Inductive result (A : Type) : Type :=
| Ok (a : A)
| Err (e : error)
| Panic (why : string).
Arguments Ok {A} _.
Arguments Err {A} _.
Arguments Panic {A} _.

#[global] Instance result_ret : MRet result := @Ok.

#[global] Instance result_bind : MBind result :=
  λ A B f m,
    match m with
    | Ok a => f a
    | Err e => Err e
    | Panic w => Panic w
    end.

#[global] Instance result_fmap : FMap result :=
  λ A B f m,
    match m with
    | Ok a => Ok (f a)
    | Err e => Err e
    | Panic w => Panic w
    end.

#[global] Instance result_eq_decision `{EqDecision A} : EqDecision (result A).
Proof. solve_decision. Defined.

(** [if err != nil { return errors.Wrap(err, msg) }]. *)
Definition wrapping {A} (msg : string) (m : result A) : result A :=
  match m with
  | Err e => Err (EWrap e msg)
  | _ => m
  end.

Definition is_ok {A} (m : result A) : bool :=
  match m with Ok _ => true | _ => false end.

(** Stateful code: the state after the call, whatever its outcome. *)
Definition M (S A : Type) : Type := S → result A * S.

#[global] Instance M_ret {S} : MRet (M S) := λ A a s, (Ok a, s).

#[global] Instance M_bind {S} : MBind (M S) :=
  λ A B f m s,
    match m s with
    | (Ok a, s') => f a s'
    | (Err e, s') => (Err e, s')
    | (Panic w, s') => (Panic w, s')
    end.

Definition M_get {S} : M S S := λ s, (Ok s, s).
Definition M_put {S} (s : S) : M S unit := λ _, (Ok tt, s).
Definition M_modify {S} (f : S → S) : M S unit := λ s, (Ok tt, f s).
Definition M_fail {S A} (e : error) : M S A := λ s, (Err e, s).
Definition M_panic {S A} (why : string) : M S A := λ s, (Panic why, s).
Definition M_lift {S A} (r : result A) : M S A := λ s, (r, s).

Definition M_wrapping {S A} (msg : string) (m : M S A) : M S A :=
  λ s, let '(r, s') := m s in (wrapping msg r, s').

(** [if err := m; err != nil { panic(err) }]. *)
Definition M_must {S A} (m : M S A) : M S A :=
  λ s, match m s with
       | (Err _, s') => (Panic "err", s')
       | r => r
       end.

(** [a, err := m], where the caller looks at [err] itself. *)
Definition M_try {S A} (m : M S A) : M S (result A) :=
  λ s, match m s with
       | (Panic w, s') => (Panic w, s')
       | (r, s') => (Ok r, s')
       end.

(** [defer d; m]: [d] runs however [m] ends. *)
Definition M_defer {S A} (d : M S unit) (m : M S A) : M S A :=
  λ s, let '(r, s') := m s in
       match d s' with
       | (Panic w, s'') => (Panic w, s'')
       | (_, s'') => (r, s'')
       end.

(** Run a call on a part of the state. *)
Definition M_zoom {S T A} (get : S → T) (put : T → S → S) (m : M T A) : M S A :=
  λ s, let '(r, t) := m (get s) in (r, put t s).

(** Every outcome of [m] keeps [I]. *)
Definition preserves {S A} (I : S → Prop) (m : M S A) : Prop :=
  ∀ s, I s → I (m s).2.

(** ** Tactics *)

(** Split a hypothesis [m ≫= f = Ok b] into its two successful calls. *)
Ltac bind_inv :=
  repeat match goal with
  | H : mbind ?f ?m = Ok _ |- _ =>
      let E := fresh "E" in
      destruct m eqn:E; simpl in H; try discriminate H
  | H : wrapping _ ?m = Ok _ |- _ =>
      let E := fresh "E" in
      destruct m eqn:E; simpl in H; try discriminate H
  | H : Ok _ = Ok _ |- _ => injection H as H
  end.

Create HintDb fnd discriminated.
Create Rewrite HintDb fnd_len.

(** ** Lemmas on bytes *)

Lemma Z_of_byte_range b : 0 ≤ Z_of_byte b < 256.
Proof. unfold Z_of_byte. pose proof (Byte.to_N_bounded b). lia. Qed.

Lemma Z_of_byte_of_Z z : Z_of_byte (byte_of_Z z) = z mod 256.
Proof.
  unfold Z_of_byte, byte_of_Z.
  pose proof (Z.mod_pos_bound z 256 eq_refl) as Hb.
  destruct (Byte.of_N (Z.to_N (z mod 256))) as [b|] eqn:E; simpl.
  - apply Byte.to_of_N in E. rewrite E. lia.
  - apply Byte.of_N_None_iff in E. lia.
Qed.

Lemma byte_of_Z_of_byte b : byte_of_Z (Z_of_byte b) = b.
Proof.
  unfold byte_of_Z. rewrite Z.mod_small by apply Z_of_byte_range.
  unfold Z_of_byte. rewrite N2Z.id, Byte.of_to_N. done.
Qed.

Lemma Z_of_byte_inj b1 b2 : Z_of_byte b1 = Z_of_byte b2 → b1 = b2.
Proof. intros H. by rewrite <- (byte_of_Z_of_byte b1), H, byte_of_Z_of_byte. Qed.

Lemma byte_of_Z_mod z : byte_of_Z (z mod 256) = byte_of_Z z.
Proof. unfold byte_of_Z. by rewrite Z.mod_mod. Qed.

(** ** Lemmas on integers *)

(** A run, by its outcome. *)
Lemma run_eta {A S} (x : A * S) a : x.1 = a → x = (a, x.2).
Proof. by destruct x; simpl; intros ->. Qed.

Lemma run_eta2 {A S T} (x : A * (S * T)) a : x.1 = a → x = (a, (x.2.1, x.2.2)).
Proof. by destruct x as [? [? ?]]; simpl; intros ->. Qed.

Lemma i32_small z : - 2 ^ 31 ≤ z < 2 ^ 31 → i32 z = z.
Proof. intros Hz. unfold i32. rewrite Z.mod_small; lia. Qed.

Lemma i64_small z : - 2 ^ 63 ≤ z < 2 ^ 63 → i64 z = z.
Proof. intros Hz. unfold i64. rewrite Z.mod_small; lia. Qed.

Lemma u16_small z : is_u16 z → u16 z = z.
Proof. intros Hz. by apply Z.mod_small. Qed.

(** ** Lemmas on results *)

Lemma result_bind_Ok {A B} (m : result A) (f : A → result B) b :
  m ≫= f = Ok b ↔ ∃ a, m = Ok a ∧ f a = Ok b.
Proof. destruct m; simpl; naive_solver. Qed.

Lemma errors_Is_refl e : errors_Is e e = true.
Proof. destruct e; simpl; rewrite bool_decide_true; done. Qed.

Lemma errors_Is_Wrap e m t :
  EWrap e m ≠ t → errors_Is (EWrap e m) t = errors_Is e t.
Proof. intros H. simpl. by rewrite bool_decide_false. Qed.

(** ** Lemmas on stateful code *)

Section M_lemmas.
Context {S : Type}.

Lemma Ok_not_Panic {A} (a : A) s : Ok a ≠ Panic s.
Proof. done. Qed.

Lemma M_bind_step {A B} (m : M S A) (f : A → M S B) s a s' :
  m s = (Ok a, s') → (m ≫= f) s = f a s'.
Proof. unfold mbind, M_bind. by intros ->. Qed.

Lemma M_bind_Err {A B} (m : M S A) (f : A → M S B) s e s' :
  m s = (Err e, s') → (m ≫= f) s = (Err e, s').
Proof. unfold mbind, M_bind. by intros ->. Qed.

Lemma M_bind_Panic {A B} (m : M S A) (f : A → M S B) s w s' :
  m s = (Panic w, s') → (m ≫= f) s = (Panic w, s').
Proof. unfold mbind, M_bind. by intros ->. Qed.

Lemma M_bind_Ok {A B} (m : M S A) (f : A → M S B) s b s' :
  (m ≫= f) s = (Ok b, s') ↔ ∃ a s1, m s = (Ok a, s1) ∧ f a s1 = (Ok b, s').
Proof.
  unfold mbind, M_bind. destruct (m s) as [[a|e|w] s1]; naive_solver.
Qed.

Lemma M_try_Ok {A} (m : M S A) s a s' : m s = (Ok a, s') → M_try m s = (Ok (Ok a), s').
Proof. intros Hm. unfold M_try. by rewrite Hm. Qed.

Lemma preserves_ret {A} (I : S → Prop) (a : A) : preserves I (mret a).
Proof. by intros s Hs. Qed.

Lemma preserves_bind {A B} (I : S → Prop) (m : M S A) (f : A → M S B) :
  preserves I m → (∀ a, preserves I (f a)) → preserves I (m ≫= f).
Proof.
  intros Hm Hf s Hs. unfold mbind, M_bind. specialize (Hm s Hs).
  destruct (m s) as [[a|e|w] s']; simpl in *; [by apply Hf|done..].
Qed.

Lemma preserves_lift {A} (I : S → Prop) (r : result A) : preserves I (M_lift r).
Proof. by intros s Hs. Qed.

Lemma preserves_modify (I : S → Prop) f :
  (∀ s, I s → I (f s)) → preserves I (M_modify f).
Proof. intros Hf s Hs. by apply Hf. Qed.

Lemma preserves_wrapping {A} (I : S → Prop) msg (m : M S A) :
  preserves I m → preserves I (M_wrapping msg m).
Proof. intros Hm s Hs. specialize (Hm s Hs). unfold M_wrapping. by destruct (m s). Qed.

Lemma preserves_must {A} (I : S → Prop) (m : M S A) :
  preserves I m → preserves I (M_must m).
Proof.
  intros Hm s Hs. specialize (Hm s Hs). unfold M_must. by destruct (m s) as [[]].
Qed.

Lemma preserves_try {A} (I : S → Prop) (m : M S A) :
  preserves I m → preserves I (M_try m).
Proof.
  intros Hm s Hs. specialize (Hm s Hs). unfold M_try. by destruct (m s) as [[]].
Qed.
End M_lemmas.

Lemma preserves_defer {S A} (I : S → Prop) (d : M S unit) (m : M S A) :
  preserves I d → preserves I m → preserves I (M_defer d m).
Proof.
  intros Hd Hm s Hs. specialize (Hm s Hs). unfold M_defer. destruct (m s) as [r s'].
  specialize (Hd s' Hm). by destruct (d s') as [[| |] s''].
Qed.

#[export] Hint Resolve preserves_ret preserves_bind preserves_lift preserves_modify
  preserves_wrapping preserves_must preserves_try : fnd.

(** ** Lemmas on lists *)

Lemma zlen_nonneg {A} (l : list A) : 0 ≤ zlen l.
Proof. unfold zlen. lia. Qed.

Lemma zlen_app {A} (l k : list A) : zlen (l ++ k) = zlen l + zlen k.
Proof. unfold zlen. rewrite length_app. lia. Qed.

Lemma zlen_nil {A} : zlen (@nil A) = 0.
Proof. done. Qed.

Lemma zlen_cons {A} (x : A) l : zlen (x :: l) = 1 + zlen l.
Proof. unfold zlen. simpl. lia. Qed.

#[export] Hint Rewrite @zlen_app @zlen_nil @zlen_cons : fnd_len.

Lemma take_app_len {A} (l k : list A) n : n = length l → take n (l ++ k) = l.
Proof. intros ->. apply take_app_length. Qed.

Lemma drop_app_len {A} (l k : list A) n : n = length l → drop n (l ++ k) = k.
Proof. intros ->. apply drop_app_length. Qed.
