(* ===== verification/GoLib.v ===== *)
(** * The parts of Go's standard library the sources use

    Byte readers and [io.ReadFull], [encoding/binary] (big and little endian
    words, unsigned varints), [encoding/hex] and [time.Time] as nanoseconds
    since the Unix epoch. *)

From S2P Require Import Prelude.

(** ** io: decoders over a [bytes.Reader] *)

Definition EOF : error := ESentinel "io.EOF".
Definition ErrUnexpectedEOF : error := ESentinel "io.ErrUnexpectedEOF".

(** A decoder consumes a prefix of the unread bytes. *)
Definition dec (A : Type) : Type := bytes → result (A * bytes).

#[global] Instance dec_ret : MRet dec := λ A a r, Ok (a, r).

#[global] Instance dec_bind : MBind dec :=
  λ A B f m r,
    match m r with
    | Ok (a, r') => f a r'
    | Err e => Err e
    | Panic w => Panic w
    end.

#[global] Instance dec_fmap : FMap dec := λ A B f m, m ≫= λ a, mret (f a).

Definition dec_fail {A} (e : error) : dec A := λ _, Err e.

Definition dec_panic {A} (w : string) : dec A := λ _, Panic w.

Definition dec_wrapping {A} (msg : string) (m : dec A) : dec A :=
  λ r, wrapping msg (m r).

(** [io.ReadFull(r, buf)] with [len(buf) = n]. *)
Definition ReadFull (n : nat) : dec bytes :=
  λ r,
    if decide (n = 0%nat) then Ok ([], r)
    else if decide (r = []) then Err EOF
    else if decide (length r < n)%nat then Err ErrUnexpectedEOF
    else Ok (take n r, drop n r).

(** [r.Read(buf)] on a [bytes.Reader], [len(buf) = n]: a short read is not an
    error, and leaves the rest of the buffer as it was. *)
Definition ReadInto (buf : bytes) : dec bytes :=
  λ r,
    if decide (r = []) then Err EOF
    else Ok (take (length buf) r ++ drop (length (take (length buf) r)) buf,
             drop (length buf) r).

(** ** io: interfaces over a state [S].  A call gets the buffer, and returns the
    buffer afterwards, the count and the error. *)
Definition Reader (S : Type) : Type := bytes → M S (bytes * Z * option error).
Definition ReaderAt (S : Type) : Type := bytes → Z → M S (bytes * Z * option error).
Definition WriterAt (S : Type) : Type := bytes → Z → M S (Z * option error).

(** [copy(dst, src)]: the destination afterwards. *)
Definition go_copy {A} (dst src : list A) : list A :=
  take (length dst) src ++ drop (length src) dst.

(** Repeat a decoder [n] times. *)
Fixpoint dec_repeat {A} (n : nat) (m : dec A) : dec (list A) :=
  match n with
  | O => mret []
  | S n => x ← m; xs ← dec_repeat n m; mret (x :: xs)
  end.

(** ** io: encoders into a writer that never fails (bytes.Buffer, hash.Hash).
    What has been written so far, and the error that stopped the encoder. *)
Definition enc : Type := bytes * option error.

Definition enc_write (b : bytes) : enc := (b, None).

Definition enc_fail (e : error) : enc := ([], Some e).

Definition enc_seq (a b : enc) : enc :=
  match a with
  | (o, None) => (o ++ b.1, b.2)
  | (o, Some e) => (o, Some e)
  end.

Definition enc_list {A} (f : A → enc) (l : list A) : enc :=
  foldr (λ x k, enc_seq (f x) k) (enc_write []) l.

(** ** encoding/binary *)

Fixpoint le_put (n : nat) (z : Z) : bytes :=
  match n with
  | O => []
  | S n => byte_of_Z z :: le_put n (Z.shiftr z 8)
  end.

Fixpoint le_get (l : bytes) : Z :=
  match l with
  | [] => 0
  | b :: l => Z.lor (Z_of_byte b) (Z.shiftl (le_get l) 8)
  end.

Definition be_put (n : nat) (z : Z) : bytes := reverse (le_put n z).

Definition be_get (l : bytes) : Z := le_get (reverse l).

(** [binary.PutUvarint]; ten groups of seven bits hold a uint64. *)
Fixpoint put_uvarint (fuel : nat) (x : Z) : bytes :=
  match fuel with
  | O => []
  | S fuel =>
      if decide (x < 128) then [byte_of_Z x]
      else byte_of_Z (Z.lor (x mod 256) 128) :: put_uvarint fuel (Z.shiftr x 7)
  end.

Definition MaxVarintLen64 : nat := 10.

Definition PutUvarint (x : Z) : bytes := put_uvarint MaxVarintLen64 x.

Definition ErrUvarintOverflow : error := ESentinel "binary.overflow".

(** [binary.ReadUvarint]: at most ten bytes, the tenth at most 1. *)
Fixpoint read_uvarint (fuel : nat) (x s : Z) : dec Z :=
  match fuel with
  | O => dec_fail ErrUvarintOverflow
  | S fuel =>
      b ← ReadFull 1;
      let v := be_get b in
      if decide (v < 128) then
        if decide (fuel = O ∧ 1 < v) then dec_fail ErrUvarintOverflow
        else mret (Z.lor x (u64 (Z.shiftl v s)))
      else read_uvarint fuel (Z.lor x (u64 (Z.shiftl (Z.land v 127) s))) (s + 7)
  end.

Definition ReadUvarint : dec Z := read_uvarint MaxVarintLen64 0 0.

(** ** encoding/hex *)

Definition hex_digits : bytes := bs "0123456789abcdef".

Definition hex_digit (z : Z) : byte := default x00 (hex_digits !! Z.to_nat z).

Definition hex_EncodeToString (b : bytes) : bytes :=
  mjoin ((λ c, [hex_digit (Z_of_byte c / 16); hex_digit (Z_of_byte c mod 16)]) <$> b).

Definition hex_value (c : byte) : option Z :=
  let z := Z_of_byte c in
  if decide (48 ≤ z ≤ 57) then Some (z - 48)
  else if decide (97 ≤ z ≤ 102) then Some (z - 87)
  else if decide (65 ≤ z ≤ 70) then Some (z - 55)
  else None.

Definition ErrHexLength : error := ESentinel "hex.ErrLength".

Fixpoint hex_DecodeString (s : bytes) : result bytes :=
  match s with
  | [] => Ok []
  | [c] =>
      match hex_value c with
      | Some _ => Err ErrHexLength
      | None => Err (ENew "encoding/hex: invalid byte")
      end
  | a :: b :: s =>
      match hex_value a, hex_value b with
      | Some x, Some y =>
          rest ← hex_DecodeString s; Ok (byte_of_Z (16 * x + y) :: rest)
      | _, _ => Err (ENew "encoding/hex: invalid byte")
      end
  end.

(** ** time: an instant is its number of nanoseconds since the Unix epoch *)

Abbreviation Time := Z (only parsing).

Definition Second : Z := 1000000000.
Definition Millisecond : Z := 1000000.
Definition Hour : Z := 3600 * Second.

(** The zero value of [time.Time]: January 1, year 1, 00:00:00 UTC. *)
Definition ZeroTime : Time := -62135596800 * Second.

Definition IsZero (t : Time) : bool := bool_decide (t = ZeroTime).
Definition Unix (t : Time) : Z := t / Second.
Definition time_Unix (sec : Z) : Time := sec * Second.
Definition After (t u : Time) : bool := bool_decide (u < t).
Definition Before (t u : Time) : bool := bool_decide (t < u).

(** ** Lemmas: words *)

Lemma lor_shiftl_add a b k :
  0 ≤ k → 0 ≤ a < 2 ^ k → Z.lor a (Z.shiftl b k) = a + b * 2 ^ k.
Proof.
  intros Hk Ha.
  assert (Z.land a (Z.shiftl b k) = 0) as Hl.
  { apply Z.bits_inj'. intros n Hn. rewrite Z.land_spec, Z.bits_0.
    destruct (decide (n < k)).
    - rewrite (Z.shiftl_spec_low b) by lia. apply andb_false_r.
    - rewrite <- (Z.mod_small a (2 ^ k)) by lia.
      rewrite Z.mod_pow2_bits_high by lia. done. }
  rewrite <- Z.shiftl_mul_pow2 by lia.
  rewrite Z.add_nocarry_lxor by done. by rewrite <- Z.lxor_lor.
Qed.

Lemma lor_mul_add a b k :
  0 ≤ k → 0 ≤ a < 2 ^ k → Z.lor a (b * 2 ^ k) = a + b * 2 ^ k.
Proof. intros Hk Ha. rewrite <- Z.shiftl_mul_pow2 at 1 by lia. by apply lor_shiftl_add. Qed.

Lemma length_le_put n z : length (le_put n z) = n.
Proof. revert z. induction n; intros z; simpl; by f_equal. Qed.

Lemma le_get_cons b l : le_get (b :: l) = Z_of_byte b + 256 * le_get l.
Proof.
  simpl. rewrite lor_shiftl_add; [lia|lia|apply Z_of_byte_range].
Qed.

Lemma le_get_put n z : le_get (le_put n z) = z mod 2 ^ (8 * Z.of_nat n).
Proof.
  revert z. induction n as [|n IH]; intros z.
  { simpl. by rewrite Z.mod_1_r. }
  cbn [le_put]. rewrite le_get_cons, IH, Z_of_byte_of_Z, Z.shiftr_div_pow2 by lia.
  replace (8 * Z.of_nat (S n)) with (8 + 8 * Z.of_nat n) by lia.
  rewrite Z.pow_add_r by lia. change (2 ^ 8) with 256.
  rewrite Z.rem_mul_r by (apply Z.pow_pos_nonneg || lia; lia). done.
Qed.

Lemma le_get_bound l : 0 ≤ le_get l < 2 ^ (8 * zlen l).
Proof.
  induction l as [|b l IH]; [done|]. rewrite le_get_cons, zlen_cons.
  pose proof (Z_of_byte_range b). pose proof (zlen_nonneg l).
  replace (8 * (1 + zlen l)) with (8 + 8 * zlen l) by lia.
  rewrite Z.pow_add_r by lia. change (2 ^ 8) with 256. nia.
Qed.

Lemma le_put_get l : le_put (length l) (le_get l) = l.
Proof.
  induction l as [|b l IH]; [done|].
  cbn [length le_put]. pose proof (Z_of_byte_range b). f_equal.
  - rewrite <- byte_of_Z_mod, le_get_cons.
    replace ((Z_of_byte b + 256 * le_get l) mod 256) with (Z_of_byte b).
    + apply byte_of_Z_of_byte.
    + rewrite (Z.mul_comm 256), Z.mod_add by lia. by rewrite Z.mod_small.
  - rewrite le_get_cons, Z.shiftr_div_pow2 by lia. change (2 ^ 8) with 256.
    rewrite (Z.mul_comm 256), Z.div_add by lia. rewrite Z.div_small by lia. apply IH.
Qed.

Lemma length_be_put n z : length (be_put n z) = n.
Proof. unfold be_put. rewrite length_reverse. apply length_le_put. Qed.

Lemma be_get_put n z : be_get (be_put n z) = z mod 2 ^ (8 * Z.of_nat n).
Proof. unfold be_get, be_put. rewrite reverse_involutive. apply le_get_put. Qed.

Lemma be_get_put_small n z : 0 ≤ z < 2 ^ (8 * Z.of_nat n) → be_get (be_put n z) = z.
Proof. intros H. rewrite be_get_put. by apply Z.mod_small. Qed.

Lemma le_get_put_small n z : 0 ≤ z < 2 ^ (8 * Z.of_nat n) → le_get (le_put n z) = z.
Proof. intros H. rewrite le_get_put. by apply Z.mod_small. Qed.

Lemma be_put_get l : be_put (length l) (be_get l) = l.
Proof.
  unfold be_put, be_get. rewrite <- (length_reverse l), le_put_get.
  apply reverse_involutive.
Qed.

Lemma be_get_bound l : 0 ≤ be_get l < 2 ^ (8 * zlen l).
Proof.
  unfold be_get. pose proof (le_get_bound (reverse l)) as H.
  unfold zlen in *. by rewrite length_reverse in H.
Qed.

Lemma be_get_singleton b : be_get [b] = Z_of_byte b.
Proof. unfold be_get. change (reverse [b]) with [b]. rewrite le_get_cons. simpl. lia. Qed.

(** ** Lemmas: readers *)

Lemma ReadFull_app n l r : length l = n → ReadFull n (l ++ r) = Ok (l, r).
Proof.
  intros <-. unfold ReadFull. repeat case_decide.
  - apply nil_length_inv in H. by subst.
  - destruct l; done.
  - rewrite length_app in H1. lia.
  - by rewrite take_app_length, drop_app_length.
Qed.

Lemma ReadFull_Ok n r l r' : ReadFull n r = Ok (l, r') → r = l ++ r' ∧ length l = n.
Proof.
  unfold ReadFull. repeat case_decide; intros [= <- <-]; subst; [done|].
  rewrite take_drop. split; [done|]. rewrite length_take. lia.
Qed.

Lemma ReadFull_1 b r : ReadFull 1 (b :: r) = Ok ([b], r).
Proof. by apply (ReadFull_app 1 [b]). Qed.

Lemma ReadFull_no_panic n r w : ReadFull n r ≠ Panic w.
Proof. unfold ReadFull. by repeat case_decide. Qed.

Lemma ReadInto_app buf l r :
  length l = length buf → l ≠ [] → ReadInto buf (l ++ r) = Ok (l, r).
Proof.
  intros Hl Hne. unfold ReadInto. rewrite decide_False by (by destruct l).
  rewrite (take_app_len l r) by done. rewrite (drop_app_len l r) by done.
  rewrite drop_ge by lia. by rewrite app_nil_r.
Qed.

Lemma dec_bind_Ok {A B} (m : dec A) (f : A → dec B) r b r' :
  (m ≫= f) r = Ok (b, r') ↔ ∃ a r1, m r = Ok (a, r1) ∧ f a r1 = Ok (b, r').
Proof.
  unfold mbind, dec_bind. destruct (m r) as [[a r1]|e|w]; naive_solver.
Qed.

Lemma dec_bind_step {A B} (m : dec A) (f : A → dec B) r a r1 :
  m r = Ok (a, r1) → (m ≫= f) r = f a r1.
Proof. intros H. unfold mbind, dec_bind. by rewrite H. Qed.

Lemma length_go_copy {A} (dst src : list A) : length (go_copy dst src) = length dst.
Proof. unfold go_copy. rewrite length_app, length_take, length_drop. lia. Qed.

Lemma go_copy_full {A} (dst src : list A) : length src = length dst → go_copy dst src = src.
Proof.
  intros H. unfold go_copy. rewrite take_ge, drop_ge by lia. apply app_nil_r.
Qed.

(** ** Lemmas: varints *)

Lemma byte_hi_bit x :
  Z_of_byte (byte_of_Z (Z.lor (x mod 256) 128)) = x mod 128 + 128.
Proof.
  rewrite <- Z_of_byte_of_Z.
  replace (x mod 128) with (Z_of_byte (byte_of_Z x) mod 128).
  - by destruct (byte_of_Z x).
  - rewrite Z_of_byte_of_Z. change 256 with (128 * 2). rewrite Z.rem_mul_r by lia.
    rewrite (Z.mul_comm 128), Z.mod_add by lia. by apply Z.mod_mod.
Qed.

Lemma land_127 v : Z.land v 127 = v mod 128.
Proof. change 127 with (Z.ones 7). by rewrite Z.land_ones. Qed.

(** A read of what was put, with [x] the bits already read. *)
Lemma read_put_uvarint fuel x s y r :
  0 ≤ y → 0 ≤ s → 0 ≤ x < 2 ^ s →
  y < 2 ^ (64 - s) → s = 7 * (Z.of_nat MaxVarintLen64 - Z.of_nat (S fuel)) →
  read_uvarint (S fuel) x s (put_uvarint (S fuel) y ++ r) = Ok (x + y * 2 ^ s, r).
Proof.
  revert x s y. induction fuel as [|fuel IH]; intros x s y Hy Hs Hx Hb He.
  - change (Z.of_nat MaxVarintLen64) with 10 in He. assert (s = 63) as -> by lia.
    change (2 ^ (64 - 63)) with 2 in Hb.
    cbn [put_uvarint read_uvarint]. rewrite decide_True by lia.
    rewrite (dec_bind_step _ _ _ _ _ (ReadFull_app 1 [_] _ eq_refl)).
    rewrite be_get_singleton, Z_of_byte_of_Z, (Z.mod_small y) by lia.
    rewrite decide_True by lia. rewrite decide_False by lia.
    unfold u64. rewrite Z.shiftl_mul_pow2, Z.mod_small by lia.
    rewrite lor_mul_add by lia. reflexivity.
  - set (f := S fuel) in *. cbn [put_uvarint read_uvarint].
    change (Z.of_nat MaxVarintLen64) with 10 in He.
    assert (s ≤ 56) by lia.
    assert (2 ^ (64 - s) * 2 ^ s = 2 ^ 64) as Hpow.
    { rewrite <- Z.pow_add_r by lia. f_equal. lia. }
    case_decide as Hlt.
    + rewrite (dec_bind_step _ _ _ _ _ (ReadFull_app 1 [_] _ eq_refl)).
      rewrite be_get_singleton, Z_of_byte_of_Z, (Z.mod_small y) by lia.
      rewrite decide_True by lia. rewrite decide_False by (subst f; lia).
      unfold u64. rewrite Z.shiftl_mul_pow2, Z.mod_small by nia.
      rewrite lor_mul_add by lia. reflexivity.
    + rewrite <- app_comm_cons.
      rewrite (dec_bind_step _ _ _ _ _ (ReadFull_1 _ _)).
      rewrite be_get_singleton, byte_hi_bit.
      pose proof (Z.mod_pos_bound y 128 eq_refl) as Hm.
      rewrite decide_False by lia. rewrite land_127.
      replace ((y mod 128 + 128) mod 128) with (y mod 128).
      2:{ rewrite <- (Z.mul_1_l 128) at 3. rewrite Z.mod_add by lia. by rewrite Z.mod_mod. }
      assert (y mod 128 * 2 ^ s < 2 ^ (s + 7)) as Hsm.
      { rewrite Z.pow_add_r by lia. nia. }
      assert (2 ^ (s + 7) ≤ 2 ^ 64) by (apply Z.pow_le_mono_r; lia).
      unfold u64. rewrite Z.shiftl_mul_pow2, Z.mod_small by nia.
      rewrite lor_mul_add by lia.
      rewrite Z.shiftr_div_pow2 by lia. change (2 ^ 7) with 128.
      pose proof (Z.div_mod y 128) as Hd.
      unfold f. rewrite IH.
      * f_equal. f_equal. rewrite Z.pow_add_r by lia. nia.
      * apply Z.div_pos; lia.
      * lia.
      * rewrite Z.pow_add_r by lia. split; [|nia]. nia.
      * apply Z.div_lt_upper_bound; [lia|].
        replace (64 - s) with (7 + (64 - (s + 7))) in Hb by lia.
        rewrite Z.pow_add_r in Hb by lia. done.
      * change (Z.of_nat MaxVarintLen64) with 10. lia.
Qed.

Lemma ReadUvarint_PutUvarint x r :
  is_u64 x → ReadUvarint (PutUvarint x ++ r) = Ok (x, r).
Proof.
  intros [Hx Hb]. unfold ReadUvarint, PutUvarint.
  change MaxVarintLen64 with (S 9). rewrite read_put_uvarint; try done.
  f_equal. f_equal. lia.
Qed.

Lemma read_uvarint_no_panic n x s r w : read_uvarint n x s r ≠ Panic w.
Proof.
  revert r x s. induction n as [|n IH]; intros r x s; [done|].
  cbn [read_uvarint]. unfold mbind, dec_bind.
  destruct (ReadFull 1 r) as [[b r']|e|w'] eqn:E; [|done|by apply ReadFull_no_panic in E].
  repeat case_decide; [done|done|apply IH].
Qed.

Lemma ReadUvarint_no_panic r w : ReadUvarint r ≠ Panic w.
Proof. apply read_uvarint_no_panic. Qed.

(** ** Lemmas: hex *)

Lemma hex_value_digit (b : byte) :
  hex_value (hex_digit (Z_of_byte b / 16)) = Some (Z_of_byte b / 16) ∧
  hex_value (hex_digit (Z_of_byte b mod 16)) = Some (Z_of_byte b mod 16).
Proof. by destruct b. Qed.

Lemma hex_roundtrip b : hex_DecodeString (hex_EncodeToString b) = Ok b.
Proof.
  induction b as [|c b IH]; [done|].
  change (hex_EncodeToString (c :: b)) with
    (hex_digit (Z_of_byte c / 16) :: hex_digit (Z_of_byte c mod 16) :: hex_EncodeToString b).
  cbn [hex_DecodeString]. destruct (hex_value_digit c) as [-> ->].
  rewrite IH. simpl. rewrite <- Z.div_mod by lia. by rewrite byte_of_Z_of_byte.
Qed.

Lemma length_hex b : length (hex_EncodeToString b) = (2 * length b)%nat.
Proof.
  induction b as [|c b IH]; [done|].
  change (length (hex_EncodeToString (c :: b))) with (S (S (length (hex_EncodeToString b)))).
  rewrite IH. simpl. lia.
Qed.

Lemma hex_Encode_inj a b : hex_EncodeToString a = hex_EncodeToString b → a = b.
Proof.
  intros H. apply (f_equal hex_DecodeString) in H. rewrite !hex_roundtrip in H. congruence.
Qed.
