(* ===== verification/Crypto.v ===== *)
(** * Package crypto: hashes, signatures and signers

    [src/crypto/hash.go] and [src/crypto/signature.go].  BLAKE2b and
    secp256k1 are third-party libraries: they are the classes [Blake2b] and
    [Secp256k1], with the behaviour the code relies on as the laws of
    [Blake2b] and [Secp256k1Laws]. *)

From S2P Require Import Prelude GoLib.

(** ** Third-party interfaces *)

(** golang.org/x/crypto/blake2b, unkeyed 256-bit digests. *)
Class Blake2b := {
  blake2b256 : bytes → bytes;
  blake2b256_length : ∀ b, length (blake2b256 b) = 32%nat;
}.

(** github.com/btcsuite/btcd/btcec on secp256k1. *)
Class Secp256k1 := {
  PublicKey : Type;
  PrivateKey : Type;
  PublicKey_IsEqual :: EqDecision PublicKey;
  PubKey : PrivateKey → PublicKey;
  SerializeCompressed : PublicKey → bytes;
  ParsePubKey : bytes → result PublicKey;
  SignCompact : PrivateKey → bytes → result bytes;
  RecoverCompact : bytes → bytes → result PublicKey;
}.

Class Secp256k1Laws `{Secp256k1} : Prop := {
  SerializeCompressed_length : ∀ p, length (SerializeCompressed p) = 33%nat;
  ParsePubKey_Serialize : ∀ p, ParsePubKey (SerializeCompressed p) = Ok p;
  SignCompact_length : ∀ sk h sig, SignCompact sk h = Ok sig → length sig = 65%nat;
  RecoverCompact_Sign : ∀ sk h sig,
    SignCompact sk h = Ok sig → RecoverCompact sig h = Ok (PubKey sk);
}.

(** ** hash.go *)

Abbreviation Hash := (list byte) (only parsing).

(** The values of Go type [Hash] = [[32]byte]. *)
Definition Hash_wf (h : Hash) : Prop := length h = 32%nat.

Definition ZeroHash : Hash := replicate 32 x00.

Definition Hash_String (h : Hash) : bytes := hex_EncodeToString h.

Definition Hash_Encode (h : Hash) : enc := enc_write h.

Definition Hash_Decode : dec Hash := ReadFull 32.

Definition Hash_MarshalJSON (h : Hash) : bytes :=
  [x22] ++ hex_EncodeToString h ++ [x22].

Definition NewHashFromBytes (b : bytes) : result Hash :=
  if decide (length b ≠ 32%nat) then Err (ENew "hash must be 32 bytes")
  else Ok (go_copy ZeroHash b).

(** The error of [hex.DecodeString] is dropped: the caller gets [ZeroHash]. *)
Definition NewHashFromHex (s : bytes) : result Hash :=
  match hex_DecodeString s with
  | Err _ => Ok ZeroHash
  | Panic w => Panic w
  | Ok b => NewHashFromBytes b
  end.

Section hashes.
Context `{Blake2b}.

Definition Blake2B256 (data : list bytes) : Hash :=
  go_copy ZeroHash (blake2b256 (mjoin data)).

Definition HashPub `{Secp256k1} (pub : PublicKey) : Hash :=
  Blake2B256 [SerializeCompressed pub].
End hashes.

(** ** signature.go *)

Abbreviation Signature := (list byte) (only parsing).

Definition Signature_wf (s : Signature) : Prop := length s = 65%nat.

Definition ZeroSignature : Signature := replicate 65 x00.

Definition Signature_String (s : Signature) : bytes := hex_EncodeToString s.

Definition NewSignatureFromBytes (b : bytes) : result Signature :=
  if decide (length b ≠ 65%nat) then Err (ENew "signature must be 65 bytes")
  else Ok (go_copy ZeroSignature b).

(** The interface [Hasher]: what its [Hash] method returns. *)
Definition Hasher : Type := result (list byte).

(** [Hash.Hash]: a hash is its own [Hasher]. *)
Definition Hash_Hash (h : Hash) : Hasher := Ok h.

Section signatures.
Context `{Secp256k1}.

(** The interface [Signer]. *)
Record Signer := mkSigner {
  Sign : Hasher → result Signature;
  Pub : PublicKey;
}.

Definition SECP256k1Signer_Sign (pk : PrivateKey) (hasher : Hasher) : result Signature :=
  hash ← hasher;
  sigBuf ← SignCompact pk hash;
  Ok (go_copy ZeroSignature sigBuf).

Definition NewSECP256k1Signer (pk : PrivateKey) : Signer :=
  mkSigner (SECP256k1Signer_Sign pk) (PubKey pk).

Definition VerifySigPub (pub : PublicKey) (signature : Signature) (msg : Hasher)
    : result bool :=
  match msg with
  | Err _ => Ok false
  | Panic w => Panic w
  | Ok hash =>
      match RecoverCompact signature hash with
      | Err _ => Ok false
      | Panic w => Panic w
      | Ok key => Ok (bool_decide (key = pub))
      end
  end.

Definition VerifySigHashedPub `{Blake2b} (hashedPub : Hash) (signature : Signature)
    (msg : Hasher) : result bool :=
  match msg with
  | Err _ => Ok false
  | Panic w => Panic w
  | Ok hash =>
      match RecoverCompact signature hash with
      | Err _ => Ok false
      | Panic w => Panic w
      | Ok key => Ok (bool_decide (HashPub key = hashedPub))
      end
  end.
End signatures.

(** ** Lemmas *)

Lemma ZeroHash_wf : Hash_wf ZeroHash.
Proof. apply length_replicate. Qed.

Lemma Blake2B256_eq `{Blake2b} data : Blake2B256 data = blake2b256 (mjoin data).
Proof. unfold Blake2B256. apply go_copy_full. apply blake2b256_length. Qed.

Lemma Blake2B256_wf `{Blake2b} data : Hash_wf (Blake2B256 data).
Proof. rewrite Blake2B256_eq. apply blake2b256_length. Qed.

Lemma NewHashFromBytes_Ok b h :
  NewHashFromBytes b = Ok h ↔ h = b ∧ Hash_wf b.
Proof.
  unfold NewHashFromBytes, Hash_wf. case_decide as Hd; [naive_solver|].
  rewrite go_copy_full by (simpl; lia).
  split; [intros [= ->]; split; [done|lia]|by intros [-> _]].
Qed.

Lemma NewHashFromBytes_wf h : Hash_wf h → NewHashFromBytes h = Ok h.
Proof. intros Hw. by apply NewHashFromBytes_Ok. Qed.

Lemma NewSignatureFromBytes_Ok b s :
  NewSignatureFromBytes b = Ok s ↔ s = b ∧ Signature_wf b.
Proof.
  unfold NewSignatureFromBytes, Signature_wf. case_decide as Hd; [naive_solver|].
  rewrite go_copy_full by (simpl; lia).
  split; [intros [= ->]; split; [done|lia]|by intros [-> _]].
Qed.

Lemma NewHashFromHex_String h : Hash_wf h → NewHashFromHex (Hash_String h) = Ok h.
Proof.
  intros Hw. unfold NewHashFromHex, Hash_String. rewrite hex_roundtrip.
  by apply NewHashFromBytes_wf.
Qed.

Section verify.
Context `{Blake2b} `{Secp256k1Laws}.

Lemma SECP256k1Signer_Sign_Ok pk hasher sig :
  SECP256k1Signer_Sign pk hasher = Ok sig →
  ∃ h, hasher = Ok h ∧ SignCompact pk h = Ok sig.
Proof.
  unfold SECP256k1Signer_Sign. intros Hs. bind_inv. subst.
  eexists; split; [done|]. rewrite go_copy_full; [done|].
  by erewrite SignCompact_length.
Qed.

Lemma Sign_verifies_pub pk hasher sig :
  SECP256k1Signer_Sign pk hasher = Ok sig →
  VerifySigPub (PubKey pk) sig hasher = Ok true.
Proof.
  intros (h & -> & Hs)%SECP256k1Signer_Sign_Ok. simpl.
  rewrite (RecoverCompact_Sign _ _ _ Hs). by rewrite bool_decide_true.
Qed.

Lemma Sign_verifies_hashed pk hasher sig :
  SECP256k1Signer_Sign pk hasher = Ok sig →
  VerifySigHashedPub (HashPub (PubKey pk)) sig hasher = Ok true.
Proof.
  intros (h & -> & Hs)%SECP256k1Signer_Sign_Ok. simpl.
  rewrite (RecoverCompact_Sign _ _ _ Hs). by rewrite bool_decide_true.
Qed.
End verify.
