(* ===== verification/Instances.v ===== *)
(** * Concrete instances of the third-party interfaces

    Small functions that satisfy the laws of [Blake2b] and [Secp256k1], on
    which the definitions evaluate: the hash is a one followed by the first 31
    bytes of its input, the public key of a private key is the key itself, and a signature
    is the key followed by the digest. *)

From S2P Require Import Prelude GoLib Crypto.

#[local] Obligation Tactic := idtac.

#[export] Instance toy_blake2b : Blake2b :=
  {| blake2b256 := λ b, x01 :: resize 31 x00 b;
     blake2b256_length := λ b, f_equal S (length_resize b 31 x00) |}.

Definition toy_serialize (p : byte) : bytes := p :: replicate 32 x00.

Definition toy_parse (b : bytes) : result byte :=
  match b with
  | p :: _ => if decide (b = toy_serialize p) then Ok p else Err (ENew "invalid public key")
  | [] => Err (ENew "pubkey string is empty")
  end.

Definition toy_sign (sk : byte) (h : bytes) : result bytes := Ok (resize 65 x00 (sk :: h)).

Definition toy_recover (sig h : bytes) : result byte :=
  match sig with
  | sk :: _ => if decide (sig = resize 65 x00 (sk :: h)) then Ok sk
               else Err (ENew "invalid signature")
  | [] => Err (ENew "invalid compact signature size")
  end.

#[export] Instance toy_secp256k1 : Secp256k1 :=
  {| PublicKey := byte;
     PrivateKey := byte;
     PublicKey_IsEqual := _;
     PubKey := λ sk, sk;
     SerializeCompressed := toy_serialize;
     ParsePubKey := toy_parse;
     SignCompact := toy_sign;
     RecoverCompact := toy_recover |}.

#[export] Instance toy_secp256k1_laws : Secp256k1Laws.
Proof.
  split.
  - done.
  - intros p. simpl. by rewrite decide_True.
  - intros sk h sig [= <-]. apply (length_resize (sk :: h) 65).
  - intros sk h sig [= <-]. simpl. by rewrite decide_True.
Qed.

Definition toy_key : PrivateKey (Secp256k1 := toy_secp256k1) := x09.
