(* ===== verification/Dwire.v ===== *)
(** * Package dwire: the field encoding of the wire protocol

    [src/vendor/fnd.localhost/dwire]: [EncodeField] and [DecodeField] switch
    on the dynamic type of their argument and fall back to reflection.  The
    types they can meet are the codes of [ty]; [interp] gives the values of
    each, and the two switches are the fixpoints [EncodeField] and
    [DecodeField] over the codes. *)

From S2P Require Import Prelude GoLib.

(** ** encoder.go *)

(** A type with its own [Encode] and [Decode] methods (the interfaces
    [Encoder] and [Decoder]); [cwf] says which values of the carrier are
    values of the Go type. *)
Record codec := mkCodec {
  cty : Type;
  cwf : cty → Prop;
  cenc : cty → enc;
  cdec : dec cty;
}.

Record ConfiguredEncoder := mkConfiguredEncoder {
  MaxVariableArrayLen : Z;
  MaxByteFieldLen : Z;
}.

Definition DefaultMaxVariableArrayLen : Z := 4 * 1024.
Definition DefaultMaxByteFieldLen : Z := 8 * 256 * 1024.

Definition defaultEncoder : ConfiguredEncoder :=
  mkConfiguredEncoder DefaultMaxVariableArrayLen DefaultMaxByteFieldLen.

(** ** The types of the switch *)

Inductive ty : Type :=
| TEncoder (c : codec)
| TBool
| TUint8
| TUint16
| TUint32
| TUint64
| TBytes
| TString
| TArr32
| TTime
| TArray (n : nat) (t : ty)
| TSlice (ptr : bool) (t : ty)
| TUnsupported (name : string).

Fixpoint interp (t : ty) : Type :=
  match t with
  | TEncoder c => cty c
  | TBool => bool
  | TUint8 => byte
  | TUint16 | TUint32 | TUint64 => Z
  | TBytes | TString | TArr32 => bytes
  | TTime => Time
  | TArray _ t | TSlice _ t => list (interp t)
  | TUnsupported _ => unit
  end.

(** ** encode.go *)

Definition trueWire : bytes := [x01].
Definition falseWire : bytes := [x00].

Definition writeUvarint (n : Z) : enc := enc_write (PutUvarint (u64 n)).

Definition encode_bytes (c : ConfiguredEncoder) (it : bytes) : enc :=
  if decide (MaxByteFieldLen c < zlen it) then
    enc_fail (ENew "byte-assignable field length too large to encode")
  else enc_seq (writeUvarint (zlen it)) (enc_write it).

(** [EncodeTime]: whole seconds as a uint32. *)
Definition EncodeTime (t : Time) : enc :=
  let unix := Unix t in
  if decide (unix < 0) then enc_fail (ENew "negative UNIX time")
  else enc_write (be_put 4 (u32 unix)).

(** [encodeReflect] on an array: raw bytes when the elements are bytes. *)
Definition encode_array (t : ty) (field : interp t → enc) : list (interp t) → enc :=
  match t return (interp t → enc) → list (interp t) → enc with
  | TUint8 => λ _ it, enc_write it
  | _ => λ f it, enc_list f it
  end field.

(** [encodeReflect] on a slice. *)
Definition encode_slice {A} (c : ConfiguredEncoder) (field : A → enc) (it : list A) : enc :=
  if decide (MaxVariableArrayLen c < zlen it) then
    enc_fail (ENew "variable array field length too large to encode")
  else enc_seq (writeUvarint (zlen it)) (enc_list field it).

Fixpoint EncodeField (c : ConfiguredEncoder) (t : ty) : interp t → enc :=
  match t return interp t → enc with
  | TEncoder k => λ it, cenc k it
  | TBool => λ it, enc_write (if it then trueWire else falseWire)
  | TUint8 => λ it, enc_write [it]
  | TUint16 => λ it, enc_write (be_put 2 it)
  | TUint32 => λ it, enc_write (be_put 4 it)
  | TUint64 => λ it, enc_write (be_put 8 it)
  | TBytes => λ it, encode_bytes c it
  | TString => λ it, encode_bytes c it
  | TArr32 => λ it, enc_write it
  | TTime => λ it, EncodeTime it
  | TArray _ t => λ it, encode_array t (EncodeField c t) it
  | TSlice _ t => λ it, encode_slice c (EncodeField c t) it
  | TUnsupported name => λ _, enc_fail (ENew ("type " +:+ name +:+ " cannot be encoded"))
  end.

(** The variadic argument of [EncodeFields]. *)
Fixpoint interps (ts : list ty) : Type :=
  match ts with
  | [] => unit
  | t :: ts => interp t * interps ts
  end.

Fixpoint EncodeFields (c : ConfiguredEncoder) (ts : list ty) : interps ts → enc :=
  match ts return interps ts → enc with
  | [] => λ _, enc_write []
  | t :: ts => λ items, enc_seq (EncodeField c t items.1) (EncodeFields c ts items.2)
  end.

(** ** decode.go *)

Definition decode_bool : dec bool :=
  b ← ReadFull 1;
  if decide (be_get b = 0) then mret false
  else if decide (be_get b = 1) then mret true
  else dec_fail (ENew "invalid boolean value").

Definition decode_bytes (c : ConfiguredEncoder) : dec bytes :=
  l ← ReadUvarint;
  if decide (MaxByteFieldLen c < l) then
    dec_fail (ENew "byte-assignable field length too large to decode")
  else ReadFull (Z.to_nat l).

Definition DecodeTime : dec Time :=
  b ← dec_wrapping "failed to decode timestamp" (ReadFull 4);
  mret (time_Unix (be_get b)).

Definition decodeArray (n : nat) (t : ty) (field : dec (interp t)) : dec (list (interp t)) :=
  match t return dec (interp t) → dec (list (interp t)) with
  | TUint8 => λ _, ReadFull n
  | _ => λ f, dec_repeat n f
  end field.

(** Both loops of [decodeSlice], over pointers and over values, append what
    [DecodeField] gives for each element. *)
Definition decodeSlice {A} (c : ConfiguredEncoder) (field : dec A) : dec (list A) :=
  l ← ReadUvarint;
  if decide (u64 (MaxVariableArrayLen c) < l) then
    dec_fail (ENew "variable array field length too large to decode")
  else dec_repeat (Z.to_nat l) field.

Fixpoint DecodeField (c : ConfiguredEncoder) (t : ty) : dec (interp t) :=
  match t return dec (interp t) with
  | TEncoder k => cdec k
  | TBool => decode_bool
  | TUint8 => b ← ReadFull 1; mret (byte_of_Z (be_get b))
  | TUint16 => b ← ReadFull 2; mret (be_get b)
  | TUint32 => b ← ReadFull 4; mret (be_get b)
  | TUint64 => b ← ReadFull 8; mret (be_get b)
  | TBytes => decode_bytes c
  | TString => decode_bytes c
  | TArr32 => ReadFull 32
  | TTime => DecodeTime
  | TArray n t => decodeArray n t (DecodeField c t)
  | TSlice _ t => decodeSlice c (DecodeField c t)
  | TUnsupported name => dec_fail (ENew ("type " +:+ name +:+ " cannot be decoded"))
  end.

Fixpoint DecodeFields (c : ConfiguredEncoder) (ts : list ty) : dec (interps ts) :=
  match ts return dec (interps ts) with
  | [] => mret tt
  | t :: ts => x ← DecodeField c t; xs ← DecodeFields c ts; mret (x, xs)
  end.

(** ** Well-formed values *)

(** The limits of an encoder are lengths Go can represent. *)
Definition cfg_ok (c : ConfiguredEncoder) : Prop :=
  0 ≤ MaxVariableArrayLen c < 2 ^ 63 ∧ is_u64 (MaxByteFieldLen c).

(** The values of a Go type the encoder accepts and the decoder gives back:
    integers in range, arrays of their length, slices and strings within the
    limits, instants that are a whole number of seconds before 2106. *)
Fixpoint wf (c : ConfiguredEncoder) (t : ty) : interp t → Prop :=
  match t return interp t → Prop with
  | TEncoder k => λ v, cwf k v
  | TBool => λ _, True
  | TUint8 => λ _, True
  | TUint16 => λ v, is_u16 v
  | TUint32 => λ v, is_u32 v
  | TUint64 => λ v, is_u64 v
  | TBytes => λ v, zlen v ≤ MaxByteFieldLen c
  | TString => λ v, zlen v ≤ MaxByteFieldLen c
  | TArr32 => λ v, length v = 32%nat
  | TTime => λ v, ∃ s, is_u32 s ∧ v = time_Unix s
  | TArray n t => λ v, length v = n ∧ Forall (wf c t) v
  | TSlice _ t => λ v, zlen v ≤ MaxVariableArrayLen c ∧ Forall (wf c t) v
  | TUnsupported _ => λ _, False
  end.

Fixpoint wfs (c : ConfiguredEncoder) (ts : list ty) : interps ts → Prop :=
  match ts return interps ts → Prop with
  | [] => λ _, True
  | t :: ts => λ vs, wf c t vs.1 ∧ wfs c ts vs.2
  end.

(** [e] writes bytes from which [d] reads [v] back, leaving what follows. *)
Definition roundtrips {A} (e : enc) (d : dec A) (v : A) : Prop :=
  ∃ out, e = (out, None) ∧ ∀ r, d (out ++ r) = Ok (v, r).

(** The contract a type with its own methods has to meet. *)
Definition codec_ok (k : codec) : Prop :=
  ∀ v, cwf k v → roundtrips (cenc k v) (cdec k) v.

Fixpoint ty_ok (t : ty) : Prop :=
  match t with
  | TEncoder k => codec_ok k
  | TArray _ t | TSlice _ t => ty_ok t
  | _ => True
  end.

(** ** Lemmas *)

Lemma roundtrips_write {A} b (d : dec A) v :
  (∀ r, d (b ++ r) = Ok (v, r)) → roundtrips (enc_write b) d v.
Proof. intros H. by exists b. Qed.

Lemma roundtrips_seq {A B} e1 (d1 : dec A) v1 e2 (d2 : A → dec B) v2 :
  roundtrips e1 d1 v1 → roundtrips e2 (d2 v1) v2 →
  roundtrips (enc_seq e1 e2) (d1 ≫= d2) v2.
Proof.
  intros (o1 & -> & H1) (o2 & -> & H2). exists (o1 ++ o2). split; [done|].
  intros r. rewrite <- app_assoc, (dec_bind_step _ _ _ _ _ (H1 _)). apply H2.
Qed.

Lemma roundtrips_map {A B} e (d : dec A) (f : A → B) v w :
  roundtrips e d v → f v = w → roundtrips e (x ← d; mret (f x)) w.
Proof.
  intros (o & -> & H) <-. exists o. split; [done|]. intros r.
  by rewrite (dec_bind_step _ _ _ _ _ (H r)).
Qed.

Lemma roundtrips_bind {A B} e (d : dec A) (f : A → dec B) v w :
  roundtrips e d v → f v = mret w → roundtrips e (d ≫= f) w.
Proof.
  intros (out & -> & Hd) Hf. exists out. split; [done|]. intros r.
  by rewrite (dec_bind_step _ _ _ _ _ (Hd r)), Hf.
Qed.

Lemma roundtrips_fmap {A B} e (d : dec A) (f : A → B) v :
  roundtrips e d v → roundtrips e (f <$> d) (f v).
Proof. intros Hd. by eapply roundtrips_bind. Qed.

Lemma roundtrips_list {A} (f : A → enc) (d : dec A) l :
  Forall (λ x, roundtrips (f x) d x) l →
  roundtrips (enc_list f l) (dec_repeat (length l) d) l.
Proof.
  induction 1 as [|x l Hx _ IH]; [by apply roundtrips_write|].
  cbn [enc_list foldr length dec_repeat].
  eapply roundtrips_seq; [done|]. by eapply roundtrips_map.
Qed.

Lemma roundtrips_uint n z :
  0 ≤ z < 2 ^ (8 * Z.of_nat n) →
  roundtrips (enc_write (be_put n z)) (b ← ReadFull n; mret (be_get b)) z.
Proof.
  intros Hz. eapply roundtrips_map with (v := be_put n z).
  - apply roundtrips_write. intros r. apply ReadFull_app, length_be_put.
  - by apply be_get_put_small.
Qed.

Lemma roundtrips_uvarint n :
  is_u64 n → roundtrips (writeUvarint n) ReadUvarint n.
Proof.
  intros Hn. apply roundtrips_write. intros r.
  unfold u64. rewrite Z.mod_small by done. by apply ReadUvarint_PutUvarint.
Qed.

Lemma roundtrips_bytes c b :
  cfg_ok c → zlen b ≤ MaxByteFieldLen c →
  roundtrips (encode_bytes c b) (decode_bytes c) b.
Proof.
  intros [_ [_ Hc]] Hb. unfold encode_bytes, decode_bytes.
  rewrite decide_False by lia. pose proof (zlen_nonneg b).
  eapply roundtrips_seq; [apply roundtrips_uvarint; unfold is_u64; lia|].
  rewrite decide_False by lia. apply roundtrips_write. intros r.
  apply ReadFull_app. unfold zlen. lia.
Qed.

Lemma roundtrips_slice {A} c (f : A → enc) (d : dec A) l :
  cfg_ok c → zlen l ≤ MaxVariableArrayLen c →
  Forall (λ x, roundtrips (f x) d x) l →
  roundtrips (encode_slice c f l) (decodeSlice c d) l.
Proof.
  intros [[Hc1 Hc2] _] Hl Hv. unfold encode_slice, decodeSlice.
  pose proof (zlen_nonneg l). rewrite decide_False by lia.
  eapply roundtrips_seq; [apply roundtrips_uvarint; unfold is_u64; lia|].
  unfold u64. rewrite Z.mod_small by lia. rewrite decide_False by lia.
  unfold zlen. rewrite Nat2Z.id. by apply roundtrips_list.
Qed.

Lemma roundtrips_time t :
  (∃ s, is_u32 s ∧ t = time_Unix s) → roundtrips (EncodeTime t) DecodeTime t.
Proof.
  intros (s & Hs & ->). unfold EncodeTime, DecodeTime.
  assert (Unix (time_Unix s) = s) as ->.
  { unfold Unix, time_Unix, Second. by rewrite Z.div_mul by lia. }
  unfold is_u32 in Hs. rewrite decide_False by lia.
  unfold u32. rewrite Z.mod_small by done.
  eapply roundtrips_map with (v := be_put 4 s).
  - apply roundtrips_write. intros r. unfold dec_wrapping.
    by rewrite ReadFull_app by apply length_be_put.
  - by rewrite be_get_put_small.
Qed.

(** The round trip of every field type. *)
Lemma EncodeField_roundtrips c t v :
  cfg_ok c → ty_ok t → wf c t v → roundtrips (EncodeField c t v) (DecodeField c t) v.
Proof.
  intros Hc. revert v. induction t; simpl; intros v Ht Hv.
  - by apply Ht.
  - apply roundtrips_write. intros r. unfold decode_bool. by destruct v.
  - apply roundtrips_write. intros r. simpl.
    rewrite (dec_bind_step _ _ _ _ _ (ReadFull_1 _ _)).
    by rewrite be_get_singleton, byte_of_Z_of_byte.
  - by apply roundtrips_uint.
  - by apply roundtrips_uint.
  - by apply roundtrips_uint.
  - by apply roundtrips_bytes.
  - by apply roundtrips_bytes.
  - apply roundtrips_write. intros r. by apply ReadFull_app.
  - by apply roundtrips_time.
  - destruct Hv as [<- Hv].
    assert (roundtrips (enc_list (EncodeField c t) v)
              (dec_repeat (length v) (DecodeField c t)) v) as Hl.
    { apply roundtrips_list. eapply Forall_impl; [exact Hv|]. auto. }
    destruct t; try exact Hl.
    apply roundtrips_write. intros r. by apply ReadFull_app.
  - destruct Hv as [Hl Hv]. apply roundtrips_slice; [done|done|].
    eapply Forall_impl; [exact Hv|]. auto.
  - done.
Qed.

Lemma EncodeFields_roundtrips c ts vs :
  cfg_ok c → Forall ty_ok ts → wfs c ts vs →
  roundtrips (EncodeFields c ts vs) (DecodeFields c ts) vs.
Proof.
  intros Hc Hts. induction Hts as [|t ts Ht _ IH]; intros Hv.
  - destruct vs. by apply roundtrips_write.
  - destruct vs as [v vs], Hv as [Hv Hvs].
    eapply roundtrips_seq; [by apply EncodeField_roundtrips|].
    eapply roundtrips_map; [by apply IH|done].
Qed.

Lemma defaultEncoder_ok : cfg_ok defaultEncoder.
Proof. done. Qed.

#[export] Hint Resolve defaultEncoder_ok : fnd.

(** *** What a decoder accepts is well formed *)

Definition dec_sound {A} (d : dec A) (P : A → Prop) : Prop :=
  ∀ r v r', d r = Ok (v, r') → P v ∧ ∃ p, r = p ++ r'.

Definition codec_sound (k : codec) : Prop := dec_sound (cdec k) (cwf k).

Fixpoint ty_sound (t : ty) : Prop :=
  match t with
  | TEncoder k => codec_sound k
  | TArray _ t | TSlice _ t => ty_sound t
  | _ => True
  end.

Lemma dec_sound_ret {A} (v : A) (P : A → Prop) : P v → dec_sound (mret v) P.
Proof. intros Hv r v' r' [= <- <-]. split; [done|]. by exists []. Qed.

Lemma dec_sound_bind {A B} (m : dec A) (f : A → dec B) P Q :
  dec_sound m P → (∀ a, P a → dec_sound (f a) Q) → dec_sound (m ≫= f) Q.
Proof.
  intros Hm Hf r v r' (a & r1 & H1 & H2)%dec_bind_Ok.
  apply Hm in H1 as [Ha [p ->]]. apply (Hf a Ha) in H2 as [Hv [q ->]].
  split; [done|]. exists (p ++ q). by rewrite app_assoc.
Qed.

Lemma dec_sound_fail {A} e (P : A → Prop) : dec_sound (dec_fail e) P.
Proof. by intros r v r' ?. Qed.

Lemma ReadFull_sound n : dec_sound (ReadFull n) (λ l, length l = n).
Proof. intros r v r' [-> Hl]%ReadFull_Ok. eauto. Qed.

Lemma dec_sound_impl {A} (d : dec A) (P Q : A → Prop) :
  dec_sound d P → (∀ v, P v → Q v) → dec_sound d Q.
Proof. intros Hd HPQ r v r' [Hv Hr]%Hd. eauto. Qed.

Lemma dec_repeat_sound {A} n (d : dec A) P :
  dec_sound d P → dec_sound (dec_repeat n d) (λ l, length l = n ∧ Forall P l).
Proof.
  intros Hd. induction n as [|n IH]; [by apply dec_sound_ret|].
  cbn [dec_repeat]. eapply dec_sound_bind; [done|]. intros x Hx.
  eapply dec_sound_bind; [done|]. intros xs [<- Hxs].
  apply dec_sound_ret. auto.
Qed.

Lemma read_uvarint_sound n x s :
  0 ≤ x < 2 ^ 64 → dec_sound (read_uvarint n x s) is_u64.
Proof.
  revert x s. induction n as [|n IH]; intros x s Hx; [apply dec_sound_fail|].
  cbn [read_uvarint]. eapply dec_sound_bind; [apply ReadFull_sound|]. intros b _.
  assert (∀ z, 0 ≤ Z.lor x (u64 z) < 2 ^ 64) as Hlor.
  { intros z. pose proof (Z.mod_pos_bound z (2 ^ 64) eq_refl) as Hz. fold (u64 z) in Hz.
    split; [apply Z.lor_nonneg; lia|].
    destruct (decide (Z.lor x (u64 z) = 0)); [lia|].
    apply Z.log2_lt_pow2; [pose proof (Z.lor_nonneg x (u64 z)); lia|].
    rewrite Z.log2_lor by lia.
    assert (∀ y, 0 ≤ y < 2 ^ 64 → Z.log2 y < 64) as Hlog.
    { intros y Hy. destruct (decide (y = 0)) as [->|]; [done|].
      apply Z.log2_lt_pow2; lia. }
    apply Z.max_lub_lt; apply Hlog; lia. }
  repeat case_decide; [apply dec_sound_fail| |apply IH, Hlor].
  apply dec_sound_ret. apply Hlor.
Qed.

Lemma ReadUvarint_sound : dec_sound ReadUvarint is_u64.
Proof. by apply read_uvarint_sound. Qed.

Lemma decode_bytes_sound c :
  dec_sound (decode_bytes c) (λ v, zlen v ≤ MaxByteFieldLen c).
Proof.
  unfold decode_bytes. eapply dec_sound_bind; [apply ReadUvarint_sound|].
  intros l [Hl _]. case_decide; [apply dec_sound_fail|].
  eapply dec_sound_impl; [apply ReadFull_sound|]. unfold zlen. intros v ->. lia.
Qed.

Lemma decode_uint_sound n :
  dec_sound (b ← ReadFull n; mret (be_get b)) (λ z, 0 ≤ z < 2 ^ (8 * Z.of_nat n)).
Proof.
  eapply dec_sound_bind; [apply ReadFull_sound|]. intros b <-.
  apply dec_sound_ret. apply be_get_bound.
Qed.

Lemma DecodeTime_sound : dec_sound DecodeTime (λ v, ∃ s, is_u32 s ∧ v = time_Unix s).
Proof.
  eapply (dec_sound_bind _ _ (λ b, length b = 4%nat)).
  - intros r v r'. unfold dec_wrapping.
    destruct (ReadFull 4 r) as [[b r1]|e|w] eqn:E; simpl; intros [= <- <-].
    by apply ReadFull_sound in E.
  - intros b Hb. apply dec_sound_ret. exists (be_get b). split; [|done].
    pose proof (be_get_bound b) as Hr. unfold zlen in Hr. by rewrite Hb in Hr.
Qed.

Lemma decodeSlice_sound {A} c (d : dec A) P :
  cfg_ok c → dec_sound d P →
  dec_sound (decodeSlice c d) (λ l, zlen l ≤ MaxVariableArrayLen c ∧ Forall P l).
Proof.
  intros [[Hc1 Hc2] _] Hd. unfold decodeSlice.
  eapply dec_sound_bind; [apply ReadUvarint_sound|]. intros l [Hl _].
  case_decide as Hlt; [apply dec_sound_fail|].
  unfold u64 in Hlt. rewrite Z.mod_small in Hlt by lia.
  eapply dec_sound_impl; [by apply dec_repeat_sound|].
  intros v [Hv HP]. split; [unfold zlen; lia|done].
Qed.

Lemma DecodeField_sound c t :
  cfg_ok c → ty_sound t → dec_sound (DecodeField c t) (wf c t).
Proof.
  intros Hc. induction t; simpl; intros Ht.
  - done.
  - unfold decode_bool. eapply dec_sound_bind; [apply ReadFull_sound|]. intros b _.
    repeat case_decide; [by apply dec_sound_ret..|apply dec_sound_fail].
  - eapply dec_sound_bind; [apply ReadFull_sound|]. intros b _. by apply dec_sound_ret.
  - apply decode_uint_sound.
  - apply decode_uint_sound.
  - apply decode_uint_sound.
  - apply decode_bytes_sound.
  - apply decode_bytes_sound.
  - apply ReadFull_sound.
  - apply DecodeTime_sound.
  - assert (dec_sound (dec_repeat n (DecodeField c t))
              (λ v, length v = n ∧ Forall (wf c t) v)) as Hl
      by (apply dec_repeat_sound; auto).
    destruct t; try exact Hl.
    eapply dec_sound_impl; [apply ReadFull_sound|]. intros v Hv. split; [done|].
    by apply Forall_true.
  - apply decodeSlice_sound; auto.
  - apply dec_sound_fail.
Qed.

Lemma DecodeFields_sound c ts :
  cfg_ok c → Forall ty_sound ts → dec_sound (DecodeFields c ts) (wfs c ts).
Proof.
  intros Hc. induction 1 as [|t ts Ht _ IH]; [by apply dec_sound_ret|].
  cbn [DecodeFields]. eapply dec_sound_bind; [by apply DecodeField_sound|].
  intros x Hx. eapply dec_sound_bind; [done|]. intros xs Hxs. by apply dec_sound_ret.
Qed.
