(* ===== verification/Sector.v ===== *)
(** * Package blob: sectors, the serial hash chain and seals

    [src/blob/consts.go], [sector.go], [hash.go] and [seal.go].  A blob is
    4096 sectors of 256 bytes; its sectors are chained by [SerialHashSector],
    and an update is sealed by a hash of the name, the epoch, the number of
    sectors and the tip of the chain. *)

From S2P Require Import Prelude GoLib Crypto Instances Dwire.

(** ** consts.go *)

Definition HeaderLen : Z := 1 + 1 + 63 + 8 + 32 + 65.
Definition SectorBytes : Z := 256.
Definition MaxSectors : Z := 4096.
Definition Size : Z := SectorBytes * MaxSectors.
Definition CurrentVersion : Z := 1.

(** ** sector.go *)

Abbreviation Sector := (list byte) (only parsing).

(** The values of Go type [Sector] = [[SectorBytes]byte]. *)
Definition Sector_wf (s : Sector) : Prop := zlen s = SectorBytes.

Definition ZeroSector : Sector := replicate (Z.to_nat SectorBytes) x00.

Definition Sector_Encode (s : Sector) : enc := enc_write s.

Definition Sector_Decode : dec Sector := ReadFull (Z.to_nat SectorBytes).

(** ** hash.go *)

Abbreviation SectorHashes := (list (list byte)) (only parsing).

Definition SectorHashes_wf (s : SectorHashes) : Prop :=
  zlen s = MaxSectors ∧ Forall Hash_wf s.

Definition ZeroSectorHashes : SectorHashes := replicate (Z.to_nat MaxSectors) ZeroHash.

Definition SectorHashes_Encode (s : SectorHashes) : enc := enc_list enc_write s.

(** The loop of [Decode]; the array [hash] is declared outside it and each
    [r.Read] overwrites as much of it as it reads. *)
Fixpoint decode_hashes (n : nat) (hash : Hash) : dec SectorHashes :=
  match n with
  | O => mret []
  | S n => h ← ReadInto hash; hs ← decode_hashes n h; mret (h :: hs)
  end.

Definition SectorHashes_Decode : dec SectorHashes :=
  decode_hashes (Z.to_nat MaxSectors) ZeroHash.

(** The index of the first hash that differs, counted from [i]. *)
Fixpoint first_diff (i : Z) (s other : SectorHashes) : Z :=
  match s, other with
  | x :: s, y :: other => if decide (x ≠ y) then i else first_diff (i + 1) s other
  | _, _ => i
  end.

Definition DiffWith (s other : SectorHashes) : Z :=
  if decide (s = other) then -1 else first_diff 0 s other.

(** The number of hashes before the first zero one. *)
Fixpoint tip_index (s : SectorHashes) : nat :=
  match s with
  | [] => 0%nat
  | h :: s => if decide (h = ZeroHash) then 0%nat else S (tip_index s)
  end.

Definition Tip (s : SectorHashes) : Hash :=
  match tip_index s with
  | O => ZeroHash
  | S i => default ZeroHash (s !! i)
  end.

Section hash.
Context `{Blake2b}.

Definition SerialHashSector (sector : Sector) (prevHash : Hash) : Hash :=
  go_copy ZeroHash (blake2b256 (prevHash ++ sector)).

(** The loop of [SerialHash] from index [i]: [sector] is the buffer each
    [br.Read] fills; storing past the end of the array panics. *)
Fixpoint serial_hash_loop {S} (read : Reader S) (n : nat) (i : Z)
    (sector : Sector) (prevHash : Hash) : M S SectorHashes :=
  match n with
  | O => mret []
  | Datatypes.S n =>
      '(sector, _, err) ← read sector;
      match err with
      | Some e => M_fail e
      | None =>
          if decide (MaxSectors ≤ i) then M_panic "index out of range"
          else
            let h := SerialHashSector sector prevHash in
            hs ← serial_hash_loop read n (i + 1) sector h;
            mret (h :: hs)
      end
  end.

Definition SerialHash {S} (br : Reader S) (prevHash : Hash) (sectorSize : Z)
    : M S SectorHashes :=
  hs ← serial_hash_loop br (Z.to_nat sectorSize) 0 ZeroSector prevHash;
  mret (go_copy ZeroSectorHashes hs).

(** The chain as a function of the sectors: every hash, and the last one. *)
Fixpoint chain (prevHash : Hash) (sectors : list Sector) : list Hash :=
  match sectors with
  | [] => []
  | s :: sectors =>
      let h := SerialHashSector s prevHash in h :: chain h sectors
  end.

Definition tip_from (prevHash : Hash) (sectors : list Sector) : Hash :=
  foldl (λ h s, SerialHashSector s h) prevHash sectors.

(** ** seal.go *)

(** The bytes that are hashed; the name is the only field that can fail. *)
Definition seal_preimage (name : bytes) (epochHeight sectorSize : Z)
    (sectorTipHash reservedRoot : Hash) : enc :=
  enc_seq (enc_write (bs "FNBLOB"))
    (enc_seq (EncodeField defaultEncoder TString name)
      (enc_seq (EncodeField defaultEncoder TUint16 epochHeight)
        (enc_seq (EncodeField defaultEncoder TUint16 sectorSize)
          (enc_seq (enc_write sectorTipHash) (enc_write reservedRoot))))).

Definition SealHash (name : bytes) (epochHeight sectorSize : Z)
    (sectorTipHash reservedRoot : Hash) : result Hash :=
  match seal_preimage name epochHeight sectorSize sectorTipHash reservedRoot with
  | (out, None) => Ok (go_copy ZeroHash (blake2b256 out))
  | (_, Some _) => Panic "SealHash"
  end.

Definition SignSeal `{Secp256k1} (signer : Signer) (name : bytes)
    (epochHeight sectorSize : Z) (sectorTipHash reservedRoot : Hash) : result Signature :=
  h ← SealHash name epochHeight sectorSize sectorTipHash reservedRoot;
  Sign signer (Hash_Hash h).
End hash.

(** ** Lemmas: sector hashes *)

Lemma roundtrips_hashes hash l :
  Hash_wf hash → Forall Hash_wf l →
  roundtrips (enc_list enc_write l) (decode_hashes (length l) hash) l.
Proof.
  intros Hh Hl. revert hash Hh. induction Hl as [|h l Hw _ IH]; intros hash Hh.
  - by apply roundtrips_write.
  - cbn [enc_list foldr length decode_hashes].
    apply (roundtrips_seq _ _ h); [|eapply roundtrips_map; [by apply IH|done]].
    apply roundtrips_write. intros r. unfold Hash_wf in *.
    apply ReadInto_app; [congruence|]. by destruct h.
Qed.

Lemma first_diff_spec i s other :
  length s = length other → s ≠ other →
  ∃ k x y, first_diff i s other = i + Z.of_nat k ∧
    s !! k = Some x ∧ other !! k = Some y ∧ x ≠ y ∧ take k s = take k other.
Proof.
  revert i other. induction s as [|x s IH]; intros i [|y other] Hl Hne; try done.
  cbn [first_diff]. case_decide as Hxy.
  - exists 0%nat, x, y. repeat split; [lia|done].
  - subst y. injection Hl as Hl.
    destruct (IH (i + 1) other Hl) as (k & a & b & -> & Ha & Hb & Hab & Ht); [congruence|].
    exists (S k), a, b. simpl. rewrite Ht. repeat split; [lia|done..].
Qed.

Lemma tip_index_app l k :
  Forall (λ h, h ≠ ZeroHash) l → head k = Some ZeroHash ∨ k = [] →
  tip_index (l ++ k) = length l.
Proof.
  induction 1 as [|h l Hh _ IH]; intros Hk; cbn [app tip_index length].
  - destruct k as [|z k]; [done|]. destruct Hk as [[= ->]|]; [|done].
    cbn [tip_index]. by rewrite decide_True.
  - rewrite decide_False by done. by rewrite IH.
Qed.

Lemma Tip_app l k :
  Forall (λ h, h ≠ ZeroHash) l → head k = Some ZeroHash ∨ k = [] →
  Tip (l ++ k) = default ZeroHash (last l).
Proof.
  intros Hl Hk. unfold Tip. rewrite tip_index_app by done.
  destruct l as [|h l _] using rev_ind; [done|].
  rewrite length_app, Nat.add_comm. simpl. rewrite last_snoc.
  rewrite <- app_assoc. cbn [app]. by rewrite list_lookup_middle.
Qed.

(** ** Lemmas: the chain *)

Section chain_lemmas.
Context `{Blake2b}.

Lemma SerialHashSector_eq s p : SerialHashSector s p = blake2b256 (p ++ s).
Proof. apply go_copy_full. apply blake2b256_length. Qed.

Lemma SerialHashSector_wf s p : Hash_wf (SerialHashSector s p).
Proof. rewrite SerialHashSector_eq. apply blake2b256_length. Qed.

Lemma tip_from_wf p l : Hash_wf p → Hash_wf (tip_from p l).
Proof.
  intros Hp. destruct l as [|s l _] using rev_ind; [done|].
  unfold tip_from. rewrite foldl_app. apply SerialHashSector_wf.
Qed.

Lemma tip_from_app p l k : tip_from p (l ++ k) = tip_from (tip_from p l) k.
Proof. apply foldl_app. Qed.

Lemma length_chain p l : length (chain p l) = length l.
Proof. revert p. induction l; intros p; simpl; by f_equal. Qed.

Lemma chain_wf p l : Forall Hash_wf (chain p l).
Proof.
  revert p. induction l as [|s l IH]; intros p; simpl; constructor; [|done].
  apply SerialHashSector_wf.
Qed.

Lemma chain_app p l k : chain p (l ++ k) = chain p l ++ chain (tip_from p l) k.
Proof.
  revert p. induction l as [|s l IH]; intros p; [done|]. simpl. by rewrite IH.
Qed.

Lemma last_chain p l : default p (last (chain p l)) = tip_from p l.
Proof.
  destruct l as [|s l _] using rev_ind; [done|].
  rewrite chain_app. simpl. rewrite last_snoc. simpl.
  by rewrite tip_from_app.
Qed.

(** A reader that delivers these sectors, one a call; the buffer of a call holds
    the sector before. *)
Inductive feeds {S} (read : Reader S) : Sector → S → list Sector → S → Prop :=
| feeds_nil buf br : feeds read buf br [] br
| feeds_cons buf br s br' ss br'' :
    read buf br = (Ok (s, SectorBytes, None), br') →
    feeds read s br' ss br'' → feeds read buf br (s :: ss) br''.

Lemma serial_hash_loop_feeds {S} (read : Reader S) br ss br' i sector p :
  feeds read sector br ss br' → 0 ≤ i → i + zlen ss ≤ MaxSectors →
  serial_hash_loop read (length ss) i sector p br = (Ok (chain p ss), br').
Proof.
  intros Hf. revert i p.
  induction Hf as [buf br|buf br s br1 ss br2 Hr _ IH]; intros i p Hi Hm; [done|].
  cbn [length serial_hash_loop chain]. rewrite zlen_cons in Hm. pose proof (zlen_nonneg ss).
  rewrite (M_bind_step _ _ _ _ _ Hr). cbn beta iota. rewrite decide_False by lia.
  by rewrite (M_bind_step _ _ _ _ _ (IH (i + 1) _ ltac:(lia) ltac:(lia))).
Qed.

Lemma ZeroSector_wf : Sector_wf ZeroSector.
Proof. done. Qed.

Lemma Size_eq : Size = 1048576.
Proof. done. Qed.

Lemma Sector_wf_length s : Sector_wf s ↔ length s = 256%nat.
Proof. unfold Sector_wf, SectorBytes, zlen. lia. Qed.

Lemma length_sectors ss : Forall Sector_wf ss → length (mjoin ss) = (256 * length ss)%nat.
Proof.
  induction 1 as [|s ss Hs _ IH]; [done|].
  change (mjoin (s :: ss)) with (s ++ mjoin ss).
  rewrite length_app, IH. apply Sector_wf_length in Hs as ->. simpl. lia.
Qed.

Lemma SerialHash_feeds {S} (read : Reader S) br ss br' p n :
  feeds read ZeroSector br ss br' → zlen ss = n → n ≤ MaxSectors →
  SerialHash read p n br = (Ok (go_copy ZeroSectorHashes (chain p ss)), br').
Proof.
  intros Hf <- Hn. unfold SerialHash, zlen. rewrite Nat2Z.id.
  by rewrite (M_bind_step _ _ _ _ _
    (serial_hash_loop_feeds read br ss br' 0 ZeroSector p Hf ltac:(lia) Hn)).
Qed.

Lemma go_copy_hashes hs :
  zlen hs ≤ MaxSectors →
  go_copy ZeroSectorHashes hs =
    hs ++ replicate (Z.to_nat (MaxSectors - zlen hs)) ZeroHash.
Proof.
  intros Hl. unfold go_copy, ZeroSectorHashes. rewrite length_replicate.
  rewrite take_ge by (unfold zlen in Hl; lia). rewrite drop_replicate.
  do 2 f_equal. unfold zlen. lia.
Qed.

Lemma Tip_chain ss :
  zlen ss ≤ MaxSectors → Forall (λ h, h ≠ ZeroHash) (chain ZeroHash ss) →
  Tip (go_copy ZeroSectorHashes (chain ZeroHash ss)) = tip_from ZeroHash ss.
Proof.
  intros Hl Hz. rewrite go_copy_hashes by (unfold zlen in *; by rewrite length_chain).
  rewrite Tip_app, last_chain; [done|done|].
  destruct (Z.to_nat _); simpl; auto.
Qed.

Lemma go_copy_hashes_wf p ss :
  zlen ss ≤ MaxSectors → SectorHashes_wf (go_copy ZeroSectorHashes (chain p ss)).
Proof.
  intros Hl. split.
  - unfold zlen. by rewrite length_go_copy.
  - rewrite go_copy_hashes by (unfold zlen in *; by rewrite length_chain).
    apply Forall_app. split; [apply chain_wf|].
    apply Forall_replicate. apply ZeroHash_wf.
Qed.

(** ** Lemmas: binding *)

(** Two different inputs among those hashed, with the same BLAKE2b digest. *)
Definition blake2b_collision (xs ys : list bytes) : Prop :=
  ∃ x y, x ∈ xs ∧ y ∈ ys ∧ x ≠ y ∧ blake2b256 x = blake2b256 y.

(** The inputs hashed along a chain. *)
Fixpoint chain_inputs (prevHash : Hash) (sectors : list Sector) : list bytes :=
  match sectors with
  | [] => []
  | s :: sectors => (prevHash ++ s) :: chain_inputs (SerialHashSector s prevHash) sectors
  end.

Lemma chain_inputs_app p l k :
  chain_inputs p (l ++ k) = chain_inputs p l ++ chain_inputs (tip_from p l) k.
Proof.
  revert p. induction l as [|s l IH]; intros p; [done|]. simpl. by rewrite IH.
Qed.

Lemma blake2b_collision_mono xs ys xs' ys' :
  xs ⊆ xs' → ys ⊆ ys' → blake2b_collision xs ys → blake2b_collision xs' ys'.
Proof. intros Hx Hy (x & y & ? & ? & ? & ?). exists x, y. auto. Qed.

Lemma blake2b_eq x y xs ys :
  x ∈ xs → y ∈ ys → blake2b256 x = blake2b256 y → x = y ∨ blake2b_collision xs ys.
Proof.
  intros Hx Hy He. destruct (decide (x = y)); [by left|]. right. by exists x, y.
Qed.

Lemma tip_from_binding p p' l l' :
  Hash_wf p → Hash_wf p' → length l = length l' → tip_from p l = tip_from p' l' →
  (p = p' ∧ l = l') ∨ blake2b_collision (chain_inputs p l) (chain_inputs p' l').
Proof.
  intros Hp Hp'. revert l'. induction l as [|s l IH] using rev_ind; intros l' Hlen He.
  { destruct l'; [|done]. by left. }
  destruct l' as [|s' l' _] using rev_ind; [rewrite length_app in Hlen; simpl in Hlen; lia|].
  rewrite !length_app in Hlen. simpl in Hlen.
  rewrite !tip_from_app in He. simpl in He. rewrite !SerialHashSector_eq in He.
  rewrite !chain_inputs_app. simpl.
  apply (blake2b_eq _ _ (chain_inputs p l ++ [tip_from p l ++ s])
    (chain_inputs p' l' ++ [tip_from p' l' ++ s'])) in He as [He|]; [|by right|set_solver..].
  apply app_inj_1 in He as [He ->].
  2:{ pose proof (tip_from_wf p l Hp). pose proof (tip_from_wf p' l' Hp').
      unfold Hash_wf in *. congruence. }
  destruct (IH l') as [[-> ->]|Hc]; [lia|done|by left|right].
  eapply blake2b_collision_mono; [..|exact Hc]; set_solver.
Qed.

Lemma seal_preimage_fields name e s t r :
  seal_preimage name e s t r =
  enc_seq (enc_write (bs "FNBLOB"))
    (EncodeFields defaultEncoder [TString; TUint16; TUint16; TArr32; TArr32]
       (name, (e, (s, (t, (r, tt)))))).
Proof.
  unfold seal_preimage. cbn [EncodeFields fst snd EncodeField].
  destruct (encode_bytes defaultEncoder name) as [o [er|]]; [done|].
  simpl. by rewrite app_nil_r.
Qed.

Lemma seal_preimage_inj name e s t r name' e' s' t' r' out :
  is_u16 e → is_u16 s → Hash_wf t → Hash_wf r →
  is_u16 e' → is_u16 s' → Hash_wf t' → Hash_wf r' →
  seal_preimage name e s t r = (out, None) → seal_preimage name' e' s' t' r' = (out, None) →
  (name, e, s, t, r) = (name', e', s', t', r').
Proof.
  intros He Hs Ht Hr He' Hs' Ht' Hr'. rewrite !seal_preimage_fields.
  set (ts := [TString; TUint16; TUint16; TArr32; TArr32]).
  assert (∀ n e s t r o, is_u16 e → is_u16 s → Hash_wf t → Hash_wf r →
    EncodeFields defaultEncoder ts (n, (e, (s, (t, (r, tt))))) = (o, None) →
    DecodeFields defaultEncoder ts o = Ok ((n, (e, (s, (t, (r, tt))))), [])) as Hdec.
  { clear. intros n e s t r o He Hs Ht Hr Ho.
    assert (zlen n ≤ MaxByteFieldLen defaultEncoder) as Hn.
    { unfold ts in Ho. cbn [EncodeFields EncodeField fst] in Ho. unfold encode_bytes in Ho.
      case_decide; [done|]. lia. }
    destruct (EncodeFields_roundtrips defaultEncoder ts (n, (e, (s, (t, (r, tt))))))
      as (o' & Ho' & Hd); [done|by repeat constructor|done|].
    rewrite Ho in Ho'. injection Ho' as <-. specialize (Hd []). by rewrite app_nil_r in Hd. }
  destruct (EncodeFields defaultEncoder ts (name, (e, (s, (t, (r, tt)))))) as [o1 [|]] eqn:E1; [done|].
  destruct (EncodeFields defaultEncoder ts (name', (e', (s', (t', (r', tt)))))) as [o2 [|]] eqn:E2; [done|].
  unfold enc_seq, enc_write. cbn [fst snd]. intros [= <-] [= Ho].
  subst o2. apply Hdec in E1; [|done..]. apply Hdec in E2; [|done..]. congruence.
Qed.

Lemma SealHash_binding name e s t r name' e' s' t' r' h :
  is_u16 e → is_u16 s → Hash_wf t → Hash_wf r →
  is_u16 e' → is_u16 s' → Hash_wf t' → Hash_wf r' →
  SealHash name e s t r = Ok h → SealHash name' e' s' t' r' = Ok h →
  (name, e, s, t, r) = (name', e', s', t', r') ∨
  blake2b_collision [(seal_preimage name e s t r).1] [(seal_preimage name' e' s' t' r').1].
Proof.
  intros He Hs Ht Hr He' Hs' Ht' Hr'. unfold SealHash.
  destruct (seal_preimage name _ _ _ _) as [o1 [|]] eqn:E1; [done|].
  destruct (seal_preimage name' _ _ _ _) as [o2 [|]] eqn:E2; [done|].
  rewrite !go_copy_full by apply blake2b256_length. intros [= <-] [= He12].
  apply eq_sym, (blake2b_eq _ _ [o1] [o2]) in He12 as [->|]; [left|by right|set_solver..].
  by eapply seal_preimage_inj.
Qed.
End chain_lemmas.

(** ** Properties *)

(** Over a reader that delivers at most 4096 sectors, [SerialHash] succeeds
    and returns the array whose first entries are the chain of the sectors, the
    rest zero; when no digest of the chain is zero, [Tip] of it is the last
    hash of the chain. *)
Theorem serial_hash_chain `{Blake2b} {S} (read : Reader S) br ss br' prevHash n :
  feeds read ZeroSector br ss br' → zlen ss = n → n ≤ MaxSectors →
  ∃ hashes,
    SerialHash read prevHash n br = (Ok hashes, br') ∧
    SectorHashes_wf hashes ∧
    hashes = chain prevHash ss ++ replicate (Z.to_nat (MaxSectors - n)) ZeroHash ∧
    (prevHash = ZeroHash → Forall (λ h, h ≠ ZeroHash) (chain prevHash ss) →
     Tip hashes = tip_from prevHash ss).
Proof.
  intros Hf <- Hn. exists (go_copy ZeroSectorHashes (chain prevHash ss)).
  split; [by apply SerialHash_feeds|]. split; [by apply go_copy_hashes_wf|].
  assert (zlen (chain prevHash ss) = zlen ss) as Hl by (unfold zlen; by rewrite length_chain).
  split; [by rewrite go_copy_hashes, Hl by lia|]. intros ->. by apply Tip_chain.
Qed.

(** A reader of an array of bytes. *)
Definition bytes_reader : Reader bytes :=
  λ buf r, let got := take (length buf) r in
           (Ok (go_copy buf got, zlen got, None), drop (length buf) r).

Lemma serial_hash_chain_witness :
  ∃ hashes,
    SerialHash bytes_reader ZeroHash 1 (ZeroSector ++ [x01]) = (Ok hashes, [x01]) ∧
    SectorHashes_wf hashes ∧
    hashes = chain ZeroHash [ZeroSector] ++ replicate (Z.to_nat (MaxSectors - 1)) ZeroHash ∧
    (ZeroHash = ZeroHash → Forall (λ h, h ≠ ZeroHash) (chain ZeroHash [ZeroSector]) →
     Tip hashes = tip_from ZeroHash [ZeroSector]).
Proof.
  apply serial_hash_chain.
  - apply (feeds_cons _ _ _ _ [x01]); [done|constructor].
  - done.
  - done.
Defined.

(** the tip hash of a chain binds the starting hash and every sector: two
    chains of the same length with the same tip are equal, or two different
    inputs hashed along them collide. *)
Theorem chain_tip_binding `{Blake2b} p p' l l' :
  Hash_wf p → Hash_wf p' → length l = length l' → tip_from p l = tip_from p' l' →
  (p = p' ∧ l = l') ∨ blake2b_collision (chain_inputs p l) (chain_inputs p' l').
Proof. apply tip_from_binding. Qed.

Lemma chain_tip_binding_witness :
  let l := [ZeroSector; replicate 256 x01] in
  let l' := [ZeroSector; replicate 256 x02] in
  (ZeroHash = ZeroHash ∧ l = l') ∨
  blake2b_collision (chain_inputs ZeroHash l) (chain_inputs ZeroHash l').
Proof. by apply chain_tip_binding. Defined.

(** A seal binds the name, the epoch height, the number of sectors, the tip
    hash and the reserved root: two seals with the same hash are of the same
    five values, or their two inputs collide. *)
Theorem seal_binding `{Blake2b} name e s t r name' e' s' t' r' h :
  is_u16 e → is_u16 s → Hash_wf t → Hash_wf r →
  is_u16 e' → is_u16 s' → Hash_wf t' → Hash_wf r' →
  SealHash name e s t r = Ok h → SealHash name' e' s' t' r' = Ok h →
  (name, e, s, t, r) = (name', e', s', t', r') ∨
  blake2b_collision [(seal_preimage name e s t r).1] [(seal_preimage name' e' s' t' r').1].
Proof. apply SealHash_binding. Qed.

Lemma seal_binding_witness :
  (bs "foo", 1, 2, ZeroHash, ZeroHash) = (bs "foo", 1, 2, ZeroHash, replicate 32 x01) ∨
  blake2b_collision [(seal_preimage (bs "foo") 1 2 ZeroHash ZeroHash).1]
    [(seal_preimage (bs "foo") 1 2 ZeroHash (replicate 32 x01)).1].
Proof. by eapply seal_binding. Defined.

(** What [SignSeal] signs with a key verifies, as the syncer and the RPC
    server check it, against the public key and the seal of the same values. *)
Theorem sign_seal_verifies `{Blake2b} `{Secp256k1Laws} pk name e s t r sig :
  SignSeal (NewSECP256k1Signer pk) name e s t r = Ok sig →
  ∃ h, SealHash name e s t r = Ok h ∧ Signature_wf sig ∧
    VerifySigPub (PubKey pk) sig (Hash_Hash h) = Ok true.
Proof.
  unfold SignSeal. destruct (SealHash name e s t r) as [h|?|?]; [|done..]. intros Hs.
  change (SECP256k1Signer_Sign pk (Hash_Hash h) = Ok sig) in Hs.
  exists h. split; [done|]. split; [|by apply Sign_verifies_pub].
  apply SECP256k1Signer_Sign_Ok in Hs as (h' & _ & Hs). by eapply SignCompact_length.
Qed.

Lemma sign_seal_verifies_witness :
  ∃ sig h, SignSeal (NewSECP256k1Signer toy_key) (bs "foo") 1 2 ZeroHash ZeroHash = Ok sig ∧
    SealHash (bs "foo") 1 2 ZeroHash ZeroHash = Ok h ∧ Signature_wf sig ∧
    VerifySigPub (PubKey toy_key) sig (Hash_Hash h) = Ok true.
Proof.
  destruct (SignSeal (NewSECP256k1Signer toy_key) (bs "foo") 1 2 ZeroHash ZeroHash)
    as [sig|?|?] eqn:Hs; [|discriminate Hs..].
  destruct (sign_seal_verifies _ _ _ _ _ _ _ Hs) as (h & Hh). by exists sig, h.
Defined.

(** [DiffWith] returns -1 exactly when the arrays are equal, and otherwise
    the index of the first pair of hashes that differ. *)
Theorem diff_with_first s other :
  SectorHashes_wf s → SectorHashes_wf other →
  (DiffWith s other = -1 ↔ s = other) ∧
  (s ≠ other →
   0 ≤ DiffWith s other < MaxSectors ∧
   take (Z.to_nat (DiffWith s other)) s = take (Z.to_nat (DiffWith s other)) other ∧
   s !! Z.to_nat (DiffWith s other) ≠ other !! Z.to_nat (DiffWith s other)).
Proof.
  intros [Hs _] [Ho _]. unfold DiffWith. case_decide as Heq; [done|].
  destruct (first_diff_spec 0 s other) as (k & x & y & -> & Hx & Hy & Hxy & Ht);
    [unfold zlen in *; lia|done|].
  rewrite Z.add_0_l, Nat2Z.id. apply lookup_lt_Some in Hx as Hk. unfold zlen in *.
  split; [split; [lia|done]|]. intros _. split; [lia|]. split; [done|]. congruence.
Qed.

Lemma SectorHashes_wf_insert s i h :
  SectorHashes_wf s → Hash_wf h → SectorHashes_wf (<[i := h]> s).
Proof.
  intros [Hl Hs] Hh. split; [unfold zlen in *; by rewrite length_insert|].
  by apply Forall_insert.
Qed.

Lemma ZeroSectorHashes_wf : SectorHashes_wf ZeroSectorHashes.
Proof. split; [done|]. by apply Forall_replicate. Qed.

Lemma diff_with_first_witness :
  let other := <[5%nat := replicate 32 x01]> ZeroSectorHashes in
  (DiffWith ZeroSectorHashes other = -1 ↔ ZeroSectorHashes = other) ∧
  (ZeroSectorHashes ≠ other →
   0 ≤ DiffWith ZeroSectorHashes other < MaxSectors ∧
   take (Z.to_nat (DiffWith ZeroSectorHashes other)) ZeroSectorHashes =
   take (Z.to_nat (DiffWith ZeroSectorHashes other)) other ∧
   ZeroSectorHashes !! Z.to_nat (DiffWith ZeroSectorHashes other) ≠
   other !! Z.to_nat (DiffWith ZeroSectorHashes other)).
Proof.
  apply diff_with_first; [apply ZeroSectorHashes_wf|].
  apply SectorHashes_wf_insert; [apply ZeroSectorHashes_wf|done].
Defined.
