(* ===== verification/Wire.v ===== *)
(** * Package wire: messages and envelopes

    [src/wire].  Every message is a record with its [Encode], [Decode] and
    [Equals]; [Message] is the interface, [MsgType], [Message_Encode],
    [Message_Equals] and [Message_Hash] its methods, and [decode_message] the
    switch of [Envelope.Decode].  An [Envelope] is what peers exchange. *)

From S2P Require Import Prelude GoLib Crypto Instances Dwire Sector.

(** ** Types with their own methods *)

Definition HashCodec : codec := mkCodec (list byte) Hash_wf Hash_Encode Hash_Decode.

Definition SectorCodec : codec := mkCodec (list byte) Sector_wf Sector_Encode Sector_Decode.

Definition THash : ty := TEncoder HashCodec.
Definition TSectors : ty := TSlice false (TEncoder SectorCodec).
Definition TSignature : ty := TArray 65 TUint8.

(** ** message.go *)

Definition MessageTypeHello : Z := 0.
Definition MessageTypeHelloAck : Z := 1.
Definition MessageTypePing : Z := 2.
Definition MessageTypeUpdate : Z := 3.
Definition MessageTypeNilUpdate : Z := 4.
Definition MessageTypeBlobReq : Z := 5.
Definition MessageTypeBlobRes : Z := 6.
Definition MessageTypePeerReq : Z := 7.
Definition MessageTypePeerRes : Z := 8.
Definition MessageTypeUpdateReq : Z := 9.
Definition MessageTypeNameRes : Z := 10.
Definition MessageTypeEquivocationProof : Z := 11.

Definition MessageType_String (t : Z) : string :=
  match t with
  | 0 => "Hello"
  | 1 => "HelloAck"
  | 2 => "Ping"
  | 3 => "Update"
  | 4 => "NilUpdate"
  | 5 => "BlobReq"
  | 6 => "BlobRes"
  | 7 => "PeerReq"
  | 8 => "PeerRes"
  | 9 => "UpdateReq"
  | 10 => "NameRes"
  | 11 => "EquivocationProof"
  | _ => "unknown"
  end.

Definition MessageType_Encode (t : Z) : enc := EncodeField defaultEncoder TUint16 t.

Definition MessageType_Decode : dec Z := DecodeField defaultEncoder TUint16.

Definition MessageTypeCodec : codec :=
  mkCodec Z is_u16 MessageType_Encode MessageType_Decode.

(** ** hash_cacher.go *)

(** [None] until the [sync.Once] has run; a panic inside it leaves the zero
    hash for the calls that follow. *)
Definition HashCacher : Type := option Hash.

Definition HashCacher_Hash `{Blake2b} (h : HashCacher) (e : enc) : result Hash * HashCacher :=
  match h with
  | Some hash => (Ok hash, h)
  | None =>
      match e with
      | (_, Some _) => (Panic "Encode", Some ZeroHash)
      | (buf, None) => let hash := Blake2B256 [buf] in (Ok hash, Some hash)
      end
  end.

(** ** encoders.go *)

Definition v4InV6Prefix : bytes :=
  [x00; x00; x00; x00; x00; x00; x00; x00; x00; x00; xff; xff].

(** [net.IP.To16]: a 4-byte or a 16-byte address, anything else is nil. *)
Definition To16 (ip : bytes) : option bytes :=
  if decide (length ip = 4%nat) then Some (v4InV6Prefix ++ ip)
  else if decide (length ip = 16%nat) then Some ip
  else None.

(** [net.IP.Equal]: an IPv4 address equals its IPv6 form. *)
Definition IP_Equal (ip x : bytes) : bool :=
  if decide (length ip = length x) then bool_decide (ip = x)
  else if decide (length ip = 4%nat ∧ length x = 16%nat) then
    bool_decide (x = v4InV6Prefix ++ ip)
  else if decide (length ip = 16%nat ∧ length x = 4%nat) then
    bool_decide (ip = v4InV6Prefix ++ x)
  else false.

Definition IPEncoder_Encode (ip : bytes) : enc :=
  match To16 ip with
  | None => enc_fail (ENew "not an IP address")
  | Some to16 => enc_write to16
  end.

Definition IPEncoder_Decode : dec bytes := ReadFull 16.

Definition IPCodec : codec :=
  mkCodec (list byte) (λ ip, length ip = 16%nat) IPEncoder_Encode IPEncoder_Decode.

Section encoders.
Context `{Secp256k1}.

Definition PublicKeyEncoder_Encode (p : PublicKey) : enc :=
  enc_write (SerializeCompressed p).

Definition PublicKeyEncoder_Decode : dec PublicKey :=
  buf ← ReadFull 33;
  (λ r, match ParsePubKey buf with
        | Ok key => Ok (key, r)
        | Err e => Err e
        | Panic m => Panic m
        end) : dec PublicKey.

Definition PublicKeyCodec : codec :=
  mkCodec PublicKey (λ _, True) PublicKeyEncoder_Encode PublicKeyEncoder_Decode.
End encoders.

(** ** hello.go *)

Section hello.
Context `{Secp256k1}.

Record Hello := mkHello {
  Hello_ProtocolVersion : Z;
  Hello_LocalNonce : bytes;
  Hello_RemoteNonce : bytes;
  Hello_PublicKey : PublicKey;
  Hello_UserAgent : bytes;
}.

Definition Hello_fields : list ty :=
  [TUint32; TArr32; TArr32; TEncoder PublicKeyCodec; TString].

Definition Hello_items (h : Hello) : interps Hello_fields :=
  (Hello_ProtocolVersion h, (Hello_LocalNonce h, (Hello_RemoteNonce h,
    (Hello_PublicKey h, (Hello_UserAgent h, tt))))).

Definition Hello_Encode (h : Hello) : enc :=
  EncodeFields defaultEncoder Hello_fields (Hello_items h).

Definition Hello_Decode : dec Hello :=
  '(v, (l, (n, (p, (a, _))))) ← DecodeFields defaultEncoder Hello_fields;
  mret (mkHello v l n p a).

Definition Hello_Equals (h cast : Hello) : bool :=
  bool_decide (Hello_ProtocolVersion h = Hello_ProtocolVersion cast) &&
  bool_decide (Hello_LocalNonce h = Hello_LocalNonce cast) &&
  bool_decide (Hello_RemoteNonce h = Hello_RemoteNonce cast) &&
  bool_decide (Hello_PublicKey h = Hello_PublicKey cast) &&
  bool_decide (Hello_UserAgent h = Hello_UserAgent cast).
End hello.

(** ** hello_ack.go *)

Record HelloAck := mkHelloAck { HelloAck_Nonce : bytes }.

Definition HelloAck_fields : list ty := [TArr32].

Definition HelloAck_Encode (h : HelloAck) : enc :=
  EncodeFields defaultEncoder HelloAck_fields (HelloAck_Nonce h, tt).

Definition HelloAck_Decode : dec HelloAck :=
  '(n, _) ← DecodeFields defaultEncoder HelloAck_fields; mret (mkHelloAck n).

Definition HelloAck_Equals (h cast : HelloAck) : bool :=
  bool_decide (HelloAck_Nonce h = HelloAck_Nonce cast).

(** ** ping.go and peer_req.go: messages without fields *)

Definition Ping_Encode : enc := enc_write [].
Definition Ping_Decode : dec unit := mret tt.
Definition PeerReq_Encode : enc := enc_write [].
Definition PeerReq_Decode : dec unit := mret tt.

(** ** update.go *)

Record Update := mkUpdate {
  Update_Name : bytes;
  Update_EpochHeight : Z;
  Update_SectorSize : Z;
}.

Definition Update_fields : list ty := [TString; TUint16; TUint16].

Definition Update_items (u : Update) : interps Update_fields :=
  (Update_Name u, (Update_EpochHeight u, (Update_SectorSize u, tt))).

Definition Update_Encode (u : Update) : enc :=
  EncodeFields defaultEncoder Update_fields (Update_items u).

Definition Update_Decode : dec Update :=
  '(n, (e, (s, _))) ← DecodeFields defaultEncoder Update_fields; mret (mkUpdate n e s).

Definition Update_Equals (u cast : Update) : bool :=
  bool_decide (Update_Name u = Update_Name cast) &&
  bool_decide (Update_EpochHeight u = Update_EpochHeight cast) &&
  bool_decide (Update_SectorSize u = Update_SectorSize cast).

(** ** nil_update.go *)

Record NilUpdate := mkNilUpdate { NilUpdate_Name : bytes }.

Definition NewNilUpdate (name : bytes) : NilUpdate := mkNilUpdate name.

Definition NilUpdate_fields : list ty := [TString].

Definition NilUpdate_Encode (n : NilUpdate) : enc :=
  EncodeFields defaultEncoder NilUpdate_fields (NilUpdate_Name n, tt).

Definition NilUpdate_Decode : dec NilUpdate :=
  '(n, _) ← DecodeFields defaultEncoder NilUpdate_fields; mret (mkNilUpdate n).

Definition NilUpdate_Equals (n cast : NilUpdate) : bool :=
  bool_decide (NilUpdate_Name n = NilUpdate_Name cast).

(** ** update_req.go *)

Record UpdateReq := mkUpdateReq {
  UpdateReq_Name : bytes;
  UpdateReq_EpochHeight : Z;
  UpdateReq_SectorSize : Z;
}.

Definition UpdateReq_fields : list ty := [TString; TUint16; TUint16].

Definition UpdateReq_items (u : UpdateReq) : interps UpdateReq_fields :=
  (UpdateReq_Name u, (UpdateReq_EpochHeight u, (UpdateReq_SectorSize u, tt))).

Definition UpdateReq_Encode (u : UpdateReq) : enc :=
  EncodeFields defaultEncoder UpdateReq_fields (UpdateReq_items u).

Definition UpdateReq_Decode : dec UpdateReq :=
  '(n, (e, (s, _))) ← DecodeFields defaultEncoder UpdateReq_fields; mret (mkUpdateReq n e s).

Definition UpdateReq_Equals (u cast : UpdateReq) : bool :=
  bool_decide (UpdateReq_Name u = UpdateReq_Name cast) &&
  bool_decide (UpdateReq_EpochHeight u = UpdateReq_EpochHeight cast) &&
  bool_decide (UpdateReq_SectorSize u = UpdateReq_SectorSize cast).

(** ** blob_req.go *)

Record BlobReq := mkBlobReq {
  BlobReq_Name : bytes;
  BlobReq_EpochHeight : Z;
  BlobReq_SectorSize : Z;
}.

Definition BlobReq_fields : list ty := [TString; TUint16; TUint16].

Definition BlobReq_items (u : BlobReq) : interps BlobReq_fields :=
  (BlobReq_Name u, (BlobReq_EpochHeight u, (BlobReq_SectorSize u, tt))).

Definition BlobReq_Encode (u : BlobReq) : enc :=
  EncodeFields defaultEncoder BlobReq_fields (BlobReq_items u).

Definition BlobReq_Decode : dec BlobReq :=
  '(n, (e, (s, _))) ← DecodeFields defaultEncoder BlobReq_fields; mret (mkBlobReq n e s).

Definition BlobReq_Equals (u cast : BlobReq) : bool :=
  bool_decide (BlobReq_Name u = BlobReq_Name cast) &&
  bool_decide (BlobReq_EpochHeight u = BlobReq_EpochHeight cast) &&
  bool_decide (BlobReq_SectorSize u = BlobReq_SectorSize cast).

(** ** blob_res.go *)

Record BlobRes := mkBlobRes {
  BlobRes_Name : bytes;
  BlobRes_EpochHeight : Z;
  BlobRes_PayloadPosition : Z;
  BlobRes_PrevHash : Hash;
  BlobRes_ReservedRoot : Hash;
  BlobRes_Payload : list Sector;
  BlobRes_Signature : Signature;
}.

Definition BlobRes_fields : list ty :=
  [TString; TUint16; TUint16; THash; THash; TSectors; TSignature].

Definition BlobRes_items (s : BlobRes) : interps BlobRes_fields :=
  (BlobRes_Name s, (BlobRes_EpochHeight s, (BlobRes_PayloadPosition s,
    (BlobRes_PrevHash s, (BlobRes_ReservedRoot s, (BlobRes_Payload s,
      (BlobRes_Signature s, tt))))))).

Definition BlobRes_Encode (s : BlobRes) : enc :=
  EncodeFields defaultEncoder BlobRes_fields (BlobRes_items s).

Definition BlobRes_Decode : dec BlobRes :=
  '(n, (e, (p, (ph, (rr, (pl, (sg, _))))))) ← DecodeFields defaultEncoder BlobRes_fields;
  mret (mkBlobRes n e p ph rr pl sg).

(** The payload is not compared. *)
Definition BlobRes_Equals (s cast : BlobRes) : bool :=
  bool_decide (BlobRes_Name s = BlobRes_Name cast) &&
  bool_decide (BlobRes_EpochHeight s = BlobRes_EpochHeight cast) &&
  bool_decide (BlobRes_PayloadPosition s = BlobRes_PayloadPosition cast) &&
  bool_decide (BlobRes_PrevHash s = BlobRes_PrevHash cast) &&
  bool_decide (BlobRes_ReservedRoot s = BlobRes_ReservedRoot cast) &&
  bool_decide (BlobRes_Signature s = BlobRes_Signature cast).

(** ** peer_res.go *)

Record Peer := mkPeer { Peer_IP : bytes; Peer_ID : Hash }.

Definition Peer_fields : list ty := [TEncoder IPCodec; THash].

Definition Peer_Encode (p : Peer) : enc :=
  EncodeFields defaultEncoder Peer_fields (Peer_IP p, (Peer_ID p, tt)).

Definition Peer_Decode : dec Peer :=
  '(ip, (id, _)) ← DecodeFields defaultEncoder Peer_fields; mret (mkPeer ip id).

Definition Peer_wf (p : Peer) : Prop :=
  length (Peer_IP p) = 16%nat ∧ Hash_wf (Peer_ID p).

Definition PeerCodec : codec := mkCodec Peer Peer_wf Peer_Encode Peer_Decode.

Record PeerRes := mkPeerRes { PeerRes_Peers : list Peer }.

(** The peers of the receiver are compared, by index, with those of the other. *)
Fixpoint peers_equal (ps qs : list Peer) : result bool :=
  match ps, qs with
  | [], _ => Ok true
  | _ :: _, [] => Panic "index out of range"
  | p :: ps, q :: qs =>
      if IP_Equal (Peer_IP p) (Peer_IP q) && bool_decide (Peer_ID p = Peer_ID q)
      then peers_equal ps qs
      else Ok false
  end.

Definition PeerRes_Equals (p cast : PeerRes) : result bool :=
  peers_equal (PeerRes_Peers p) (PeerRes_Peers cast).

Definition PeerRes_fields : list ty := [TSlice true (TEncoder PeerCodec)].

(** The peers are encoded into a buffer that is dropped, for their errors,
    and then as a field. *)
Definition PeerRes_Encode (p : PeerRes) : enc :=
  match enc_list Peer_Encode (PeerRes_Peers p) with
  | (_, Some e) => enc_fail e
  | (_, None) => EncodeFields defaultEncoder PeerRes_fields (PeerRes_Peers p, tt)
  end.

Definition PeerRes_Decode : dec PeerRes :=
  '(ps, _) ← DecodeFields defaultEncoder PeerRes_fields; mret (mkPeerRes ps).

(** ** equivocation_proof.go *)

Record EquivocationProof := mkEquivocationProof {
  EP_Name : bytes;
  EP_RemoteEpochHeight : Z;
  EP_RemotePayloadPosition : Z;
  EP_RemotePrevHash : Hash;
  EP_RemoteReservedRoot : Hash;
  EP_RemotePayload : list Sector;
  EP_RemoteSignature : Signature;
  EP_LocalEpochHeight : Z;
  EP_LocalSectorSize : Z;
  EP_LocalSectorTipHash : Hash;
  EP_LocalReservedRoot : Hash;
  EP_LocalSignature : Signature;
}.

Definition EquivocationProof_fields : list ty :=
  [TString; TUint16; TUint16; THash; THash; TSectors; TSignature;
   TUint16; TUint16; THash; THash; TSignature].

Definition EquivocationProof_items (s : EquivocationProof)
    : interps EquivocationProof_fields :=
  (EP_Name s, (EP_RemoteEpochHeight s, (EP_RemotePayloadPosition s,
    (EP_RemotePrevHash s, (EP_RemoteReservedRoot s, (EP_RemotePayload s,
      (EP_RemoteSignature s, (EP_LocalEpochHeight s, (EP_LocalSectorSize s,
        (EP_LocalSectorTipHash s, (EP_LocalReservedRoot s,
          (EP_LocalSignature s, tt)))))))))))).

Definition EquivocationProof_Encode (s : EquivocationProof) : enc :=
  EncodeFields defaultEncoder EquivocationProof_fields (EquivocationProof_items s).

Definition EquivocationProof_Decode : dec EquivocationProof :=
  '(n, (re, (rp, (rph, (rrr, (rpl, (rs, (le, (ls, (lt, (lr, (lsg, _))))))))))))
    ← DecodeFields defaultEncoder EquivocationProof_fields;
  mret (mkEquivocationProof n re rp rph rrr rpl rs le ls lt lr lsg).

(** The payload is not compared. *)
Definition EquivocationProof_Equals (s cast : EquivocationProof) : bool :=
  bool_decide (EP_Name s = EP_Name cast) &&
  bool_decide (EP_RemoteEpochHeight s = EP_RemoteEpochHeight cast) &&
  bool_decide (EP_RemotePayloadPosition s = EP_RemotePayloadPosition cast) &&
  bool_decide (EP_RemotePrevHash s = EP_RemotePrevHash cast) &&
  bool_decide (EP_RemoteReservedRoot s = EP_RemoteReservedRoot cast) &&
  bool_decide (EP_RemoteSignature s = EP_RemoteSignature cast) &&
  bool_decide (EP_LocalEpochHeight s = EP_LocalEpochHeight cast) &&
  bool_decide (EP_LocalSectorSize s = EP_LocalSectorSize cast) &&
  bool_decide (EP_LocalSectorTipHash s = EP_LocalSectorTipHash cast) &&
  bool_decide (EP_LocalReservedRoot s = EP_LocalReservedRoot cast) &&
  bool_decide (EP_LocalSignature s = EP_LocalSignature cast).

(** ** The interface Message, and envelope.go *)

Section message.
Context `{Secp256k1}.

Inductive Message :=
| MHello (m : Hello)
| MHelloAck (m : HelloAck)
| MPing
| MUpdate (m : Update)
| MNilUpdate (m : NilUpdate)
| MBlobReq (m : BlobReq)
| MBlobRes (m : BlobRes)
| MPeerReq
| MPeerRes (m : PeerRes)
| MUpdateReq (m : UpdateReq)
| MEquivocationProof (m : EquivocationProof).

Definition MsgType (m : Message) : Z :=
  match m with
  | MHello _ => MessageTypeHello
  | MHelloAck _ => MessageTypeHelloAck
  | MPing => MessageTypePing
  | MUpdate _ => MessageTypeUpdate
  | MNilUpdate _ => MessageTypeNilUpdate
  | MBlobReq _ => MessageTypeBlobReq
  | MBlobRes _ => MessageTypeBlobRes
  | MPeerReq => MessageTypePeerReq
  | MPeerRes _ => MessageTypePeerRes
  | MUpdateReq _ => MessageTypeUpdateReq
  | MEquivocationProof _ => MessageTypeEquivocationProof
  end.

Definition Message_Encode (m : Message) : enc :=
  match m with
  | MHello m => Hello_Encode m
  | MHelloAck m => HelloAck_Encode m
  | MPing => Ping_Encode
  | MUpdate m => Update_Encode m
  | MNilUpdate m => NilUpdate_Encode m
  | MBlobReq m => BlobReq_Encode m
  | MBlobRes m => BlobRes_Encode m
  | MPeerReq => PeerReq_Encode
  | MPeerRes m => PeerRes_Encode m
  | MUpdateReq m => UpdateReq_Encode m
  | MEquivocationProof m => EquivocationProof_Encode m
  end.

(** The type assertion of [Equals] fails on a message of another type. *)
Definition Message_Equals (m other : Message) : result bool :=
  match m, other with
  | MHello m, MHello cast => Ok (Hello_Equals m cast)
  | MHelloAck m, MHelloAck cast => Ok (HelloAck_Equals m cast)
  | MPing, MPing => Ok true
  | MUpdate m, MUpdate cast => Ok (Update_Equals m cast)
  | MNilUpdate m, MNilUpdate cast => Ok (NilUpdate_Equals m cast)
  | MBlobReq m, MBlobReq cast => Ok (BlobReq_Equals m cast)
  | MBlobRes m, MBlobRes cast => Ok (BlobRes_Equals m cast)
  | MPeerReq, MPeerReq => Ok true
  | MPeerRes m, MPeerRes cast => PeerRes_Equals m cast
  | MUpdateReq m, MUpdateReq cast => Ok (UpdateReq_Equals m cast)
  | MEquivocationProof m, MEquivocationProof cast => Ok (EquivocationProof_Equals m cast)
  | _, _ => Ok false
  end.

(** The first call of a message's [Hash]. *)
Definition Message_Hash `{Blake2b} (m : Message) : result Hash :=
  (HashCacher_Hash None (Message_Encode m)).1.

(** The message of type [t] the envelope's bytes are decoded into. *)
Definition decode_message (t : Z) : dec Message :=
  match t with
  | 0 => MHello <$> Hello_Decode
  | 1 => MHelloAck <$> HelloAck_Decode
  | 2 => Ping_Decode;; mret MPing
  | 3 => MUpdate <$> Update_Decode
  | 4 => MNilUpdate <$> NilUpdate_Decode
  | 5 => MBlobReq <$> BlobReq_Decode
  | 6 => MBlobRes <$> BlobRes_Decode
  | 7 => PeerReq_Decode;; mret MPeerReq
  | 8 => MPeerRes <$> PeerRes_Decode
  | 9 => MUpdateReq <$> UpdateReq_Decode
  | 11 => MEquivocationProof <$> EquivocationProof_Decode
  | _ => dec_fail (ENew "invalid message type")
  end.

Record Envelope := mkEnvelope {
  Envelope_Magic : Z;
  Envelope_MessageType : Z;
  Envelope_Timestamp : Time;
  Envelope_Message : Message;
  Envelope_Signature : Signature;
}.

Definition Envelope_fields : list ty :=
  [TUint32; TEncoder MessageTypeCodec; TTime; TBytes; TSignature].

Definition Envelope_Encode (e : Envelope) : enc :=
  match Message_Encode (Envelope_Message e) with
  | (_, Some err) => enc_fail err
  | (buf, None) =>
      EncodeFields defaultEncoder Envelope_fields
        (Envelope_Magic e, (Envelope_MessageType e, (Envelope_Timestamp e,
          (buf, (Envelope_Signature e, tt)))))
  end.

(** The message is decoded from a reader of its own; bytes after it are dropped. *)
Definition Envelope_Decode : dec Envelope :=
  '(magic, (t, (ts, (msgBuf, (sg, _))))) ← DecodeFields defaultEncoder Envelope_fields;
  (λ r, match decode_message t msgBuf with
        | Ok (msg, _) => Ok (mkEnvelope magic t ts msg sg, r)
        | Err e => Err e
        | Panic w => Panic w
        end) : dec Envelope.

(** The operands of [&&] are evaluated from the left, so [Message.Equals] runs
    only when the first three comparisons hold. *)
Definition Envelope_Equals (e other : Envelope) : result bool :=
  if bool_decide (Envelope_Magic e = Envelope_Magic other) &&
     bool_decide (Envelope_MessageType e = Envelope_MessageType other) &&
     bool_decide (Unix (Envelope_Timestamp e) = Unix (Envelope_Timestamp other))
  then
    eq ← Message_Equals (Envelope_Message e) (Envelope_Message other);
    Ok (eq && bool_decide (Envelope_Signature e = Envelope_Signature other))
  else Ok false.

Definition envelope_hash_fields : list ty :=
  [TUint32; TEncoder MessageTypeCodec; TTime; TBytes].

(** The fourth field is [buf.Bytes()] of the buffer being written, which is
    empty when the arguments are evaluated. *)
Definition Envelope_Hash `{Blake2b} (e : Envelope) : result Hash :=
  match Message_Encode (Envelope_Message e) with
  | (_, Some err) => Err err
  | (_, None) =>
      let buf : bytes := [] in
      match EncodeFields defaultEncoder envelope_hash_fields
              (Envelope_Magic e, (Envelope_MessageType e,
                (Envelope_Timestamp e, (buf, tt)))) with
      | (_, Some err) => Err err
      | (out, None) => Ok (Blake2B256 [out])
      end
  end.

(** [now] is the reading of the clock. *)
Definition NewEnvelope `{Blake2b} (now : Time) (magic : Z) (message : Message)
    (signer : Signer) : result Envelope :=
  let envelope := mkEnvelope magic (MsgType message) now message ZeroSignature in
  sig ← Sign signer (Envelope_Hash envelope);
  Ok (mkEnvelope magic (MsgType message) now message sig).
End message.

(** ** Lemmas *)

Section lemmas.
Context `{Hc : Secp256k1, HL : !Secp256k1Laws}.

Lemma HashCodec_ok : codec_ok HashCodec.
Proof. intros h Hh. apply roundtrips_write. intros r. by apply ReadFull_app. Qed.

Lemma SectorCodec_ok : codec_ok SectorCodec.
Proof.
  intros s Hs. apply roundtrips_write. intros r. apply ReadFull_app.
  change (zlen s = SectorBytes) in Hs. unfold zlen in Hs. lia.
Qed.

Lemma MessageTypeCodec_ok : codec_ok MessageTypeCodec.
Proof. intros t Ht. apply EncodeField_roundtrips; auto with fnd. done. Qed.

Lemma IPCodec_ok : codec_ok IPCodec.
Proof.
  intros ip Hip. simpl in *. unfold IPEncoder_Encode, To16.
  rewrite decide_False by lia. rewrite decide_True by done.
  apply roundtrips_write. intros r. by apply ReadFull_app.
Qed.

Lemma PublicKeyCodec_ok : codec_ok PublicKeyCodec.
Proof.
  intros p _. apply roundtrips_write. intros r. simpl. unfold PublicKeyEncoder_Decode.
  rewrite (dec_bind_step _ _ _ _ _ (ReadFull_app _ _ _ (SerializeCompressed_length p))).
  by rewrite ParsePubKey_Serialize.
Qed.

Lemma PeerCodec_ok : codec_ok PeerCodec.
Proof.
  intros [ip id] [Hip Hid]. eapply (roundtrips_bind _ _ _ (ip, (id, tt))); [|done].
  apply EncodeFields_roundtrips.
  - apply defaultEncoder_ok.
  - repeat constructor; [apply IPCodec_ok|apply HashCodec_ok].
  - done.
Qed.

(** The values every message type round-trips: those whose fields have values
    of their Go types, within the limits of the encoder. *)
Definition Message_wf (m : Message) : Prop :=
  match m with
  | MHello m => wfs defaultEncoder Hello_fields (Hello_items m)
  | MHelloAck m => wfs defaultEncoder HelloAck_fields (HelloAck_Nonce m, tt)
  | MPing => True
  | MUpdate m => wfs defaultEncoder Update_fields (Update_items m)
  | MNilUpdate m => wfs defaultEncoder NilUpdate_fields (NilUpdate_Name m, tt)
  | MBlobReq m => wfs defaultEncoder BlobReq_fields (BlobReq_items m)
  | MBlobRes m => wfs defaultEncoder BlobRes_fields (BlobRes_items m)
  | MPeerReq => True
  | MPeerRes m => wfs defaultEncoder PeerRes_fields (PeerRes_Peers m, tt)
  | MUpdateReq m => wfs defaultEncoder UpdateReq_fields (UpdateReq_items m)
  | MEquivocationProof m =>
      wfs defaultEncoder EquivocationProof_fields (EquivocationProof_items m)
  end.

Lemma Peers_Encode_ok ps :
  Forall Peer_wf ps → (enc_list Peer_Encode ps).2 = None.
Proof.
  intros Hps.
  destruct (roundtrips_list Peer_Encode Peer_Decode ps) as (out & -> & _); [|done].
  eapply Forall_impl; [exact Hps|]. apply PeerCodec_ok.
Qed.

Local Ltac fields_ok :=
  repeat (constructor; [first
    [ exact I | apply HashCodec_ok | apply SectorCodec_ok | apply PublicKeyCodec_ok
    | apply PeerCodec_ok | apply MessageTypeCodec_ok ]|]); constructor.

Lemma struct_roundtrips {B} ts vs (f : interps ts → dec B) w :
  Forall ty_ok ts → wfs defaultEncoder ts vs → f vs = mret w →
  roundtrips (EncodeFields defaultEncoder ts vs)
    (DecodeFields defaultEncoder ts ≫= f) w.
Proof.
  intros Hts Hvs Hf. eapply roundtrips_bind; [|exact Hf].
  apply EncodeFields_roundtrips; auto with fnd.
Qed.

Lemma Message_roundtrips m :
  Message_wf m → roundtrips (Message_Encode m) (decode_message (MsgType m)) m.
Proof.
  destruct m as [m|m| |m|m|m|m| |m|m|m]; cbn [Message_wf]; intros Hwf;
    try (apply roundtrips_fmap, struct_roundtrips; [fields_ok|exact Hwf|by destruct m]).
  - by apply roundtrips_write.
  - by apply roundtrips_write.
  - unfold Message_Encode, PeerRes_Encode.
    pose proof (Peers_Encode_ok (PeerRes_Peers m)) as He.
    destruct (enc_list Peer_Encode (PeerRes_Peers m)) as [o [e|]].
    { exfalso. by discriminate He; apply Hwf. }
    apply roundtrips_fmap, struct_roundtrips; [fields_ok|exact Hwf|by destruct m].
Qed.

(** An envelope with a message of its type and fields in range. *)
Definition Envelope_wf (e : Envelope) : Prop :=
  is_u32 (Envelope_Magic e) ∧
  Envelope_MessageType e = MsgType (Envelope_Message e) ∧
  (∃ s, is_u32 s ∧ Envelope_Timestamp e = time_Unix s) ∧
  Message_wf (Envelope_Message e) ∧
  Signature_wf (Envelope_Signature e).

Lemma MsgType_u16 m : is_u16 (MsgType m).
Proof. by destruct m. Qed.

Lemma Envelope_roundtrips e :
  Envelope_wf e →
  zlen (Message_Encode (Envelope_Message e)).1 ≤ DefaultMaxByteFieldLen →
  roundtrips (Envelope_Encode e) Envelope_Decode e.
Proof.
  destruct e as [magic t ts msg sg]. intros (Hm & Ht & Hts & Hmsg & Hsg) Hlen. simpl in *.
  subst t. unfold Envelope_Encode. simpl.
  destruct (Message_roundtrips msg Hmsg) as (buf & Hbuf & Hdec).
  rewrite Hbuf in Hlen |- *. simpl in Hlen.
  destruct (EncodeFields_roundtrips defaultEncoder Envelope_fields
    (magic, (MsgType msg, (ts, (buf, (sg, tt)))))) as (out & Hout & Hd).
  - apply defaultEncoder_ok.
  - fields_ok.
  - refine (conj Hm (conj (MsgType_u16 _) (conj Hts (conj Hlen (conj (conj Hsg _) I))))).
    by apply Forall_true.
  - exists out. split; [exact Hout|]. intros r. unfold Envelope_Decode.
    rewrite (dec_bind_step _ _ _ _ _ (Hd r)). cbn beta iota.
    specialize (Hdec []). rewrite app_nil_r in Hdec. by rewrite Hdec.
Qed.
End lemmas.

(** *** What the decoders accept *)

Section soundness.
Context `{Hc : Secp256k1}.

Lemma HashCodec_sound : codec_sound HashCodec.
Proof. apply ReadFull_sound. Qed.

Lemma SectorCodec_sound : codec_sound SectorCodec.
Proof.
  eapply dec_sound_impl; [apply ReadFull_sound|].
  intros s Hs. change (zlen s = SectorBytes). unfold zlen. by rewrite Hs.
Qed.

Lemma MessageTypeCodec_sound : codec_sound MessageTypeCodec.
Proof. by apply (DecodeField_sound defaultEncoder TUint16). Qed.

Lemma PublicKeyCodec_sound : codec_sound PublicKeyCodec.
Proof.
  eapply dec_sound_bind; [apply ReadFull_sound|]. intros buf _ r k r' Hk.
  destruct (ParsePubKey buf); simplify_eq. split; [done|]. by exists [].
Qed.

Lemma struct_sound {B} ts (f : interps ts → dec B) (P : B → Prop) :
  Forall ty_sound ts →
  (∀ vs, wfs defaultEncoder ts vs → ∃ w, f vs = mret w ∧ P w) →
  dec_sound (DecodeFields defaultEncoder ts ≫= f) P.
Proof.
  intros Hts Hf. eapply dec_sound_bind; [by apply DecodeFields_sound|].
  intros vs Hvs. destruct (Hf vs Hvs) as (w & -> & Hw). by apply dec_sound_ret.
Qed.

Lemma PeerCodec_sound : codec_sound PeerCodec.
Proof.
  refine (struct_sound Peer_fields _ Peer_wf _ _).
  - constructor; [apply ReadFull_sound|].
    constructor; [apply HashCodec_sound|constructor].
  - intros (ip & id & []) (Hip & Hid & _). by eexists.
Qed.

Local Ltac fields_sound :=
  repeat (constructor; [first
    [ exact I | apply HashCodec_sound | apply SectorCodec_sound
    | apply PublicKeyCodec_sound | apply PeerCodec_sound
    | apply MessageTypeCodec_sound ]|]); constructor.

Lemma dec_sound_fmap {A B} (d : dec A) (f : A → B) P Q :
  dec_sound d P → (∀ a, P a → Q (f a)) → dec_sound (f <$> d) Q.
Proof.
  intros Hd Hf. eapply dec_sound_bind; [exact Hd|].
  intros a Ha. by apply dec_sound_ret, Hf.
Qed.

Local Ltac case_message C :=
  apply (dec_sound_fmap _ _ (λ m, Message_wf (C m))); [|done];
  refine (struct_sound _ _ _ _ _); [fields_sound|]; intros vs Hvs;
  repeat match goal with v : interps _ |- _ => destruct v end; by eexists.

Lemma decode_message_sound t :
  dec_sound (decode_message t) (λ m, Message_wf m ∧ MsgType m = t).
Proof.
  assert (t ∉ [0;1;2;3;4;5;6;7;8;9;11] ∨ t ∈ [0;1;2;3;4;5;6;7;8;9;11]) as [Hn|Hin].
  { destruct (decide (t ∈ [0;1;2;3;4;5;6;7;8;9;11])); auto. }
  - assert (decode_message t = dec_fail (ENew "invalid message type")) as ->.
    { destruct t as [|p|p]; [set_solver| |done].
      do 4 (try destruct p as [p|p|]); try done; set_solver. }
    apply dec_sound_fail.
  - repeat (apply elem_of_cons in Hin as [->|Hin]); [..|set_solver].
    + case_message MHello.
    + case_message MHelloAck.
    + by apply dec_sound_ret.
    + case_message MUpdate.
    + case_message MNilUpdate.
    + case_message MBlobReq.
    + case_message MBlobRes.
    + by apply dec_sound_ret.
    + case_message MPeerRes.
    + case_message MUpdateReq.
    + case_message MEquivocationProof.
Qed.

Lemma Envelope_Decode_sound : dec_sound Envelope_Decode Envelope_wf.
Proof.
  refine (dec_sound_bind _ _ _ _ (DecodeFields_sound defaultEncoder Envelope_fields
    defaultEncoder_ok _) _).
  { fields_sound. }
  intros (magic & t & ts & msgBuf & sg & []) (Hm & _ & Hts & _ & [Hsg _] & _) r e r' He.
  destruct (decode_message t msgBuf) as [[msg rest]|?|?] eqn:Hmsg; simplify_eq.
  apply decode_message_sound in Hmsg as [[Hmsg Ht] _].
  split; [|by exists []].
  exact (conj Hm (conj (eq_sym Ht) (conj Hts (conj Hmsg Hsg)))).
Qed.

(** *** Timestamps travel as whole seconds *)

Definition truncate_timestamp (e : Envelope) : Envelope :=
  mkEnvelope (Envelope_Magic e) (Envelope_MessageType e)
    (time_Unix (Unix (Envelope_Timestamp e))) (Envelope_Message e) (Envelope_Signature e).

Lemma Unix_time_Unix s : Unix (time_Unix s) = s.
Proof. unfold Unix, time_Unix, Second. apply Z.div_mul. lia. Qed.

Lemma EncodeTime_truncate t : EncodeTime (time_Unix (Unix t)) = EncodeTime t.
Proof. unfold EncodeTime. by rewrite Unix_time_Unix. Qed.

Lemma Envelope_Encode_truncate e : Envelope_Encode (truncate_timestamp e) = Envelope_Encode e.
Proof.
  unfold Envelope_Encode, truncate_timestamp. simpl.
  destruct (Message_Encode _) as [buf [err|]]; [done|]. by rewrite EncodeTime_truncate.
Qed.

Lemma Envelope_Hash_truncate `{Blake2b} e :
  Envelope_Hash (truncate_timestamp e) = Envelope_Hash e.
Proof.
  unfold Envelope_Hash, truncate_timestamp. simpl.
  destruct (Message_Encode _) as [buf [err|]]; [done|]. by rewrite EncodeTime_truncate.
Qed.
End soundness.

(** ** Properties *)

(** C20: an envelope whose fields are in range and whose encoded message fits in
    a byte field is encoded without error, and decoding the bytes, whatever
    follows them, gives the same envelope with its timestamp cut to seconds. *)
Theorem envelope_roundtrip `{Secp256k1Laws} e :
  Envelope_wf (truncate_timestamp e) →
  zlen (Message_Encode (Envelope_Message e)).1 ≤ DefaultMaxByteFieldLen →
  ∃ out, Envelope_Encode e = (out, None) ∧
    ∀ r, Envelope_Decode (out ++ r) = Ok (truncate_timestamp e, r).
Proof.
  intros Hwf Hlen. rewrite <- Envelope_Encode_truncate. by apply Envelope_roundtrips.
Qed.

Lemma envelope_roundtrip_witness :
  let e := mkEnvelope 7 MessageTypeUpdate (time_Unix 5 + 250 * Millisecond)
             (MUpdate (mkUpdate (bs "foo") 3 4096)) ZeroSignature in
  ∃ out, Envelope_Encode e = (out, None) ∧
    ∀ r, Envelope_Decode (out ++ r) = Ok (truncate_timestamp e, r).
Proof.
  intros e. apply (envelope_roundtrip e).
  - split; [done|]. split; [done|]. split; [by exists 5|]. done.
  - done.
Defined.

(** C21: whatever the bytes, an envelope that decodes is well formed: a known
    message type, the one of its message, hashes of 32 bytes, at most 4096
    sectors of 256 bytes, byte fields within the limit; and decoding consumes a
    prefix of the input. *)
Theorem envelope_decode_sound `{Secp256k1} r e r' :
  Envelope_Decode r = Ok (e, r') → Envelope_wf e ∧ ∃ p, r = p ++ r'.
Proof. exact (Envelope_Decode_sound r e r'). Qed.

Definition ping_frame : bytes :=
  [x00; x00; x00; x07; x00; x02; x00; x00; x00; x05; x00] ++ replicate 65 x00.

Lemma envelope_decode_sound_witness :
  Envelope_wf (mkEnvelope 7 MessageTypePing (time_Unix 5) MPing ZeroSignature) ∧
  ∃ p, ping_frame ++ [xff] = p ++ [xff].
Proof. apply (envelope_decode_sound (ping_frame ++ [xff])). reflexivity. Defined.

(** The hash an envelope is signed by depends on the message only through
    its type: two envelopes with the same magic, timestamp and type, whose
    messages both encode, have the same hash. *)
Theorem envelope_hash_ignores_message `{Secp256k1} `{Blake2b} magic t ts m m' sg sg' :
  (Message_Encode m).2 = None → (Message_Encode m').2 = None →
  Envelope_Hash (mkEnvelope magic t ts m sg) = Envelope_Hash (mkEnvelope magic t ts m' sg').
Proof.
  intros Hm Hm'. unfold Envelope_Hash. simpl.
  by destruct (Message_Encode m), (Message_Encode m'); simplify_eq/=.
Qed.

Lemma envelope_hash_ignores_message_witness :
  let update size := MUpdate (mkUpdate (bs "foo") 3 size) in
  update 10 ≠ update 20 ∧
  Envelope_Hash (mkEnvelope 7 MessageTypeUpdate 0 (update 10) ZeroSignature) =
  Envelope_Hash (mkEnvelope 7 MessageTypeUpdate 0 (update 20) ZeroSignature).
Proof. split; [done|]. by apply envelope_hash_ignores_message. Defined.
