(* ===== verification/OsFile.v ===== *)
(** * The part of package os that the blob store uses

    Files on a local disk that does not fail: the errors are those of the
    operations themselves (a closed file, a missing name, a directory).  A name
    refers to a file or to a directory; a removed file stays readable through
    its open descriptors.  [ioutil.TempFile] creates a name nothing else has,
    in a directory the blob store does not use, so temporary names are a
    constructor of their own. *)

From S2P Require Import Prelude GoLib.

Definition ErrClosed : error := ESentinel "os.ErrClosed".
Definition ErrNotExist : error := ESentinel "os.ErrNotExist".
Definition ErrInvalid : error := ESentinel "os.ErrInvalid".
Definition ErrIsDir : error := ESentinel "EISDIR".
Definition ErrNotDir : error := ESentinel "ENOTDIR".
Definition ErrNegativeOffset : error := ENew "negative offset".

Inductive path := Path (p : bytes) | Temp (n : nat).

#[global] Instance path_eq_decision : EqDecision path.
Proof. solve_decision. Defined.

#[global] Instance path_countable : Countable path.
Proof.
  refine (inj_countable' (λ p, match p with Path b => inl b | Temp n => inr n end)
    (λ x, match x with inl b => Path b | inr n => Temp n end) _).
  by intros [].
Defined.

Inductive node := File (ino : nat) | Dir.

(** An open [*os.File]. *)
Record file := mkFile {
  file_ino : nat;
  file_name : path;
  file_off : nat;
  file_open : bool;
}.

Record FS := mkFS {
  fs_inodes : gmap nat bytes;
  fs_names : gmap path node;
  fs_files : gmap nat file;
  fs_next : nat;
}.

Definition empty_fs : FS := mkFS ∅ ∅ ∅ 0.

Definition fs_set_inode (ino : nat) (c : bytes) (fs : FS) : FS :=
  mkFS (<[ino := c]> (fs_inodes fs)) (fs_names fs) (fs_files fs) (fs_next fs).

Definition fs_set_name (p : path) (n : node) (fs : FS) : FS :=
  mkFS (fs_inodes fs) (<[p := n]> (fs_names fs)) (fs_files fs) (fs_next fs).

Definition fs_del_name (p : path) (fs : FS) : FS :=
  mkFS (fs_inodes fs) (delete p (fs_names fs)) (fs_files fs) (fs_next fs).

Definition fs_set_file (fd : nat) (f : file) (fs : FS) : FS :=
  mkFS (fs_inodes fs) (fs_names fs) (<[fd := f]> (fs_files fs)) (fs_next fs).

Definition fs_bump (fs : FS) : FS :=
  mkFS (fs_inodes fs) (fs_names fs) (fs_files fs) (S (fs_next fs)).

Definition content (fs : FS) (ino : nat) : bytes := default [] (fs_inodes fs !! ino).

(** Overwrite the bytes from [off], filling a gap with zeros. *)
Definition write_at (c : bytes) (off : nat) (b : bytes) : bytes :=
  take off (c ++ replicate (off - length c) x00) ++ b ++ drop (off + length b) c.

(** ** Operations *)

(** The descriptor of a method call: nil is invalid, a closed file an error. *)
Definition open_file (fd : nat) : M FS file :=
  λ fs, match fs_files fs !! fd with
        | None => (Err ErrInvalid, fs)
        | Some f => if file_open f then (Ok f, fs) else (Err ErrClosed, fs)
        end.

(** A new descriptor on an inode. *)
Definition new_fd (ino : nat) (p : path) : M FS nat :=
  λ fs, let fd := fs_next fs in
        (Ok fd, fs_bump (fs_set_file fd (mkFile ino p 0 true) fs)).

(** A new empty file of that name. *)
Definition create (p : path) : M FS nat :=
  λ fs, let ino := fs_next fs in
        new_fd ino p (fs_bump (fs_set_name p (File ino) (fs_set_inode ino [] fs))).

(** [os.OpenFile(name, os.O_RDWR, _)], with [os.O_CREATE] when [creat]. *)
Definition OpenFile (p : path) (creat : bool) : M FS nat :=
  λ fs, match fs_names fs !! p with
        | Some (File ino) => new_fd ino p fs
        | Some Dir => (Err ErrIsDir, fs)
        | None => if creat then create p fs else (Err ErrNotExist, fs)
        end.

Definition TempFile : M FS nat := λ fs, create (Temp (fs_next fs)) fs.

(** [f.Seek(0, io.SeekStart)]. *)
Definition Rewind (fd : nat) : M FS unit :=
  f ← open_file fd;
  M_modify (fs_set_file fd (mkFile (file_ino f) (file_name f) 0 (file_open f))).

(** [io.Copy(dst, src)]: the rest of [src], from its offset, is written at the
    offset of [dst]; both offsets advance. *)
Definition Copy (dst src : nat) : M FS unit :=
  s ← open_file src;
  fs ← M_get;
  let data := drop (file_off s) (content fs (file_ino s)) in
  if decide (data = []) then mret tt else
  d ← open_file dst;
  M_modify (fs_set_file src
    (mkFile (file_ino s) (file_name s) (file_off s + length data) (file_open s)));;
  M_modify (fs_set_file dst
    (mkFile (file_ino d) (file_name d) (file_off d + length data) (file_open d)));;
  M_modify (fs_set_inode (file_ino d)
    (write_at (content fs (file_ino d)) (file_off d) data)).

(** [f.ReadAt]: fewer bytes than asked for only at the end of the file. *)
Definition File_ReadAt (fd : nat) : ReaderAt FS :=
  λ p off,
    if decide (off < 0) then mret (p, 0, Some ErrNegativeOffset)
    else if decide (p = []) then mret (p, 0, None)
    else
      f ← M_try (open_file fd);
      match f with
      | Ok f =>
          fs ← M_get;
          let got := take (length p) (drop (Z.to_nat off) (content fs (file_ino f))) in
          mret (go_copy p got, zlen got,
                if decide (length got < length p)%nat then Some EOF else None)
      | Err e => mret (p, 0, Some e)
      | Panic w => M_panic w
      end.

Definition File_WriteAt (fd : nat) : WriterAt FS :=
  λ b off,
    if decide (off < 0) then mret (0, Some ErrNegativeOffset)
    else if decide (b = []) then mret (0, None)
    else
      f ← M_try (open_file fd);
      match f with
      | Ok f =>
          M_modify (λ fs, fs_set_inode (file_ino f)
            (write_at (content fs (file_ino f)) (Z.to_nat off) b) fs);;
          mret (zlen b, None)
      | Err e => mret (0, Some e)
      | Panic w => M_panic w
      end.

(** [f.Truncate(size)]: cut the file, or extend it with zeros. *)
Definition File_Truncate (fd : nat) (size : Z) : M FS unit :=
  f ← open_file fd;
  M_modify (λ fs, fs_set_inode (file_ino f)
    (resize (Z.to_nat size) x00 (content fs (file_ino f))) fs).

Definition File_Close (fd : nat) : M FS unit :=
  f ← open_file fd;
  M_modify (fs_set_file fd (mkFile (file_ino f) (file_name f) (file_off f) false)).

(** [f.Name()], which a closed file keeps. *)
Definition File_Name (fd : nat) : M FS path :=
  λ fs, match fs_files fs !! fd with
        | Some f => (Ok (file_name f), fs)
        | None => (Panic "nil pointer dereference", fs)
        end.

Definition os_Remove (p : path) : M FS unit :=
  λ fs, match fs_names fs !! p with
        | None => (Err ErrNotExist, fs)
        | Some _ => (Ok tt, fs_del_name p fs)
        end.

Definition MkdirAll (p : path) : M FS unit :=
  λ fs, match fs_names fs !! p with
        | Some (File _) => (Err ErrNotDir, fs)
        | _ => (Ok tt, fs_set_name p Dir fs)
        end.

(** [os.Stat]: whether the name is a directory. *)
Definition os_Stat (p : path) : M FS bool :=
  λ fs, match fs_names fs !! p with
        | None => (Err ErrNotExist, fs)
        | Some Dir => (Ok true, fs)
        | Some (File _) => (Ok false, fs)
        end.

(** ** Lemmas *)

Lemma fs_set_inode_id ino c fs : fs_inodes fs !! ino = Some c → fs_set_inode ino c fs = fs.
Proof. intros Hc. destruct fs. unfold fs_set_inode. simpl in *. by rewrite insert_id. Qed.

Lemma content_Some fs ino c : fs_inodes fs !! ino = Some c → content fs ino = c.
Proof. unfold content. by intros ->. Qed.

Lemma write_at_0 c b : write_at c 0 b = b ++ drop (length b) c.
Proof. done. Qed.

Lemma length_write_at c off b :
  length (write_at c off b) = Nat.max (length c) (off + length b).
Proof.
  unfold write_at. rewrite !length_app, length_take, length_app, length_replicate, length_drop.
  lia.
Qed.

(** Outside these descriptors, inodes and names nothing changes. *)
Definition frame (F I : list nat) (N : list path) (fs fs' : FS) : Prop :=
  (∀ fd, fd ∉ F → fs_files fs' !! fd = fs_files fs !! fd) ∧
  (∀ j, j ∉ I → fs_inodes fs' !! j = fs_inodes fs !! j) ∧
  (∀ p, p ∉ N → fs_names fs' !! p = fs_names fs !! p) ∧
  (fs_next fs ≤ fs_next fs')%nat.

Lemma frame_refl F I N fs : frame F I N fs fs.
Proof. done. Qed.

Lemma frame_trans F I N fs1 fs2 fs3 :
  frame F I N fs1 fs2 → frame F I N fs2 fs3 → frame F I N fs1 fs3.
Proof.
  intros (HF & HI & HN & Hn) (HF' & HI' & HN' & Hn').
  split; [|split; [|split]]; [| | |lia].
  - intros fd Hfd. by rewrite HF', HF.
  - intros j Hj. by rewrite HI', HI.
  - intros p Hp. by rewrite HN', HN.
Qed.

Lemma frame_mono F I N F' I' N' fs fs' :
  F ⊆ F' → I ⊆ I' → N ⊆ N' → frame F I N fs fs' → frame F' I' N' fs fs'.
Proof. intros HF HI HN (? & ? & ? & ?). unfold frame; simpl; split_and!; auto. Qed.

Lemma open_file_Ok fd f fs :
  fs_files fs !! fd = Some f → file_open f = true → open_file fd fs = (Ok f, fs).
Proof. unfold open_file. by intros -> ->. Qed.

Lemma open_file_closed fd f fs :
  fs_files fs !! fd = Some f → file_open f = false → open_file fd fs = (Err ErrClosed, fs).
Proof. unfold open_file. by intros -> ->. Qed.

(** [create] makes an empty file under a fresh inode and descriptor. *)
Lemma create_spec p fs :
  ∃ fs', create p fs = (Ok (S (fs_next fs)), fs') ∧
    fs_files fs' !! S (fs_next fs) = Some (mkFile (fs_next fs) p 0 true) ∧
    fs_inodes fs' !! fs_next fs = Some [] ∧
    fs_names fs' !! p = Some (File (fs_next fs)) ∧
    fs_next fs' = S (S (fs_next fs)) ∧
    frame [S (fs_next fs)] [fs_next fs] [p] fs fs'.
Proof.
  eexists; split; [reflexivity|]. simpl.
  unfold frame; simpl; split_and!; simpl; try (by rewrite lookup_insert_eq); try lia;
    intros x Hx; rewrite lookup_insert_ne; set_solver.
Qed.

Lemma Rewind_spec fd j p off fs :
  fs_files fs !! fd = Some (mkFile j p off true) →
  Rewind fd fs = (Ok tt, fs_set_file fd (mkFile j p 0 true) fs).
Proof.
  intros Hf. unfold Rewind. by rewrite (M_bind_step _ _ _ _ _ (open_file_Ok _ _ _ Hf eq_refl)).
Qed.

Lemma frame_set_file fd f F I N fs : fd ∈ F → frame F I N fs (fs_set_file fd f fs).
Proof.
  intros Hfd. unfold frame; simpl; split_and!; simpl; [|done..].
  intros x Hx. rewrite lookup_insert_ne; set_solver.
Qed.

Lemma frame_set_inode j c F I N fs : j ∈ I → frame F I N fs (fs_set_inode j c fs).
Proof.
  intros Hj. unfold frame; simpl; split_and!; simpl; [done| |done..].
  intros x Hx. rewrite lookup_insert_ne; set_solver.
Qed.

Lemma frame_del_name p F I N fs : p ∈ N → frame F I N fs (fs_del_name p fs).
Proof.
  intros Hp. unfold frame; simpl; split_and!; simpl; [done|done| |done].
  intros x Hx. rewrite lookup_delete_ne; set_solver.
Qed.

(** [Copy] from the start of one open file over the start of another. *)
Lemma Copy_spec dst src jd js pd ps d s fs :
  dst ≠ src → jd ≠ js →
  fs_files fs !! src = Some (mkFile js ps 0 true) →
  fs_files fs !! dst = Some (mkFile jd pd 0 true) →
  fs_inodes fs !! js = Some s → fs_inodes fs !! jd = Some d →
  ∃ fs' os od, Copy dst src fs = (Ok tt, fs') ∧
    fs_files fs' !! src = Some (mkFile js ps os true) ∧
    fs_files fs' !! dst = Some (mkFile jd pd od true) ∧
    fs_inodes fs' !! js = Some s ∧
    fs_inodes fs' !! jd = Some (s ++ drop (length s) d) ∧
    fs_next fs' = fs_next fs ∧
    frame [dst; src] [jd] [] fs fs'.
Proof.
  intros Hne Hje Hs Hd Hcs Hcd. unfold Copy.
  rewrite (M_bind_step _ _ _ _ _ (open_file_Ok _ _ _ Hs eq_refl)). cbn [file_ino file_off].
  rewrite (M_bind_step _ _ _ fs fs) by done. rewrite (content_Some _ _ _ Hcs), drop_0.
  case_decide as Hnil.
  { subst s. exists fs, 0%nat, 0%nat. rewrite drop_0. by unfold frame; simpl; split_and!. }
  rewrite (M_bind_step _ _ _ _ _ (open_file_Ok _ _ _ Hd eq_refl)). cbn [file_ino file_off].
  rewrite (content_Some _ _ _ Hcd), write_at_0.
  eexists _, _, _. split; [reflexivity|]. simpl.
  rewrite lookup_insert_ne, !lookup_insert_eq by done.
  rewrite (lookup_insert_ne (fs_inodes fs)) by done.
  unfold frame; simpl; split_and!; try done; intros x Hx; simpl; rewrite ?lookup_insert_ne; set_solver.
Qed.
