(* ===== verification/BlobIO.v ===== *)
(** * Package blob: bounded access to the bytes of a blob

    [src/blob/io.go]: reads and writes clamped to [Size], sectors, and the
    sequential [Reader] and [Writer], over any [io.ReaderAt] or
    [io.WriterAt]. *)

From S2P Require Import Prelude GoLib Crypto Sector.

Definition ErrWriteBeyondBlobBounds : error := ESentinel "write beyond blob bounds".

Section io.
Context {S : Type}.

Definition ReadBlobAt (r : ReaderAt S) : ReaderAt S :=
  λ b off,
    if decide (Size < off) then mret (b, 0, Some EOF)
    else if decide (Size < zlen b + off) then
      let buf := replicate (Z.to_nat (Size - off)) x00 in
      '(buf, n, err) ← r buf off;
      let b := go_copy b buf in
      match err with
      | Some _ => mret (b, n, err)
      | None => mret (b, n, Some EOF)
      end
    else r b off.

Definition ReadSector (r : ReaderAt S) (id : Z) : M S (Sector * option error) :=
  '(sector, _, err) ← r ZeroSector (id * SectorBytes);
  mret (sector, err).

(** The caller's buffer [b] is part of the result: [copy(b, buf)] clears the
    part that was written. *)
Definition WriteBlobAt (w : WriterAt S) (b : bytes) (off : Z)
    : M S (bytes * Z * option error) :=
  if decide (Size < off) then mret (b, 0, Some ErrWriteBeyondBlobBounds)
  else if decide (Size < zlen b + off) then
    let buf := replicate (Z.to_nat (Size - off)) x00 in
    '(n, err) ← w (take (Z.to_nat (Size - off)) b) off;
    let b := go_copy b buf in
    match err with
    | Some _ => mret (b, n, err)
    | None => mret (b, n, Some ErrWriteBeyondBlobBounds)
    end
  else
    '(n, err) ← w b off;
    mret (b, n, err).

Definition WriteSector (w : WriterAt S) (id : Z) (sector : Sector) : M S unit :=
  '(_, err) ← w sector (id * SectorBytes);
  match err with
  | Some e => M_fail e
  | None => mret tt
  end.

(** [Reader] and [Writer]: the offset is a part of the state. *)
Definition NewReader (s : S) : S * Z := (s, 0).

Definition on_fst {A} (m : M S A) : M (S * Z) A := M_zoom fst (λ s st, (s, st.2)) m.

Definition advance (n : Z) : M (S * Z) unit := M_modify (λ st, (st.1, st.2 + n)).

Definition Reader_Read (r : ReaderAt S) : Reader (S * Z) :=
  λ p,
    '(_, offset) ← M_get;
    if decide (Size ≤ offset) then mret (p, 0, Some EOF)
    else
      let remaining := Size - offset in
      if decide (remaining < zlen p) then
        let buf := replicate (Z.to_nat remaining) x00 in
        '(buf, n, err) ← on_fst (r buf offset);
        advance n;;
        mret (go_copy p buf, n, err)
      else
        '(p, n, err) ← on_fst (r p offset);
        advance n;;
        mret (p, n, err).

Definition NewWriter (s : S) : S * Z := (s, 0).

(** Past the end of the blob the zeroed [buf] is written, and copied to [p]. *)
Definition Writer_Write (w : WriterAt S) (p : bytes) : M (S * Z) (bytes * Z * option error) :=
  '(_, offset) ← M_get;
  if decide (Size ≤ offset) then mret (p, 0, Some EOF)
  else
    let remaining := Size - offset in
    if decide (remaining < zlen p) then
      let buf := replicate (Z.to_nat remaining) x00 in
      '(n, err) ← on_fst (w buf offset);
      advance n;;
      mret (go_copy p buf, n, err)
    else
      '(n, err) ← on_fst (w p offset);
      advance n;;
      mret (p, n, err).
End io.
