(* ===== verification/BlobTx.v ===== *)
(** * Package blob: blobs and transactions

    [src/blob/blob.go] and [transaction.go].  A transaction works on a clone of
    the blob's file, made on first use, and [Commit] copies the clone back.
    Every method holds the mutex of its object, so a call is one step of the
    state [TS]: the file system and the transaction object. *)

From S2P Require Import Prelude GoLib Crypto Sector OsFile BlobIO.

(** ** blob.go *)

(** [blobImpl]: its fields never change. *)
Record Blob := mkBlob { blob_f : nat; blob_name : bytes }.

Definition newFromFile (name : bytes) (f : nat) : Blob := mkBlob f name.

Definition Blob_ReadSector (b : Blob) (id : Z) : M FS (Sector * option error) :=
  ReadSector (File_ReadAt (blob_f b)) id.

Definition Blob_ReadAt (b : Blob) : ReaderAt FS := ReadBlobAt (File_ReadAt (blob_f b)).

Definition Blob_Close (b : Blob) : M FS unit := File_Close (blob_f b).

Definition txCloner (b : Blob) : M FS nat :=
  clone ← M_wrapping "error cloning blob" TempFile;
  M_wrapping "error cloning blob" (Rewind (blob_f b));;
  M_wrapping "error cloning blob" (Copy clone (blob_f b));;
  mret clone.

Definition txCommitter (b : Blob) (clone : nat) : M FS unit :=
  M_wrapping "error committing blob" (Rewind clone);;
  M_wrapping "error committing blob" (Rewind (blob_f b));;
  M_wrapping "error committing blob" (Copy (blob_f b) clone).

Definition txRemover (b : Blob) : M FS unit :=
  name ← File_Name (blob_f b);
  os_Remove name.

(** ** transaction.go *)

Definition ErrTransactionClosed : error := ESentinel "transaction already closed".
Definition ErrTransactionRemoved : error := ESentinel "transaction removed".

(** [txImpl]; the blob stands for the three closures, [tx_f = None] is nil. *)
Record Tx := mkTx {
  tx_blob : Blob;
  tx_f : option nat;
  tx_sectorSize : Z;
  tx_initialized : bool;
  tx_closed : bool;
  tx_removed : bool;
}.

Definition Blob_Transaction (b : Blob) : Tx := mkTx b None 0 false false false.

Definition TS : Type := FS * Tx.

Definition on_fs {A} (m : M FS A) : M TS A := M_zoom fst (λ fs s, (fs, s.2)) m.
Definition tx_get : M TS Tx := λ s, (Ok s.2, s).
Definition tx_set (f : Tx → Tx) : M TS unit := M_modify (λ s, (s.1, f s.2)).

Definition set_f (fd : nat) (t : Tx) : Tx :=
  mkTx (tx_blob t) (Some fd) (tx_sectorSize t) true (tx_closed t) (tx_removed t).
Definition set_sectorSize (n : Z) (t : Tx) : Tx :=
  mkTx (tx_blob t) (tx_f t) n (tx_initialized t) (tx_closed t) (tx_removed t).
Definition set_closed (t : Tx) : Tx :=
  mkTx (tx_blob t) (tx_f t) (tx_sectorSize t) (tx_initialized t) true (tx_removed t).
Definition set_removed (t : Tx) : Tx :=
  mkTx (tx_blob t) (tx_f t) (tx_sectorSize t) (tx_initialized t) (tx_closed t) true.

(** [t.f], to call a method of. *)
Definition deref (f : option nat) : M TS nat :=
  match f with
  | Some fd => mret fd
  | None => M_panic "nil pointer dereference"
  end.

Definition lazyInitialize : M TS unit :=
  t ← tx_get;
  if tx_initialized t then mret tt
  else
    clone ← M_wrapping "error initializing transaction" (on_fs (txCloner (tx_blob t)));
    tx_set (set_f clone).

Definition io_SeekStart : Z := 0.
Definition io_SeekCurrent : Z := 1.
Definition io_SeekEnd : Z := 2.

Definition Tx_Seek (off whence : Z) : M TS Z :=
  t ← tx_get;
  if decide (Z.rem off SectorBytes ≠ 0) then M_fail (ENew "seek not a multiple of sector len")
  else if decide (off < tx_sectorSize t * SectorBytes) then
    M_fail (ENew "seek before already written sector")
  else if decide (whence = io_SeekStart) then
    if decide (Size < off) then M_fail (ENew "seek beyond blob bounds")
    else tx_set (set_sectorSize (u16 (Z.quot off SectorBytes)));; mret off
  else if decide (whence = io_SeekCurrent) then mret off
  else if decide (whence = io_SeekEnd) then mret off
  else M_panic "invalid whence".

(** The guards and the lazy initialization the reads and writes share. *)
Definition with_clone {A} (body : nat → M TS A) : M TS A :=
  t ← tx_get;
  if tx_closed t then M_fail ErrTransactionClosed
  else if tx_removed t then M_fail ErrTransactionRemoved
  else
    M_wrapping "error initializing transaction" lazyInitialize;;
    t ← tx_get;
    fd ← deref (tx_f t);
    body fd.

Definition Tx_ReadSector (id : Z) : M TS (Sector * option error) :=
  with_clone (λ f, on_fs (ReadSector (File_ReadAt f) id)).

Definition Tx_ReadAt (p : bytes) (off : Z) : M TS (bytes * Z * option error) :=
  with_clone (λ f, on_fs (ReadBlobAt (File_ReadAt f) p off)).

Definition Tx_WriteSector (sector : Sector) : M TS unit :=
  with_clone (λ f,
    t ← tx_get;
    M_wrapping "error writing sector"
      (on_fs (WriteSector (File_WriteAt f) (tx_sectorSize t) sector));;
    tx_set (set_sectorSize (u16 (tx_sectorSize t + 1)))).

Definition Tx_WriteAt (p : bytes) (off : Z) : M TS (bytes * Z * option error) :=
  with_clone (λ f, on_fs (WriteBlobAt (File_WriteAt f) p off)).

(** There is no check of [closed]. *)
Definition Tx_Truncate : M TS unit :=
  t ← tx_get;
  if tx_removed t then M_fail ErrTransactionRemoved
  else
    (if tx_initialized t then
       f ← deref (tx_f t);
       name ← on_fs (File_Name f);
       on_fs (os_Remove name)
     else mret tt);;
    clone ← M_wrapping "error creating temporary file" (on_fs TempFile);
    M_wrapping "error truncating file" (on_fs (File_Truncate clone Size));;
    tx_set (set_f clone).

(** Close and unlink the clone, panicking on an error. *)
Definition drop_clone : M TS unit :=
  t ← tx_get;
  f ← deref (tx_f t);
  M_must (on_fs (File_Close f));;
  name ← on_fs (File_Name f);
  M_must (on_fs (os_Remove name)).

Definition Tx_Commit : M TS unit :=
  t ← tx_get;
  if tx_closed t then M_fail ErrTransactionClosed
  else
    (if tx_removed t then M_must (on_fs (txRemover (tx_blob t)))
     else if tx_initialized t then
       f ← deref (tx_f t);
       M_must (on_fs (txCommitter (tx_blob t) f));;
       drop_clone
     else mret tt);;
    tx_set set_closed.

Definition Tx_Rollback : M TS unit :=
  t ← tx_get;
  if tx_closed t then M_fail ErrTransactionClosed
  else if negb (tx_initialized t) || tx_removed t then tx_set set_closed
  else drop_clone;; tx_set set_closed.

Definition Tx_Remove : M TS unit :=
  t ← tx_get;
  if tx_closed t then M_fail ErrTransactionClosed
  else
    tx_set set_removed;;
    if negb (tx_initialized t) then mret tt else drop_clone.
