(* ===== verification/BlobSpec.v ===== *)
(** * What a transaction promises, and that it does

    The specification of [src/blob/transaction.go]: the blob is a sequence of
    bytes, a transaction has a private copy of it, made on first use, which
    [Commit] writes back.  [A_exec] is that specification, [Tx_exec] the code on
    files; the refinement theorem relates every call of the two, and frames what
    a call leaves alone, so that it lifts to any number of transactions open on
    the same blob. *)

From S2P Require Import Prelude GoLib Crypto Sector OsFile BlobIO BlobTx.

#[local] Opaque Size.

(** ** Bytes in memory as a reader and a writer *)

Definition mem_ReadAt : ReaderAt bytes :=
  λ p off,
    if decide (off < 0) then mret (p, 0, Some ErrNegativeOffset)
    else if decide (p = []) then mret (p, 0, None)
    else
      λ c, let got := take (length p) (drop (Z.to_nat off) c) in
           (Ok (go_copy p got, zlen got,
                if decide (length got < length p)%nat then Some EOF else None), c).

Definition mem_WriteAt : WriterAt bytes :=
  λ b off,
    if decide (off < 0) then mret (0, Some ErrNegativeOffset)
    else if decide (b = []) then mret (0, None)
    else λ c, (Ok (zlen b, None), write_at c (Z.to_nat off) b).

(** ** The specification *)

(** The blob: its bytes, and whether its file still has its name. *)
Record AB := mkAB { ab_content : bytes; ab_linked : bool }.

(** A transaction: [a_work] is its private copy while it has one. *)
Record ATx := mkATx {
  a_work : option bytes;
  a_sectorSize : Z;
  a_initialized : bool;
  a_closed : bool;
  a_removed : bool;
}.

Definition a_new : ATx := mkATx None 0 false false false.

Definition AS : Type := AB * ATx.

Definition a_get : M AS ATx := λ s, (Ok s.2, s).

Definition a_set_work (w : bytes) (a : ATx) : ATx :=
  mkATx (Some w) (a_sectorSize a) true (a_closed a) (a_removed a).
Definition a_set_size (n : Z) (a : ATx) : ATx :=
  mkATx (a_work a) n (a_initialized a) (a_closed a) (a_removed a).
Definition a_drop (a : ATx) : ATx :=
  mkATx None (a_sectorSize a) (a_initialized a) (a_closed a) (a_removed a).
Definition a_close (a : ATx) : ATx :=
  mkATx (a_work a) (a_sectorSize a) (a_initialized a) true (a_removed a).
Definition a_remove (a : ATx) : ATx :=
  mkATx (a_work a) (a_sectorSize a) (a_initialized a) (a_closed a) true.

(** Run [body] on the private copy. *)
Definition a_with {A} (body : M bytes A) : M AS A :=
  λ '(ab, a),
    if a_closed a then (Err ErrTransactionClosed, (ab, a))
    else if a_removed a then (Err ErrTransactionRemoved, (ab, a))
    else let '(r, w) := body (default (ab_content ab) (a_work a)) in
         (r, (ab, a_set_work w a)).

Definition A_Seek (off whence : Z) : M AS Z :=
  λ '(ab, a),
    if decide (Z.rem off SectorBytes ≠ 0) then
      (Err (ENew "seek not a multiple of sector len"), (ab, a))
    else if decide (off < a_sectorSize a * SectorBytes) then
      (Err (ENew "seek before already written sector"), (ab, a))
    else if decide (whence = io_SeekStart) then
      if decide (Size < off) then (Err (ENew "seek beyond blob bounds"), (ab, a))
      else (Ok off, (ab, a_set_size (u16 (Z.quot off SectorBytes)) a))
    else if decide (whence = io_SeekCurrent) then (Ok off, (ab, a))
    else if decide (whence = io_SeekEnd) then (Ok off, (ab, a))
    else (Panic "invalid whence", (ab, a)).

Definition A_ReadSector (id : Z) : M AS (Sector * option error) :=
  a_with (ReadSector mem_ReadAt id).

Definition A_ReadAt (p : bytes) (off : Z) : M AS (bytes * Z * option error) :=
  a_with (ReadBlobAt mem_ReadAt p off).

Definition A_WriteAt (p : bytes) (off : Z) : M AS (bytes * Z * option error) :=
  a_with (WriteBlobAt mem_WriteAt p off).

(** The next sector is written; there is no bound on its index. *)
Definition A_WriteSector (sector : Sector) : M AS unit :=
  a ← a_get;
  a_with (M_wrapping "error writing sector" (WriteSector mem_WriteAt (a_sectorSize a) sector));;
  M_modify (λ '(ab, a), (ab, a_set_size (u16 (a_sectorSize a + 1)) a)).

Definition A_Truncate : M AS unit :=
  λ '(ab, a),
    if a_removed a then (Err ErrTransactionRemoved, (ab, a))
    else if a_initialized a && bool_decide (a_work a = None) then (Err ErrNotExist, (ab, a))
    else (Ok tt, (ab, a_set_work (replicate (Z.to_nat Size) x00) a)).

Definition A_Commit : M AS unit :=
  λ '(ab, a),
    if a_closed a then (Err ErrTransactionClosed, (ab, a))
    else if a_removed a then
      if ab_linked ab then (Ok tt, (mkAB (ab_content ab) false, a_close a))
      else (Panic "err", (ab, a))
    else match a_work a with
         | Some w => (Ok tt, (mkAB (w ++ drop (length w) (ab_content ab)) (ab_linked ab),
                              a_close (a_drop a)))
         | None => (Ok tt, (ab, a_close a))
         end.

Definition A_Rollback : M AS unit :=
  λ '(ab, a),
    if a_closed a then (Err ErrTransactionClosed, (ab, a))
    else (Ok tt, (ab, a_close (a_drop a))).

Definition A_Remove : M AS unit :=
  λ '(ab, a),
    if a_closed a then (Err ErrTransactionClosed, (ab, a))
    else if a_initialized a && bool_decide (a_work a = None) then
      (Panic "err", (ab, a_remove a))
    else (Ok tt, (ab, a_remove (a_drop a))).

(** ** Calls *)

Inductive call :=
| CSeek (off whence : Z)
| CReadSector (id : Z)
| CReadAt (p : bytes) (off : Z)
| CWriteSector (sector : Sector)
| CWriteAt (p : bytes) (off : Z)
| CTruncate
| CCommit
| CRollback
| CRemove.

Inductive ret :=
| RUnit
| RPos (off : Z)
| RSector (r : Sector * option error)
| RBuf (r : bytes * Z * option error).

Definition M_map {S A B} (f : A → B) (m : M S A) : M S B := a ← m; mret (f a).

Definition Tx_exec (c : call) : M TS ret :=
  match c with
  | CSeek off whence => M_map RPos (Tx_Seek off whence)
  | CReadSector id => M_map RSector (Tx_ReadSector id)
  | CReadAt p off => M_map RBuf (Tx_ReadAt p off)
  | CWriteSector s => M_map (λ _, RUnit) (Tx_WriteSector s)
  | CWriteAt p off => M_map RBuf (Tx_WriteAt p off)
  | CTruncate => M_map (λ _, RUnit) Tx_Truncate
  | CCommit => M_map (λ _, RUnit) Tx_Commit
  | CRollback => M_map (λ _, RUnit) Tx_Rollback
  | CRemove => M_map (λ _, RUnit) Tx_Remove
  end.

Definition A_exec (c : call) : M AS ret :=
  match c with
  | CSeek off whence => M_map RPos (A_Seek off whence)
  | CReadSector id => M_map RSector (A_ReadSector id)
  | CReadAt p off => M_map RBuf (A_ReadAt p off)
  | CWriteSector s => M_map (λ _, RUnit) (A_WriteSector s)
  | CWriteAt p off => M_map RBuf (A_WriteAt p off)
  | CTruncate => M_map (λ _, RUnit) A_Truncate
  | CCommit => M_map (λ _, RUnit) A_Commit
  | CRollback => M_map (λ _, RUnit) A_Rollback
  | CRemove => M_map (λ _, RUnit) A_Remove
  end.

(** ** The refinement relation *)

Section refinement.
Context (b : Blob) (i : nat) (P : bytes).

Record Rblob (fs : FS) (ab : AB) : Prop := mkRblob {
  rb_file : ∃ off, fs_files fs !! blob_f b = Some (mkFile i (Path P) off true);
  rb_content : fs_inodes fs !! i = Some (ab_content ab);
  rb_name : fs_names fs !! Path P = if ab_linked ab then Some (File i) else None;
  rb_lt : (blob_f b < fs_next fs ∧ i < fs_next fs)%nat;
}.

(** The descriptor, inode and temporary name of a transaction's clone. *)
Definition owns (fs : FS) (t : Tx) (o : bool) (fd j n : nat) : Prop :=
  tx_f t = Some fd ∧ (∃ off, fs_files fs !! fd = Some (mkFile j (Temp n) off o)) ∧
  fd ≠ blob_f b ∧ j ≠ i ∧ (fd < fs_next fs ∧ j < fs_next fs ∧ n < fs_next fs)%nat.

Definition Rwork (fs : FS) (t : Tx) (a : ATx) : Prop :=
  match a_work a with
  | Some w =>
      a_initialized a = true ∧ a_removed a = false ∧
      ∃ fd j n, owns fs t true fd j n ∧
        fs_inodes fs !! j = Some w ∧ fs_names fs !! Temp n = Some (File j)
  | None =>
      if a_initialized a then
        a_closed a || a_removed a = true ∧
        ∃ fd j n, owns fs t false fd j n ∧ fs_names fs !! Temp n = None
      else tx_f t = None
  end.

Record Rtx (fs : FS) (t : Tx) (a : ATx) : Prop := mkRtx {
  rt_blob : tx_blob t = b;
  rt_size : tx_sectorSize t = a_sectorSize a;
  rt_initialized : tx_initialized t = a_initialized a;
  rt_closed : tx_closed t = a_closed a;
  rt_removed : tx_removed t = a_removed a;
  rt_work : Rwork fs t a;
}.

(** What a call on [t] may change: the blob, the clone of [t], and what did not
    exist; the clone it has afterwards is its own or a new one. *)
Definition tx_frame (fs : FS) (t : Tx) (fs' : FS) (t' : Tx) : Prop :=
  (fs_next fs ≤ fs_next fs')%nat ∧
  (∀ fd j n, (fd < fs_next fs)%nat → (j < fs_next fs)%nat → (n < fs_next fs)%nat →
    fd ≠ blob_f b → j ≠ i →
    (∀ o fd0 j0 n0, owns fs t o fd0 j0 n0 → fd ≠ fd0 ∧ j ≠ j0 ∧ n ≠ n0) →
    fs_files fs' !! fd = fs_files fs !! fd ∧
    fs_inodes fs' !! j = fs_inodes fs !! j ∧
    fs_names fs' !! Temp n = fs_names fs !! Temp n) ∧
  (∀ o fd j n, owns fs' t' o fd j n →
    (∃ o', owns fs t o' fd j n) ∨
    (fs_next fs ≤ fd ∧ fs_next fs ≤ j ∧ fs_next fs ≤ n)%nat).

Definition simulates {A} (c : M TS A) (m : M AS A) : Prop :=
  ∀ fs t ab a, Rblob fs ab → Rtx fs t a →
  ∃ r fs' t' ab' a',
    c (fs, t) = (r, (fs', t')) ∧ m (ab, a) = (r, (ab', a')) ∧
    Rblob fs' ab' ∧ Rtx fs' t' a' ∧ tx_frame fs t fs' t'.

(** ** A file operation is a memory operation on its inode *)

Section inode.
Context (fd j : nat) (p : path).

Definition inode_sim {A} (c : M FS A) (m : M bytes A) : Prop :=
  ∀ fs w off, fs_files fs !! fd = Some (mkFile j p off true) → fs_inodes fs !! j = Some w →
  c fs = ((m w).1, fs_set_inode j (m w).2 fs).

Lemma inode_sim_ret {A} (a : A) : inode_sim (mret a) (mret a).
Proof. intros fs w off _ Hj. simpl. by rewrite fs_set_inode_id. Qed.

Lemma inode_sim_fail {A} e : inode_sim (A := A) (M_fail e) (M_fail e).
Proof. intros fs w off _ Hj. simpl. by rewrite fs_set_inode_id. Qed.

Lemma inode_sim_bind {A B} (c : M FS A) m (f : A → M FS B) g :
  inode_sim c m → (∀ a, inode_sim (f a) (g a)) → inode_sim (c ≫= f) (m ≫= g).
Proof.
  intros Hc Hf fs w off Hfd Hj. unfold mbind, M_bind. rewrite (Hc _ _ _ Hfd Hj).
  destruct (m w) as [[a|e|e] w']; simpl; [|done..].
  rewrite (Hf a _ w' off); [|done|by simpl; rewrite lookup_insert_eq].
  unfold fs_set_inode. simpl. by rewrite insert_insert_eq.
Qed.

Lemma inode_sim_wrapping {A} msg (c : M FS A) m :
  inode_sim c m → inode_sim (M_wrapping msg c) (M_wrapping msg m).
Proof.
  intros Hc fs w off Hfd Hj. unfold M_wrapping. rewrite (Hc _ _ _ Hfd Hj).
  by destruct (m w).
Qed.

Lemma inode_sim_ReadAt q off : inode_sim (File_ReadAt fd q off) (mem_ReadAt q off).
Proof.
  unfold File_ReadAt, mem_ReadAt. case_decide; [apply inode_sim_ret|].
  case_decide; [apply inode_sim_ret|]. intros fs w o Hfd Hj.
  rewrite (M_bind_step _ _ _ (Ok (mkFile j p o true)) fs)
    by (unfold M_try; by rewrite (open_file_Ok _ _ _ Hfd eq_refl)).
  cbn beta iota. rewrite (M_bind_step M_get _ fs fs fs eq_refl). cbn [file_ino].
  rewrite (content_Some _ _ _ Hj). simpl.
  by rewrite fs_set_inode_id.
Qed.

Lemma inode_sim_WriteAt q off : inode_sim (File_WriteAt fd q off) (mem_WriteAt q off).
Proof.
  unfold File_WriteAt, mem_WriteAt. case_decide; [apply inode_sim_ret|].
  case_decide; [apply inode_sim_ret|]. intros fs w o Hfd Hj.
  rewrite (M_bind_step _ _ _ (Ok (mkFile j p o true)) fs)
    by (unfold M_try; by rewrite (open_file_Ok _ _ _ Hfd eq_refl)).
  cbn beta iota. rewrite (M_bind_step (M_modify _) _ fs tt _ eq_refl). cbn [file_ino].
  by rewrite (content_Some _ _ _ Hj).
Qed.

Lemma inode_sim_ReadSector id :
  inode_sim (ReadSector (File_ReadAt fd) id) (ReadSector mem_ReadAt id).
Proof.
  apply inode_sim_bind; [apply inode_sim_ReadAt|]. intros [[s n] err]. apply inode_sim_ret.
Qed.

Lemma inode_sim_WriteSector id s :
  inode_sim (WriteSector (File_WriteAt fd) id s) (WriteSector mem_WriteAt id s).
Proof.
  apply inode_sim_bind; [apply inode_sim_WriteAt|].
  intros [n [e|]]; [apply inode_sim_fail|apply inode_sim_ret].
Qed.

Lemma inode_sim_ReadBlobAt q off :
  inode_sim (ReadBlobAt (File_ReadAt fd) q off) (ReadBlobAt mem_ReadAt q off).
Proof.
  unfold ReadBlobAt. case_decide; [apply inode_sim_ret|].
  case_decide; [|apply inode_sim_ReadAt].
  apply inode_sim_bind; [apply inode_sim_ReadAt|].
  intros [[s n] [e|]]; apply inode_sim_ret.
Qed.

Lemma inode_sim_WriteBlobAt q off :
  inode_sim (WriteBlobAt (File_WriteAt fd) q off) (WriteBlobAt mem_WriteAt q off).
Proof.
  unfold WriteBlobAt. case_decide; [apply inode_sim_ret|].
  case_decide; (apply inode_sim_bind; [apply inode_sim_WriteAt|]);
    intros [n [e|]]; apply inode_sim_ret.
Qed.
End inode.

(** ** Frames *)

Lemma Rblob_frame fs ab F I N fs' :
  Rblob fs ab → frame F I N fs fs' → blob_f b ∉ F → i ∉ I → Path P ∉ N → Rblob fs' ab.
Proof.
  intros [[off Hf] Hc Hn [? ?]] (HF & HI & HN & Hnx) HbF HiI HPN. split.
  - exists off. by rewrite HF.
  - by rewrite HI.
  - by rewrite HN.
  - lia.
Qed.

(** Descriptors, inodes and names a call on [t] may touch. *)
Definition may_touch (fs : FS) (t : Tx) (F I : list nat) (N : list path) : Prop :=
  (∀ fd, fd ∈ F → fd = blob_f b ∨ (fs_next fs ≤ fd)%nat ∨ ∃ o j n, owns fs t o fd j n) ∧
  (∀ j, j ∈ I → j = i ∨ (fs_next fs ≤ j)%nat ∨ ∃ o fd n, owns fs t o fd j n) ∧
  (∀ n, Temp n ∈ N → (fs_next fs ≤ n)%nat ∨ ∃ o fd j, owns fs t o fd j n).

Lemma frame_touch F I N fs t fs' fd j n :
  frame F I N fs fs' → may_touch fs t F I N →
  (fd < fs_next fs)%nat → (j < fs_next fs)%nat → (n < fs_next fs)%nat →
  fd ≠ blob_f b → j ≠ i →
  (∀ o fd0 j0 n0, owns fs t o fd0 j0 n0 → fd ≠ fd0 ∧ j ≠ j0 ∧ n ≠ n0) →
  fs_files fs' !! fd = fs_files fs !! fd ∧
  fs_inodes fs' !! j = fs_inodes fs !! j ∧
  fs_names fs' !! Temp n = fs_names fs !! Temp n.
Proof.
  intros (HF & HI & HN & _) (TF & TI & TN) Hfd Hj Hn Hb Hi Hd. split_and!.
  - apply HF. intros [?|[?|(o & j0 & n0 & Ho)]]%TF; [done|lia|]. by apply Hd in Ho as [? _].
  - apply HI. intros [?|[?|(o & fd0 & n0 & Ho)]]%TI; [done|lia|]. by apply Hd in Ho as (_ & ? & _).
  - apply HN. intros [?|(o & fd0 & j0 & Ho)]%TN; [lia|]. by apply Hd in Ho as (_ & _ & ?).
Qed.

(** The clone stays the same one. *)
Lemma tx_frame_keep F I N fs t fs' t' o o' fd j n off :
  frame F I N fs fs' → may_touch fs t F I N → owns fs t o fd j n → tx_f t' = tx_f t →
  fs_files fs' !! fd = Some (mkFile j (Temp n) off o') → tx_frame fs t fs' t'.
Proof.
  intros Hf Ht Ho Htf Hfd. split; [apply Hf|]. split; [intros; by eapply frame_touch|].
  intros o1 fd1 j1 n1 (Ht1 & (off1 & Hf1) & _). left. exists o.
  destruct Ho as (Hto & ? & ?). assert (fd1 = fd) as -> by congruence.
  rewrite Hfd in Hf1. injection Hf1 as <- <- _ _. by split.
Qed.

(** The clone is a new file, or there is none. *)
Lemma tx_frame_fresh F I N fs t fs' t' fd j n off :
  frame F I N fs fs' → may_touch fs t F I N → tx_f t' = Some fd →
  fs_files fs' !! fd = Some (mkFile j (Temp n) off true) →
  (fs_next fs ≤ fd)%nat → (fs_next fs ≤ j)%nat → (fs_next fs ≤ n)%nat →
  tx_frame fs t fs' t'.
Proof.
  intros Hf Ht Htf Hfd ???. split; [apply Hf|]. split; [intros; by eapply frame_touch|].
  intros o1 fd1 j1 n1 (Ht1 & (off1 & Hf1) & _). right. simplify_eq. done.
Qed.

Lemma tx_frame_none F I N fs t fs' t' :
  frame F I N fs fs' → may_touch fs t F I N → tx_f t' = None → tx_frame fs t fs' t'.
Proof.
  intros Hf Ht Htf. split; [apply Hf|]. split; [intros; by eapply frame_touch|].
  intros o1 fd1 j1 n1 (Ht1 & _). congruence.
Qed.

Lemma tx_frame_refl fs t t' : tx_f t' = tx_f t → tx_frame fs t fs t'.
Proof.
  intros Ht. split; [done|]. split; [done|].
  intros o fd j n [Ho ?]. left. exists o. split; [congruence|done].
Qed.

Lemma tx_frame_trans fs1 t1 fs2 t2 fs3 t3 :
  tx_frame fs1 t1 fs2 t2 → tx_frame fs2 t2 fs3 t3 → tx_frame fs1 t1 fs3 t3.
Proof.
  intros (Hn & Hu & Ho) (Hn' & Hu' & Ho'). split; [lia|]. split.
  - intros fd j n ????? Hd.
    destruct (Hu fd j n) as (<- & <- & <-); [done..|].
    apply Hu'; [lia..|done|done|]. intros o fd0 j0 n0 [[o' Hown]|?]%Ho; [|lia].
    by eapply Hd.
  - intros o fd j n [[o' [?|?]%Ho]|?]%Ho'; [by left|by right|right; lia].
Qed.

Lemma may_touch_nil fs t : may_touch fs t [] [] [].
Proof. split_and!; intros ? ?%elem_of_nil; done. Qed.

(** ** The calls on files *)

Lemma M_wrapping_Ok {S A} msg (m : M S A) s a s' :
  m s = (Ok a, s') → M_wrapping msg m s = (Ok a, s').
Proof. unfold M_wrapping. by intros ->. Qed.

Lemma M_must_Ok {S A} (m : M S A) s a s' :
  m s = (Ok a, s') → M_must m s = (Ok a, s').
Proof. unfold M_must. by intros ->. Qed.

Lemma txCloner_spec fs ab :
  Rblob fs ab →
  ∃ fs' off, txCloner b fs = (Ok (S (fs_next fs)), fs') ∧ Rblob fs' ab ∧
    fs_files fs' !! S (fs_next fs) = Some (mkFile (fs_next fs) (Temp (fs_next fs)) off true) ∧
    fs_inodes fs' !! fs_next fs = Some (ab_content ab) ∧
    fs_names fs' !! Temp (fs_next fs) = Some (File (fs_next fs)) ∧
    fs_next fs' = S (S (fs_next fs)) ∧
    frame [S (fs_next fs); blob_f b] [fs_next fs] [Temp (fs_next fs)] fs fs'.
Proof.
  intros HR. destruct (create_spec (Temp (fs_next fs)) fs)
    as (fs1 & Hcr & Hf1 & Hi1 & Hn1 & Hnx & Hfr).
  destruct HR as [[off Hbf] Hbc Hbn [Hlt1 Hlt2]].
  pose proof Hfr as (HF & HI & HN & _).
  assert (fs_files fs1 !! blob_f b = Some (mkFile i (Path P) off true)) as Hbf1.
  { rewrite HF; [done|]. set_unfold. lia. }
  assert (fs_inodes fs1 !! i = Some (ab_content ab)) as Hbc1.
  { rewrite HI; [done|]. set_unfold. lia. }
  destruct (Copy_spec (S (fs_next fs)) (blob_f b) (fs_next fs) i (Temp (fs_next fs)) (Path P)
    [] (ab_content ab) (fs_set_file (blob_f b) (mkFile i (Path P) 0 true) fs1))
    as (fs2 & os & od & Hcp & Hs2 & Hd2 & Hci2 & Hcd2 & Hnx2 & Hfr2).
  { lia. } { lia. } { by simpl; rewrite lookup_insert_eq. }
  { simpl. by rewrite lookup_insert_ne by lia. } { done. } { done. }
  exists fs2, od. split.
  { unfold txCloner.
    rewrite (M_bind_step _ _ _ _ _ (M_wrapping_Ok _ TempFile _ _ _ Hcr)).
    rewrite (M_bind_step _ _ _ _ _ (M_wrapping_Ok _ _ _ _ _ (Rewind_spec _ _ _ _ _ Hbf1))).
    by rewrite (M_bind_step _ _ _ _ _ (M_wrapping_Ok _ _ _ _ _ Hcp)). }
  assert (frame [S (fs_next fs); blob_f b] [fs_next fs] [Temp (fs_next fs)] fs fs2) as Hfr3.
  { eapply frame_trans; [eapply frame_mono; [..|exact Hfr]; set_solver|].
    eapply frame_trans; [apply (frame_set_file (blob_f b)); set_solver|].
    eapply frame_mono; [..|exact Hfr2]; set_solver. }
  destruct Hfr3 as (HF3 & HI3 & HN3 & Hnx3) eqn:E; clear E.
  rewrite drop_nil, app_nil_r in Hcd2. split.
  { split; [by exists os|done| |simpl in Hnx2; lia]. rewrite HN3; [done|set_solver]. }
  split_and!; try done; [|simpl in Hnx2; lia].
  destruct Hfr2 as (_ & _ & HN2 & _). rewrite HN2 by set_solver. done.
Qed.

Lemma txCommitter_spec fs ab fd j n off w :
  Rblob fs ab → fs_files fs !! fd = Some (mkFile j (Temp n) off true) →
  fs_inodes fs !! j = Some w → fd ≠ blob_f b → j ≠ i →
  ∃ fs' off', txCommitter b fd fs = (Ok tt, fs') ∧
    Rblob fs' (mkAB (w ++ drop (length w) (ab_content ab)) (ab_linked ab)) ∧
    fs_files fs' !! fd = Some (mkFile j (Temp n) off' true) ∧
    frame [blob_f b; fd] [i] [] fs fs'.
Proof.
  intros [[boff Hbf] Hbc Hbn [? ?]] Hfd Hj Hne Hji.
  destruct (Copy_spec (blob_f b) fd i j (Path P) (Temp n) (ab_content ab) w
    (fs_set_file (blob_f b) (mkFile i (Path P) 0 true)
      (fs_set_file fd (mkFile j (Temp n) 0 true) fs)))
    as (fs2 & os & od & Hcp & Hs2 & Hd2 & Hci2 & Hcd2 & Hnx2 & Hfr2).
  { done. } { done. } { simpl. by rewrite lookup_insert_ne, lookup_insert_eq. }
  { by simpl; rewrite lookup_insert_eq. } { done. } { done. }
  assert (frame [blob_f b; fd] [i] [] fs fs2) as Hfr3.
  { eapply frame_trans; [apply (frame_set_file fd); set_solver|].
    eapply frame_trans; [apply (frame_set_file (blob_f b)); set_solver|]. exact Hfr2. }
  exists fs2, os. split.
  { assert (fs_files (fs_set_file fd (mkFile j (Temp n) 0 true) fs) !! blob_f b =
      Some (mkFile i (Path P) boff true)) as Hbf' by (simpl; by rewrite lookup_insert_ne).
    unfold txCommitter.
    rewrite (M_bind_step _ _ _ _ _ (M_wrapping_Ok _ _ _ _ _ (Rewind_spec _ _ _ _ _ Hfd))).
    rewrite (M_bind_step _ _ _ _ _ (M_wrapping_Ok _ _ _ _ _ (Rewind_spec _ _ _ _ _ Hbf'))).
    by rewrite (M_wrapping_Ok _ _ _ _ _ Hcp). }
  split; [|by split]. split; [by exists od|done| |simpl in Hnx2; lia].
  destruct Hfr3 as (_ & _ & HN & _). by rewrite HN by set_solver.
Qed.

(** ** Every call is simulated *)

Lemma on_fs_Ok {A} (m : M FS A) fs t r fs' :
  m fs = (r, fs') → on_fs m (fs, t) = (r, (fs', t)).
Proof. unfold on_fs, M_zoom. simpl. by intros ->. Qed.

(** An open transaction after [lazyInitialize]. *)
Lemma with_clone_ready {A} (body : nat → M TS A) fs t ab a :
  Rblob fs ab → Rtx fs t a → a_closed a = false → a_removed a = false →
  ∃ fd j n fs1 t1,
    with_clone body (fs, t) = body fd (fs1, t1) ∧
    Rblob fs1 ab ∧ Rtx fs1 t1 (a_set_work (default (ab_content ab) (a_work a)) a) ∧
    owns fs1 t1 true fd j n ∧
    fs_inodes fs1 !! j = Some (default (ab_content ab) (a_work a)) ∧
    fs_names fs1 !! Temp n = Some (File j) ∧
    tx_frame fs t fs1 t1.
Proof.
  intros HR [Hb Hs Hi Hc Hr Hw] Hac Har. unfold with_clone.
  rewrite (M_bind_step tx_get _ (fs, t) t (fs, t) eq_refl).
  rewrite Hc, Hr, Hac, Har. unfold lazyInitialize, Rwork in *.
  destruct (a_work a) as [w|] eqn:Hwork.
  - destruct Hw as (Hia & _ & fd & j & n & Ho & Hj & Hn).
    exists fd, j, n, fs, t. split.
    { rewrite (M_bind_step _ _ _ tt (fs, t)).
      2:{ apply M_wrapping_Ok. rewrite (M_bind_step tx_get _ (fs, t) t (fs, t) eq_refl).
          by rewrite Hi, Hia. }
      rewrite (M_bind_step tx_get _ (fs, t) t (fs, t) eq_refl). by destruct Ho as [-> _]. }
    split; [done|]. split; [|by split_and!; [..|apply tx_frame_refl]].
    split; try done; [simpl; congruence|]. unfold Rwork. simpl. split; [done|].
    split; [done|]. by exists fd, j, n.
  - destruct (a_initialized a) eqn:Hia.
    { rewrite Hac, Har in Hw. by destruct Hw. }
    destruct (txCloner_spec fs ab HR) as (fs1 & off & Hcl & HR1 & Hf1 & Hi1 & Hn1 & Hnx & Hfr).
    set (nx := fs_next fs) in *. destruct HR as [_ _ _ [? ?]].
    assert (owns fs1 (set_f (S nx) t) true (S nx) nx nx) as Ho.
    { split; [done|]. split; [by exists off|]. subst nx. lia. }
    exists (S nx), nx, nx, fs1, (set_f (S nx) t). split.
    { rewrite (M_bind_step _ _ _ tt (fs1, set_f (S nx) t)).
      2:{ apply M_wrapping_Ok. rewrite (M_bind_step tx_get _ (fs, t) t (fs, t) eq_refl).
          rewrite Hi, Hb. by rewrite (M_bind_step _ _ _ (S nx) (fs1, t))
            by (by apply M_wrapping_Ok, on_fs_Ok). }
      by rewrite (M_bind_step tx_get _ (fs1, set_f (S nx) t) (set_f (S nx) t)
        (fs1, set_f (S nx) t) eq_refl). }
    split; [done|]. split; [|split_and!; try done].
    { split; simpl; try congruence. unfold Rwork. simpl. split; [done|]. split; [done|]. by exists (S nx), nx, nx. }
    eapply tx_frame_fresh; [exact Hfr| |done|exact Hf1|lia..].
    split_and!; intros x Hx; subst nx; set_unfold; [naive_solver lia|right; left; lia|].
    left. naive_solver.
Qed.

Lemma owns_set_inode fs t o fd j n j' w :
  owns fs t o fd j n → owns (fs_set_inode j' w fs) t o fd j n.
Proof. done. Qed.

(** Writing the clone. *)
Lemma Rtx_set_inode fs t a fd j n w w' :
  Rtx fs t (a_set_work w a) → owns fs t true fd j n → fs_names fs !! Temp n = Some (File j) →
  Rtx (fs_set_inode j w' fs) t (a_set_work w' a).
Proof.
  intros [Hb Hs Hi Hc Hr Hw] Ho Hn. split; try done.
  unfold Rwork in *. simpl in *. destruct Hw as (? & ? & _). split; [done|]. split; [done|].
  exists fd, j, n. split; [exact Ho|]. by rewrite lookup_insert_eq.
Qed.

Lemma Rblob_set_inode fs ab j w : Rblob fs ab → j ≠ i → Rblob (fs_set_inode j w fs) ab.
Proof.
  intros HR Hj. eapply Rblob_frame; [exact HR|apply (frame_set_inode j w [] [j] []); set_solver|..];
    set_solver.
Qed.

Lemma tx_frame_set_inode fs t fd j n w :
  owns fs t true fd j n → tx_frame fs t (fs_set_inode j w fs) t.
Proof.
  intros Ho. pose proof Ho as (_ & [off Hf] & _).
  eapply (tx_frame_keep [] [j] []);
    [apply frame_set_inode; set_solver| |exact Ho|done|exact Hf].
  split_and!; intros x Hx; [by apply elem_of_nil in Hx| |by apply elem_of_nil in Hx].
  apply list_elem_of_singleton in Hx as ->. right. right. by exists true, fd, n.
Qed.

Lemma simulates_with_clone {A} (c : nat → M FS A) m :
  (∀ fd j p, inode_sim fd j p (c fd) m) →
  simulates (with_clone (λ f, on_fs (c f))) (a_with m).
Proof.
  intros Hsim fs t ab a HR HT. unfold a_with.
  destruct (a_closed a) eqn:Hac.
  { exists (Err ErrTransactionClosed), fs, t, ab, a. unfold with_clone.
    rewrite (M_bind_step tx_get _ (fs, t) t (fs, t) eq_refl), (rt_closed _ _ _ HT), Hac.
    by split_and!; [..|apply tx_frame_refl]. }
  destruct (a_removed a) eqn:Har.
  { exists (Err ErrTransactionRemoved), fs, t, ab, a. unfold with_clone.
    rewrite (M_bind_step tx_get _ (fs, t) t (fs, t) eq_refl).
    rewrite (rt_closed _ _ _ HT), Hac, (rt_removed _ _ _ HT), Har.
    by split_and!; [..|apply tx_frame_refl]. }
  destruct (with_clone_ready (λ f, on_fs (c f)) fs t ab a HR HT Hac Har)
    as (fd & j & n & fs1 & t1 & -> & HR1 & HT1 & Ho & Hj & Hn & Hf).
  set (w := default (ab_content ab) (a_work a)) in *.
  pose proof Ho as (Htf & [off Hfd] & _ & Hji & _).
  exists (m w).1, (fs_set_inode j (m w).2 fs1), t1, ab, (a_set_work (m w).2 a). split_and!.
  - apply on_fs_Ok. by eapply Hsim.
  - by destruct (m w).
  - by apply Rblob_set_inode.
  - by eapply Rtx_set_inode.
  - eapply tx_frame_trans; [exact Hf|]. by eapply tx_frame_set_inode.
Qed.

Lemma may_touch_clone fs t o fd j n :
  owns fs t o fd j n → may_touch fs t [blob_f b; fd] [i; j] [Path P; Temp n].
Proof.
  intros Ho. split_and!; intros x [Hx|Hx%list_elem_of_singleton]%elem_of_cons.
  - by left.
  - right. right. subst x. by exists o, j, n.
  - by left.
  - right. right. subst x. by exists o, fd, n.
  - done.
  - right. injection Hx as ->. by exists o, fd, j.
Qed.

(** Closing and unlinking the clone. *)
Lemma drop_clone_spec fs t fd j n :
  owns fs t true fd j n → fs_names fs !! Temp n = Some (File j) →
  ∃ fs', drop_clone (fs, t) = (Ok tt, (fs', t)) ∧ owns fs' t false fd j n ∧
    fs_names fs' !! Temp n = None ∧ frame [fd] [] [Temp n] fs fs' ∧ fs_next fs' = fs_next fs.
Proof.
  intros (Htf & [off Hfd] & Hbounds) Hn.
  set (fs1 := fs_set_file fd (mkFile j (Temp n) off false) fs).
  exists (fs_del_name (Temp n) fs1). split_and!.
  - unfold drop_clone. rewrite (M_bind_step tx_get _ (fs, t) t (fs, t) eq_refl), Htf.
    rewrite (M_bind_step (deref (Some fd)) _ (fs, t) fd (fs, t) eq_refl).
    rewrite (M_bind_step _ _ _ tt (fs1, t)).
    2:{ apply M_must_Ok, on_fs_Ok. unfold File_Close.
        by rewrite (M_bind_step _ _ _ _ _ (open_file_Ok _ _ _ Hfd eq_refl)). }
    rewrite (M_bind_step _ _ _ (Temp n) (fs1, t)).
    2:{ apply on_fs_Ok. unfold File_Name, fs1. simpl. by rewrite lookup_insert_eq. }
    apply M_must_Ok, on_fs_Ok. unfold os_Remove, fs1. simpl. by rewrite Hn.
  - split; [done|]. split; [exists off; unfold fs1; simpl; by rewrite lookup_insert_eq|done].
  - simpl. by rewrite lookup_delete_eq.
  - eapply frame_trans; [apply (frame_set_file fd); set_solver|].
    apply (frame_del_name (Temp n)). set_solver.
  - done.
Qed.

Lemma drop_clone_twice fs t fd j n :
  owns fs t false fd j n → drop_clone (fs, t) = (Panic "err", (fs, t)).
Proof.
  intros (Htf & [off Hfd] & _). unfold drop_clone.
  rewrite (M_bind_step tx_get _ (fs, t) t (fs, t) eq_refl), Htf.
  rewrite (M_bind_step (deref (Some fd)) _ (fs, t) fd (fs, t) eq_refl).
  unfold mbind, M_bind, M_must. rewrite (on_fs_Ok _ _ _ (Err ErrClosed) fs); [done|].
  unfold File_Close, mbind, M_bind. by rewrite (open_file_closed _ _ _ Hfd eq_refl).
Qed.

Lemma simulates_Seek off whence : simulates (Tx_Seek off whence) (A_Seek off whence).
Proof.
  intros fs t ab a HR HT. unfold Tx_Seek, A_Seek.
  rewrite (M_bind_step tx_get _ (fs, t) t (fs, t) eq_refl), (rt_size _ _ _ HT).
  repeat case_decide; (eexists _, _, _, _, _; split; [reflexivity|]; split; [reflexivity|];
    split; [done|]; split; [|by apply tx_frame_refl]; try done).
  destruct HT as [Hb Hs Hi Hc Hr Hw]. by split.
Qed.

Lemma simulates_WriteSector s : simulates (Tx_WriteSector s) (A_WriteSector s).
Proof.
  intros fs t ab a HR HT. unfold A_WriteSector.
  rewrite (M_bind_step a_get _ (ab, a) a (ab, a) eq_refl).
  unfold Tx_WriteSector.
  destruct (a_closed a) eqn:Hac.
  { exists (Err ErrTransactionClosed), fs, t, ab, a. unfold with_clone.
    rewrite (M_bind_step tx_get _ (fs, t) t (fs, t) eq_refl), (rt_closed _ _ _ HT), Hac.
    unfold mbind, M_bind, a_with. rewrite Hac. by split_and!; [..|apply tx_frame_refl]. }
  destruct (a_removed a) eqn:Har.
  { exists (Err ErrTransactionRemoved), fs, t, ab, a. unfold with_clone.
    rewrite (M_bind_step tx_get _ (fs, t) t (fs, t) eq_refl).
    rewrite (rt_closed _ _ _ HT), Hac, (rt_removed _ _ _ HT), Har.
    unfold mbind, M_bind, a_with. rewrite Hac, Har. by split_and!; [..|apply tx_frame_refl]. }
  destruct (with_clone_ready (λ f, t ← tx_get;
    M_wrapping "error writing sector"
      (on_fs (WriteSector (File_WriteAt f) (tx_sectorSize t) s));;
    tx_set (set_sectorSize (u16 (tx_sectorSize t + 1)))) fs t ab a HR HT Hac Har)
    as (fd & j & n & fs1 & t1 & -> & HR1 & HT1 & Ho & Hj & Hn & Hf).
  rewrite (M_bind_step tx_get _ (fs1, t1) t1 (fs1, t1) eq_refl), (rt_size _ _ _ HT1).
  set (w := default (ab_content ab) (a_work a)) in *. cbn [a_sectorSize a_set_work].
  set (m := WriteSector mem_WriteAt (a_sectorSize a) s).
  pose proof Ho as (Htf & [off Hfd] & _ & Hji & _).
  assert (Hc : on_fs (WriteSector (File_WriteAt fd) (a_sectorSize a) s) (fs1, t1)
    = ((m w).1, (fs_set_inode j (m w).2 fs1, t1))).
  { apply on_fs_Ok. by eapply (inode_sim_WriteSector fd j (Temp n)). }
  assert (Ha : a_with (M_wrapping "error writing sector" m) (ab, a)
    = (wrapping "error writing sector" (m w).1, (ab, a_set_work (m w).2 a))).
  { unfold a_with. rewrite Hac, Har. fold w. unfold M_wrapping. by destruct (m w). }
  assert (HT2 := Rtx_set_inode fs1 t1 a fd j n w (m w).2 HT1 Ho Hn).
  assert (HF : tx_frame fs t (fs_set_inode j (m w).2 fs1) t1).
  { eapply tx_frame_trans; [exact Hf|]. by eapply tx_frame_set_inode. }
  unfold mbind, M_bind. rewrite Ha. unfold M_wrapping. rewrite Hc.
  destruct (m w).1 as [[]|e|e]; simpl; eexists _, _, _, _, _;
    (split; [reflexivity|]); (split; [reflexivity|]);
    (split; [by apply Rblob_set_inode|]); (split; [|done]); try done.
  destruct HT2 as [Hb Hs Hi Hcl Hr Hw]. by split.
Qed.

(** A new clone of zeros. *)
Lemma new_clone_spec fs (t : Tx) :
  ∃ fs', (clone ← M_wrapping "error creating temporary file" (on_fs TempFile);
          M_wrapping "error truncating file" (on_fs (File_Truncate clone Size));;
          tx_set (set_f clone)) (fs, t) = (Ok tt, (fs', set_f (S (fs_next fs)) t)) ∧
    fs_files fs' !! S (fs_next fs) = Some (mkFile (fs_next fs) (Temp (fs_next fs)) 0 true) ∧
    fs_inodes fs' !! fs_next fs = Some (replicate (Z.to_nat Size) x00) ∧
    fs_names fs' !! Temp (fs_next fs) = Some (File (fs_next fs)) ∧
    fs_next fs' = S (S (fs_next fs)) ∧
    frame [S (fs_next fs)] [fs_next fs] [Temp (fs_next fs)] fs fs'.
Proof.
  destruct (create_spec (Temp (fs_next fs)) fs) as (fs1 & Hcr & Hf1 & Hi1 & Hn1 & Hnx & Hfr).
  exists (fs_set_inode (fs_next fs) (replicate (Z.to_nat Size) x00) fs1). split_and!; try done.
  - rewrite (M_bind_step _ _ _ (S (fs_next fs)) (fs1, t))
      by (by apply M_wrapping_Ok, on_fs_Ok).
    rewrite (M_bind_step _ _ _ tt
      (fs_set_inode (fs_next fs) (replicate (Z.to_nat Size) x00) fs1, t)); [done|].
    apply M_wrapping_Ok, on_fs_Ok. unfold File_Truncate.
    rewrite (M_bind_step _ _ _ _ _ (open_file_Ok _ _ _ Hf1 eq_refl)). cbn [file_ino].
    unfold M_modify. by rewrite (content_Some _ _ _ Hi1), resize_nil.
  - by simpl; rewrite lookup_insert_eq.
  - eapply frame_trans; [exact Hfr|]. apply frame_set_inode. set_solver.
Qed.

Lemma Rtx_new_clone fs t a fs' nx w :
  Rtx fs t a → a_removed a = false → nx = fs_next fs →
  (blob_f b < nx ∧ i < nx)%nat →
  fs_files fs' !! S nx = Some (mkFile nx (Temp nx) 0 true) →
  fs_inodes fs' !! nx = Some w → fs_names fs' !! Temp nx = Some (File nx) →
  fs_next fs' = S (S nx) →
  Rtx fs' (set_f (S nx) t) (a_set_work w a).
Proof.
  intros [Hb Hs Hi Hc Hr _] Har -> [? ?] Hf Hj Hn Hnx. split; try done.
  unfold Rwork. simpl. split; [done|]. split; [done|].
  exists (S (fs_next fs)), (fs_next fs), (fs_next fs). split; [|done].
  split; [done|]. split; [by exists 0%nat|]. lia.
Qed.

Lemma simulates_Truncate : simulates Tx_Truncate A_Truncate.
Proof.
  intros fs t ab a HR HT. unfold Tx_Truncate, A_Truncate.
  rewrite (M_bind_step tx_get _ (fs, t) t (fs, t) eq_refl), (rt_removed _ _ _ HT).
  destruct (a_removed a) eqn:Har.
  { exists (Err ErrTransactionRemoved), fs, t, ab, a. by split_and!; [..|apply tx_frame_refl]. }
  pose proof (rt_work _ _ _ HT) as Hw. unfold Rwork in Hw. rewrite (rt_initialized _ _ _ HT).
  pose proof (rb_lt _ _ HR) as Hlt. destruct (a_work a) as [w|] eqn:Hwk.
  - destruct Hw as (Hia & _ & fd & j & n & Ho & Hj & Hn). rewrite Hia. simpl.
    pose proof Ho as (Htf & [off Hfd] & Hbd).
    destruct (new_clone_spec (fs_del_name (Temp n) fs) t)
      as (fs' & Hcl & Hf1 & Hi1 & Hn1 & Hnx & Hfr). simpl in *.
    eexists _, fs', _, ab, _. split.
    { rewrite (M_bind_step _ _ _ tt (fs_del_name (Temp n) fs, t)); [exact Hcl|].
      rewrite Htf, (M_bind_step (deref (Some fd)) _ (fs, t) fd (fs, t) eq_refl).
      rewrite (M_bind_step _ _ _ (Temp n) (fs, t))
        by (apply on_fs_Ok; unfold File_Name; by rewrite Hfd).
      apply on_fs_Ok. unfold os_Remove. by rewrite Hn. }
    split; [reflexivity|].
    assert (frame [S (fs_next fs)] [fs_next fs] [Temp (fs_next fs); Temp n] fs fs') as Hfr'.
    { eapply frame_trans; [apply (frame_del_name (Temp n)); set_solver|].
      eapply frame_mono; [..|exact Hfr]; set_solver. }
    split; [eapply Rblob_frame; [exact HR|exact Hfr'|set_unfold; lia..|set_solver]|].
    split; [by eapply Rtx_new_clone|].
    eapply tx_frame_fresh; [exact Hfr'| |done|exact Hf1|lia..].
    split_and!; intros x Hx; [set_unfold; right; left; lia..|].
    apply elem_of_cons in Hx as [[= ->]|[= ->]%list_elem_of_singleton]; [left; lia|].
    right. by exists true, fd, j.
  - destruct (a_initialized a) eqn:Hia; simpl.
    { destruct Hw as (_ & fd & j & n & (Htf & [off Hfd] & Hbd) & Hn).
      exists (Err ErrNotExist), fs, t, ab, a. split; [|by split_and!; [..|apply tx_frame_refl]].
      unfold mbind, M_bind. rewrite Htf. simpl. unfold on_fs, M_zoom, File_Name. simpl.
      rewrite Hfd. simpl. unfold os_Remove. by rewrite Hn. }
    destruct (new_clone_spec fs t) as (fs' & Hcl & Hf1 & Hi1 & Hn1 & Hnx & Hfr).
    eexists _, fs', _, ab, _. split; [exact Hcl|]. split; [reflexivity|].
    split; [eapply Rblob_frame; [exact HR|exact Hfr|set_unfold; lia..|set_solver]|].
    split; [by eapply Rtx_new_clone|].
    eapply tx_frame_fresh; [exact Hfr| |done|exact Hf1|lia..].
    split_and!; intros x Hx; [set_unfold; right; left; lia..|].
    apply list_elem_of_singleton in Hx as [= ->]. left. lia.
Qed.

Lemma simulates_Rollback : simulates Tx_Rollback A_Rollback.
Proof.
  intros fs t ab a HR HT. unfold Tx_Rollback, A_Rollback.
  rewrite (M_bind_step tx_get _ (fs, t) t (fs, t) eq_refl).
  pose proof HT as [Hb Hs Hi Hc Hr Hw]. rewrite Hc, Hi, Hr. unfold Rwork in Hw.
  destruct (a_closed a) eqn:Hac.
  { eexists _, fs, t, ab, a. by split_and!; [..|apply tx_frame_refl]. }
  destruct (a_work a) as [w|] eqn:Hwk.
  - destruct Hw as (Hia & Har & fd & j & n & Ho & Hj & Hn). rewrite Hia, Har. simpl.
    destruct (drop_clone_spec fs t fd j n Ho Hn) as (fs' & Hd & Ho' & Hn' & Hfr & Hnx).
    rewrite (M_bind_step _ _ _ _ _ Hd).
    eexists _, fs', _, ab, _. split; [reflexivity|]. split; [reflexivity|].
    pose proof Ho as (_ & _ & ? & ? & _). pose proof Ho' as (_ & [off Hfd'] & _).
    split; [eapply Rblob_frame; [exact HR|exact Hfr|set_solver..]|]. split.
    + split; simpl; try congruence. unfold Rwork. simpl. rewrite Hia. split; [done|]. by exists fd, j, n.
    + eapply tx_frame_keep; [|by eapply may_touch_clone|exact Ho|done|exact Hfd'].
      eapply frame_mono; [..|exact Hfr]; set_solver.
  - assert (negb (a_initialized a) || a_removed a = true) as ->.
    { destruct (a_initialized a); [|done]. by destruct Hw as [Hw _]. }
    eexists _, fs, _, ab, _. split; [reflexivity|]. split; [reflexivity|].
    split; [done|]. split; [|by apply tx_frame_refl].
    split; simpl; try congruence. unfold Rwork. simpl. destruct (a_initialized a); [|done].
    by destruct Hw.
Qed.

Lemma simulates_Remove : simulates Tx_Remove A_Remove.
Proof.
  intros fs t ab a HR HT. unfold Tx_Remove, A_Remove.
  rewrite (M_bind_step tx_get _ (fs, t) t (fs, t) eq_refl).
  pose proof HT as [Hb Hs Hi Hc Hr Hw]. rewrite Hc, Hi. unfold Rwork in Hw.
  destruct (a_closed a) eqn:Hac.
  { eexists _, fs, t, ab, a. by split_and!; [..|apply tx_frame_refl]. }
  rewrite (M_bind_step (tx_set set_removed) _ (fs, t) tt (fs, set_removed t) eq_refl).
  destruct (a_work a) as [w|] eqn:Hwk.
  - destruct Hw as (Hia & Har & fd & j & n & Ho & Hj & Hn). rewrite Hia. simpl.
    destruct (drop_clone_spec fs (set_removed t) fd j n Ho Hn) as (fs' & Hd & Ho' & Hn' & Hfr & Hnx).
    eexists _, fs', _, ab, _. split; [exact Hd|]. split; [reflexivity|].
    pose proof Ho as (_ & _ & ? & ? & _). pose proof Ho' as (_ & [off Hfd'] & _).
    split; [eapply Rblob_frame; [exact HR|exact Hfr|set_solver..]|]. split.
    + split; simpl; try congruence. unfold Rwork. simpl. rewrite Hia. split; [apply orb_true_r|].
      by exists fd, j, n.
    + eapply tx_frame_keep; [|by eapply may_touch_clone|exact Ho|done|exact Hfd'].
      eapply frame_mono; [..|exact Hfr]; set_solver.
  - destruct (a_initialized a) eqn:Hia; simpl.
    + destruct Hw as (Hcr & fd & j & n & Ho & Hn).
      eexists _, fs, _, ab, _. split; [exact (drop_clone_twice fs (set_removed t) fd j n Ho)|].
      split; [reflexivity|]. split; [done|]. split; [|by apply tx_frame_refl].
      split; simpl; try congruence. unfold Rwork. simpl. rewrite Hwk, Hia. split; [apply orb_true_r|].
      by exists fd, j, n.
    + eexists _, fs, _, ab, _. split; [reflexivity|]. split; [reflexivity|].
      split; [done|]. split; [|by apply tx_frame_refl].
      split; simpl; try congruence. unfold Rwork. simpl. by rewrite Hia.
Qed.

Lemma txRemover_spec fs ab :
  Rblob fs ab →
  txRemover b fs = if ab_linked ab then (Ok tt, fs_del_name (Path P) fs)
                   else (Err ErrNotExist, fs).
Proof.
  intros [[off Hf] _ Hn _]. unfold txRemover, File_Name, mbind, M_bind. rewrite Hf. simpl.
  unfold os_Remove. rewrite Hn. by destruct (ab_linked ab).
Qed.

Lemma simulates_Commit : simulates Tx_Commit A_Commit.
Proof.
  intros fs t ab a HR HT. unfold Tx_Commit, A_Commit.
  rewrite (M_bind_step tx_get _ (fs, t) t (fs, t) eq_refl).
  pose proof HT as [Hb Hs Hi Hc Hr Hw]. rewrite Hc, Hi, Hr. unfold Rwork in Hw.
  destruct (a_closed a) eqn:Hac.
  { eexists _, fs, t, ab, a. by split_and!; [..|apply tx_frame_refl]. }
  destruct (a_removed a) eqn:Har.
  - destruct (a_work a) as [w|] eqn:Hwk; [by destruct Hw as (_ & ? & _)|].
    rewrite Hb. pose proof (txRemover_spec fs ab HR) as Hrm.
    unfold mbind, M_bind, M_must. rewrite (on_fs_Ok _ fs t _ _ (surjective_pairing _)), Hrm.
    destruct (ab_linked ab) eqn:Hl; simpl.
    + eexists _, _, _, _, _. split; [reflexivity|]. split; [reflexivity|].
      pose proof (frame_del_name (Path P) [] [] [Path P] fs ltac:(set_solver)) as Hfr.
      destruct HR as [Hbf Hbc Hbn Hlt]. split; [|split].
      { split; try done. simpl. by rewrite lookup_delete_eq. }
      { split; simpl; try congruence. unfold Rwork. simpl. rewrite Hwk.
        destruct (a_initialized a); [|done]. split; [done|].
        destruct Hw as (_ & fd & j & n & Ho & Hn). exists fd, j, n. split; [exact Ho|].
        simpl. by rewrite lookup_delete_ne. }
      split; [done|]. split.
      { intros fd j n _ _ _ _ _ _. split_and!; [done..|]. simpl. by rewrite lookup_delete_ne. }
      intros o fd j n Ho. left. by exists o.
    + eexists _, fs, t, ab, a. by split_and!; [..|apply tx_frame_refl].
  - destruct (a_work a) as [w|] eqn:Hwk.
    + destruct Hw as (Hia & _ & fd & j & n & Ho & Hj & Hn). rewrite Hia.
      pose proof Ho as (Htf & [off Hfd] & Hne & Hji & Hlt).
      destruct (txCommitter_spec fs ab fd j n off w HR Hfd Hj Hne Hji)
        as (fs1 & off1 & Hcm & HR1 & Hfd1 & Hfr1).
      pose proof Hfr1 as (HF1 & _ & HN1 & Hnx1).
      assert (owns fs1 t true fd j n) as Ho1.
      { split; [done|]. split; [by exists off1|]. lia. }
      destruct (drop_clone_spec fs1 t fd j n Ho1) as (fs2 & Hd & Ho2 & Hn2 & Hfr2 & Hnx2).
      { by rewrite HN1 by set_solver. }
      eexists _, fs2, (set_closed t), _, _. split.
      { rewrite Htf, Hb. rewrite (M_bind_step _ _ _ tt (fs2, t)); [done|].
        rewrite (M_bind_step (deref (Some fd)) _ (fs, t) fd (fs, t) eq_refl).
        rewrite (M_bind_step _ _ _ tt (fs1, t)); [done|]. by apply M_must_Ok, on_fs_Ok. }
      split; [reflexivity|]. pose proof Ho2 as (_ & [off2 Hfd2] & _).
      split; [eapply Rblob_frame; [exact HR1|exact Hfr2|set_solver..]|]. split.
      * split; simpl; try congruence. unfold Rwork. simpl. rewrite Hia. split; [done|]. by exists fd, j, n.
      * eapply tx_frame_keep; [|by eapply may_touch_clone|exact Ho|done|exact Hfd2].
        eapply frame_trans; [eapply frame_mono; [..|exact Hfr1]; set_solver|].
        eapply frame_mono; [..|exact Hfr2]; set_solver.
    + destruct (a_initialized a) eqn:Hia; [by destruct Hw|].
      eexists _, fs, _, ab, _. split; [reflexivity|]. split; [reflexivity|].
      split; [done|]. split; [|by apply tx_frame_refl].
      split; simpl; try congruence. unfold Rwork. simpl. by rewrite Hwk, Hia.
Qed.

Lemma simulates_map {A B} (f : A → B) (c : M TS A) m :
  simulates c m → simulates (M_map f c) (M_map f m).
Proof.
  intros Hsim fs t ab a HR HT. destruct (Hsim fs t ab a HR HT)
    as (r & fs' & t' & ab' & a' & Hc & Hm & ?).
  unfold M_map, mbind, M_bind. rewrite Hc, Hm.
  destruct r; eexists _, fs', t', ab', a'; (split; [reflexivity|]); by split.
Qed.

(** Every call of a transaction does what the specification says. *)
Lemma Tx_refines c : simulates (Tx_exec c) (A_exec c).
Proof.
  destruct c; apply simulates_map.
  - apply simulates_Seek.
  - apply simulates_with_clone. intros. apply inode_sim_ReadSector.
  - apply simulates_with_clone. intros. apply inode_sim_ReadBlobAt.
  - apply simulates_WriteSector.
  - apply simulates_with_clone. intros. apply inode_sim_WriteBlobAt.
  - apply simulates_Truncate.
  - apply simulates_Commit.
  - apply simulates_Rollback.
  - apply simulates_Remove.
Qed.
End refinement.

(** ** Properties *)

Lemma mem_WriteAt_spec b off c :
  0 ≤ off → mem_WriteAt b off c =
  (Ok (zlen b, None), if decide (b = []) then c else write_at c (Z.to_nat off) b).
Proof.
  intros Hoff. unfold mem_WriteAt. rewrite decide_False by lia. by case_decide; [subst|].
Qed.

(** A write at an offset of a blob of [Size] bytes writes the part of the
    buffer that fits, reports the number of bytes, fails exactly when something
    did not fit, and never changes the size of the blob; when it fails inside
    the blob, the part of the caller's buffer that was written is cleared. *)
Theorem write_blob_at_bounded b off c :
  0 ≤ off → zlen c = Size →
  ∃ b' n err c', WriteBlobAt mem_WriteAt b off c = (Ok (b', n, err), c') ∧
    zlen c' = Size ∧
    n = Z.max 0 (Z.min (zlen b) (Size - off)) ∧
    (err = None ↔ off ≤ Size ∧ zlen b + off ≤ Size) ∧
    (off ≤ Size →
     c' = take (Z.to_nat off) c ++ take (Z.to_nat n) b ++ drop (Z.to_nat (off + n)) c) ∧
    b' = if decide (off ≤ Size ∧ Size < zlen b + off)
         then replicate (Z.to_nat n) x00 ++ drop (Z.to_nat n) b else b.
Proof.
  intros Hoff Hc. pose proof (zlen_nonneg b) as Hb. unfold WriteBlobAt.
  assert (∀ d, 0 ≤ off → off + zlen d ≤ Size →
    (if decide (d = []) then c else write_at c (Z.to_nat off) d) =
    take (Z.to_nat off) c ++ d ++ drop (Z.to_nat (off + zlen d)) c) as Hw.
  { intros d _ Hd. case_decide as Hn.
    - subst d. rewrite zlen_nil, Z.add_0_r. simpl. by rewrite take_drop.
    - unfold write_at. rewrite take_app_le by (unfold zlen in *; lia).
      do 3 f_equal. unfold zlen. lia. }
  assert (∀ d, 0 ≤ off → off + zlen d ≤ Size →
    zlen (take (Z.to_nat off) c ++ d ++ drop (Z.to_nat (off + zlen d)) c) = Size) as Hl.
  { intros d _ Hd. unfold zlen in *. rewrite !length_app, length_take, length_drop. lia. }
  case_decide as H1; [|case_decide as H2].
  - eexists _, _, _, _. split; [reflexivity|].
    rewrite (decide_False (P := off ≤ Size ∧ _)) by lia. split_and!; [done|lia| |lia|done].
    split; [done|lia].
  - set (d := take (Z.to_nat (Size - off)) b).
    assert (zlen d = Size - off) as Hd by (unfold d, zlen in *; rewrite length_take; lia).
    rewrite (M_bind_step _ _ _ _ _ (mem_WriteAt_spec d off c Hoff)). cbn beta iota.
    eexists _, _, _, _. split; [reflexivity|]. rewrite Hw by lia.
    rewrite (decide_True (P := off ≤ Size ∧ _)) by lia.
    split_and!; [by apply Hl; lia|lia|split; [done|lia]|..].
    + intros _. rewrite Hd. done.
    + rewrite Hd. unfold go_copy. rewrite length_replicate. f_equal.
      rewrite take_ge; [done|]. rewrite length_replicate. unfold zlen in *. lia.
  - rewrite (M_bind_step _ _ _ _ _ (mem_WriteAt_spec b off c Hoff)). cbn beta iota.
    eexists _, _, _, _. split; [reflexivity|]. rewrite Hw by lia.
    rewrite (decide_False (P := off ≤ Size ∧ _)) by lia.
    split_and!; [by apply Hl; lia|lia|split; [lia|done]|..|done].
    intros _. rewrite (take_ge b) by (unfold zlen in *; lia). done.
Qed.

Lemma write_blob_at_bounded_witness :
  let c := replicate (Z.to_nat Size) x00 in
  ∃ b' n err c', WriteBlobAt mem_WriteAt [x01; x02] 7 c = (Ok (b', n, err), c') ∧
    zlen c' = Size ∧ n = Z.max 0 (Z.min 2 (Size - 7)) ∧ (err = None ↔ 7 ≤ Size ∧ 2 + 7 ≤ Size) ∧
    (7 ≤ Size →
     c' = take (Z.to_nat 7) c ++ take (Z.to_nat n) [x01; x02] ++ drop (Z.to_nat (7 + n)) c) ∧
    b' = if decide (7 ≤ Size ∧ Size < 2 + 7)
         then replicate (Z.to_nat n) x00 ++ drop (Z.to_nat n) [x01; x02] else [x01; x02].
Proof.
  intros c. apply (write_blob_at_bounded [x01; x02] 7 c); [done|].
  unfold c, zlen. rewrite length_replicate. apply Z2Nat.id. by rewrite Size_eq.
Defined.
