(* ===== verification/BlobSys.v ===== *)
(** * Several transactions on one blob

    The transactions open on a blob share its file and the file system.  A run
    is a list of actions, each one call of one of the objects (their methods
    hold a mutex); the run on files gives the results of the run on the
    specification, where each transaction has a copy of its own. *)

From S2P Require Import Prelude GoLib Crypto Sector OsFile BlobIO BlobTx BlobSpec.

#[local] Opaque Size.

Inductive action :=
| Begin
| Call (k : nat) (c : call)
| BlobReadAt (p : bytes) (off : Z)
| BlobReadSector (id : Z).

(** What an action returns; nothing for a transaction that does not exist. *)
Definition output : Type := option (result ret).

Definition sys_step (b : Blob) (x : action) (s : FS * list Tx) : output * (FS * list Tx) :=
  match x with
  | Begin => (None, (s.1, s.2 ++ [Blob_Transaction b]))
  | Call k c =>
      match s.2 !! k with
      | Some t => let '(r, (fs, t)) := Tx_exec c (s.1, t) in (Some r, (fs, <[k := t]> s.2))
      | None => (None, s)
      end
  | BlobReadAt p off =>
      let '(r, fs) := M_map RBuf (Blob_ReadAt b p off) s.1 in (Some r, (fs, s.2))
  | BlobReadSector id =>
      let '(r, fs) := M_map RSector (Blob_ReadSector b id) s.1 in (Some r, (fs, s.2))
  end.

Definition spec_step (x : action) (s : AB * list ATx) : output * (AB * list ATx) :=
  match x with
  | Begin => (None, (s.1, s.2 ++ [a_new]))
  | Call k c =>
      match s.2 !! k with
      | Some a => let '(r, (ab, a)) := A_exec c (s.1, a) in (Some r, (ab, <[k := a]> s.2))
      | None => (None, s)
      end
  | BlobReadAt p off =>
      (Some (M_map RBuf (ReadBlobAt mem_ReadAt p off) (ab_content s.1)).1, s)
  | BlobReadSector id =>
      (Some (M_map RSector (ReadSector mem_ReadAt id) (ab_content s.1)).1, s)
  end.

Fixpoint run {S} (step : action → S → output * S) (xs : list action) (s : S)
    : list output * S :=
  match xs with
  | [] => ([], s)
  | x :: xs =>
      let '(r, s) := step x s in
      let '(rs, s) := run step xs s in
      (r :: rs, s)
  end.

Section sys.
Context (b : Blob) (i : nat) (P : bytes).

Definition disjoint_clones (fs : FS) (t t' : Tx) : Prop :=
  ∀ o fd j n o' fd' j' n',
    owns b i fs t o fd j n → owns b i fs t' o' fd' j' n' → fd ≠ fd' ∧ j ≠ j' ∧ n ≠ n'.

Record Rsys (s : FS * list Tx) (a : AB * list ATx) : Prop := mkRsys {
  rs_blob : Rblob b i P s.1 a.1;
  rs_txs : Forall2 (Rtx b i s.1) s.2 a.2;
  rs_disjoint : ∀ k k' t t', k ≠ k' → s.2 !! k = Some t → s.2 !! k' = Some t' →
    disjoint_clones s.1 t t';
}.

(** A call on [t] keeps the clone of [u], and what it says about [u]. *)
Lemma owns_frame fs t fs' t' u o fd j n :
  tx_frame b i fs t fs' t' → disjoint_clones fs u t →
  owns b i fs u o fd j n → owns b i fs' u o fd j n ∧
    fs_inodes fs' !! j = fs_inodes fs !! j ∧ fs_names fs' !! Temp n = fs_names fs !! Temp n.
Proof.
  intros (Hnx & Hu & _) Hd Ho. pose proof Ho as (Htf & [off Hfd] & Hb & Hi & ? & ? & ?).
  destruct (Hu fd j n) as (Hf & Hj & Hn); try done.
  { intros o0 fd0 j0 n0 Ho0. eapply Hd; [exact Ho|exact Ho0]. }
  split; [|done]. split; [done|]. split; [exists off; by rewrite Hf|]. lia.
Qed.

Lemma Rtx_frame fs t fs' t' u a :
  tx_frame b i fs t fs' t' → disjoint_clones fs u t → Rtx b i fs u a → Rtx b i fs' u a.
Proof.
  intros Hf Hd [Hb Hs Hi Hc Hr Hw]. split; try done. unfold Rwork in *.
  destruct (a_work a).
  - destruct Hw as (? & ? & fd & j & n & Ho & Hj & Hn). split; [done|]. split; [done|].
    destruct (owns_frame fs t fs' t' u true fd j n Hf Hd Ho) as (Ho' & Hj' & Hn').
    exists fd, j, n. split; [done|]. by rewrite Hj', Hn'.
  - destruct (a_initialized a); [|done]. destruct Hw as (? & fd & j & n & Ho & Hn).
    split; [done|]. destruct (owns_frame fs t fs' t' u false fd j n Hf Hd Ho) as (Ho' & Hj' & Hn').
    exists fd, j, n. split; [done|]. by rewrite Hn'.
Qed.

(** The clone of [u], which the call on [t] did not touch, was there before. *)
Lemma owns_back fs t fs' t' u a o fd j n :
  tx_frame b i fs t fs' t' → disjoint_clones fs u t → Rtx b i fs u a →
  owns b i fs' u o fd j n → ∃ o', owns b i fs u o' fd j n.
Proof.
  intros Hf Hd [_ _ _ _ _ Hw] (Htf & [off Hfd] & _). unfold Rwork in Hw.
  assert (∃ o0 j0 n0, owns b i fs u o0 fd j0 n0) as (o0 & j0 & n0 & Ho0).
  { destruct (a_work a).
    - destruct Hw as (_ & _ & fd0 & j0 & n0 & Ho & _). pose proof Ho as (Htf0 & _).
      assert (fd0 = fd) as -> by congruence. by exists true, j0, n0.
    - destruct (a_initialized a); [|congruence].
      destruct Hw as (_ & fd0 & j0 & n0 & Ho & _). pose proof Ho as (Htf0 & _).
      assert (fd0 = fd) as -> by congruence. by exists false, j0, n0. }
  destruct (owns_frame fs t fs' t' u o0 fd j0 n0 Hf Hd Ho0) as ((_ & [off0 Hfd0] & _) & _).
  exists o0. rewrite Hfd in Hfd0. by injection Hfd0 as -> -> _ _.
Qed.

Lemma disjoint_clones_sym fs t u : disjoint_clones fs t u → disjoint_clones fs u t.
Proof. intros Hd ???????? Ho Ho'. destruct (Hd _ _ _ _ _ _ _ _ Ho' Ho) as (? & ? & ?). auto. Qed.

Lemma disjoint_step fs t fs' t' u a :
  tx_frame b i fs t fs' t' → disjoint_clones fs u t → Rtx b i fs u a →
  disjoint_clones fs' u t'.
Proof.
  intros Hf Hd Hu o fd j n o' fd' j' n' Ho Ho'.
  destruct (owns_back fs t fs' t' u a o fd j n Hf Hd Hu Ho) as [o0 Ho0].
  destruct Hf as (_ & _ & Hown). apply Hown in Ho' as [[o1 Ho1]|?].
  - by apply (Hd _ _ _ _ _ _ _ _ Ho0 Ho1).
  - destruct Ho0 as (_ & _ & _ & _ & ? & ? & ?). lia.
Qed.

Lemma disjoint_others fs t fs' t' u u' a a' :
  tx_frame b i fs t fs' t' → disjoint_clones fs u t → disjoint_clones fs u' t →
  Rtx b i fs u a → Rtx b i fs u' a' → disjoint_clones fs u u' → disjoint_clones fs' u u'.
Proof.
  intros Hf Hd Hd' Hu Hu' Huu ???????? Ho Ho'.
  eapply owns_back in Ho as [? Ho]; [|done..]. eapply owns_back in Ho' as [? Ho']; [|done..].
  by apply (Huu _ _ _ _ _ _ _ _ Ho Ho').
Qed.

Lemma Rsys_call s a k t at_ c :
  Rsys s a → s.2 !! k = Some t → a.2 !! k = Some at_ →
  ∃ r fs' t' ab' a',
    Tx_exec c (s.1, t) = (r, (fs', t')) ∧ A_exec c (a.1, at_) = (r, (ab', a')) ∧
    Rsys (fs', <[k := t']> s.2) (ab', <[k := a']> a.2).
Proof.
  intros [HR HT HD] Hk Hak.
  pose proof (Forall2_lookup_lr _ _ _ _ _ _ HT Hk Hak) as Hkt.
  destruct (Tx_refines b i P c s.1 t a.1 at_ HR Hkt)
    as (r & fs' & t' & ab' & a' & Hc & Ha & HR' & HT' & Hf).
  exists r, fs', t', ab', a'. split; [done|]. split; [done|].
  assert (∀ k' u, k' ≠ k → s.2 !! k' = Some u → disjoint_clones s.1 u t) as Hdt
    by (intros; by eapply (HD _ k)).
  assert (∀ k' u, s.2 !! k' = Some u → ∃ au, a.2 !! k' = Some au ∧ Rtx b i s.1 u au) as HRt.
  { intros k' u Hu. by eapply Forall2_lookup_l in HT as (au & ? & ?); [exists au|]. }
  split; simpl; [done| |].
  - apply Forall2_same_length_lookup_2; [by rewrite !length_insert, (Forall2_length _ _ _ HT)|].
    intros k' u au Hu Hau. destruct (decide (k' = k)) as [->|Hne].
    + rewrite list_lookup_insert_eq in Hu by (by eapply lookup_lt_Some).
      rewrite list_lookup_insert_eq in Hau by (by eapply lookup_lt_Some). by simplify_eq.
    + rewrite list_lookup_insert_ne in Hu by done.
      rewrite list_lookup_insert_ne in Hau by done.
      eapply Rtx_frame; [exact Hf|by apply (Hdt k')|]. by eapply Forall2_lookup_lr.
  - intros k1 k2 u1 u2 Hne Hu1 Hu2.
    destruct (decide (k1 = k)) as [->|H1], (decide (k2 = k)) as [->|H2]; [done|..].
    + rewrite list_lookup_insert_eq in Hu1 by (by eapply lookup_lt_Some).
      rewrite list_lookup_insert_ne in Hu2 by done. simplify_eq.
      destruct (HRt _ _ Hu2) as (? & _ & ?). apply disjoint_clones_sym.
      eapply disjoint_step; [done|by apply (Hdt k2)|done].
    + rewrite list_lookup_insert_eq in Hu2 by (by eapply lookup_lt_Some).
      rewrite list_lookup_insert_ne in Hu1 by done. simplify_eq.
      destruct (HRt _ _ Hu1) as (? & _ & ?).
      eapply disjoint_step; [done|by apply (Hdt k1)|done].
    + rewrite list_lookup_insert_ne in Hu1 by done.
      rewrite list_lookup_insert_ne in Hu2 by done.
      destruct (HRt _ _ Hu1) as (? & _ & ?), (HRt _ _ Hu2) as (? & _ & ?).
      eapply disjoint_others; [done|by apply (Hdt k1)|by apply (Hdt k2)|done|done|by apply (HD k1 k2)].
Qed.

Lemma mem_ReadAt_same p off c : (mem_ReadAt p off c).2 = c.
Proof. unfold mem_ReadAt. by repeat case_decide. Qed.

Lemma mem_bind_same {A B} (m : M bytes A) (f : A → M bytes B) c :
  (m c).2 = c → (∀ a, (f a c).2 = c) → ((m ≫= f) c).2 = c.
Proof.
  unfold mbind, M_bind. intros Hm Hf. destruct (m c) as [[a|e|e] c']; simpl in *; subst; auto.
Qed.

Lemma ReadBlobAt_same p off c : (ReadBlobAt mem_ReadAt p off c).2 = c.
Proof.
  unfold ReadBlobAt. case_decide; [done|]. case_decide; [|apply mem_ReadAt_same].
  apply mem_bind_same; [apply mem_ReadAt_same|]. by intros [[? ?] []].
Qed.

Lemma ReadSector_same id c : (ReadSector mem_ReadAt id c).2 = c.
Proof. apply mem_bind_same; [apply mem_ReadAt_same|]. by intros [[? ?] ?]. Qed.

Lemma Rblob_read {A} (c : M FS A) m fs ab :
  inode_sim (blob_f b) i (Path P) c m → (m (ab_content ab)).2 = ab_content ab →
  Rblob b i P fs ab → c fs = ((m (ab_content ab)).1, fs).
Proof.
  intros Hc Hm [[off Hf] Hi _ _]. rewrite (Hc _ _ _ Hf Hi), Hm. by rewrite fs_set_inode_id.
Qed.

(** One action. *)
Lemma sys_step_refines x s a :
  Rsys s a → (sys_step b x s).1 = (spec_step x a).1 ∧
    Rsys (sys_step b x s).2 (spec_step x a).2.
Proof.
  intros HR. destruct x as [|k c|p off|id]; simpl.
  - split; [done|]. destruct HR as [HR HT HD]. split; simpl; [done| |].
    { apply Forall2_app; [done|]. constructor; [|done]. by split. }
    intros k1 k2 u1 u2 Hne Hu1 Hu2 o fd j n o' fd' j' n' Ho Ho'.
    apply lookup_snoc_Some in Hu1 as [[_ Hu1]|[-> <-]]; [|by destruct Ho].
    apply lookup_snoc_Some in Hu2 as [[_ Hu2]|[-> <-]]; [|by destruct Ho'].
    by apply (HD k1 k2 u1 u2 Hne Hu1 Hu2 _ _ _ _ _ _ _ _ Ho Ho').
  - destruct (s.2 !! k) as [t|] eqn:Hk.
    + destruct (Forall2_lookup_l _ _ _ _ _ (rs_txs _ _ HR) Hk) as (at_ & Hak & _).
      rewrite Hak. destruct (Rsys_call s a k t at_ c HR Hk Hak)
        as (r & fs' & t' & ab' & a' & -> & -> & HR'). done.
    + assert (a.2 !! k = None) as ->; [|done].
      apply lookup_ge_None. apply lookup_ge_None in Hk.
      by rewrite <- (Forall2_length _ _ _ (rs_txs _ _ HR)).
  - unfold M_map, mbind, M_bind, Blob_ReadAt.
    rewrite (Rblob_read _ _ _ a.1 (inode_sim_ReadBlobAt (blob_f b) i (Path P) p off)
      (ReadBlobAt_same _ _ _) (rs_blob _ _ HR)).
    destruct (ReadBlobAt mem_ReadAt p off (ab_content a.1)) as [[]]; simpl; by destruct s.
  - unfold M_map, mbind, M_bind, Blob_ReadSector.
    rewrite (Rblob_read _ _ _ a.1 (inode_sim_ReadSector (blob_f b) i (Path P) id)
      (ReadSector_same _ _) (rs_blob _ _ HR)).
    destruct (ReadSector mem_ReadAt id (ab_content a.1)) as [[]]; simpl; by destruct s.
Qed.

Lemma run_refines xs s a :
  Rsys s a → (run (sys_step b) xs s).1 = (run spec_step xs a).1 ∧
    Rsys (run (sys_step b) xs s).2 (run spec_step xs a).2.
Proof.
  revert s a. induction xs as [|x xs IH]; intros s a HR; [done|]. simpl.
  destruct (sys_step_refines x s a HR) as [Ho HR'].
  destruct (sys_step b x s) as [o s'], (spec_step x a) as [o' a']. simpl in *.
  destruct (IH s' a' HR') as [Hos HRs].
  destruct (run (sys_step b) xs s') as [os s''], (run spec_step xs a') as [os' a''].
  simpl in *. split; [congruence|done].
Qed.
End sys.

(** ** Writing sectors, in the specification *)

Lemma write_at_inside c off s :
  (off ≤ length c)%nat → write_at c off s = take off c ++ s ++ drop (off + length s) c.
Proof.
  intros Ho. unfold write_at. by rewrite take_app_le by done.
Qed.

Lemma mem_WriteSector_Ok k s c :
  0 ≤ k → Sector_wf s →
  WriteSector mem_WriteAt k s c = (Ok tt, write_at c (Z.to_nat (k * SectorBytes)) s).
Proof.
  intros Hk Hs. unfold WriteSector, mem_WriteAt, SectorBytes.
  apply Sector_wf_length in Hs. rewrite decide_False by lia.
  rewrite decide_False by (intros ->; simpl in Hs; lia). done.
Qed.

Definition a_open (w : option bytes) (k : Z) (a : ATx) : Prop :=
  a_work a = w ∧ a_sectorSize a = k ∧ a_closed a = false ∧ a_removed a = false.

Lemma A_WriteSector_Ok ab a s k w :
  a_open w k a → 0 ≤ k → k + 1 ≤ MaxSectors → Sector_wf s →
  ∃ a', A_exec (CWriteSector s) (ab, a) = (Ok RUnit, (ab, a')) ∧
    a_open (Some (write_at (default (ab_content ab) w) (Z.to_nat (k * SectorBytes)) s)) (k + 1) a'.
Proof.
  intros (<- & Hk & Hc & Hr) Hk0 Hk1 Hs. unfold A_exec, M_map, A_WriteSector.
  eexists. split.
  - unfold mbind, M_bind, a_get. simpl. rewrite Hc, Hr. unfold M_wrapping.
    rewrite mem_WriteSector_Ok by (done || lia). simpl. reflexivity.
  - split; [by rewrite Hk|]. split; [|done]. simpl. rewrite Hk. unfold u16, MaxSectors in *.
    by rewrite Z.mod_small by lia.
Qed.

Definition write_calls (ss : list Sector) : list action := (λ s, Call 0 (CWriteSector s)) <$> ss.

(** The bytes of a blob with [ss] written from sector [k] on. *)
Definition with_sectors (c : bytes) (k : Z) (ss : list Sector) : bytes :=
  take (Z.to_nat (k * SectorBytes)) c ++ mjoin ss ++
  drop (Z.to_nat ((k + zlen ss) * SectorBytes)) c.

Lemma with_sectors_cons c k s ss :
  0 ≤ k → Sector_wf s → (Z.to_nat (k * SectorBytes) ≤ length c)%nat →
  with_sectors (write_at c (Z.to_nat (k * SectorBytes)) s) (k + 1) ss =
  with_sectors c k (s :: ss).
Proof.
  intros Hk Hs Hle. apply Sector_wf_length in Hs. pose proof (zlen_nonneg ss) as Hz.
  rewrite write_at_inside by done. unfold with_sectors. rewrite zlen_cons.
  unfold SectorBytes in *. rewrite (app_assoc (take _ c) s).
  assert (Z.to_nat ((k + 1) * 256) = length (take (Z.to_nat (k * 256)) c ++ s)) as Hlen.
  { rewrite length_app, length_take. lia. }
  rewrite take_app_len by done. rewrite drop_app_ge by lia.
  rewrite <- Hlen, drop_drop, Hs. rewrite <- app_assoc. cbn [mjoin list_join].
  rewrite <- (app_assoc s). do 4 f_equal. lia.
Qed.

Lemma run_writes ss : ∀ ab a w k,
  a_open w k a → 0 ≤ k → k + zlen ss ≤ MaxSectors → Forall Sector_wf ss →
  (Z.to_nat (k * SectorBytes) ≤ length (default (ab_content ab) w))%nat →
  ∃ a' w', run spec_step (write_calls ss) (ab, [a]) =
      ((λ _, Some (Ok RUnit)) <$> ss, (ab, [a'])) ∧
    a_open w' (k + zlen ss) a' ∧
    default (ab_content ab) w' = with_sectors (default (ab_content ab) w) k ss.
Proof.
  induction ss as [|s ss IH]; intros ab a w k Ha Hk Hm Hs Hle.
  - exists a, w. split; [done|]. rewrite zlen_nil, Z.add_0_r. split; [done|].
    unfold with_sectors. simpl. rewrite zlen_nil, Z.add_0_r. by rewrite take_drop.
  - rewrite zlen_cons in Hm. pose proof (zlen_nonneg ss) as Hz.
    apply Forall_cons in Hs as [Hs1 Hs].
    destruct (A_WriteSector_Ok ab a s k w) as (a1 & E1 & Ha1); [done|done|lia|done|].
    destruct (IH ab a1 _ (k + 1) Ha1) as (a2 & w2 & E2 & Ha2 & Hw2); [lia|lia|done| |].
    { simpl. rewrite length_write_at. unfold SectorBytes in *.
      apply Sector_wf_length in Hs1 as ->. lia. }
    exists a2, w2. split; [|split].
    + cbn [write_calls fmap list_fmap run spec_step snd fst lookup list_lookup].
      rewrite E1. cbn [list_insert insert]. unfold write_calls in E2. by rewrite E2.
    + rewrite zlen_cons. replace (k + (1 + zlen ss)) with (k + 1 + zlen ss) by lia. done.
    + rewrite Hw2. simpl. by apply with_sectors_cons.
Qed.

Lemma run_app {S} (step : action → S → output * S) xs ys s :
  run step (xs ++ ys) s =
  ((run step xs s).1 ++ (run step ys (run step xs s).2).1,
   (run step ys (run step xs s).2).2).
Proof.
  revert s. induction xs as [|x xs IH]; intros s; simpl.
  - by destruct (run step ys s).
  - destruct (step x s) as [o s']. rewrite IH. by destruct (run step xs s').
Qed.

Lemma M_map_state {S A B} (f : A → B) (m : M S A) s : (M_map f m s).2 = (m s).2.
Proof. unfold M_map, mbind, M_bind. by destruct (m s) as [[]]. Qed.

Lemma a_with_ab {A} (m : M bytes A) ab a : (a_with m (ab, a)).2.1 = ab.
Proof. unfold a_with. repeat case_match; done. Qed.

(** Only [Commit] changes the blob. *)
Lemma A_exec_ab c ab a : c ≠ CCommit → (A_exec c (ab, a)).2.1 = ab.
Proof.
  intros Hc. destruct c; try done; unfold A_exec; rewrite M_map_state; try apply a_with_ab.
  - unfold A_Seek. by repeat case_decide.
  - unfold A_WriteSector, mbind, M_bind, a_get. cbn [fst snd].
    set (m := a_with _). pose proof (a_with_ab _ ab a : (m (ab, a)).2.1 = ab) as Hm.
    by destruct (m (ab, a)) as [[] [ab' a']].
  - unfold A_Truncate. by repeat case_match.
  - unfold A_Rollback. by repeat case_match.
  - unfold A_Remove. by repeat case_match.
Qed.

(** ** Properties *)

(** A blob [b] whose file, under the name [P] and inode [i], holds [c]. *)
Definition blob_opened (b : Blob) (i : nat) (P c : bytes) (fs : FS) : Prop :=
  (∃ off, fs_files fs !! blob_f b = Some (mkFile i (Path P) off true)) ∧
  fs_inodes fs !! i = Some c ∧ fs_names fs !! Path P = Some (File i) ∧
  (blob_f b < fs_next fs)%nat ∧ (i < fs_next fs)%nat.

Lemma Rsys_opened b i P c fs : blob_opened b i P c fs → Rsys b i P (fs, []) (mkAB c true, []).
Proof. intros (Hf & Hi & Hn & ? & ?). by split; [|constructor|]. Qed.

Lemma run_content b i P c fs xs :
  blob_opened b i P c fs →
  content (run (sys_step b) xs (fs, [])).2.1 i =
  ab_content (run spec_step xs (mkAB c true, [])).2.1.
Proof.
  intros Ho. destruct (run_refines b i P xs _ _ (Rsys_opened b i P c fs Ho)) as [_ HR].
  apply content_Some, (rb_content _ _ _ _ _ (rs_blob _ _ _ _ _ HR)).
Qed.

(** C1: any sequence of calls of any number of transactions open on a blob, and
    of reads of the blob, returns on files what it returns on the specification
    in which every transaction has a private copy of the bytes, and leaves the
    file with the bytes of the specification. *)
Theorem transactions_refine b i P c fs xs :
  blob_opened b i P c fs →
  (run (sys_step b) xs (fs, [])).1 = (run spec_step xs (mkAB c true, [])).1 ∧
  content (run (sys_step b) xs (fs, [])).2.1 i =
    ab_content (run spec_step xs (mkAB c true, [])).2.1.
Proof.
  intros Ho. split; [|by apply (run_content b i P)].
  by apply (run_refines b i P xs _ _ (Rsys_opened b i P c fs Ho)).
Qed.

Definition demo_fs : FS := (create (Path (bs "blob")) empty_fs).2.
Definition demo_blob : Blob := newFromFile (bs "foo") 1.

Lemma demo_opened : blob_opened demo_blob 0 (bs "blob") [] demo_fs.
Proof. split; [by exists 0%nat|]. split_and!; try done; simpl; lia. Qed.

Lemma transactions_refine_witness :
  let xs := [Begin; Call 0 (CWriteAt [x01; x02] 0); BlobReadSector 0; Call 0 CCommit] in
  (run (sys_step demo_blob) xs (demo_fs, [])).1 =
    (run spec_step xs (mkAB [] true, [])).1 ∧
  content (run (sys_step demo_blob) xs (demo_fs, [])).2.1 0 =
    ab_content (run spec_step xs (mkAB [] true, [])).2.1.
Proof. intros xs. apply (transactions_refine _ _ (bs "blob")), demo_opened. Defined.

(** Whatever is called on its transactions, a blob keeps its bytes as long
    as no [Commit] is called. *)
Theorem uncommitted_isolated b i P c fs xs :
  blob_opened b i P c fs → Forall (λ x, ∀ k, x ≠ Call k CCommit) xs →
  content (run (sys_step b) xs (fs, [])).2.1 i = c.
Proof.
  intros Ho Hxs. rewrite (run_content b i P c fs xs Ho).
  enough (∀ s : AB * list ATx, (run spec_step xs s).2.1 = s.1) as -> by done.
  clear Ho. induction Hxs as [|x xs Hx _ IH]; intros s; [done|]. simpl.
  destruct (spec_step x s) as [o s'] eqn:E. specialize (IH s').
  destruct (run spec_step xs s') as [os s'']. simpl in *. rewrite IH. clear IH.
  destruct x as [|k call|p off|id]; simpl in E; [by simplify_eq| |by simplify_eq..].
  destruct (s.2 !! k) as [a|]; [|by simplify_eq].
  pose proof (A_exec_ab call s.1 a) as Hab. destruct (A_exec call (s.1, a)) as [r [ab a']].
  simplify_eq/=. apply Hab. by intros ->; apply (Hx k).
Qed.

Lemma uncommitted_isolated_witness :
  let xs := [Begin; Begin; Call 0 (CWriteAt [x01; x02] 0); Call 1 (CWriteSector ZeroSector);
             Call 0 CRollback] in
  content (run (sys_step demo_blob) xs (demo_fs, [])).2.1 0 = [].
Proof.
  intros xs. apply (uncommitted_isolated _ _ (bs "blob")); [apply demo_opened|].
  by repeat constructor.
Defined.

(** A transaction that seeks to sector [k], writes the sectors [ss] within
    the blob and commits has every call succeed, and leaves the blob with those
    sectors in place and its other bytes as they were. *)
Theorem commit_publishes b i P c fs k ss :
  blob_opened b i P c fs → Forall Sector_wf ss → 0 ≤ k → k + zlen ss ≤ MaxSectors →
  k * SectorBytes ≤ zlen c →
  let xs := [Begin; Call 0 (CSeek (k * SectorBytes) io_SeekStart)] ++
            write_calls ss ++ [Call 0 CCommit] in
  (run (sys_step b) xs (fs, [])).1 =
    [None; Some (Ok (RPos (k * SectorBytes)))] ++ ((λ _, Some (Ok RUnit)) <$> ss) ++
    [Some (Ok RUnit)] ∧
  content (run (sys_step b) xs (fs, [])).2.1 i = with_sectors c k ss.
Proof.
  intros Ho Hs Hk Hm Hc xs. rewrite (run_content b i P c fs xs Ho).
  rewrite (proj1 (run_refines b i P xs _ _ (Rsys_opened b i P c fs Ho))).
  pose proof (zlen_nonneg ss) as Hz. unfold xs.
  destruct (run_writes ss (mkAB c true) (a_set_size k a_new) None k)
    as (a' & w' & Hrun & (Hw & Hsz & Hcl & Hrm) & Hdef); [done|done|done|done| |].
  { simpl. unfold zlen, SectorBytes in *. lia. }
  rewrite run_app, run_app.
  assert (run spec_step [Begin; Call 0 (CSeek (k * SectorBytes) io_SeekStart)] (mkAB c true, [])
    = ([None; Some (Ok (RPos (k * SectorBytes)))], (mkAB c true, [a_set_size k a_new]))) as ->.
  { cbn [run spec_step fst snd app lookup list_lookup]. unfold A_exec, M_map, A_Seek, mbind, M_bind.
    rewrite Z.rem_mul by done. rewrite decide_False by auto.
    rewrite decide_False by (simpl; unfold SectorBytes; lia). rewrite decide_True by done.
    rewrite decide_False by (rewrite Size_eq; unfold SectorBytes, MaxSectors in *; lia).
    rewrite Z.quot_mul by done. unfold u16.
    by rewrite Z.mod_small by (unfold MaxSectors in *; lia). }
  cbn [fst snd]. rewrite Hrun. cbn [fst snd run spec_step lookup list_lookup].
  unfold A_exec, M_map, A_Commit, mbind, M_bind. rewrite Hcl, Hrm, Hw.
  assert (length c ≤ length (with_sectors c k ss))%nat as Hlen.
  { unfold with_sectors. rewrite !length_app, length_take, length_drop, (length_sectors ss Hs).
    unfold zlen, SectorBytes in *. lia. }
  destruct w' as [w|]; simpl in *; (split; [done|]); [|done].
  subst w. rewrite drop_ge by done. by rewrite app_nil_r.
Qed.

Lemma commit_publishes_witness :
  let xs := [Begin; Call 0 (CSeek (0 * SectorBytes) io_SeekStart)] ++
            write_calls [ZeroSector] ++ [Call 0 CCommit] in
  (run (sys_step demo_blob) xs (demo_fs, [])).1 =
    [None; Some (Ok (RPos (0 * SectorBytes)))] ++
    ((λ _, Some (Ok RUnit)) <$> [ZeroSector]) ++ [Some (Ok RUnit)] ∧
  content (run (sys_step demo_blob) xs (demo_fs, [])).2.1 0 = with_sectors [] 0 [ZeroSector].
Proof.
  apply (commit_publishes _ _ (bs "blob")); [apply demo_opened|by repeat constructor|done..].
Defined.
