(* ===== verification/BlobHash.v ===== *)
(** * Hashing the sectors of a transaction

    [blob.SerialHash(blob.NewReader(tx), ...)], as the updater and the RPC server
    call it: the reader of [src/blob/io.go] over the bytes of a transaction. *)

From S2P Require Import Prelude GoLib Crypto Instances Sector OsFile BlobIO BlobTx BlobSpec BlobSys.

#[local] Opaque Size.

(** The first [n] sectors of some bytes. *)
Fixpoint sectors_of (n : nat) (c : bytes) : list Sector :=
  match n with
  | O => []
  | S n => take 256 c :: sectors_of n (drop 256 c)
  end.

Lemma length_sectors_of n c : length (sectors_of n c) = n.
Proof. revert c. induction n as [|n IH]; intros c; simpl; [done|]. by rewrite IH. Qed.

(** From the states of [J], reading a sector inside [c] gives its bytes. *)
Definition reads_sectors {S} (r : ReaderAt S) (c : bytes) (J : S → Prop) : Prop :=
  ∀ s p k, J s → length p = 256%nat → 0 ≤ k → k + 1 ≤ MaxSectors →
  (k + 1) * SectorBytes ≤ zlen c →
  ∃ s', r p (k * SectorBytes) s =
      (Ok (take 256 (drop (Z.to_nat (k * SectorBytes)) c), SectorBytes, None), s') ∧ J s'.

Lemma Reader_feeds {S} (r : ReaderAt S) c J n :
  reads_sectors r c J → ∀ k s buf, J s → length buf = 256%nat →
  0 ≤ k → k + Z.of_nat n ≤ MaxSectors → (k + Z.of_nat n) * SectorBytes ≤ zlen c →
  ∃ s', feeds (Reader_Read r) buf (s, k * SectorBytes)
      (sectors_of n (drop (Z.to_nat (k * SectorBytes)) c)) (s', (k + Z.of_nat n) * SectorBytes) ∧
    J s'.
Proof.
  intros Hr. induction n as [|n IH]; intros k s buf Hs Hbuf H0 Hk Hc.
  { exists s. rewrite Z.add_0_r. split; [constructor|done]. }
  set (sec := take 256 (drop (Z.to_nat (k * SectorBytes)) c)).
  assert (length sec = 256%nat) as Hl.
  { unfold sec. rewrite length_take, length_drop. unfold zlen, SectorBytes in *. lia. }
  destruct (Hr s buf k Hs Hbuf) as (s1 & Hr1 & Hs1);
    [done|lia|unfold SectorBytes in *; lia|].
  destruct (IH (k + 1) s1 sec Hs1 Hl) as (s2 & Hf2 & Hs2); [lia|lia|unfold SectorBytes in *; lia|].
  exists s2. split; [|done].
  replace (k + Z.of_nat (Datatypes.S n)) with (k + 1 + Z.of_nat n) by lia.
  cbn [sectors_of]. apply (feeds_cons _ _ _ _ (s1, (k + 1) * SectorBytes)).
  - unfold Reader_Read.
    rewrite (M_bind_step M_get _ _ _ (s, k * SectorBytes) eq_refl). cbn [fst snd].
    rewrite decide_False by (rewrite Size_eq; unfold SectorBytes, MaxSectors in *; lia).
    rewrite decide_False
      by (rewrite Size_eq; unfold zlen; rewrite Hbuf; unfold SectorBytes, MaxSectors in *; lia).
    rewrite (M_bind_step _ _ _ (sec, SectorBytes, None) (s1, k * SectorBytes)).
    + unfold advance, mbind, M_bind, M_modify. simpl. do 2 f_equal. unfold SectorBytes. lia.
    + unfold on_fst, M_zoom. cbn [fst snd]. by rewrite Hr1.
  - rewrite drop_drop. replace (Z.to_nat (k * SectorBytes) + 256)%nat
      with (Z.to_nat ((k + 1) * SectorBytes)) by (unfold SectorBytes; lia). exact Hf2.
Qed.

(** ** The bytes a transaction shows *)

(** The transaction is open on the blob, which holds [c] under its name, and its reads
    see [w]. *)
Definition tx_view (b : Blob) (i : nat) (P c w : bytes) (s : TS) : Prop :=
  ∃ ab a, Rblob b i P s.1 ab ∧ Rtx b i s.1 s.2 a ∧ ab = mkAB c true ∧
    a_closed a = false ∧ a_removed a = false ∧ default c (a_work a) = w.

Lemma mem_ReadBlobAt_sector p k c :
  length p = 256%nat → 0 ≤ k → (k + 1) * SectorBytes ≤ zlen c → (k + 1) ≤ MaxSectors →
  ReadBlobAt mem_ReadAt p (k * SectorBytes) c =
  (Ok (take 256 (drop (Z.to_nat (k * SectorBytes)) c), SectorBytes, None), c).
Proof.
  intros Hp Hk Hc Hm.
  assert (length (take 256 (drop (Z.to_nat (k * SectorBytes)) c)) = 256%nat) as Hl.
  { rewrite length_take, length_drop. unfold zlen, SectorBytes in *. lia. }
  unfold ReadBlobAt.
  rewrite decide_False by (rewrite Size_eq; unfold SectorBytes, MaxSectors in *; lia).
  rewrite decide_False
    by (rewrite Size_eq; unfold zlen; rewrite Hp; unfold SectorBytes, MaxSectors in *; lia).
  unfold mem_ReadAt. rewrite decide_False by (unfold SectorBytes; lia).
  rewrite decide_False by (intros ->; simpl in Hp; lia).
  rewrite Hp, decide_False by lia. rewrite go_copy_full by lia. unfold zlen. by rewrite Hl.
Qed.

Lemma tx_reads_sectors b i P c w : reads_sectors Tx_ReadAt w (tx_view b i P c w).
Proof.
  intros [fs t] p k (ab & a & HR & HT & -> & Hc & Hr & Hw) Hp Hk Hm Hle.
  destruct (simulates_with_clone b i P (λ f, ReadBlobAt (File_ReadAt f) p (k * SectorBytes))
    (ReadBlobAt mem_ReadAt p (k * SectorBytes))
    (λ fd j q, inode_sim_ReadBlobAt fd j q p (k * SectorBytes)) fs t (mkAB c true) a HR HT)
    as (r & fs' & t' & ab' & a' & Hex & Ha & HR' & HT' & _).
  unfold a_with in Ha. cbn [ab_content ab_linked] in Ha. rewrite Hc, Hr, Hw, mem_ReadBlobAt_sector in Ha by done.
  injection Ha as <- <- <-. exists (fs', t'). split; [exact Hex|].
  by exists (mkAB c true), (a_set_work w a).
Qed.

Lemma tx_SerialHash `{Blake2b} b i P c w s prevHash n :
  tx_view b i P c w s → 0 ≤ n ≤ MaxSectors → n * SectorBytes ≤ zlen w →
  ∃ s', SerialHash (Reader_Read Tx_ReadAt) prevHash n (NewReader s) =
      (Ok (go_copy ZeroSectorHashes (chain prevHash (sectors_of (Z.to_nat n) w))),
       (s', n * SectorBytes)) ∧
    tx_view b i P c w s'.
Proof.
  intros Hs Hn Hle.
  destruct (Reader_feeds Tx_ReadAt w _ (Z.to_nat n) (tx_reads_sectors b i P c w)
    0 s ZeroSector Hs) as (s' & Hf & Hs'); [done|lia|lia|by rewrite Z.add_0_l, Z2Nat.id by lia|].
  rewrite Z.add_0_l, Z2Nat.id in Hf by lia.
  exists s'. split; [|done]. apply SerialHash_feeds; [exact Hf| |lia].
  unfold zlen. rewrite length_sectors_of. lia.
Qed.

(** Hashing the first [n] sectors of an open transaction through a [Reader]
    succeeds, gives the chain of the sectors the transaction shows, and leaves
    what it shows as it was. *)
Theorem transaction_serial_hash `{Blake2b} b i P c w s prevHash n :
  tx_view b i P c w s → 0 ≤ n ≤ MaxSectors → n * SectorBytes ≤ zlen w →
  ∃ s', SerialHash (Reader_Read Tx_ReadAt) prevHash n (NewReader s) =
      (Ok (go_copy ZeroSectorHashes (chain prevHash (sectors_of (Z.to_nat n) w))),
       (s', n * SectorBytes)) ∧
    tx_view b i P c w s'.
Proof. apply tx_SerialHash. Qed.

Definition demo_fs1 : FS := fs_set_inode 0 ZeroSector demo_fs.

Lemma transaction_serial_hash_witness :
  ∃ s', SerialHash (Reader_Read Tx_ReadAt) ZeroHash 1
          (NewReader (demo_fs1, Blob_Transaction demo_blob)) =
      (Ok (go_copy ZeroSectorHashes (chain ZeroHash (sectors_of (Z.to_nat 1) ZeroSector))),
       (s', 1 * SectorBytes)) ∧
    tx_view demo_blob 0 (bs "blob") ZeroSector ZeroSector s'.
Proof.
  apply transaction_serial_hash; [|done..]. exists (mkAB ZeroSector true), a_new.
  split; [split; [by exists 0%nat|done..|simpl; lia]|]. by split.
Defined.
