(* ===== verification/Names.v ===== *)
(** * Names: validity and paths

    [HashName] and [ValidateName] of
    [src/vendor/fnd.localhost/handshake/primitives/rules.go], which every name
    from the network goes through, and [src/blob/pathify.go]. *)

From S2P Require Import Prelude GoLib Crypto Instances Sector.

Definition HashName `{Blake2b} (name : bytes) : bytes := blake2b256 name.

(** ** ValidateName *)

Definition MaxNameLen : Z := 63.

Definition validCharset : list Z := [
  0; 0; 0; 0; 0; 0; 0; 0; 0; 0; 0; 0; 0; 0; 0; 0;
  0; 0; 0; 0; 0; 0; 0; 0; 0; 0; 0; 0; 0; 0; 0; 0;
  0; 0; 0; 0; 0; 0; 0; 0; 0; 0; 0; 0; 0; 4; 0; 0;
  1; 1; 1; 1; 1; 1; 1; 1; 1; 1; 0; 0; 0; 0; 0; 0;
  0; 2; 2; 2; 2; 2; 2; 2; 2; 2; 2; 2; 2; 2; 2; 2;
  2; 2; 2; 2; 2; 2; 2; 2; 2; 2; 2; 0; 0; 0; 0; 4;
  0; 3; 3; 3; 3; 3; 3; 3; 3; 3; 3; 3; 3; 3; 3; 3;
  3; 3; 3; 3; 3; 3; 3; 3; 3; 3; 3; 0; 0; 0; 0; 0 ].

Definition blacklist : list bytes :=
  [bs "example"; bs "invalid"; bs "local"; bs "localhost"; bs "test"].

(** The body of the loop at index [i] of a name of length [len]; reading the
    table past its end panics. *)
Definition validate_char (i len : Z) (ch : byte) : result unit :=
  if decide (zlen validCharset < Z_of_byte ch) then Err (ENew "invalid character")
  else
    match validCharset !! Z.to_nat (Z_of_byte ch) with
    | None => Panic "index out of range"
    | Some 0 => Err (ENew "invalid character")
    | Some 1 => Ok tt
    | Some 2 => Err (ENew "name cannot contain capital letters")
    | Some 3 => Ok tt
    | Some 4 =>
        if decide (i = 0) then Err (ENew "name cannot start with a hyphen")
        else if decide (i = len - 1) then Err (ENew "name cannot end with a hyphen")
        else Ok tt
    | Some _ => Ok tt
    end.

Fixpoint validate_chars (i len : Z) (name : bytes) : result unit :=
  match name with
  | [] => Ok tt
  | ch :: name => validate_char i len ch;; validate_chars (i + 1) len name
  end.

Definition ValidateName (name : bytes) : result unit :=
  if decide (zlen name = 0) then Err (ENew "name must have nonzero length")
  else if decide (MaxNameLen < zlen name) then Err (ENew "name over maximum length")
  else
    validate_chars 0 (zlen name) name;;
    if decide (name ∈ blacklist) then Err (ENew "name is blacklisted") else Ok tt.

(** ** pathify.go *)

(** [path.Join] of elements that are not empty, hold no slash and are not dots. *)
Fixpoint path_Join (elems : list bytes) : bytes :=
  match elems with
  | [] => []
  | [e] => e
  | e :: elems => e ++ bs "/" ++ path_Join elems
  end.

(** The loop: [n] more segments of two bytes. *)
Fixpoint path_segments (n : nat) : dec (list bytes) :=
  match n with
  | O => mret []
  | S n =>
      buf ← ReadInto [x00; x00];
      segments ← path_segments n;
      mret (hex_EncodeToString buf :: segments)
  end.

(** An error of the reader panics; it cannot happen with a hash of 32 bytes. *)
Definition PathifyName `{Blake2b} (n : bytes) : result bytes :=
  match path_segments 16 (HashName n) with
  | Ok (segments, _) =>
      Ok (path_Join [path_Join (take 15 segments);
                     default [] (segments !! 15%nat) ++ bs "_blob"])
  | Err _ => Panic "err"
  | Panic w => Panic w
  end.

(** ** Lemmas *)

(** The characters of a name: digits, lower-case letters, and inside the name
    the hyphen and the underscore. *)
Definition alnum (ch : byte) : Prop :=
  48 ≤ Z_of_byte ch ≤ 57 ∨ 97 ≤ Z_of_byte ch ≤ 122.

Definition separator (ch : byte) : Prop := ch = x2d ∨ ch = x5f.

#[global] Instance alnum_dec ch : Decision (alnum ch).
Proof. unfold alnum. apply _. Defined.

#[global] Instance separator_dec ch : Decision (separator ch).
Proof. unfold separator. apply _. Defined.

Lemma validate_char_spec i len ch :
  validate_char i len ch =
  if decide (alnum ch) then Ok tt
  else if decide (separator ch) then
    if decide (i = 0) then Err (ENew "name cannot start with a hyphen")
    else if decide (i = len - 1) then Err (ENew "name cannot end with a hyphen")
    else Ok tt
  else if decide (ch = x80) then Panic "index out of range"
  else if decide (65 ≤ Z_of_byte ch ≤ 90) then Err (ENew "name cannot contain capital letters")
  else Err (ENew "invalid character").
Proof. by destruct ch. Qed.

Lemma validate_chars_Ok i len name :
  0 ≤ i → i + zlen name = len →
  validate_chars i len name = Ok tt ↔
  Forall (λ ch, alnum ch ∨ separator ch) name ∧
  (i = 0 → ∀ ch, head name = Some ch → alnum ch) ∧
  (∀ ch, last name = Some ch → alnum ch).
Proof.
  revert i. induction name as [|ch name IH]; intros i Hi Hlen; [by split|].
  cbn [validate_chars]. rewrite zlen_cons in Hlen. rewrite result_bind_Ok.
  specialize (IH (i + 1) ltac:(lia) ltac:(lia)).
  rewrite validate_char_spec, Forall_cons. cbn [head]. pose proof (zlen_nonneg name) as Hz.
  assert (i = len - 1 ↔ name = []) as Hlast.
  { destruct name as [|c name']; [rewrite zlen_nil in Hlen; split; [done|lia]|].
    rewrite zlen_cons in Hlen. pose proof (zlen_nonneg name'). split; [lia|done]. }
  assert (last (ch :: name) = match name with [] => Some ch | _ => last name end) as ->
    by (by destruct name).
  case_decide as Ha; [|case_decide as Hs; [case_decide as H0; [|case_decide as H1]|]].
  - split.
    + intros ([] & _ & Hv). apply IH in Hv as (HF & _ & Hl). split; [auto|].
      split; [by intros _ c [= <-]|]. destruct name; [by intros c [= <-]|exact Hl].
    + intros ([_ HF] & _ & Hl). exists tt. split; [done|]. apply IH. split; [done|].
      split; [lia|]. destruct name; [done|exact Hl].
  - split; [by intros ([] & ? & _)|]. intros (_ & Hh & _). by destruct Ha; apply Hh.
  - apply Hlast in H1 as ->. split; [by intros ([] & ? & _)|].
    intros (_ & _ & Hl). by destruct Ha; apply Hl.
  - destruct name as [|c name]; [by destruct H1; apply Hlast|]. split.
    + intros ([] & _ & Hv). apply IH in Hv as (HF & _ & Hl). split; [auto|]. by split.
    + intros ([_ HF] & _ & Hl). exists tt. split; [done|]. apply IH. split; [done|].
      split; [lia|done].
  - split; [|by intros ([[] _] & _)]. intros ([] & He & _). by repeat case_decide.
Qed.

Lemma validate_chars_panic i len pre post :
  Forall alnum pre → validate_chars i len (pre ++ x80 :: post) = Panic "index out of range".
Proof.
  intros Hpre. revert i. induction Hpre as [|ch pre Hch _ IH]; intros i; [done|].
  cbn [app validate_chars]. rewrite validate_char_spec.
  destruct (decide (alnum ch)); [apply IH|done].
Qed.

(** The names the application accepts. *)
Definition valid_name (name : bytes) : Prop :=
  1 ≤ zlen name ≤ MaxNameLen ∧
  Forall (λ ch, alnum ch ∨ separator ch) name ∧
  (∀ ch, head name = Some ch → alnum ch) ∧ (∀ ch, last name = Some ch → alnum ch) ∧
  name ∉ blacklist.

Lemma ValidateName_Ok name : ValidateName name = Ok tt ↔ valid_name name.
Proof.
  unfold ValidateName, valid_name. pose proof (zlen_nonneg name) as Hz.
  case_decide; [split; [done|lia]|]. case_decide; [split; [done|lia]|].
  rewrite result_bind_Ok. pose proof (validate_chars_Ok 0 (zlen name) name) as Hv.
  specialize (Hv ltac:(lia) ltac:(lia)). split.
  - intros ([] & Hc & Hb). apply Hv in Hc as (? & ? & ?). case_decide; [done|].
    split; [lia|]. auto.
  - intros (? & ? & ? & ? & Hb). exists tt. split; [apply Hv; auto|]. by rewrite decide_False.
Qed.

(** Segments. *)
Lemma path_segments_Ok n h :
  length h = (2 * n)%nat →
  ∃ segs, path_segments n h = Ok (segs, []) ∧ length segs = n ∧
    Forall (λ s, length s = 4%nat) segs ∧ mjoin segs = hex_EncodeToString h.
Proof.
  revert h. induction n as [|n IH]; intros h Hh.
  { apply nil_length_inv in Hh as ->. by exists []. }
  destruct h as [|a [|b h]]; simpl in Hh; [lia..|].
  destruct (IH h) as (segs & Hs & Hl & Hf & Hj); [lia|].
  exists (hex_EncodeToString [a; b] :: segs). split_and!.
  - cbn [path_segments]. rewrite (dec_bind_step _ _ _ [a; b] h).
    2:{ unfold ReadInto. by rewrite decide_False. }
    by rewrite (dec_bind_step _ _ _ _ _ Hs).
  - simpl. by rewrite Hl.
  - by constructor.
  - simpl. by rewrite Hj.
Qed.

Lemma path_Join_inj ss ss' :
  length ss = length ss' → Forall (λ s, length s = 4%nat) ss →
  Forall (λ s, length s = 4%nat) ss' → path_Join ss = path_Join ss' → ss = ss'.
Proof.
  revert ss'. induction ss as [|s ss IH]; intros [|s' ss'] Hl Hs Hs' He; try done.
  apply Forall_cons in Hs as [Hs1 Hs], Hs' as [Hs1' Hs'].
  destruct ss as [|t ss], ss' as [|t' ss']; try done; [by simpl in He; subst|].
  cbn [path_Join] in He. apply app_inj_1 in He as [-> He]; [|congruence].
  apply app_inv_head in He. f_equal. apply IH; [simpl in *; lia|done..].
Qed.

Lemma PathifyName_Ok `{Blake2b} n :
  ∃ segs, PathifyName n =
      Ok (path_Join (take 15 segs) ++ bs "/" ++ default [] (segs !! 15%nat) ++ bs "_blob") ∧
    length segs = 16%nat ∧ Forall (λ s, length s = 4%nat) segs ∧
    mjoin segs = hex_EncodeToString (HashName n).
Proof.
  unfold PathifyName. destruct (path_segments_Ok 16 (HashName n)) as (segs & -> & ?).
  { apply blake2b256_length. }
  by exists segs.
Qed.

Lemma length_path_Join ss :
  Forall (λ s, length s = 4%nat) ss → length (path_Join ss) = (5 * length ss - 1)%nat.
Proof.
  induction 1 as [|s ss Hs _ IH]; [done|]. destruct ss as [|t ss]; [done|].
  cbn [path_Join] in *. rewrite !length_app, IH, Hs. simpl. lia.
Qed.

Lemma PathifyName_hash `{Blake2b} n m p :
  PathifyName n = Ok p → PathifyName m = Ok p → HashName n = HashName m.
Proof.
  destruct (PathifyName_Ok n) as (s & -> & Hl & Hf & Hj).
  destruct (PathifyName_Ok m) as (s' & -> & Hl' & Hf' & Hj').
  intros [= <-] [= He]. apply hex_Encode_inj. rewrite <- Hj, <- Hj'. f_equal.
  apply app_inj_1 in He as [He1 He2].
  2:{ rewrite !length_path_Join by (by apply Forall_take). rewrite !length_take. lia. }
  injection He2 as He2. apply app_inv_tail in He2.
  rewrite <- (take_drop 15 s), <- (take_drop 15 s'). f_equal.
  - apply eq_sym, path_Join_inj; try (by apply Forall_take); [|done]. rewrite !length_take. lia.
  - destruct (lookup_lt_is_Some_2 s 15) as [x Hx]; [lia|].
    destruct (lookup_lt_is_Some_2 s' 15) as [x' Hx']; [lia|].
    rewrite Hx, Hx' in He2. simpl in He2. subst x'.
    rewrite (drop_S _ _ _ Hx), (drop_S _ _ _ Hx'), !drop_ge by lia. done.
Qed.

(** ** Properties *)

(** a name is valid exactly when it has 1 to 63 characters among digits,
    lower-case letters, hyphens and underscores, starts and ends with a digit
    or a letter, and is not on the black list. *)
Theorem validate_name_spec name : ValidateName name = Ok tt ↔ valid_name name.
Proof. apply ValidateName_Ok. Qed.

(** A name of at most 63 bytes with a byte 0x80 after digits and lower-case
    letters makes [ValidateName] index its table out of range. *)
Theorem validate_name_panics pre post :
  Forall alnum pre → zlen (pre ++ x80 :: post) ≤ MaxNameLen →
  ValidateName (pre ++ x80 :: post) = Panic "index out of range".
Proof.
  intros Hpre Hlen. unfold ValidateName.
  rewrite decide_False by (rewrite zlen_app, zlen_cons in *;
    pose proof (zlen_nonneg pre); pose proof (zlen_nonneg post); lia).
  rewrite decide_False by lia. by rewrite validate_chars_panic.
Qed.

Lemma validate_name_panics_witness :
  ValidateName (bs "foo" ++ x80 :: []) = Panic "index out of range".
Proof.
  apply validate_name_panics; [|done].
  by apply (bool_decide_unpack (Forall alnum (bs "foo"))).
Defined.

(** Blobs of different names have different paths in the store, unless the
    two names have the same BLAKE2b digest. *)
Theorem pathify_binding `{Blake2b} n m p :
  PathifyName n = Ok p → PathifyName m = Ok p → n = m ∨ blake2b_collision [n] [m].
Proof.
  intros Hn Hm. apply (blake2b_eq _ _ [n] [m]); [set_solver..|].
  by apply (PathifyName_hash n m p).
Qed.

Lemma pathify_binding_witness :
  let long := replicate 32 x61 in
  ∃ p, PathifyName long = Ok p ∧
    (long = long ++ bs "b" ∨ blake2b_collision [long] [long ++ bs "b"]).
Proof.
  eexists. split; [reflexivity|]. eapply pathify_binding; reflexivity.
Defined.
