(* ===== verification/BlobStore.v ===== *)
(** * Package blob: the store and its pool

    [src/blob/pool.go] and [store.go]: blobs are opened once per name and
    counted; a [wrappedBlob] returns its blob to the pool when it is closed. *)

From S2P Require Import Prelude GoLib Crypto Instances Sector OsFile BlobIO BlobTx Names.

#[local] Opaque Size.

(** ** store.go: files *)

(** [path/filepath.Dir] of a clean path with a slash in it. *)
Fixpoint drop_to_slash (r : bytes) : bytes :=
  match r with
  | [] => []
  | c :: r => if decide (c = x2f) then r else drop_to_slash r
  end.

Definition filepath_Dir (p : bytes) : bytes := reverse (drop_to_slash (reverse p)).

Definition fileExists (f : path) : M FS bool :=
  info ← M_try (os_Stat f);
  match info with
  | Err e => if errors_Is e ErrNotExist then mret false else M_fail e
  | Ok isDir => if isDir : bool then M_fail (ENew "is a directory") else mret true
  | Panic w => M_panic w
  end.

Section store.
Context `{Blake2b}.

Definition NewInStorePath (blobsPath name : bytes) : M FS Blob :=
  blobSubpath ← M_lift (PathifyName name);
  let blobFile := path_Join [blobsPath; blobSubpath] in
  exists_ ← fileExists (Path blobFile);
  f ← (if exists_ : bool then OpenFile (Path blobFile) false
       else
         MkdirAll (Path (filepath_Dir blobFile));;
         OpenFile (Path blobFile) true);
  File_Truncate f Size;;
  mret (newFromFile name f).

(** ** pool.go *)

Record poolEntry := mkPoolEntry { pe_blob : Blob; pe_refs : Z }.

Abbreviation Pool := (gmap bytes poolEntry).

Definition NewPool : Pool := ∅.

Definition PS : Type := FS * Pool.

Definition pool_fs {A} (m : M FS A) : M PS A := M_zoom fst (λ fs s, (fs, s.2)) m.

Definition pool_set (f : Pool → Pool) : M PS unit := M_modify (λ s, (s.1, f s.2)).

Definition Pool_Get (getter : bytes → M FS Blob) (name : bytes) : M PS Blob :=
  s ← M_get;
  match s.2 !! name with
  | Some entry =>
      pool_set <[name := mkPoolEntry (pe_blob entry) (pe_refs entry + 1)]>;;
      mret (pe_blob entry)
  | None =>
      blob ← pool_fs (getter name);
      pool_set <[name := mkPoolEntry blob 1]>;;
      mret blob
  end.

(** The counter is decremented in place before the entry is dropped. *)
Definition Pool_Put (blob : Blob) : M PS unit :=
  let name := blob_name blob in
  s ← M_get;
  match s.2 !! name with
  | None => M_panic "putting back unknown blob"
  | Some entry =>
      let refs := pe_refs entry - 1 in
      pool_set <[name := mkPoolEntry (pe_blob entry) refs]>;;
      if decide (0 < refs) then mret tt
      else
        pool_set (delete name);;
        pool_fs (Blob_Close (pe_blob entry))
  end.

(** ** store.go *)

Definition Store_Open (blobsPath name : bytes) : M PS Blob :=
  Pool_Get (NewInStorePath blobsPath) name.

Definition Store_Exists (blobsPath name : bytes) : M PS bool :=
  sub ← M_lift (PathifyName name);
  pool_fs (fileExists (Path (path_Join [blobsPath; sub]))).

(** [wrappedBlob]: its other methods are those of the blob. *)
Definition wrappedBlob_Close (blob : Blob) : M PS unit := Pool_Put blob.

(** ** Clients of the store: handles that are open *)

Inductive store_op := SOpen (name : bytes) | SClose (k : nat).

(** [held] are the handles returned and not closed yet. *)
Definition store_step (blobsPath : bytes) (op : store_op) (s : PS * list Blob)
    : option (result unit) * (PS * list Blob) :=
  match op with
  | SOpen name =>
      match Store_Open blobsPath name s.1 with
      | (Ok b, ps) => (Some (Ok tt), (ps, s.2 ++ [b]))
      | (Err e, ps) => (Some (Err e), (ps, s.2))
      | (Panic w, ps) => (Some (Panic w), (ps, s.2))
      end
  | SClose k =>
      match s.2 !! k with
      | Some b => let '(r, ps) := wrappedBlob_Close b s.1 in
                  (Some r, (ps, delete k s.2))
      | None => (None, s)
      end
  end.

Definition is_open (fs : FS) (fd : nat) : Prop :=
  ∃ f, fs_files fs !! fd = Some f ∧ file_open f = true.

Definition refs_of (name : bytes) (held : list Blob) : Z :=
  zlen (filter (λ b, blob_name b = name) held).

Record pool_inv (s : PS * list Blob) : Prop := mkPoolInv {
  pi_entry : ∀ n e, s.1.2 !! n = Some e →
    blob_name (pe_blob e) = n ∧ pe_refs e = refs_of n s.2 ∧ 0 < pe_refs e ∧
    is_open s.1.1 (blob_f (pe_blob e)) ∧ (blob_f (pe_blob e) < fs_next s.1.1)%nat;
  pi_held : ∀ b, b ∈ s.2 → ∃ r, s.1.2 !! blob_name b = Some (mkPoolEntry b r);
  pi_distinct : ∀ n n' e e', n ≠ n' → s.1.2 !! n = Some e → s.1.2 !! n' = Some e' →
    blob_f (pe_blob e) ≠ blob_f (pe_blob e');
}.

(** ** Lemmas *)

(** Descriptors are added, those there are stay as they are. *)
Definition files_grow (fs fs' : FS) : Prop :=
  (fs_next fs ≤ fs_next fs')%nat ∧
  ∀ fd, (fd < fs_next fs)%nat → fs_files fs' !! fd = fs_files fs !! fd.

Lemma files_grow_trans fs1 fs2 fs3 :
  files_grow fs1 fs2 → files_grow fs2 fs3 → files_grow fs1 fs3.
Proof.
  intros [Hn H1] [Hn' H2]. split; [lia|]. intros fd Hfd.
  by rewrite H2, H1 by lia.
Qed.

Definition opens (fs : FS) (r : result nat) (fs' : FS) : Prop :=
  files_grow fs fs' ∧
  match r with
  | Ok fd => is_open fs' fd ∧ (fs_next fs ≤ fd < fs_next fs')%nat
  | Err _ => True
  | Panic _ => False
  end.

Lemma new_fd_opens ino p fs : opens fs (new_fd ino p fs).1 (new_fd ino p fs).2.
Proof.
  split; [|split; [|simpl; lia]]; simpl.
  - split; [simpl; lia|]. intros fd Hfd. simpl. by rewrite lookup_insert_ne by lia.
  - eexists. simpl. by rewrite lookup_insert_eq.
Qed.

Lemma OpenFile_opens p c fs : opens fs (OpenFile p c fs).1 (OpenFile p c fs).2.
Proof.
  unfold OpenFile. destruct (fs_names fs !! p) as [[ino|]|]; [apply new_fd_opens|done|].
  destruct c; [|done]. unfold create.
  set (fs1 := fs_bump _). destruct (new_fd_opens (fs_next fs) p fs1) as [Hg Ho].
  split; [|destruct (new_fd _ _ _).1; simpl in *; [lia || (destruct Ho; split; [done|lia])|done..]].
  eapply files_grow_trans; [|exact Hg]. split; [simpl; lia|done].
Qed.

Lemma fileExists_spec p fs :
  (∃ x, fileExists p fs = (Ok x, fs)) ∨ (∃ e, fileExists p fs = (Err e, fs)).
Proof.
  unfold fileExists, M_try, os_Stat, mbind, M_bind.
  destruct (fs_names fs !! p) as [[]|]; simpl; eauto.
Qed.

Lemma open_or_create p (x : bool) fs :
  let m := if x then OpenFile (Path p) false
           else MkdirAll (Path (filepath_Dir p));; OpenFile (Path p) true in
  opens fs (m fs).1 (m fs).2.
Proof.
  destruct x; cbn zeta; [apply OpenFile_opens|]. unfold mbind, M_bind, MkdirAll.
  pose proof (OpenFile_opens (Path p) true (fs_set_name (Path (filepath_Dir p)) Dir fs)) as Ho.
  by destruct (fs_names fs !! _) as [[]|].
Qed.

Lemma NewInStorePath_spec bp name fs :
  let r := (NewInStorePath bp name fs).1 in
  let fs' := (NewInStorePath bp name fs).2 in
  files_grow fs fs' ∧
  match r with
  | Ok b => blob_name b = name ∧ is_open fs' (blob_f b) ∧
            (fs_next fs ≤ blob_f b < fs_next fs')%nat
  | Err _ => True
  | Panic _ => False
  end.
Proof.
  assert (∃ sub, PathifyName name = Ok sub) as [sub Hp].
  { destruct (PathifyName_Ok name) as (segs & -> & _). eauto. }
  unfold NewInStorePath. rewrite Hp. cbn zeta.
  rewrite (M_bind_step (M_lift (Ok sub)) _ fs sub fs eq_refl).
  set (p := path_Join [bp; sub]).
  destruct (fileExists_spec (Path p) fs) as [[x Hx]|[e He]].
  2:{ by rewrite (M_bind_Err _ _ _ _ _ He). }
  rewrite (M_bind_step _ _ _ _ _ Hx).
  set (op := if x then OpenFile (Path p) false else _).
  destruct (open_or_create p x fs) as [Hg Ho]. fold op in Hg, Ho.
  destruct (op fs) as [[f|e|w] fs1] eqn:E; simpl in Hg, Ho; [|by rewrite (M_bind_Err _ _ _ _ _ E)|done].
  rewrite (M_bind_step _ _ _ _ _ E). destruct Ho as [[ff [Hf Hopen]] Hlt].
  rewrite (M_bind_step _ _ _ tt
    (fs_set_inode (file_ino ff) (resize (Z.to_nat Size) x00 (content fs1 (file_ino ff))) fs1)).
  2:{ unfold File_Truncate. by rewrite (M_bind_step _ _ _ _ _ (open_file_Ok _ _ _ Hf Hopen)). }
  split; [exact Hg|]. split; [done|]. split; [by exists ff|]. exact Hlt.
Qed.

Lemma refs_of_app n l k : refs_of n (l ++ k) = refs_of n l + refs_of n k.
Proof. unfold refs_of. by rewrite filter_app, zlen_app. Qed.

Lemma refs_of_single n b : refs_of n [b] = if decide (blob_name b = n) then 1 else 0.
Proof. unfold refs_of. rewrite filter_cons. by case_decide. Qed.

Lemma refs_of_delete n k b l :
  l !! k = Some b →
  refs_of n (delete k l) = refs_of n l - (if decide (blob_name b = n) then 1 else 0).
Proof.
  intros Hk. rewrite <- (take_drop_middle l k b Hk) at 2. rewrite delete_take_drop.
  change (b :: drop (S k) l) with ([b] ++ drop (S k) l).
  rewrite !refs_of_app, refs_of_single. lia.
Qed.

Lemma refs_of_zero n l : refs_of n l = 0 ↔ ∀ b, b ∈ l → blob_name b ≠ n.
Proof.
  unfold refs_of, zlen. rewrite <- Nat2Z.inj_0, Nat2Z.inj_iff. split.
  - intros Hl%nil_length_inv b Hb Hn.
    eapply (not_elem_of_nil (A := Blob)). rewrite <- Hl. by apply list_elem_of_filter.
  - intros Hl. destruct (filter _ l) as [|b fl] eqn:E; [done|].
    assert (b ∈ filter (λ b, blob_name b = n) l) as [Hn Hb]%list_elem_of_filter
      by (rewrite E; set_solver).
    by destruct (Hl b Hb).
Qed.

Lemma is_open_grow fs fs' fd :
  files_grow fs fs' → (fd < fs_next fs)%nat → is_open fs fd → is_open fs' fd.
Proof. intros [_ Hg] Hfd (f & Hf & Ho). exists f. by rewrite Hg. Qed.

(** Opening. *)
Lemma pool_inv_open bp name s :
  pool_inv s → pool_inv (store_step bp (SOpen name) s).2 ∧
  ∀ w, (store_step bp (SOpen name) s).1 ≠ Some (Panic w).
Proof.
  destruct s as [[fs pool] held]. intros [He Hh Hd]. simpl in He, Hh, Hd.
  unfold store_step, Store_Open, Pool_Get. cbn [fst snd].
  rewrite (M_bind_step M_get _ (fs, pool) (fs, pool) (fs, pool) eq_refl). cbn [fst snd].
  destruct (pool !! name) as [e|] eqn:Hn.
  - destruct (He name e Hn) as (Hbn & Hr & Hpos & Hop & Hlt).
    split; [|done]. change (pool_inv
      ((fs, <[name := mkPoolEntry (pe_blob e) (pe_refs e + 1)]> pool), held ++ [pe_blob e])).
    split; cbn [fst snd].
    + intros n e' Hne'. destruct (decide (n = name)) as [->|Hne].
      * rewrite lookup_insert_eq in Hne'. injection Hne' as <-. simpl.
        rewrite refs_of_app, refs_of_single, decide_True by done.
        split_and!; [done|lia|lia|done|done].
      * rewrite lookup_insert_ne in Hne' by done. destruct (He n e' Hne') as (? & ? & ?).
        rewrite refs_of_app, refs_of_single, decide_False by congruence. by rewrite Z.add_0_r.
    + intros b [Hb|Hb%list_elem_of_singleton]%elem_of_app.
      * destruct (Hh b Hb) as [r Hbr]. destruct (decide (blob_name b = name)) as [Hbb|].
        -- rewrite Hbb, lookup_insert_eq. rewrite Hbb in Hbr. simplify_eq. by eexists.
        -- rewrite lookup_insert_ne by done. by exists r.
      * subst b. rewrite Hbn, lookup_insert_eq. by eexists.
    + intros n n' e1 e2 Hne H1 H2.
      assert (∀ m x, <[name:=mkPoolEntry (pe_blob e) (pe_refs e + 1)]> pool !! m = Some x →
        ∃ x', pool !! m = Some x' ∧ pe_blob x' = pe_blob x) as Hsame.
      { intros m x [[-> <-]|[? Hx]]%lookup_insert_Some; [by exists e|by exists x]. }
      destruct (Hsame n e1 H1) as (x1 & Hx1 & <-), (Hsame n' e2 H2) as (x2 & Hx2 & <-).
      by apply (Hd n n').
  - pose proof (NewInStorePath_spec bp name fs) as Hnew. cbn zeta in Hnew.
    destruct (NewInStorePath bp name fs) as [[b|e|w] fs'] eqn:E; simpl in Hnew.
    3:{ by destruct Hnew. }
    2:{ rewrite (M_bind_Err _ _ _ e (fs', pool)) by (unfold pool_fs, M_zoom; simpl; by rewrite E).
        split; [|done]. destruct Hnew as [Hg _]. split; simpl; [|done|done].
        intros n e' Hn'. destruct (He n e' Hn') as (? & ? & ? & ? & ?). split_and!; try done.
        - by eapply is_open_grow.
        - destruct Hg. lia. }
    rewrite (M_bind_step _ _ _ b (fs', pool)) by (unfold pool_fs, M_zoom; simpl; by rewrite E).
    destruct Hnew as (Hg & Hbn & Hop & Hlt). split; [|done].
    change (pool_inv ((fs', <[name := mkPoolEntry b 1]> pool), held ++ [b])).
    assert (refs_of name held = 0) as Hz.
    { apply refs_of_zero. intros b' Hb' Hb'n. destruct (Hh b' Hb') as [r Hr]. congruence. }
    split; cbn [fst snd].
    + intros n e' [[<- <-]|[Hne Hn']]%lookup_insert_Some; simpl.
      * rewrite refs_of_app, refs_of_single, Hz, decide_True by done. by split_and!; try lia.
      * destruct (He n e' Hn') as (? & ? & ? & ? & ?).
        rewrite refs_of_app, refs_of_single, decide_False, Z.add_0_r by congruence.
        split_and!; try done; [by eapply is_open_grow|destruct Hg; lia].
    + intros b' [Hb'|Hb'%list_elem_of_singleton]%elem_of_app.
      * destruct (Hh b' Hb') as [r Hr]. exists r. rewrite lookup_insert_ne; [done|congruence].
      * subst b'. exists 1. by rewrite Hbn, lookup_insert_eq.
    + intros n n' e1 e2 Hne [[<- <-]|[? H1]]%lookup_insert_Some [[<- <-]|[? H2]]%lookup_insert_Some;
        simpl; [done| | |by apply (Hd n n')].
      * destruct (He _ _ H2) as (_ & _ & _ & _ & ?). lia.
      * destruct (He _ _ H1) as (_ & _ & _ & _ & ?). lia.
Qed.

(** Closing a handle that is held. *)
Lemma Pool_Put_spec s k b :
  pool_inv s → s.2 !! k = Some b →
  ∃ ps, Pool_Put b s.1 = (Ok tt, ps) ∧ pool_inv (ps, delete k s.2).
Proof.
  destruct s as [[fs pool] held]. intros [He Hh Hd] Hk. simpl in He, Hh, Hd, Hk.
  assert (b ∈ held) as Hb by (by eapply list_elem_of_lookup_2).
  destruct (Hh b Hb) as [r Hr]. destruct (He _ _ Hr) as (_ & Hrefs & Hpos & Hop & Hlt).
  simpl in Hrefs, Hpos, Hop, Hlt. cbn [fst snd]. unfold Pool_Put.
  rewrite (M_bind_step M_get _ (fs, pool) (fs, pool) (fs, pool) eq_refl). cbn [fst snd].
  rewrite Hr. cbn [pe_blob pe_refs].
  assert (∀ b', b' ∈ delete k held → b' ∈ held) as Hsub.
  { intros b' Hb'. rewrite delete_take_drop in Hb'. rewrite <- (take_drop k held).
    apply elem_of_app in Hb' as [?|Hb']; apply elem_of_app; [by left|right].
    rewrite (drop_S _ _ _ Hk). by apply elem_of_cons; right. }
  rewrite (M_bind_step (pool_set _) _ (fs, pool) tt
    (fs, <[blob_name b := mkPoolEntry b (r - 1)]> pool) eq_refl).
  case_decide as Hlast.
  - eexists. split; [reflexivity|]. split; cbn [fst snd].
    + intros n e [[<- <-]|[Hne Hn]]%lookup_insert_Some; simpl.
      * rewrite (refs_of_delete _ _ _ _ Hk), decide_True by done. split_and!; try done; lia.
      * destruct (He n e Hn) as (? & ? & ?).
        by rewrite (refs_of_delete _ _ _ _ Hk), decide_False, Z.sub_0_r by done.
    + intros b' Hb'%Hsub. destruct (Hh b' Hb') as [r' Hr'].
      destruct (decide (blob_name b' = blob_name b)) as [Hbb|].
      * rewrite Hbb in Hr' |- *. rewrite lookup_insert_eq. exists (r - 1). congruence.
      * exists r'. by rewrite lookup_insert_ne.
    + intros n n' e1 e2 Hne [[<- <-]|[? H1]]%lookup_insert_Some [[<- <-]|[? H2]]%lookup_insert_Some;
        simpl; [done| | |by apply (Hd n n')].
      * by apply (Hd _ _ _ _ Hne Hr H2).
      * by apply (Hd _ _ _ _ Hne H1 Hr).
  - destruct Hop as (f & Hf & Hopen).
    rewrite (M_bind_step (pool_set (delete (blob_name b))) _ _ tt (fs, delete (blob_name b) pool))
      by (unfold pool_set, M_modify; cbn [fst snd]; by rewrite delete_insert_eq).
    set (f' := mkFile (file_ino f) (file_name f) (file_off f) false).
    exists (fs_set_file (blob_f b) f' fs, delete (blob_name b) pool). split.
    { unfold pool_fs, M_zoom, Blob_Close, File_Close. cbn [fst snd].
      by rewrite (M_bind_step _ _ _ _ _ (open_file_Ok _ _ _ Hf Hopen)). }
    split; cbn [fst snd].
    + intros n e [Hne Hn]%lookup_delete_Some. destruct (He n e Hn) as (? & ? & ? & (g & Hg & Ho) & ?).
      rewrite (refs_of_delete _ _ _ _ Hk), decide_False, Z.sub_0_r by done.
      split_and!; try done. exists g. simpl. rewrite lookup_insert_ne; [done|].
      by apply (Hd _ _ _ _ Hne Hr Hn).
    + assert (refs_of (blob_name b) (delete k held) = 0) as Hz.
      { rewrite (refs_of_delete _ _ _ _ Hk), decide_True by done. lia. }
      intros b' Hb'. pose proof (proj1 (refs_of_zero _ _) Hz b' Hb') as Hne.
      destruct (Hh b' (Hsub b' Hb')) as [r' Hr']. exists r'. by rewrite lookup_delete_ne.
    + intros n n' e1 e2 Hne [? H1]%lookup_delete_Some [? H2]%lookup_delete_Some.
      by apply (Hd n n').
Qed.

Fixpoint store_run (bp : bytes) (ops : list store_op) (s : PS * list Blob)
    : list (option (result unit)) * (PS * list Blob) :=
  match ops with
  | [] => ([], s)
  | op :: ops =>
      let '(o, s) := store_step bp op s in
      let '(os, s) := store_run bp ops s in (o :: os, s)
  end.

Lemma store_step_inv bp op s :
  pool_inv s → pool_inv (store_step bp op s).2 ∧
  ∀ w, (store_step bp op s).1 ≠ Some (Panic w).
Proof.
  intros Hs. destruct op as [name|k]; [by apply pool_inv_open|]. simpl.
  destruct (s.2 !! k) as [b|] eqn:Hk; [|done].
  destruct (Pool_Put_spec s k b Hs Hk) as (ps & Hp & Hinv). unfold wrappedBlob_Close.
  by rewrite Hp.
Qed.

Lemma store_run_inv bp ops s :
  pool_inv s → pool_inv (store_run bp ops s).2 ∧
  Forall (λ o, ∀ w, o ≠ Some (Panic w)) (store_run bp ops s).1.
Proof.
  revert s. induction ops as [|op ops IH]; intros s Hs; [done|]. simpl.
  destruct (store_step_inv bp op s Hs) as [Hs' Ho]. destruct (store_step bp op s) as [o s'].
  destruct (IH s' Hs') as [Hs'' Hos]. destruct (store_run bp ops s') as [os s''].
  split; [done|]. by constructor.
Qed.

(** However its clients open blobs and close the handles they hold, the
    store never panics; the pool's counters are the numbers of open handles,
    handles of one name share one blob, and the file of every handle held is
    open. *)
Theorem store_handles_open bp fs ops :
  let '(os, (ps, held)) := store_run bp ops ((fs, NewPool), []) in
  Forall (λ o, ∀ w, o ≠ Some (Panic w)) os ∧
  (∀ n e, ps.2 !! n = Some e → pe_refs e = refs_of n held ∧ 0 < pe_refs e) ∧
  (∀ b b', b ∈ held → b' ∈ held → blob_name b = blob_name b' → b = b') ∧
  (∀ b, b ∈ held → is_open ps.1 (blob_f b)).
Proof.
  destruct (store_run_inv bp ops ((fs, NewPool), [])) as [Hinv Hos].
  { unfold NewPool. split; cbn [fst snd]; [by intros ? ? ?%lookup_empty_Some|by intros ? ?%elem_of_nil|].
    by intros ? ? ? ? _ ?%lookup_empty_Some. }
  destruct (store_run bp ops _) as [os [ps held]]. destruct Hinv as [He Hh Hd]. simpl in *.
  split; [done|]. split; [|split].
  - intros n e Hn. by destruct (He n e Hn) as (_ & ? & ? & _).
  - intros b b' Hb Hb' Heq. destruct (Hh b Hb) as [r Hr], (Hh b' Hb') as [r' Hr'].
    rewrite Heq in Hr. congruence.
  - intros b Hb. destruct (Hh b Hb) as [r Hr]. by destruct (He _ _ Hr) as (_ & _ & _ & ? & _).
Qed.
End store.
