(* ===== verification/Util.v ===== *)
(** * Package util

    [src/util]: the lock table [MultiLocker], the expiring [Cache], the
    [Observable] and [SampleIndices].  Every exported method holds the mutex of
    its object, so a call is one step. *)

From S2P Require Import Prelude GoLib.

(** ** multi_locker.go *)

Record refCounter := mkRefCounter { readers : Z; writers : Z }.

Section multi_locker.
Context {K : Type} `{Countable K}.

Abbreviation lock := (gmap K refCounter).

Definition NewMultiLocker : lock := ∅.

(** The counter of the key, which is added to the map when it is not there. *)
Definition getLocker (key : K) : M lock refCounter :=
  λ l, match l !! key with
       | Some res => (Ok res, l)
       | None => (Ok (mkRefCounter 0 0), <[key := mkRefCounter 0 0]> l)
       end.

Definition set_counter (key : K) (m : refCounter) : M lock unit := M_modify <[key := m]>.

Definition TryLock (key : K) : M lock bool :=
  m ← getLocker key;
  if decide (0 < readers m ∨ 0 < writers m) then mret false
  else set_counter key (mkRefCounter (readers m) (writers m + 1));; mret true.

Definition TryRLock (key : K) : M lock bool :=
  m ← getLocker key;
  if decide (0 < writers m) then mret false
  else set_counter key (mkRefCounter (readers m + 1) (writers m));; mret true.

Definition Unlock (key : K) : M lock unit :=
  m ← getLocker key;
  if decide (writers m ≠ 1) then M_panic "unlocking unlocked multi locker"
  else
    set_counter key (mkRefCounter (readers m) (writers m - 1));;
    if decide (writers m - 1 = 0) then M_modify (delete key) else mret tt.

Definition RUnlock (key : K) : M lock unit :=
  m ← getLocker key;
  if decide (readers m < 1) then M_panic "unlocking unlocked multi locker"
  else
    set_counter key (mkRefCounter (readers m - 1) (writers m));;
    if decide (readers m - 1 = 0) then M_modify (delete key) else mret tt.

(** *** Clients that release what they hold *)

(** The locks that are held: readers and writers of each key. *)
Record held := mkHeld { held_r : K → Z; held_w : K → Z }.

Definition upd (f : K → Z) (k : K) (d : Z) : K → Z :=
  λ k', if decide (k' = k) then f k' + d else f k'.

(** One call by some client. *)
Inductive lock_step : lock * held → lock * held → Prop :=
| step_lock l h k b l' :
    TryLock k l = (Ok b, l') →
    lock_step (l, h) (l', mkHeld (held_r h) (upd (held_w h) k (if b then 1 else 0)))
| step_rlock l h k b l' :
    TryRLock k l = (Ok b, l') →
    lock_step (l, h) (l', mkHeld (upd (held_r h) k (if b then 1 else 0)) (held_w h))
| step_unlock l h k r l' :
    0 < held_w h k → Unlock k l = (r, l') →
    lock_step (l, h) (l', mkHeld (held_r h) (upd (held_w h) k (-1)))
| step_runlock l h k r l' :
    0 < held_r h k → RUnlock k l = (r, l') →
    lock_step (l, h) (l', mkHeld (upd (held_r h) k (-1)) (held_w h)).

Inductive lock_reach : lock * held → Prop :=
| reach_init : lock_reach (NewMultiLocker, mkHeld (λ _, 0) (λ _, 0))
| reach_step s s' : lock_reach s → lock_step s s' → lock_reach s'.

(** The counters are those of the holders, and a writer is alone. *)
Definition lock_inv (s : lock * held) : Prop :=
  ∀ k,
    match s.1 !! k with
    | Some m => readers m = held_r s.2 k ∧ writers m = held_w s.2 k
    | None => held_r s.2 k = 0 ∧ held_w s.2 k = 0
    end ∧
    0 ≤ held_r s.2 k ∧ (held_w s.2 k = 0 ∨ held_w s.2 k = 1 ∧ held_r s.2 k = 0).

(** The counter as [getLocker] leaves it. *)
Lemma getLocker_spec l h k :
  lock_inv (l, h) →
  ∃ l', getLocker k l = (Ok (mkRefCounter (held_r h k) (held_w h k)), l') ∧
    l' !! k = Some (mkRefCounter (held_r h k) (held_w h k)) ∧
    (∀ k', k' ≠ k → l' !! k' = l !! k').
Proof.
  intros Hinv. destruct (Hinv k) as [Hk _]. simpl in Hk. unfold getLocker.
  destruct (l !! k) as [[r w]|] eqn:E.
  - destruct Hk as [<- <-]. by exists l.
  - destruct Hk as [-> ->]. eexists. split; [done|]. rewrite lookup_insert_eq.
    split; [done|]. intros k' Hne. by rewrite lookup_insert_ne.
Qed.

(** Changing one key, in the table and in the holders. *)
Lemma lock_inv_update l h k l' r w :
  lock_inv (l, h) →
  match l' !! k with
  | Some m => readers m = r ∧ writers m = w
  | None => r = 0 ∧ w = 0
  end →
  0 ≤ r → w = 0 ∨ w = 1 ∧ r = 0 →
  (∀ k', k' ≠ k → l' !! k' = l !! k') →
  lock_inv (l', mkHeld (upd (held_r h) k (r - held_r h k)) (upd (held_w h) k (w - held_w h k))).
Proof.
  intros Hinv Hk Hr Hw Hne k'. unfold upd. simpl. destruct (decide (k' = k)) as [->|Hk'].
  - replace (held_r h k + (r - held_r h k)) with r by lia.
    replace (held_w h k + (w - held_w h k)) with w by lia. done.
  - rewrite Hne by done. apply Hinv.
Qed.

Lemma upd_ext l f g f' g' :
  (∀ k, f k = f' k) → (∀ k, g k = g' k) → lock_inv (l, mkHeld f g) → lock_inv (l, mkHeld f' g').
Proof. intros Hf Hg Hinv k. specialize (Hinv k). simpl in *. by rewrite <- Hf, <- Hg. Qed.

(** What each call does to a table that counts its holders. *)
Lemma TryLock_spec l h k :
  lock_inv (l, h) →
  ∃ l', TryLock k l = (Ok (bool_decide (held_r h k = 0 ∧ held_w h k = 0)), l') ∧
    lock_inv (l', mkHeld (held_r h) (upd (held_w h) k
      (if bool_decide (held_r h k = 0 ∧ held_w h k = 0) then 1 else 0))).
Proof.
  intros Hinv. destruct (getLocker_spec l h k Hinv) as (l1 & Hg & Hk & Hne).
  destruct (Hinv k) as (_ & Hr & Hw). simpl in Hr, Hw. unfold TryLock.
  rewrite (M_bind_step _ _ _ _ _ Hg). cbn [readers writers]. case_decide as Hb.
  - rewrite bool_decide_false by lia. exists l1. split; [done|].
    eapply upd_ext; [..|apply (lock_inv_update l h k l1 (held_r h k) (held_w h k)); try done].
    3:{ by rewrite Hk. }
    all: intros k'; unfold upd; case_decide; subst; lia.
  - rewrite bool_decide_true by lia. eexists. split; [reflexivity|].
    eapply upd_ext; [..|apply (lock_inv_update l h k _ (held_r h k) (held_w h k + 1)); try done].
    3:{ by rewrite lookup_insert_eq. }
    3:{ lia. }
    3:{ intros k' Hk'. rewrite lookup_insert_ne by done. by apply Hne. }
    all: intros k'; unfold upd; case_decide; subst; lia.
Qed.

Lemma TryRLock_spec l h k :
  lock_inv (l, h) →
  ∃ l', TryRLock k l = (Ok (bool_decide (held_w h k = 0)), l') ∧
    lock_inv (l', mkHeld (upd (held_r h) k
      (if bool_decide (held_w h k = 0) then 1 else 0)) (held_w h)).
Proof.
  intros Hinv. destruct (getLocker_spec l h k Hinv) as (l1 & Hg & Hk & Hne).
  destruct (Hinv k) as (_ & Hr & Hw). simpl in Hr, Hw. unfold TryRLock.
  rewrite (M_bind_step _ _ _ _ _ Hg). cbn [readers writers]. case_decide as Hb.
  - rewrite bool_decide_false by lia. exists l1. split; [done|].
    eapply upd_ext; [..|apply (lock_inv_update l h k l1 (held_r h k) (held_w h k)); try done].
    3:{ by rewrite Hk. }
    all: intros k'; unfold upd; case_decide; subst; lia.
  - rewrite bool_decide_true by lia. eexists. split; [reflexivity|].
    eapply upd_ext; [..|apply (lock_inv_update l h k _ (held_r h k + 1) (held_w h k))].
    3:{ done. } 3:{ by rewrite lookup_insert_eq. } 3:{ lia. } 3:{ lia. }
    3:{ intros k' Hk'. rewrite lookup_insert_ne by done. by apply Hne. }
    all: intros k'; unfold upd; case_decide; subst; lia.
Qed.

Lemma Unlock_spec l h k :
  lock_inv (l, h) → 0 < held_w h k →
  ∃ l', Unlock k l = (Ok tt, l') ∧
    lock_inv (l', mkHeld (held_r h) (upd (held_w h) k (-1))).
Proof.
  intros Hinv Hpos. destruct (getLocker_spec l h k Hinv) as (l1 & Hg & Hk & Hne).
  destruct (Hinv k) as (_ & Hr & Hw). simpl in Hr, Hw. unfold Unlock.
  rewrite (M_bind_step _ _ _ _ _ Hg). cbn [readers writers].
  rewrite decide_False by lia. rewrite (M_bind_step (set_counter _ _) _ _ tt _ eq_refl).
  rewrite decide_True by lia. eexists. split; [reflexivity|].
  eapply upd_ext; [..|apply (lock_inv_update l h k _ 0 0)].
  3:{ done. } 3:{ by rewrite lookup_delete_eq. } 3:{ lia. } 3:{ lia. }
  3:{ intros k' Hk'. rewrite lookup_delete_ne, lookup_insert_ne by done. by apply Hne. }
  all: intros k'; unfold upd; case_decide; subst; lia.
Qed.

Lemma RUnlock_spec l h k :
  lock_inv (l, h) → 0 < held_r h k →
  ∃ l', RUnlock k l = (Ok tt, l') ∧
    lock_inv (l', mkHeld (upd (held_r h) k (-1)) (held_w h)).
Proof.
  intros Hinv Hpos. destruct (getLocker_spec l h k Hinv) as (l1 & Hg & Hk & Hne).
  destruct (Hinv k) as (_ & Hr & Hw). simpl in Hr, Hw. unfold RUnlock.
  rewrite (M_bind_step _ _ _ _ _ Hg). cbn [readers writers].
  rewrite decide_False by lia. rewrite (M_bind_step (set_counter _ _) _ _ tt _ eq_refl).
  exists (if decide (held_r h k - 1 = 0)
          then delete k (<[k := mkRefCounter (held_r h k - 1) (held_w h k)]> l1)
          else <[k := mkRefCounter (held_r h k - 1) (held_w h k)]> l1).
  split; [by case_decide|].
  eapply upd_ext; [..|apply (lock_inv_update l h k _ (held_r h k - 1) 0)].
  3:{ done. } 4:{ lia. } 4:{ lia. }
  3:{ case_decide; simpl; [by rewrite lookup_delete_eq|rewrite lookup_insert_eq; simpl; lia]. }
  3:{ intros k' Hk'. case_decide; simpl; rewrite ?lookup_delete_ne, lookup_insert_ne by done;
        by apply Hne. }
  all: intros k'; unfold upd; case_decide; subst; lia.
Qed.

Lemma lock_reach_inv s : lock_reach s → lock_inv s.
Proof.
  induction 1 as [|s s' _ IH Hstep].
  { intros k. simpl. unfold NewMultiLocker. rewrite lookup_empty. lia. }
  destruct Hstep as [l h k b l' Hc|l h k b l' Hc|l h k r l' Hpos Hc|l h k r l' Hpos Hc].
  - destruct (TryLock_spec l h k IH) as (l'' & Hc' & Hinv).
    rewrite Hc in Hc'. by simplify_eq.
  - destruct (TryRLock_spec l h k IH) as (l'' & Hc' & Hinv).
    rewrite Hc in Hc'. by simplify_eq.
  - destruct (Unlock_spec l h k IH Hpos) as (l'' & Hc' & Hinv).
    rewrite Hc in Hc'. by simplify_eq.
  - destruct (RUnlock_spec l h k IH Hpos) as (l'' & Hc' & Hinv).
    rewrite Hc in Hc'. by simplify_eq.
Qed.

(** Among clients that release only what they hold, in any interleaving of
    their calls: a key has one writer and no reader, or no writer; [TryLock]
    succeeds exactly when the key is free and [TryRLock] exactly when it has no
    writer; and releasing a lock that is held never panics. *)
Theorem multi_locker_exclusion l h k :
  lock_reach (l, h) →
  (held_w h k = 0 ∨ held_w h k = 1 ∧ held_r h k = 0) ∧
  (TryLock k l).1 = Ok (bool_decide (held_r h k = 0 ∧ held_w h k = 0)) ∧
  (TryRLock k l).1 = Ok (bool_decide (held_w h k = 0)) ∧
  (0 < held_w h k → (Unlock k l).1 = Ok tt) ∧
  (0 < held_r h k → (RUnlock k l).1 = Ok tt).
Proof.
  intros Hinv%lock_reach_inv. split; [apply (Hinv k)|].
  destruct (TryLock_spec l h k Hinv) as (? & -> & _), (TryRLock_spec l h k Hinv) as (? & -> & _).
  split; [done|]. split; [done|]. split; intros Hpos.
  - by destruct (Unlock_spec l h k Hinv Hpos) as (? & -> & _).
  - by destruct (RUnlock_spec l h k Hinv Hpos) as (? & -> & _).
Qed.
End multi_locker.

Lemma multi_locker_exclusion_witness :
  let h := mkHeld (λ _ : nat, 0) (upd (λ _, 0) 3%nat 1) in
  let l := (TryLock 3%nat NewMultiLocker).2 in
  (held_w h 3%nat = 0 ∨ held_w h 3%nat = 1 ∧ held_r h 3%nat = 0) ∧
  (TryLock 3%nat l).1 = Ok (bool_decide (held_r h 3%nat = 0 ∧ held_w h 3%nat = 0)) ∧
  (TryRLock 3%nat l).1 = Ok (bool_decide (held_w h 3%nat = 0)) ∧
  (0 < held_w h 3%nat → (Unlock 3%nat l).1 = Ok tt) ∧
  (0 < held_r h 3%nat → (RUnlock 3%nat l).1 = Ok tt).
Proof.
  apply multi_locker_exclusion. eapply reach_step; [apply reach_init|].
  by apply (step_lock _ (mkHeld (λ _, 0) (λ _, 0)) 3%nat true).
Defined.

(** ** cache.go *)

Section cache.
Context {V : Type}.

Record entry := mkEntry { entry_val : V; entry_expiry : Z }.

Definition Cache : Type := gmap bytes entry.

Definition NewCache : Cache := ∅.

(** The clock: nanoseconds since 1970, as [UnixNano] returns them. *)
Definition MaxInt16 : Z := 32767.

(** The second result is the call of [ReaperFunc], if there is one. *)
Definition Cache_Get (now : Time) (key : bytes) : M Cache (option V * option (bytes * V)) :=
  l ← M_get;
  match (l : gmap bytes entry) !! key with
  | None => mret (None, None)
  | Some e =>
      if decide (entry_expiry e < now) then
        M_modify (delete key : gmap bytes entry → gmap bytes entry);;
        mret (None, Some (key, entry_val e))
      else mret (Some (entry_val e), None)
  end.

(** The product of durations and the sum with the clock are 64-bit. *)
Definition Cache_Set (now : Time) (key : bytes) (val : V) (expMS : Z) : M Cache unit :=
  let expiry := if decide (expMS = 0) then MaxInt16
                else i64 (now + i64 (expMS * Millisecond)) in
  M_modify (<[key := mkEntry val expiry]> : gmap bytes entry → gmap bytes entry).

Definition Cache_Has (now : Time) (key : bytes) : M Cache bool :=
  '(val, _) ← Cache_Get now key; mret (bool_decide (is_Some val)).

Definition Cache_Del (key : bytes) : M Cache unit :=
  M_modify (delete key : gmap bytes entry → gmap bytes entry).

(** What the reaper removes: the clock in seconds against the expiry in
    nanoseconds. *)
Definition reap (now : Time) : M Cache (list (bytes * entry)) :=
  l ← M_get;
  let expired : gmap bytes entry :=
    filter (λ kv, ¬ Unix now < entry_expiry kv.2) (l : gmap bytes entry) in
  M_modify (λ l : gmap bytes entry, l ∖ expired);;
  mret (map_to_list expired).

(** A value set for a positive number of milliseconds is returned until
    that time has passed, and not after it. *)
Theorem cache_expires (l : Cache) now key val expMS later :
  0 < expMS → 0 ≤ now → now + expMS * Millisecond < 2 ^ 63 →
  let l' := (Cache_Set now key val expMS l).2 in
  (Cache_Get later key l').1 =
  if decide (later ≤ now + expMS * Millisecond) then Ok (Some val, None)
  else Ok (None, Some (key, val)).
Proof.
  intros Hms Hnow Hlt. unfold Cache_Set, M_modify, Cache_Get. cbn [snd].
  rewrite (M_bind_step M_get _ _ _ _ eq_refl), decide_False, lookup_insert_eq by lia.
  cbn [entry_expiry entry_val]. unfold Millisecond in *.
  rewrite (i64_small (expMS * 1000000)) by lia. rewrite i64_small by lia.
  case_decide; case_decide; done || lia.
Qed.

(** A value set with expiry 0, which the code stores with the expiry
    32767 ns, is gone at the first [Get] of any clock after 1970. *)
Theorem cache_zero_expiry (l : Cache) now key val later :
  MaxInt16 < later →
  (Cache_Get later key (Cache_Set now key val 0 l).2).1 = Ok (None, Some (key, val)).
Proof.
  intros Hlt. unfold Cache_Set, M_modify, Cache_Get. cbn [snd].
  rewrite (M_bind_step M_get _ _ _ _ eq_refl), decide_True, lookup_insert_eq by done.
  cbn [entry_expiry]. by rewrite decide_True.
Qed.

(** The reaper keeps an entry as long as the clock in seconds is below its
    expiry in nanoseconds: an entry set for any time the clock can reach is
    not removed by it, expired or not. *)
Lemma reap_keeps (l : Cache) now key e :
  (l : gmap bytes entry) !! key = Some e → Unix now < entry_expiry e →
  ((reap now l).2 : gmap bytes entry) !! key = Some e.
Proof.
  intros Hk Hlt. unfold reap. rewrite (M_bind_step M_get _ _ _ _ eq_refl). simpl.
  apply lookup_difference_Some. split; [done|].
  apply map_lookup_filter_None. right. intros e' He'. simplify_eq/=. lia.
Qed.
End cache.

Lemma cache_expires_witness :
  let l' := (Cache_Set 0 (bs "k") x01 5 NewCache).2 in
  (Cache_Get (9 * Millisecond) (bs "k") l').1 =
  if decide (9 * Millisecond ≤ 0 + 5 * Millisecond) then Ok (Some x01, None)
  else Ok (None, Some (bs "k", x01)).
Proof. by apply cache_expires. Defined.

Lemma cache_zero_expiry_witness :
  (Cache_Get Second (bs "k") (Cache_Set 0 (bs "k") x01 0 NewCache).2).1 =
  Ok (None, Some (bs "k", x01)).
Proof. by apply cache_zero_expiry. Defined.

(** ** observable.go *)

Section observable.
Context {L : Type}.

(** The listeners of each event, by handle. *)
Record Observable := mkObservable {
  listeners : gmap bytes (gmap Z L);
  next_hdl : Z;
}.

Definition NewObservable : Observable := mkObservable ∅ 0.

(** [On], and the handle its unsubscriber is for. *)
Definition On (evt : bytes) (cb : L) : M Observable Z :=
  λ o, let hdl := next_hdl o in
       (Ok hdl, mkObservable
          (<[evt := <[hdl := cb]> (default ∅ (listeners o !! evt))]> (listeners o)) (hdl + 1)).

Definition off (evt : bytes) (hdl : Z) : M Observable unit :=
  λ o, match listeners o !! evt with
       | None => (Panic "listener not found", o)
       | Some ls =>
           if decide (ls !! hdl = None) then (Panic "listener not found", o)
           else
             let ls := delete hdl ls in
             (Ok tt, mkObservable
                (if decide (ls = ∅) then delete evt (listeners o)
                 else <[evt := ls]> (listeners o)) (next_hdl o))
       end.

(** The listeners that [Emit] starts, each on a goroutine. *)
Definition Emit (evt : bytes) (o : Observable) : gmap Z L := default ∅ (listeners o !! evt).
End observable.

(** ** sampler.go *)

Section sampler.
(** The numbers of the random source; the state is how many have been drawn. *)
Context (rand : nat → Z).

Definition Intn (n : Z) : M nat Z := λ k, (Ok (rand k mod n), S k).

(** The inner loop: up to [tries] draws for an index that is not used. *)
Fixpoint sample_one (tries : nat) (sliceLen : Z) (out : list Z) : M nat Z :=
  match tries with
  | O => M_panic "failed to find random sample in time"
  | S tries =>
      j ← Intn sliceLen;
      if decide (j ∈ out) then sample_one tries sliceLen out else mret j
  end.

(** The outer loop: [n] more indices. *)
Fixpoint sample_loop (n : nat) (sliceLen : Z) (out : list Z) : M nat (list Z) :=
  match n with
  | O => mret out
  | S n => j ← sample_one 100 sliceLen out; sample_loop n sliceLen (out ++ [j])
  end.

Definition SampleIndices (sliceLen count : Z) : M nat (list Z) :=
  if decide (sliceLen = 0) then mret []
  else if decide (sliceLen < count) then mret (seqZ 0 sliceLen)
  else sample_loop (Z.to_nat count) sliceLen [].

Lemma sample_one_Ok tries sliceLen out src j src' :
  0 < sliceLen → sample_one tries sliceLen out src = (Ok j, src') →
  0 ≤ j < sliceLen ∧ j ∉ out.
Proof.
  intros Hpos. revert src. induction tries as [|tries IH]; intros src; [done|].
  cbn [sample_one]. intros (x & s1 & Hx & Hj)%M_bind_Ok.
  assert (0 ≤ x < sliceLen) as Hr.
  { injection Hx as <- _. by apply Z.mod_pos_bound. }
  case_decide as Hin; [by eapply IH|]. by injection Hj as <- _.
Qed.

Lemma sample_loop_Ok n sliceLen out src res src' :
  0 < sliceLen → NoDup out → Forall (λ j, 0 ≤ j < sliceLen) out →
  sample_loop n sliceLen out src = (Ok res, src') →
  length res = (length out + n)%nat ∧ NoDup res ∧ Forall (λ j, 0 ≤ j < sliceLen) res.
Proof.
  intros Hpos. revert out src. induction n as [|n IH]; intros out src Hnd Hr.
  { intros [= <- <-]. by rewrite Nat.add_0_r. }
  cbn [sample_loop]. intros (j & s1 & Hj & Hrest)%M_bind_Ok.
  apply sample_one_Ok in Hj as [Hj1 Hj2]; [|done].
  apply IH in Hrest as (Hl & ? & ?).
  - split; [|done]. rewrite Hl, length_app. simpl. lia.
  - apply NoDup_app. split; [done|]. split; [set_solver|apply NoDup_singleton].
  - apply Forall_app. by split; [|constructor].
Qed.

(** A sample that is returned has as many indices as asked for, or all of
    them when there are fewer, each within the slice and none twice. *)
Theorem sample_indices_distinct sliceLen count src res src' :
  0 ≤ sliceLen → 0 ≤ count →
  SampleIndices sliceLen count src = (Ok res, src') →
  zlen res = Z.min sliceLen count ∧ NoDup res ∧ Forall (λ j, 0 ≤ j < sliceLen) res.
Proof.
  intros Hs Hc. unfold SampleIndices. case_decide as H0; [|case_decide as H1].
  - intros [= <- <-]. split; [subst; rewrite zlen_nil; lia|]. by split; constructor.
  - intros [= <- <-]. unfold zlen. rewrite length_seqZ. split; [lia|].
    split; [apply NoDup_seqZ|]. apply Forall_forall. intros j Hj%elem_of_seqZ. lia.
  - intros Hl. apply sample_loop_Ok in Hl as (Hl & ? & ?); [|lia|constructor|constructor].
    split; [unfold zlen; rewrite Hl; simpl; lia|done].
Qed.

End sampler.

Lemma sample_indices_distinct_witness :
  zlen [2; 4; 1] = Z.min 5 3 ∧ NoDup [2; 4; 1] ∧ Forall (λ j, 0 ≤ j < 5) [2; 4; 1].
Proof.
  apply (sample_indices_distinct (λ k, [7; 2; 9; 11] !!! k) 5 3 0%nat _ 4%nat); [done..|].
  reflexivity.
Defined.
