(* ===== verification/StoreDB.v ===== *)
(** * Package store: the database

    goleveldb and the text format of encoding/json are interfaces: [LevelDB] and
    [JSON] are the calls the code makes, [LevelDBLaws] and [JSONLaws] what their
    documentation promises.  On them, [src/store/store.go], [prefix.go], and the
    encodings of integers and times of [naming.go] and [peers.go]. *)

From S2P Require Import Prelude GoLib Crypto.

(** ** Interfaces *)

Definition ErrNotFound : error := ESentinel "leveldb: not found".

(** A database and a transaction, with the contents they stand for. *)
Class LevelDB := {
  DB : Type;
  TX : Type;
  db_map : DB → gmap bytes bytes;
  tx_map : TX → gmap bytes bytes;
  db_Get : DB → bytes → result bytes;
  db_Has : DB → bytes → result bool;
  (** the pairs whose keys have this prefix, in the order of the keys *)
  db_PrefixIterator : DB → bytes → list (bytes * bytes);
  (** the pairs whose keys are from [start] on and below [limit] *)
  db_RangeIterator : DB → bytes → bytes → list (bytes * bytes);
  db_OpenTransaction : DB → result TX;
  tx_Get : TX → bytes → result bytes;
  tx_Has : TX → bytes → result bool;
  tx_Put : bytes → bytes → M TX unit;
  tx_Delete : bytes → M TX unit;
  tx_PrefixIterator : TX → bytes → list (bytes * bytes);
  tx_Commit : TX → DB → result unit * DB;
}.

(** The order of keys: bytes as unsigned numbers. *)
Fixpoint bytes_ltb (a b : bytes) : bool :=
  match a, b with
  | _, [] => false
  | [], _ :: _ => true
  | x :: a, y :: b =>
      bool_decide (Z_of_byte x < Z_of_byte y) || bool_decide (x = y) && bytes_ltb a b
  end.

(** A database on which reads and writes do not fail. *)
Class LevelDBLaws `{LevelDB} : Prop := {
  db_Get_law : ∀ db k,
    db_Get db k = match db_map db !! k with Some v => Ok v | None => Err ErrNotFound end;
  db_Has_law : ∀ db k, db_Has db k = Ok (bool_decide (is_Some (db_map db !! k)));
  db_PrefixIterator_law : ∀ db p k v,
    (k, v) ∈ db_PrefixIterator db p ↔ db_map db !! k = Some v ∧ p `prefix_of` k;
  db_RangeIterator_law : ∀ db lo hi k v,
    (k, v) ∈ db_RangeIterator db lo hi ↔
    db_map db !! k = Some v ∧ bytes_ltb k lo = false ∧ bytes_ltb k hi = true;
  db_OpenTransaction_law : ∀ db, ∃ tx, db_OpenTransaction db = Ok tx ∧ tx_map tx = db_map db;
  tx_Get_law : ∀ tx k,
    tx_Get tx k = match tx_map tx !! k with Some v => Ok v | None => Err ErrNotFound end;
  tx_Has_law : ∀ tx k, tx_Has tx k = Ok (bool_decide (is_Some (tx_map tx !! k)));
  tx_Put_law : ∀ tx k v, ∃ tx', tx_Put k v tx = (Ok tt, tx') ∧ tx_map tx' = <[k := v]> (tx_map tx);
  tx_Delete_law : ∀ tx k, ∃ tx', tx_Delete k tx = (Ok tt, tx') ∧ tx_map tx' = delete k (tx_map tx);
  tx_PrefixIterator_law : ∀ tx p k v,
    (k, v) ∈ tx_PrefixIterator tx p ↔ tx_map tx !! k = Some v ∧ p `prefix_of` k;
  tx_Commit_law : ∀ tx db, ∃ db', tx_Commit tx db = (Ok tt, db') ∧ db_map db' = tx_map tx;
}.

(** Values of the fields of the structs that are stored, and their types. *)
Inductive jleaf := JStr (s : bytes) | JUint16 (n : Z) | JInt (n : Z) | JBool (b : bool) | JTime (t : Time).
Inductive jkind := KStr | KUint16 | KInt | KBool | KTime.

Definition kind_of (v : jleaf) : jkind :=
  match v with
  | JStr _ => KStr
  | JUint16 _ => KUint16
  | JInt _ => KInt
  | JBool _ => KBool
  | JTime _ => KTime
  end.

(** [json.Marshal] of a struct, by its fields, and [json.Unmarshal] into one. *)
Class JSON := {
  json_Marshal : list (string * jleaf) → result bytes;
  json_Unmarshal : list (string * jkind) → bytes → result (list jleaf);
}.

Definition MaxTime : Time := 253402300800 * Second.

(** The values JSON keeps: ASCII text, integers of their type, times of the
    years 1 to 9999. *)
Definition jleaf_ok (v : jleaf) : Prop :=
  match v with
  | JStr s => Forall (λ c, Z_of_byte c < 128) s
  | JUint16 n => is_u16 n
  | JInt n => - 2 ^ 63 ≤ n < 2 ^ 63
  | JBool _ => True
  | JTime t => ZeroTime ≤ t < MaxTime
  end.

Class JSONLaws `{JSON} : Prop := {
  json_roundtrip : ∀ fields,
    Forall (λ f, jleaf_ok f.2) fields →
    ∃ b, json_Marshal fields = Ok b ∧
      json_Unmarshal ((λ f, (f.1, kind_of f.2)) <$> fields) b = Ok (snd <$> fields);
}.

(** ** store.go *)

Section with_tx.
Context `{LevelDB} {S : Type}.

(** [WithTx]; [S] is the rest of the state the callback works on.  The deferred
    function looks at the error of [OpenTransaction], which is nil there, and
    its own assignment comes after the result has been set. *)
Definition WithTx (cb : M (TX * S) unit) : M (DB * S) unit :=
  λ '(db, s),
    match db_OpenTransaction db with
    | Err e => (Err (EWrap e "error opening transaction"), (db, s))
    | Panic w => (Panic w, (db, s))
    | Ok tx =>
        match cb (tx, s) with
        | (Panic w, (_, s)) => (Panic w, (db, s))
        | (r, (tx, s)) => (r, ((tx_Commit tx db).2, s))
        end
    end.
End with_tx.

(** Calls on the database, or on the transaction alone. *)
Definition on_tx {T S A} (m : M T A) : M (T * S) A := M_zoom fst (λ t s, (t, s.2)) m.

Definition WithTx_only `{LevelDB} (cb : M TX unit) : M DB unit :=
  λ db, let '(r, (db', _)) := WithTx (S := unit) (on_tx cb) (db, tt) in (r, db').

(** ** prefix.go *)

Fixpoint strings_Join (parts : list bytes) (sep : bytes) : bytes :=
  match parts with
  | [] => []
  | [p] => p
  | p :: parts => p ++ sep ++ strings_Join parts sep
  end.

Definition Prefixer (prefix : bytes) (parts : list bytes) : bytes :=
  strings_Join (prefix :: parts) (bs "/").

(** ** Integers and times *)

Definition MaxInt32 : Z := 2 ^ 31 - 1.
Definition MaxInt64 : Z := 2 ^ 63 - 1.

Definition mustEncodeInt (n : Z) : bytes := be_put 8 (u64 n).

(** [binary.BigEndian.Uint64] panics on fewer than eight bytes. *)
Definition Uint64 (b : bytes) : result Z :=
  if decide (length b < 8)%nat then Panic "index out of range" else Ok (be_get (take 8 b)).

Definition mustDecodeInt (b : bytes) : result Z :=
  if decide (zlen b = 0) then Ok 0
  else
    out ← Uint64 b;
    if decide (MaxInt32 < out) then Panic "overflow" else Ok out.

Definition encodeTime (t : Time) : bytes := be_put 8 (u64 (Unix t)).

(** [None] is the nil slice of a key that was not found. *)
Definition mustDecodeTime (buf : option bytes) : result Time :=
  match buf with
  | None => Ok ZeroTime
  | Some buf =>
      out ← Uint64 buf;
      if decide (MaxInt64 < out) then Panic "overflow" else Ok (time_Unix out)
  end.

(** [json.Marshal] and [json.Unmarshal], panicking on an error. *)
Definition must {A} (r : result A) : result A :=
  match r with
  | Err _ => Panic "err"
  | _ => r
  end.

(** The loop the stores are emptied by: delete every key of an iterator over a
    prefix, which runs over a snapshot of the transaction. *)
Definition delete_all `{LevelDB} (msg : string) (keys : list bytes) : M TX unit :=
  foldr (λ k rest, M_wrapping msg (tx_Delete k);; rest) (mret tt) keys.

Definition delete_prefix `{LevelDB} (msg : string) (prefix : bytes) : M TX unit :=
  λ tx, delete_all msg (fst <$> tx_PrefixIterator tx prefix) tx.

(** ** Lemmas *)

Lemma length_mustEncodeInt n : length (mustEncodeInt n) = 8%nat.
Proof. apply length_be_put. Qed.

Lemma Uint64_be_put z : is_u64 z → Uint64 (be_put 8 z) = Ok z.
Proof.
  intros Hz. unfold Uint64. rewrite length_be_put, decide_False by lia.
  rewrite take_ge by (rewrite length_be_put; lia). by rewrite be_get_put_small.
Qed.

Lemma mustDecodeInt_Encode n :
  0 ≤ n < 2 ^ 64 →
  mustDecodeInt (mustEncodeInt n) = if decide (MaxInt32 < n) then Panic "overflow" else Ok n.
Proof.
  intros Hn. unfold mustDecodeInt. unfold zlen. rewrite length_mustEncodeInt, decide_False by done.
  unfold mustEncodeInt, u64. rewrite Z.mod_small by done. by rewrite Uint64_be_put.
Qed.

Lemma mustDecodeTime_encode t :
  0 ≤ Unix t ≤ MaxInt64 → mustDecodeTime (Some (encodeTime t)) = Ok (time_Unix (Unix t)).
Proof.
  unfold MaxInt64. intros Ht. unfold mustDecodeTime, encodeTime, u64.
  rewrite Z.mod_small by lia. rewrite Uint64_be_put by (unfold is_u64; lia). simpl.
  by rewrite decide_False by (unfold MaxInt64; lia).
Qed.

Lemma WithTx_Ok `{LevelDB} {S} (cb : M (TX * S) unit) db s tx r tx' s' :
  db_OpenTransaction db = Ok tx → cb (tx, s) = (r, (tx', s')) → (∀ w, r ≠ Panic w) →
  WithTx cb (db, s) = (r, ((tx_Commit tx' db).2, s')).
Proof.
  intros Ht Hc Hr. unfold WithTx. rewrite Ht, Hc. destruct r as [[]| |w]; [done..|].
  by destruct (Hr w).
Qed.

Section with_tx_lemmas.
Context `{HL : LevelDBLaws} {S : Type}.

(** A callback that returns, with an error or not: its writes are committed. *)
Lemma WithTx_returns (cb : M (TX * S) unit) db s r m s' :
  (∀ w, r ≠ Panic w) →
  (∀ tx, tx_map tx = db_map db → ∃ tx', cb (tx, s) = (r, (tx', s')) ∧ tx_map tx' = m) →
  ∃ db', WithTx cb (db, s) = (r, (db', s')) ∧ db_map db' = m.
Proof.
  intros Hr Hcb. destruct (db_OpenTransaction_law db) as (tx & Htx & Hm).
  destruct (Hcb tx Hm) as (tx' & Hc & Hm'). destruct (tx_Commit_law tx' db) as (db' & Hco & Hmm).
  exists db'. unfold WithTx. rewrite Htx, Hc, Hco. split; [|congruence].
  by destruct r; [..|destruct (Hr why)].
Qed.
End with_tx_lemmas.

Section tx_only.
Context `{HL : LevelDBLaws}.

Lemma WithTx_only_returns (cb : M TX unit) db r m :
  (∀ w, r ≠ Panic w) →
  (∀ tx, tx_map tx = db_map db → ∃ tx', cb tx = (r, tx') ∧ tx_map tx' = m) →
  ∃ db', WithTx_only cb db = (r, db') ∧ db_map db' = m.
Proof.
  intros Hr Hcb. destruct (WithTx_returns (S := unit) (on_tx cb) db tt r m tt Hr) as (db' & Hw & Hm).
  { intros tx Htx. destruct (Hcb tx Htx) as (tx' & Hc & Hm). exists tx'. split; [|done].
    unfold on_tx, M_zoom. simpl. by rewrite Hc. }
  exists db'. unfold WithTx_only. by rewrite Hw.
Qed.

Lemma WithTx_only_Put msg k v db :
  ∃ db', WithTx_only (M_wrapping msg (tx_Put k v)) db = (Ok tt, db') ∧
    db_map db' = <[k := v]> (db_map db).
Proof.
  apply WithTx_only_returns; [done|]. intros tx Htx.
  destruct (tx_Put_law tx k v) as (tx' & Hp & Hm). exists tx'. unfold M_wrapping.
  by rewrite Hp, Hm, Htx.
Qed.

Lemma tx_Put_bind {B} k v (f : unit → M TX B) tx :
  ∃ tx', (tx_Put k v ≫= f) tx = f tt tx' ∧ tx_map tx' = <[k := v]> (tx_map tx).
Proof.
  destruct (tx_Put_law tx k v) as (tx' & Hp & Hm). exists tx'. split; [|done].
  by rewrite (M_bind_step _ _ _ _ _ Hp).
Qed.

Lemma delete_all_spec msg keys tx :
  ∃ tx', delete_all msg keys tx = (Ok tt, tx') ∧
    ∀ k, tx_map tx' !! k = if decide (k ∈ keys) then None else tx_map tx !! k.
Proof.
  revert tx. induction keys as [|k keys IH]; intros tx.
  - exists tx. split; [done|]. intros k. by rewrite decide_False by set_solver.
  - cbn [delete_all foldr]. destruct (tx_Delete_law tx k) as (tx1 & Hd & Hm).
    rewrite (M_bind_step _ _ _ tt tx1) by (unfold M_wrapping; by rewrite Hd).
    destruct (IH tx1) as (tx2 & Hk & Hm2).
    exists tx2. split; [exact Hk|]. intros k'. rewrite Hm2, Hm.
    destruct (decide (k' ∈ keys)) as [Hin|Hin].
    { by rewrite decide_True by set_solver. }
    destruct (decide (k' = k)) as [->|Hne].
    + by rewrite lookup_delete_eq, decide_True by set_solver.
    + by rewrite lookup_delete_ne, decide_False by set_solver.
Qed.

Lemma delete_prefix_spec msg p tx :
  ∃ tx', delete_prefix msg p tx = (Ok tt, tx') ∧
    ∀ k, tx_map tx' !! k = if decide (p `prefix_of` k) then None else tx_map tx !! k.
Proof.
  destruct (delete_all_spec msg (fst <$> tx_PrefixIterator tx p) tx) as (tx' & Hd & Hm).
  exists tx'. split; [exact Hd|]. intros k. rewrite Hm.
  destruct (decide (k ∈ fst <$> tx_PrefixIterator tx p)) as [Hin|Hin].
  - apply list_elem_of_fmap in Hin as ([k' v] & -> & Hin).
    apply tx_PrefixIterator_law in Hin as [_ Hp]. by rewrite decide_True.
  - case_decide as Hp; [|done]. destruct (tx_map tx !! k) as [v|] eqn:E; [|done].
    destruct Hin. apply list_elem_of_fmap. exists (k, v). split; [done|].
    by apply tx_PrefixIterator_law.
Qed.
End tx_only.

(** Keys made by a [Prefixer] from one part. *)
Lemma Prefixer_one p n : Prefixer p [n] = p ++ bs "/" ++ n.
Proof. done. Qed.

Lemma Prefixer_inj p n m : Prefixer p [n] = Prefixer p [m] → n = m.
Proof. rewrite !Prefixer_one. by intros He%app_inv_head%app_inv_head. Qed.
