(* ===== verification/StoreInstances.v ===== *)
(** * Concrete instances of the database and of the text format

    A database that is a finite map, and a text format that writes the fields
    of a struct as a sequence of bits. *)

From S2P Require Import Prelude GoLib Crypto StoreDB.

#[export] Instance map_leveldb : LevelDB := {|
  DB := gmap bytes bytes;
  TX := gmap bytes bytes;
  db_map := λ m, m;
  tx_map := λ m, m;
  db_Get := λ m k, match m !! k with Some v => Ok v | None => Err ErrNotFound end;
  db_Has := λ m k, Ok (bool_decide (is_Some (m !! k)));
  db_PrefixIterator := λ m p, map_to_list (filter (λ kv, p `prefix_of` kv.1) m);
  db_RangeIterator := λ m lo hi,
    map_to_list (filter (λ kv, bytes_ltb kv.1 lo = false ∧ bytes_ltb kv.1 hi = true) m);
  db_OpenTransaction := λ m, Ok m;
  tx_Get := λ m k, match m !! k with Some v => Ok v | None => Err ErrNotFound end;
  tx_Has := λ m k, Ok (bool_decide (is_Some (m !! k)));
  tx_Put := λ k v m, (Ok tt, <[k := v]> m);
  tx_Delete := λ k m, (Ok tt, delete k m);
  tx_PrefixIterator := λ m p, map_to_list (filter (λ kv, p `prefix_of` kv.1) m);
  tx_Commit := λ tx _, (Ok tt, tx);
|}.

#[export] Instance map_leveldb_laws : LevelDBLaws.
Proof.
  split; try done.
  - intros db p k v. simpl. by rewrite elem_of_map_to_list, map_lookup_filter_Some.
  - intros db lo hi k v. simpl. by rewrite elem_of_map_to_list, map_lookup_filter_Some.
  - intros db. by exists db.
  - intros tx k v. by eexists.
  - intros tx k. by eexists.
  - intros tx p k v. simpl. by rewrite elem_of_map_to_list, map_lookup_filter_Some.
  - intros tx db. by eexists.
Qed.

(** ** Bits *)

#[global] Instance jleaf_eq_decision : EqDecision jleaf.
Proof. solve_decision. Defined.

#[global] Instance jleaf_countable : Countable jleaf.
Proof.
  refine (inj_countable'
    (λ v, match v with
          | JStr s => inl s
          | JUint16 n => inr (inl n)
          | JInt n => inr (inr (inl n))
          | JBool b => inr (inr (inr (inl b)))
          | JTime t => inr (inr (inr (inr t)))
          end)
    (λ x, match x with
          | inl s => JStr s
          | inr (inl n) => JUint16 n
          | inr (inr (inl n)) => JInt n
          | inr (inr (inr (inl b))) => JBool b
          | inr (inr (inr (inr t))) => JTime t
          end) _).
  by intros [].
Defined.

#[global] Instance jkind_eq_decision : EqDecision jkind.
Proof. solve_decision. Defined.

Fixpoint bits_of (p : positive) : bytes :=
  match p with
  | xH => []
  | xO p => x00 :: bits_of p
  | xI p => x01 :: bits_of p
  end.

Fixpoint of_bits (b : bytes) : positive :=
  match b with
  | [] => xH
  | c :: b => if decide (c = x00) then xO (of_bits b) else xI (of_bits b)
  end.

Lemma of_bits_of p : of_bits (bits_of p) = p.
Proof. induction p; simpl; congruence. Qed.

Definition bits_Marshal (fields : list (string * jleaf)) : result bytes :=
  Ok (bits_of (encode fields)).

Definition bits_Unmarshal (kinds : list (string * jkind)) (b : bytes) : result (list jleaf) :=
  match decode (A := list (string * jleaf)) (of_bits b) with
  | Some fields =>
      if decide (((λ f, (f.1, kind_of f.2)) <$> fields) = kinds) then Ok (snd <$> fields)
      else Err (ENew "json: cannot unmarshal")
  | None => Err (ENew "unexpected end of JSON input")
  end.

#[export] Instance bits_json : JSON :=
  {| json_Marshal := bits_Marshal; json_Unmarshal := bits_Unmarshal |}.

#[export] Instance bits_json_laws : JSONLaws.
Proof.
  split. intros fields _. eexists. split; [done|]. simpl. unfold bits_Unmarshal.
  rewrite of_bits_of, decode_encode. by rewrite decide_True.
Qed.

Definition empty_db : DB (LevelDB := map_leveldb) := (∅ : gmap bytes bytes).
