(* ===== verification/Store.v ===== *)
(** * Package store: headers, names, bans and equivocation proofs

    [src/store/headers.go], [naming.go], [moderation.go] and
    [equivocation_proof.go].  Functions of a database that only read it are
    functions of its value; functions of a transaction are stateful. *)

From S2P Require Import Prelude GoLib Crypto Instances Dwire Sector Wire StoreDB StoreInstances.

Section store.
Context `{LevelDB, JSON, Secp256k1}.

(** ** headers.go *)

Record Header := mkHeader {
  h_Name : bytes;
  h_EpochHeight : Z;
  h_SectorSize : Z;
  h_SectorTipHash : Hash;
  h_Signature : Signature;
  h_ReservedRoot : Hash;
  h_EpochStartAt : Time;
}.

Definition Header_MarshalJSON (h : Header) : result bytes :=
  json_Marshal [
    ("name"%string, JStr (h_Name h));
    ("epoch_height"%string, JUint16 (h_EpochHeight h));
    ("sector_size"%string, JUint16 (h_SectorSize h));
    ("sector_tip_hash"%string, JStr (Hash_String (h_SectorTipHash h)));
    ("signature"%string, JStr (Signature_String (h_Signature h)));
    ("reserved_root"%string, JStr (Hash_String (h_ReservedRoot h)));
    ("epoch_start_at"%string, JTime (h_EpochStartAt h)) ].

Definition Header_kinds : list (string * jkind) := [
  ("name"%string, KStr); ("epoch_height"%string, KUint16); ("sector_size"%string, KUint16);
  ("sector_tip_hash"%string, KStr); ("signature"%string, KStr); ("reserved_root"%string, KStr);
  ("epoch_start_at"%string, KTime) ].

Definition Header_UnmarshalJSON (b : bytes) : result Header :=
  fields ← json_Unmarshal Header_kinds b;
  match fields with
  | [JStr name; JUint16 epochHeight; JUint16 sectorSize; JStr tip; JStr signature; JStr root;
     JTime startAt] =>
      mrB ← hex_DecodeString tip;
      mr ← NewHashFromBytes mrB;
      sigB ← hex_DecodeString signature;
      sig ← NewSignatureFromBytes sigB;
      rrB ← hex_DecodeString root;
      rr ← NewHashFromBytes rrB;
      Ok (mkHeader name epochHeight sectorSize mr sig rr startAt)
  | _ => Err (ENew "json: cannot unmarshal")
  end.

Definition headersPrefix : list bytes → bytes := Prefixer (bs "headers").
Definition headerCountKey : bytes := Prefixer (headersPrefix [bs "count"]) [].
Definition headerSectorHashesPrefix : list bytes → bytes :=
  Prefixer (headersPrefix [bs "sector-hashes"]).
Definition headerBanPrefix : list bytes → bytes := Prefixer (headersPrefix [bs "banned"]).
Definition headerDataPrefix : list bytes → bytes := Prefixer (headersPrefix [bs "header"]).

Definition GetHeaderCount (db : DB) : result Z :=
  match db_Get db headerCountKey with
  | Err e => if errors_Is e ErrNotFound then Ok 0
             else Err (EWrap e "error getting header count")
  | Panic w => Panic w
  | Ok res => mustDecodeInt res
  end.

(** A count that is not there is decoded from the nil slice. *)
Definition IncrementHeaderCount : M TX unit :=
  tx ← M_get;
  count ← M_lift (match tx_Get tx headerCountKey with
                  | Err e => if errors_Is e ErrNotFound then Ok []
                             else Err (EWrap e "error getting header count")
                  | r => r
                  end);
  n ← M_lift (mustDecodeInt count);
  M_wrapping "error putting header count" (tx_Put headerCountKey (mustEncodeInt (n + 1))).

Definition GetHeader (db : DB) (name : bytes) : result Header :=
  headerData ← wrapping "error getting header data" (db_Get db (headerDataPrefix [name]));
  must (Header_UnmarshalJSON headerData).

Definition GetSectorHashes (db : DB) (name : bytes) : result SectorHashes :=
  baseB ← wrapping "error getting sector hashes"
            (db_Get db (headerSectorHashesPrefix [name]));
  '(base, _) ← must (SectorHashes_Decode baseB);
  Ok base.

(** Indexing the array of 4096 hashes. *)
Definition index_hashes (hashes : SectorHashes) (index : Z) : result Hash :=
  match hashes !! Z.to_nat index with
  | Some h => Ok h
  | None => Panic "index out of range"
  end.

(** The error wrapped when the index is past the end is nil. *)
Definition GetSectorHash (db : DB) (name : bytes) (index : Z) : result Hash :=
  match GetSectorHashes db name with
  | Err e => Err e
  | Panic w => Panic w
  | Ok hashes =>
      if decide (zlen hashes < index) then
        match errors_Wrap None "error getting index" with
        | Some e => Err e
        | None => Ok ZeroHash
        end
      else index_hashes hashes index
  end.

Definition GetHeaderBan (db : DB) (name : bytes) : result Time :=
  exists_ ← wrapping "error checking header ban" (db_Has db (headerBanPrefix [name]));
  if negb exists_ then Ok ZeroTime
  else
    b ← wrapping "error getting header ban" (db_Get db (headerBanPrefix [name]));
    timestamp ← mustDecodeInt b;
    Ok (time_Unix timestamp).

Definition SetHeaderBan (now : Time) (name : bytes) (at_ : Time) : M TX unit :=
  let at_ := if IsZero at_ then now else at_ in
  M_wrapping "error writing header tree"
    (tx_Put (headerBanPrefix [name]) (mustEncodeInt (Unix at_))).

Definition SetHeaderTx (header : Header) (sectorHashes : SectorHashes) : M TX unit :=
  match SectorHashes_Encode sectorHashes with
  | (_, Some e) => M_fail (EWrap e "error encoding sector hashes")
  | (buf, None) =>
      tx ← M_get;
      exists_ ← M_lift (wrapping "error checking header existence"
                          (tx_Has tx (headerDataPrefix [h_Name header])));
      M_wrapping "error writing sector hashes"
        (tx_Put (headerSectorHashesPrefix [h_Name header]) buf);;
      data ← M_lift (must (Header_MarshalJSON header));
      M_wrapping "error writing header tree"
        (tx_Put (headerDataPrefix [h_Name header]) data);;
      if negb exists_ then
        M_wrapping "error incrementing header count" IncrementHeaderCount
      else mret tt
  end.

Definition TruncateHeaderName (name : bytes) : M DB unit :=
  M_wrapping "error truncating header store"
    (WithTx_only (M_wrapping "error deleting header store key"
       (tx_Delete (headerDataPrefix [name])))).

Definition TruncateHeaderStore : M DB unit :=
  M_wrapping "error truncating header store"
    (WithTx_only (delete_prefix "error deleting header store key" (headersPrefix []))).

(** ** naming.go *)

Definition lastNameImportHeightKey : bytes := bs "last-name-import-height".
Definition initialImportCompleteKey : bytes := bs "initial-import-complete".
Definition namesPrefix : list bytes → bytes := Prefixer (bs "names").
Definition nameDataPrefix : list bytes → bytes := Prefixer (namesPrefix [bs "name"]).

Definition GetLastNameImportHeight (db : DB) : result Z :=
  match db_Get db lastNameImportHeightKey with
  | Err e => if errors_Is e ErrNotFound then Ok 0
             else Err (EWrap e "error getting last name import height")
  | Panic w => Panic w
  | Ok res => mustDecodeInt res
  end.

Definition SetLastNameImportHeightTx (height : Z) : M TX unit :=
  M_wrapping "error setting last name import height"
    (tx_Put lastNameImportHeightKey (mustEncodeInt height)).

Definition GetInitialImportComplete (db : DB) : result bool :=
  wrapping "error getting initial import complete" (db_Has db initialImportCompleteKey).

Definition SetInitialImportCompleteTx : M TX unit :=
  M_wrapping "error setting initial import complete" (tx_Put initialImportCompleteKey [x01]).

Record NameInfo := mkNameInfo {
  ni_Name : bytes;
  ni_PublicKey : PublicKey;
  ni_ImportHeight : Z;
}.

Definition NameInfo_MarshalJSON (n : NameInfo) : result bytes :=
  json_Marshal [
    ("name"%string, JStr (ni_Name n));
    ("public_key"%string, JStr (hex_EncodeToString (SerializeCompressed (ni_PublicKey n))));
    ("import_height"%string, JInt (ni_ImportHeight n)) ].

Definition NameInfo_kinds : list (string * jkind) :=
  [("name"%string, KStr); ("public_key"%string, KStr); ("import_height"%string, KInt)].

Definition mustDecodePublicKey (s : bytes) : result PublicKey :=
  data ← must (hex_DecodeString s);
  must (ParsePubKey data).

Definition NameInfo_UnmarshalJSON (data : bytes) : result NameInfo :=
  fields ← json_Unmarshal NameInfo_kinds data;
  match fields with
  | [JStr name; JStr key; JInt height] =>
      pub ← mustDecodePublicKey key;
      Ok (mkNameInfo name pub height)
  | _ => Err (ENew "json: cannot unmarshal")
  end.

Definition GetNameInfo (db : DB) (name : bytes) : result NameInfo :=
  res ← wrapping "error getting name info" (db_Get db (nameDataPrefix [name]));
  must (NameInfo_UnmarshalJSON res).

Definition SetNameInfoTx (name : bytes) (key : PublicKey) (height : Z) : M TX unit :=
  data ← M_lift (must (NameInfo_MarshalJSON (mkNameInfo name key height)));
  M_wrapping "error inserting name info" (tx_Put (nameDataPrefix [name]) data).

Definition TruncateNameStore : M DB unit :=
  M_wrapping "error truncating name store"
    (WithTx_only (delete_prefix "error deleting name store key" (namesPrefix []))).

(** ** moderation.go *)

Definition lastBanListImportAtKey : bytes := bs "last-ban-list-import-at".
Definition bansPrefix : list bytes → bytes := Prefixer (bs "bans").
Definition banPrefix : list bytes → bytes := Prefixer (bansPrefix [bs "ban"]).

Definition GetLastBanListImportAt (db : DB) : result Time :=
  match db_Get db lastBanListImportAtKey with
  | Err e => if errors_Is e ErrNotFound then Ok (time_Unix 0)
             else Err (EWrap e "error getting last ban list import time")
  | Panic w => Panic w
  | Ok res => mustDecodeTime (Some res)
  end.

Definition SetLastBanListImportAt (t : Time) : M TX unit :=
  M_wrapping "error setting last ban list import time"
    (tx_Put lastBanListImportAtKey (encodeTime t)).

Definition NameIsBanned (db : DB) (name : bytes) : result bool :=
  wrapping "error getting name ban state" (db_Has db (banPrefix [name])).

Definition TruncateBannedNames : M TX unit :=
  delete_prefix "error deleting ban store key" (bansPrefix []).

Definition BanName (name : bytes) : M TX unit :=
  M_wrapping "error inserting banned name" (tx_Put (banPrefix [name]) [x01]).

(** ** equivocation_proof.go *)

Definition equivocationProofsPrefix : list bytes → bytes := Prefixer (bs "equivocationproofs").

Definition GetEquivocationProof (db : DB) (name : bytes) : result bytes :=
  wrapping "error getting equivocation proof" (db_Get db (equivocationProofsPrefix [name])).

(** The error of [Encode] is not looked at. *)
Definition SetEquivocationProofTx (name : bytes) (proof : EquivocationProof) : M TX unit :=
  M_wrapping "error setting equivocation proof"
    (tx_Put (equivocationProofsPrefix [name]) (EquivocationProof_Encode proof).1).

(** ** Streams *)

(** An iterator is the pairs it has not given yet. *)
Definition iterator : Type := list (bytes * bytes).

(** The start of a range: the key with its last byte incremented. *)
Definition after_key (k : bytes) : bytes :=
  match last k with
  | Some c => removelast k ++ [byte_of_Z (Z_of_byte c + 1)]
  | None => k
  end.

Definition StreamNameInfo (db : DB) (start : bytes) : iterator :=
  if decide (start = []) then db_PrefixIterator db (nameDataPrefix [])
  else db_RangeIterator db (after_key (nameDataPrefix [start])) (nameDataPrefix [[xff]]).

Definition NameInfoStream_Next : M iterator (option NameInfo) :=
  λ it, match it with
        | [] => (Ok None, [])
        | (_, v) :: it => (info ← must (NameInfo_UnmarshalJSON v); Ok (Some info), it)
        end.

Record BlobInfo := mkBlobInfo {
  bi_Name : bytes;
  bi_PublicKey : PublicKey;
  bi_ImportHeight : Z;
  bi_EpochHeight : Z;
  bi_SectorSize : Z;
  bi_SectorTipHash : Hash;
  bi_Signature : Signature;
  bi_ReservedRoot : Hash;
  bi_ReceivedAt : Time;
  bi_BannedAt : Time;
}.

Definition StreamBlobInfo (db : DB) (start : bytes) : iterator :=
  if decide (start = []) then db_PrefixIterator db (headerDataPrefix [])
  else db_RangeIterator db (after_key (headerDataPrefix [start])) (headerDataPrefix [[xff]]).

Definition BlobInfoStream_Next (db : DB) : M iterator (option BlobInfo) :=
  λ it, match it with
        | [] => (Ok None, [])
        | (_, v) :: it =>
            (header ← must (Header_UnmarshalJSON v);
             nameInfo ← wrapping "error getting name info" (GetNameInfo db (h_Name header));
             bannedAt ← wrapping "error getting header ban info" (GetHeaderBan db (h_Name header));
             Ok (Some (mkBlobInfo (h_Name header) (ni_PublicKey nameInfo) (ni_ImportHeight nameInfo)
               (h_EpochHeight header) (h_SectorSize header) (h_SectorTipHash header)
               (h_Signature header) (h_ReservedRoot header) (h_EpochStartAt header) bannedAt)), it)
        end.
End store.

(** ** Lemmas *)

Section store_lemmas.
Context `{HL : LevelDBLaws, HJ : JSONLaws, HS : Secp256k1Laws}.

(** The values of Go type [Header] that JSON keeps. *)
Definition Header_wf (h : Header) : Prop :=
  Forall (λ c, Z_of_byte c < 128) (h_Name h) ∧ is_u16 (h_EpochHeight h) ∧
  is_u16 (h_SectorSize h) ∧ Hash_wf (h_SectorTipHash h) ∧ Signature_wf (h_Signature h) ∧
  Hash_wf (h_ReservedRoot h) ∧ ZeroTime ≤ h_EpochStartAt h < MaxTime.

Lemma hex_digit_ascii z : Z_of_byte (hex_digit z) < 128.
Proof.
  unfold hex_digit. destruct (hex_digits !! Z.to_nat z) as [c|] eqn:E; [|done].
  assert (Forall (λ c, Z_of_byte c < 128) hex_digits) as HF.
  { by apply (bool_decide_unpack (Forall (λ c, Z_of_byte c < 128) hex_digits)). }
  by eapply Forall_lookup_1 in HF.
Qed.

Lemma hex_ascii b : Forall (λ c, Z_of_byte c < 128) (hex_EncodeToString b).
Proof.
  induction b as [|c b IH]; [constructor|]. unfold hex_EncodeToString in *. simpl.
  repeat constructor; auto using hex_digit_ascii.
Qed.

Lemma Header_json h :
  Header_wf h → ∃ b, Header_MarshalJSON h = Ok b ∧ Header_UnmarshalJSON b = Ok h.
Proof.
  intros (Hn & He & Hs & Ht & Hg & Hr & Hx). unfold Header_MarshalJSON.
  destruct (json_roundtrip [
    ("name"%string, JStr (h_Name h)); ("epoch_height"%string, JUint16 (h_EpochHeight h));
    ("sector_size"%string, JUint16 (h_SectorSize h));
    ("sector_tip_hash"%string, JStr (Hash_String (h_SectorTipHash h)));
    ("signature"%string, JStr (Signature_String (h_Signature h)));
    ("reserved_root"%string, JStr (Hash_String (h_ReservedRoot h)));
    ("epoch_start_at"%string, JTime (h_EpochStartAt h)) ]) as (b & -> & Hb).
  { repeat constructor; simpl; auto; try apply hex_ascii; try apply He; try apply Hs; apply Hx. }
  exists b. split; [done|]. unfold Header_UnmarshalJSON. simpl in Hb.
  unfold Header_kinds. rewrite Hb. simpl. unfold Hash_String, Signature_String.
  rewrite !hex_roundtrip. simpl. rewrite (proj2 (NewHashFromBytes_Ok _ _) (conj eq_refl Ht)). simpl.
  rewrite (proj2 (NewSignatureFromBytes_Ok _ _) (conj eq_refl Hg)). simpl.
  rewrite (proj2 (NewHashFromBytes_Ok _ _) (conj eq_refl Hr)). simpl. by destruct h.
Qed.

Lemma SectorHashes_roundtrip s :
  SectorHashes_wf s → ∃ buf, SectorHashes_Encode s = (buf, None) ∧
    SectorHashes_Decode buf = Ok (s, []).
Proof.
  intros [Hl Hs]. destruct (roundtrips_hashes ZeroHash s) as (buf & He & Hd); [done|done|].
  exists buf. split; [done|]. specialize (Hd []). rewrite app_nil_r in Hd.
  unfold SectorHashes_Decode. unfold zlen in Hl. by replace (Z.to_nat MaxSectors) with (length s) by lia.
Qed.

(** The count a database holds. *)
Definition count_is (m : gmap bytes bytes) (n : Z) : Prop :=
  match m !! headerCountKey with
  | None => n = 0
  | Some v => mustDecodeInt v = Ok n
  end.

Lemma GetHeaderCount_is db n : count_is (db_map db) n → GetHeaderCount db = Ok n.
Proof.
  unfold count_is, GetHeaderCount. rewrite db_Get_law.
  destruct (db_map db !! headerCountKey); [done|]. by intros ->.
Qed.

Lemma IncrementHeaderCount_spec tx n :
  count_is (tx_map tx) n →
  ∃ tx', IncrementHeaderCount tx = (Ok tt, tx') ∧
    tx_map tx' = <[headerCountKey := mustEncodeInt (n + 1)]> (tx_map tx).
Proof.
  intros Hn. unfold IncrementHeaderCount, count_is in *.
  rewrite (M_bind_step M_get _ tx tx tx eq_refl), tx_Get_law.
  destruct (tx_Put_law tx headerCountKey (mustEncodeInt (n + 1))) as (tx' & Hp & Hm).
  exists tx'. split; [|done]. destruct (tx_map tx !! headerCountKey) as [v|].
  - rewrite (M_bind_step (M_lift (Ok v)) _ tx v tx eq_refl).
    rewrite (M_bind_step _ _ _ n tx) by (unfold M_lift; by rewrite Hn).
    unfold M_wrapping. by rewrite Hp.
  - subst n. rewrite (M_bind_step _ _ tx [] tx) by done.
    rewrite (M_bind_step (M_lift (mustDecodeInt [])) _ tx 0 tx eq_refl).
    unfold M_wrapping. by rewrite Hp.
Qed.

Lemma SetHeaderTx_spec h hashes tx n :
  Header_wf h → SectorHashes_wf hashes → count_is (tx_map tx) n →
  ∃ tx' buf data,
    SetHeaderTx h hashes tx = (Ok tt, tx') ∧
    SectorHashes_Decode buf = Ok (hashes, []) ∧ Header_UnmarshalJSON data = Ok h ∧
    let m := <[headerDataPrefix [h_Name h] := data]>
               (<[headerSectorHashesPrefix [h_Name h] := buf]> (tx_map tx)) in
    tx_map tx' = if bool_decide (is_Some (tx_map tx !! headerDataPrefix [h_Name h])) then m
                 else <[headerCountKey := mustEncodeInt (n + 1)]> m.
Proof.
  intros Hh Hs Hn. unfold SetHeaderTx.
  destruct (SectorHashes_roundtrip hashes Hs) as (buf & -> & Hbuf).
  destruct (Header_json h Hh) as (data & Hdata & Hun).
  rewrite (M_bind_step M_get _ tx tx tx eq_refl), tx_Has_law.
  set (ex := bool_decide _). rewrite (M_bind_step (M_lift _) _ tx ex tx eq_refl).
  destruct (tx_Put_law tx (headerSectorHashesPrefix [h_Name h]) buf) as (tx1 & Hp1 & Hm1).
  rewrite (M_bind_step _ _ _ tt tx1) by (unfold M_wrapping; by rewrite Hp1).
  rewrite (M_bind_step _ _ _ data tx1) by (unfold M_lift; by rewrite Hdata).
  destruct (tx_Put_law tx1 (headerDataPrefix [h_Name h]) data) as (tx2 & Hp2 & Hm2).
  rewrite (M_bind_step _ _ _ tt tx2) by (unfold M_wrapping; by rewrite Hp2).
  destruct ex; simpl.
  - exists tx2, buf, data. split_and!; try done. by rewrite Hm2, Hm1.
  - destruct (IncrementHeaderCount_spec tx2 n) as (tx3 & Hi & Hm3).
    { unfold count_is in *. by rewrite Hm2, Hm1, !lookup_insert_ne. }
    exists tx3, buf, data. unfold M_wrapping. rewrite Hi. split_and!; try done.
    by rewrite Hm3, Hm2, Hm1.
Qed.
(** What a stored header reads as; only its own keys and the count change. *)
Lemma SetHeader_stored db h hashes n :
  Header_wf h → SectorHashes_wf hashes → count_is (db_map db) n → 0 ≤ n < MaxInt32 →
  ∃ db', WithTx_only (SetHeaderTx h hashes) db = (Ok tt, db') ∧
    GetHeader db' (h_Name h) = Ok h ∧
    GetSectorHashes db' (h_Name h) = Ok hashes ∧
    GetHeaderCount db' =
      Ok (if bool_decide (is_Some (db_map db !! headerDataPrefix [h_Name h])) then n else n + 1) ∧
    ∀ k, k ≠ headerCountKey → k ≠ headerDataPrefix [h_Name h] →
      k ≠ headerSectorHashesPrefix [h_Name h] → db_map db' !! k = db_map db !! k.
Proof.
  intros Hh Hs Hn Hlt.
  set (ex := bool_decide (is_Some (db_map db !! headerDataPrefix [h_Name h]))).
  destruct (db_OpenTransaction_law db) as (tx & Htx & Hm).
  rewrite <- Hm in Hn. destruct (SetHeaderTx_spec h hashes tx n Hh Hs Hn)
    as (tx' & buf & data & Hset & Hbuf & Hdata & Hmap).
  destruct (tx_Commit_law tx' db) as (db' & Hc & Hmm). exists db'.
  rewrite Hm in Hmap. fold ex in Hmap. cbn zeta in Hmap. rewrite <- Hmm in Hmap.
  split.
  { unfold WithTx_only, WithTx, on_tx, M_zoom. rewrite Htx. cbn [fst snd]. by rewrite Hset, Hc. }
  assert (∀ k, k ≠ headerCountKey → db_map db' !! k =
    (<[headerDataPrefix [h_Name h] := data]>
      (<[headerSectorHashesPrefix [h_Name h] := buf]> (db_map db))) !! k) as Hk.
  { intros k Hne. rewrite Hmap. destruct ex; [done|]. by rewrite lookup_insert_ne. }
  split_and!.
  - unfold GetHeader. rewrite db_Get_law, Hk, lookup_insert_eq by done. simpl. by rewrite Hdata.
  - unfold GetSectorHashes. rewrite db_Get_law, Hk, lookup_insert_ne, lookup_insert_eq by done.
    simpl. by rewrite Hbuf.
  - apply GetHeaderCount_is. unfold count_is in *. rewrite Hm in Hn. rewrite Hmap. destruct ex.
    + by rewrite !lookup_insert_ne.
    + rewrite lookup_insert_eq, mustDecodeInt_Encode by (unfold MaxInt32 in *; lia).
      by rewrite decide_False by (unfold MaxInt32 in *; lia).
  - intros k Hk1 Hk2 Hk3. by rewrite Hk, !lookup_insert_ne.
Qed.
End store_lemmas.

(** ** Properties *)

(** a header stored in a transaction, with its sector hashes, is read back
    as it was; the count of headers grows by one when the name had no header
    and stays the same when it had one; the headers of other names are as
    before. *)
Theorem header_store_roundtrip `{LevelDBLaws, JSONLaws} db h hashes n :
  Header_wf h → SectorHashes_wf hashes → count_is (db_map db) n → 0 ≤ n < MaxInt32 →
  ∃ db', WithTx_only (SetHeaderTx h hashes) db = (Ok tt, db') ∧
    GetHeader db' (h_Name h) = Ok h ∧
    GetSectorHashes db' (h_Name h) = Ok hashes ∧
    GetHeaderCount db' =
      Ok (if bool_decide (is_Some (db_map db !! headerDataPrefix [h_Name h])) then n else n + 1) ∧
    ∀ name, name ≠ h_Name h → GetHeader db' name = GetHeader db name.
Proof.
  intros Hh Hs Hn Hlt.
  destruct (SetHeader_stored db h hashes n Hh Hs Hn Hlt) as (db' & ? & ? & ? & ? & Hk).
  exists db'. split_and!; try done. intros name Hne. unfold GetHeader. rewrite !db_Get_law, Hk; try done.
  by intros ?%Prefixer_inj.
Qed.

Definition demo_header : Header :=
  mkHeader (bs "foo") 3 7 ZeroHash ZeroSignature ZeroHash (time_Unix 5).

Lemma demo_header_wf : Header_wf demo_header.
Proof.
  split; [by apply (bool_decide_unpack (Forall (λ c, Z_of_byte c < 128) (bs "foo")))|].
  by split_and!.
Qed.

Lemma header_store_roundtrip_witness :
  ∃ db', WithTx_only (SetHeaderTx demo_header ZeroSectorHashes) empty_db = (Ok tt, db') ∧
    GetHeader db' (bs "foo") = Ok demo_header ∧
    GetSectorHashes db' (bs "foo") = Ok ZeroSectorHashes ∧
    GetHeaderCount db' =
      Ok (if bool_decide (is_Some (db_map empty_db !! headerDataPrefix [bs "foo"])) then 0 else 0 + 1) ∧
    ∀ name, name ≠ bs "foo" → GetHeader db' name = GetHeader empty_db name.
Proof.
  apply (header_store_roundtrip empty_db demo_header); try done.
  - apply demo_header_wf.
  - apply ZeroSectorHashes_wf.
Defined.

(** [WithTx] commits the writes of a callback that returns an error: the
    error is returned, and the database holds what the callback wrote. *)
Theorem with_tx_commits_on_error `{LevelDBLaws} (cb : M TX unit) db e m :
  (∀ tx, tx_map tx = db_map db → ∃ tx', cb tx = (Err e, tx') ∧ tx_map tx' = m) →
  ∃ db', WithTx_only cb db = (Err e, db') ∧ db_map db' = m.
Proof. intros Hcb. by apply WithTx_only_returns. Qed.

Lemma with_tx_commits_on_error_witness :
  ∃ db', WithTx_only (BanName (bs "foo");; M_fail (ENew "disk full")) empty_db =
      (Err (ENew "disk full"), db') ∧
    db_map db' = {[ banPrefix [bs "foo"] := [x01] ]}.
Proof.
  apply (with_tx_commits_on_error (BanName (bs "foo");; M_fail (ENew "disk full"))).
  intros tx Htx. eexists. split; [reflexivity|]. simpl in *. by rewrite Htx.
Defined.

(** [GetSectorHash] on a stored array returns the hash at an index below
    4096, panics at 4096, and above it returns the zero hash without error. *)
Theorem get_sector_hash_bounds `{LevelDB} db name hashes index :
  GetSectorHashes db name = Ok hashes → SectorHashes_wf hashes → 0 ≤ index →
  GetSectorHash db name index =
  if decide (index < MaxSectors) then Ok (default ZeroHash (hashes !! Z.to_nat index))
  else if decide (index = MaxSectors) then Panic "index out of range"
  else Ok ZeroHash.
Proof.
  intros Hg [Hl _] Hi. unfold GetSectorHash. rewrite Hg, Hl. unfold zlen in Hl.
  case_decide as H1; [rewrite !decide_False by lia; done|].
  unfold index_hashes. case_decide as H2.
  - destruct (lookup_lt_is_Some_2 hashes (Z.to_nat index)) as [x ->]; [lia|]. done.
  - rewrite decide_True by lia. by rewrite lookup_ge_None_2 by lia.
Qed.

(** The ban of a header set at an instant is read back, to the second, when
    the instant is before 2038-01-19; from then on reading it panics. *)
Theorem header_ban_roundtrip `{LevelDBLaws} db name now at_ :
  at_ ≠ ZeroTime → 0 ≤ Unix at_ < 2 ^ 63 →
  ∃ db', WithTx_only (SetHeaderBan now name at_) db = (Ok tt, db') ∧
    GetHeaderBan db' name =
    if decide (Unix at_ ≤ MaxInt32) then Ok (time_Unix (Unix at_)) else Panic "overflow".
Proof.
  intros Hz Ht. destruct (WithTx_only_returns (SetHeaderBan now name at_) db (Ok tt)
    (<[headerBanPrefix [name] := mustEncodeInt (Unix at_)]> (db_map db))) as (db' & Hw & Hm).
  { done. }
  { intros tx Htx. unfold SetHeaderBan, IsZero. rewrite bool_decide_false by done.
    destruct (tx_Put_law tx (headerBanPrefix [name]) (mustEncodeInt (Unix at_))) as (tx' & Hp & Hm).
    exists tx'. unfold M_wrapping. by rewrite Hp, Hm, Htx. }
  exists db'. split; [done|]. unfold GetHeaderBan.
  rewrite db_Has_law, db_Get_law, Hm, lookup_insert_eq. rewrite bool_decide_true by done. simpl.
  rewrite mustDecodeInt_Encode by lia. by case_decide; case_decide; try lia.
Qed.

Lemma header_ban_roundtrip_witness :
  ∃ db', WithTx_only (SetHeaderBan 0 (bs "foo") (time_Unix (2 ^ 31))) empty_db = (Ok tt, db') ∧
    GetHeaderBan db' (bs "foo") =
    if decide (Unix (time_Unix (2 ^ 31)) ≤ MaxInt32) then Ok (time_Unix (Unix (time_Unix (2 ^ 31))))
    else Panic "overflow".
Proof. by apply header_ban_roundtrip. Defined.

(** The text of a name info is read back. *)
Lemma NameInfo_json `{JSONLaws, Secp256k1Laws} name key height :
  Forall (λ c, Z_of_byte c < 128) name → - 2 ^ 63 ≤ height < 2 ^ 63 →
  ∃ b, NameInfo_MarshalJSON (mkNameInfo name key height) = Ok b ∧
    NameInfo_UnmarshalJSON b = Ok (mkNameInfo name key height).
Proof.
  intros Hn Hh. destruct (json_roundtrip [("name"%string, JStr name);
    ("public_key"%string, JStr (hex_EncodeToString (SerializeCompressed key)));
    ("import_height"%string, JInt height)]) as (b & Hb & Hu).
  { repeat constructor; simpl; auto using hex_ascii; lia. }
  exists b. split; [done|]. unfold NameInfo_UnmarshalJSON, NameInfo_kinds. simpl in Hu. rewrite Hu. simpl.
  unfold mustDecodePublicKey. rewrite hex_roundtrip. simpl. by rewrite ParsePubKey_Serialize.
Qed.

(** The key and the import height set for a name are read back. *)
Theorem name_info_roundtrip `{LevelDBLaws, JSONLaws, Secp256k1Laws} db name key height :
  Forall (λ c, Z_of_byte c < 128) name → - 2 ^ 63 ≤ height < 2 ^ 63 →
  ∃ db', WithTx_only (SetNameInfoTx name key height) db = (Ok tt, db') ∧
    GetNameInfo db' name = Ok (mkNameInfo name key height).
Proof.
  intros Hn Hh. destruct (NameInfo_json name key height Hn Hh) as (b & Hb & Hu).
  destruct (WithTx_only_returns (SetNameInfoTx name key height) db (Ok tt)
    (<[nameDataPrefix [name] := b]> (db_map db))) as (db' & Hw & Hm); [done| |].
  { intros tx Htx. unfold SetNameInfoTx.
    rewrite (M_bind_step _ _ _ b tx) by (unfold M_lift; by rewrite Hb).
    destruct (tx_Put_law tx (nameDataPrefix [name]) b) as (tx' & Hp & Hm).
    exists tx'. unfold M_wrapping. by rewrite Hp, Hm, Htx. }
  exists db'. split; [done|]. unfold GetNameInfo. rewrite db_Get_law, Hm, lookup_insert_eq. simpl.
  by rewrite Hu.
Qed.

Lemma name_info_roundtrip_witness :
  ∃ db', WithTx_only (SetNameInfoTx (bs "foo") (PubKey toy_key) 9) empty_db = (Ok tt, db') ∧
    GetNameInfo db' (bs "foo") = Ok (mkNameInfo (bs "foo") (PubKey toy_key) 9).
Proof.
  apply name_info_roundtrip; [|done].
  by apply (bool_decide_unpack (Forall (λ c, Z_of_byte c < 128) (bs "foo"))).
Defined.

Lemma get_sector_hash_bounds_witness :
  let db : gmap bytes bytes :=
    {[ headerSectorHashesPrefix [bs "foo"] := (SectorHashes_Encode ZeroSectorHashes).1 ]} in
  GetSectorHash (db : DB (LevelDB := map_leveldb)) (bs "foo") 4096 =
  if decide (4096 < MaxSectors) then Ok (default ZeroHash (ZeroSectorHashes !! Z.to_nat 4096))
  else if decide (4096 = MaxSectors) then Panic "index out of range"
  else Ok ZeroHash.
Proof.
  intros db. apply get_sector_hash_bounds; [|apply ZeroSectorHashes_wf|done].
  unfold db. clear db.
  destruct (SectorHashes_roundtrip ZeroSectorHashes ZeroSectorHashes_wf) as (buf & He & Hd).
  rewrite He. unfold GetSectorHashes. rewrite db_Get_law. cbn [db_map map_leveldb fst].
  rewrite lookup_singleton_eq. cbn [wrapping mbind result_bind]. by rewrite Hd.
Defined.
