(* ===== verification/StorePeers.v ===== *)
(** * Package store: peers, bans and the white list

    [src/store/peers.go]. *)

From S2P Require Import Prelude GoLib Crypto Instances StoreDB StoreInstances.

Section peers.
Context `{LevelDB, JSON}.

Record Peer := mkPeer {
  p_ID : Hash;
  p_IP : bytes;
  p_LastSeen : Time;
  p_Verify : bool;
  p_InboundBannedUntil : Time;
  p_OutboundBannedUntil : Time;
  p_Whitelisted : bool;
}.

Definition Peer_MarshalJSON (p : Peer) : result bytes :=
  json_Marshal [
    ("peer_id"%string, JStr (Hash_String (p_ID p)));
    ("ip"%string, JStr (p_IP p));
    ("last_seen"%string, JTime (p_LastSeen p));
    ("verify"%string, JBool (p_Verify p)) ].

Definition Peer_kinds : list (string * jkind) := [
  ("peer_id"%string, KStr); ("ip"%string, KStr); ("last_seen"%string, KTime);
  ("verify"%string, KBool) ].

(** Into a new [Peer]: the other fields are zero. *)
Definition Peer_UnmarshalJSON (b : bytes) : result Peer :=
  fields ← json_Unmarshal Peer_kinds b;
  match fields with
  | [JStr id; JStr ip; JTime lastSeen; JBool verify] =>
      idB ← hex_DecodeString id;
      hash ← NewHashFromBytes idB;
      Ok (mkPeer hash ip lastSeen verify ZeroTime ZeroTime false)
  | _ => Err (ENew "json: cannot unmarshal")
  end.

Definition Peer_IsBanned (now : Time) (p : Peer) : bool :=
  negb (p_Whitelisted p) &&
  (After (p_InboundBannedUntil p) now || After (p_OutboundBannedUntil p) now).

Definition peersPrefix : list bytes → bytes := Prefixer (bs "peers").
Definition peerDataPrefix : list bytes → bytes := Prefixer (peersPrefix [bs "peer"]).
Definition peerInBanPrefix : list bytes → bytes := Prefixer (peersPrefix [bs "inbound-ban"]).
Definition peerOutBanPrefix : list bytes → bytes := Prefixer (peersPrefix [bs "outbound-ban"]).
Definition whitelistPrefix : list bytes → bytes := Prefixer (peersPrefix [bs "whitelist"]).

Definition SetPeerTx (now : Time) (id : Hash) (ip : bytes) (verify : bool) : M TX unit :=
  data ← M_lift (must (Peer_MarshalJSON (mkPeer id ip now verify ZeroTime ZeroTime false)));
  M_wrapping "error writing peer" (tx_Put (peerDataPrefix [Hash_String id]) data).

Definition SetPeer (now : Time) (id : Hash) (ip : bytes) (verify : bool) : M DB unit :=
  WithTx_only (SetPeerTx now id ip verify).

(** A key that may be absent: its error is not one. *)
Definition get_optional (db : DB) (k : bytes) (msg : string) : result (option bytes) :=
  match db_Get db k with
  | Ok v => Ok (Some v)
  | Err e => if errors_Is e ErrNotFound then Ok None else Err (EWrap e msg)
  | Panic w => Panic w
  end.

(** The body of [Next] on one stored peer. *)
Definition peer_state (db : DB) (v : bytes) : result Peer :=
  peer ← must (Peer_UnmarshalJSON v);
  inRes ← get_optional db (peerInBanPrefix [p_IP peer])
            "error getting inbound ban state during stream";
  outRes ← get_optional db (peerOutBanPrefix [p_IP peer])
             "error getting outbound ban state during stream";
  whitelisted ← wrapping "error getting whitelist state during stream"
                  (db_Has db (whitelistPrefix [p_IP peer]));
  inUntil ← mustDecodeTime inRes;
  outUntil ← mustDecodeTime outRes;
  Ok (mkPeer (p_ID peer) (p_IP peer) (p_LastSeen peer) (p_Verify peer)
        inUntil outUntil whitelisted).

(** [Next] calls itself on a banned peer that is not to be included. *)
Fixpoint PeerStream_Next (now : Time) (db : DB) (includeBanned : bool)
    (iter : list (bytes * bytes)) : result (option Peer) * list (bytes * bytes) :=
  match iter with
  | [] => (Ok None, [])
  | (_, v) :: iter =>
      match peer_state db v with
      | Err e => (Err e, iter)
      | Panic w => (Panic w, iter)
      | Ok peer =>
          if negb includeBanned && Peer_IsBanned now peer
          then PeerStream_Next now db includeBanned iter
          else (Ok (Some peer), iter)
      end
  end.

Definition StreamPeers (db : DB) : list (bytes * bytes) :=
  db_PrefixIterator db (peerDataPrefix []).

Definition BanOutboundPeerTx (now : Time) (ip : bytes) (duration : Z) : M TX unit :=
  M_wrapping "error putting outbound ban"
    (tx_Put (peerOutBanPrefix [ip]) (encodeTime (now + duration))).

Definition BanOutboundPeer (now : Time) (ip : bytes) (duration : Z) : M DB unit :=
  WithTx_only (BanOutboundPeerTx now ip duration).

Definition BanInboundPeerTx (now : Time) (ip : bytes) (duration : Z) : M TX unit :=
  M_wrapping "erorr putting inbound ban"
    (tx_Put (peerInBanPrefix [ip]) (encodeTime (now + duration))).

Definition BanInboundPeer (now : Time) (ip : bytes) (duration : Z) : M DB unit :=
  WithTx_only (BanInboundPeerTx now ip duration).

(** Delete a key when it is there. *)
Definition delete_if_has (k : bytes) (hasMsg delMsg : string) : M TX unit :=
  tx ← M_get;
  has ← M_lift (wrapping hasMsg (tx_Has tx k));
  if negb has then mret tt else M_wrapping delMsg (tx_Delete k).

Definition UnbanOutboundPeerTx (ip : bytes) : M TX unit :=
  delete_if_has (peerOutBanPrefix [ip])
    "error checking for inbound ban existence" "error deleting outbound ban".

Definition UnbanInboundPeerTx (ip : bytes) : M TX unit :=
  delete_if_has (peerInBanPrefix [ip])
    "error checking for inbound ban existence" "error deleting outbound ban".

Definition WhitelistPeerTx (ip : bytes) : M TX unit :=
  M_wrapping "error whitelisting peer" (tx_Put (whitelistPrefix [ip]) [x01]).

Definition UnwhitelistPeerTx (ip : bytes) : M TX unit :=
  delete_if_has (whitelistPrefix [ip])
    "error checking whitelist state" "error unwhitelisting peer".

(** Whether the address is banned inbound, and outbound. *)
Definition IsBanned (now : Time) (db : DB) (ip : bytes) : result (bool * bool) :=
  whitelisted ← wrapping "error getting whitelist state" (db_Has db (whitelistPrefix [ip]));
  if (whitelisted : bool) then Ok (false, false)
  else
    inRes ← get_optional db (peerInBanPrefix [ip]) "error getting inbound ban state";
    outRes ← get_optional db (peerOutBanPrefix [ip]) "error getting outbound ban state";
    inUntil ← mustDecodeTime inRes;
    outUntil ← mustDecodeTime outRes;
    Ok (After inUntil now, After outUntil now).

Definition TruncatePeerStore : M DB unit :=
  M_wrapping "error truncating peer store"
    (WithTx_only (delete_prefix "error deleting peer store key" (peersPrefix []))).
End peers.

(** ** Properties *)

Section peer_lemmas.
Context `{HL : LevelDBLaws}.

(** The ban of an address in a database: [None] when there is none. *)
Definition ban_until (db : DB) (k : bytes) (until : option Time) : Prop :=
  match until with
  | None => db_map db !! k = None
  | Some t => db_map db !! k = Some (encodeTime t) ∧ 0 ≤ Unix t ≤ MaxInt64
  end.

Lemma get_optional_ban db k until msg :
  ban_until db k until →
  ∃ v, get_optional db k msg = Ok v ∧
    mustDecodeTime v = Ok (match until with Some t => time_Unix (Unix t) | None => ZeroTime end).
Proof.
  unfold ban_until, get_optional. rewrite db_Get_law. destruct until as [t|].
  - intros [-> Ht]. eexists. split; [done|]. by apply mustDecodeTime_encode.
  - intros ->. by exists None.
Qed.

(** The two answers of [IsBanned]. *)
Lemma IsBanned_spec now db ip inU outU :
  ban_until db (peerInBanPrefix [ip]) inU → ban_until db (peerOutBanPrefix [ip]) outU →
  IsBanned now db ip =
  if bool_decide (is_Some (db_map db !! whitelistPrefix [ip])) then Ok (false, false)
  else Ok (After (match inU with Some t => time_Unix (Unix t) | None => ZeroTime end) now,
           After (match outU with Some t => time_Unix (Unix t) | None => ZeroTime end) now).
Proof.
  intros Hi Ho. unfold IsBanned. rewrite db_Has_law. simpl.
  destruct (bool_decide _); [done|].
  destruct (get_optional_ban db _ inU "error getting inbound ban state" Hi) as (v & -> & Hv).
  destruct (get_optional_ban db _ outU "error getting outbound ban state" Ho) as (w & -> & Hw).
  simpl. by rewrite Hv, Hw.
Qed.
End peer_lemmas.

(** Banning an address inbound for some time makes [IsBanned] say so until
    the whole second the ban ends in, unless the address is on the white list,
    and leaves its outbound ban as it was. *)
Theorem ban_inbound_until `{LevelDBLaws} db now ip duration outU later :
  0 ≤ Unix (now + duration) ≤ MaxInt64 →
  ban_until db (peerOutBanPrefix [ip]) outU →
  ∃ db', BanInboundPeer now ip duration db = (Ok tt, db') ∧
    IsBanned later db' ip =
    if bool_decide (is_Some (db_map db !! whitelistPrefix [ip])) then Ok (false, false)
    else Ok (bool_decide (later < time_Unix (Unix (now + duration))),
             After (match outU with Some t => time_Unix (Unix t) | None => ZeroTime end) later).
Proof.
  intros Ht Ho. destruct (WithTx_only_returns (BanInboundPeerTx now ip duration) db (Ok tt)
    (<[peerInBanPrefix [ip] := encodeTime (now + duration)]> (db_map db))) as (db' & Hw & Hm).
  { done. }
  { intros tx Htx. unfold BanInboundPeerTx.
    destruct (tx_Put_law tx (peerInBanPrefix [ip]) (encodeTime (now + duration))) as (tx' & Hp & Hm).
    exists tx'. unfold M_wrapping. by rewrite Hp, Hm, Htx. }
  exists db'. split; [exact Hw|]. rewrite (IsBanned_spec later db' ip (Some (now + duration)) outU).
  - rewrite Hm. by rewrite lookup_insert_ne.
  - split; [|done]. by rewrite Hm, lookup_insert_eq.
  - unfold ban_until in *. rewrite Hm. destruct outU; by rewrite lookup_insert_ne.
Qed.

Lemma ban_inbound_until_witness :
  ∃ db', BanInboundPeer (10 * Second) (bs "1.2.3.4") Hour empty_db = (Ok tt, db') ∧
    IsBanned (20 * Second) db' (bs "1.2.3.4") =
    if bool_decide (is_Some (db_map empty_db !! whitelistPrefix [bs "1.2.3.4"]))
    then Ok (false, false)
    else Ok (bool_decide (20 * Second < time_Unix (Unix (10 * Second + Hour))),
             After ZeroTime (20 * Second)).
Proof. by apply (ban_inbound_until empty_db _ _ _ None). Defined.
