(* ===== verification/Queue.v ===== *)
(** * Package protocol: the world of a node, peer sets, epochs and the update queue

    [src/protocol/peer_set.go], [epoch.go] and [update_queue.go].  [World] is
    what the handlers of the protocol share: the database, the blobs on disk,
    the locks on names and the messages sent so far. *)

From S2P Require Import Prelude GoLib Crypto Instances Sector Wire OsFile BlobTx Names BlobStore.
From S2P Require Import Util StoreDB StoreInstances Store.

(** ** The world *)

Section world.
Context `{LevelDB, Secp256k1}.

(** A message sent to one peer, or gossiped to all. *)
Inductive sent :=
| ToPeer (peer : Hash) (m : Message)
| ToAll (m : Message).

Record World := mkWorld {
  w_db : DB;
  w_blobs : PS;
  w_locks : gmap bytes refCounter;
  w_sent : list sent;
}.

Definition on_db {A} (m : M DB A) : M World A :=
  M_zoom w_db (λ db w, mkWorld db (w_blobs w) (w_locks w) (w_sent w)) m.

Definition on_blobs {A} (m : M PS A) : M World A :=
  M_zoom w_blobs (λ bs w, mkWorld (w_db w) bs (w_locks w) (w_sent w)) m.

Definition on_locks {A} (m : M (gmap bytes refCounter) A) : M World A :=
  M_zoom w_locks (λ ls w, mkWorld (w_db w) (w_blobs w) ls (w_sent w)) m.

Definition log_sent (x : sent) : M World unit :=
  M_modify (λ w, mkWorld (w_db w) (w_blobs w) (w_locks w) (w_sent w ++ [x])).

(** Reading the database. *)
Definition read_db {A} (f : DB → result A) : M World A := λ w, (f (w_db w), w).

(** [mux.Send]; [send_err] is the error of sending to a peer, if there is one. *)
Definition Mux_Send (send_err : Hash → option error) (peer : Hash) (m : Message) : M World unit :=
  match send_err peer with
  | Some e => M_fail e
  | None => log_sent (ToPeer peer m)
  end.

(** [p2p.GossipAll]. *)
Definition GossipAll (m : Message) : M World unit := log_sent (ToAll m).
End world.

(** ** peer_set.go *)

(** [peers] maps the members to true; [ids] keeps the order they came in. *)
Record PeerSet := mkPeerSet { ps_peers : gset (list byte); ps_ids : list Hash }.

Definition PeerSet_Add (peerID : Hash) (ps : PeerSet) : PeerSet :=
  if decide (peerID ∈ ps_peers ps) then ps
  else mkPeerSet ({[peerID]} ∪ ps_peers ps) (ps_ids ps ++ [peerID]).

Definition NewPeerSet (initialPeers : list Hash) : PeerSet :=
  foldl (λ res peer, PeerSet_Add peer res) (mkPeerSet ∅ []) initialPeers.

Definition PeerSet_Has (peerID : Hash) (ps : PeerSet) : bool :=
  bool_decide (peerID ∈ ps_peers ps).

Definition PeerSet_Len (ps : PeerSet) : Z := Z.of_nat (size (ps_peers ps)).

(** A call of the function [Iterator] returns, which has given [i] peers. *)
Definition Iterator_next (i : nat) (ps : PeerSet) : option Hash * nat :=
  match ps_ids ps !! i with
  | Some id => (Some id, S i)
  | None => (None, i)
  end.

Definition PeerSet_wf (ps : PeerSet) : Prop :=
  NoDup (ps_ids ps) ∧ ps_peers ps = list_to_set (ps_ids ps).

Lemma PeerSet_Add_wf p ps : PeerSet_wf ps → PeerSet_wf (PeerSet_Add p ps).
Proof.
  intros [Hn He]. unfold PeerSet_Add. case_decide as Hin; [done|]. split; simpl.
  - apply NoDup_app. split; [done|]. split; [|apply NoDup_singleton].
    rewrite He in Hin. set_solver.
  - rewrite list_to_set_app_L, He. set_solver.
Qed.

Lemma NewPeerSet_wf l : PeerSet_wf (NewPeerSet l).
Proof.
  unfold NewPeerSet. assert (PeerSet_wf (mkPeerSet ∅ [])) as Hi by (split; [constructor|done]).
  revert Hi. generalize (mkPeerSet ∅ []). induction l as [|p l IH]; intros ps Hps; [done|].
  by apply IH, PeerSet_Add_wf.
Qed.

Lemma PeerSet_Add_ids p ps : PeerSet_wf ps → p ∈ ps_ids (PeerSet_Add p ps).
Proof.
  intros [_ He]. unfold PeerSet_Add. case_decide as Hin; simpl; [|set_solver].
  rewrite He in Hin. set_solver.
Qed.

(** ** epoch.go *)

Definition epochDate : Time := time_Unix 1577836800.
Definition secondsPerHour : Z := 60 * 60.
Definition hoursPerWeek : Z := 7 * 24.
Definition weekDuration : Z := hoursPerWeek * Hour.

Definition modBuffer (b : bytes) (n : Z) : Z :=
  foldl (λ acc c, (256 mod n * acc + Z_of_byte c) mod n) 0 b.

(** [int(d.Seconds())] is the duration in whole seconds; the conversion through
    a float64 is exact up to its last 15 nanoseconds below a second. *)
Definition int_Seconds (d : Z) : Z := Z.quot d Second.

(** [now().Sub(t)] saturates at the bounds of a duration. *)
Definition time_Sub (now t : Time) : Z := Z.max (- 2 ^ 63) (Z.min (2 ^ 63 - 1) (now - t)).

Definition CurrentEpoch `{Blake2b} (now : Time) (name : bytes) : Z :=
  let hash := HashName name in
  let mod_ := modBuffer hash hoursPerWeek in
  let offset := mod_ * secondsPerHour in
  let startDate := epochDate + offset * Second in
  u16 (Z.quot (int_Seconds (time_Sub now startDate)) (int_Seconds weekDuration)).

(** [modBuffer] is the number the bytes spell, modulo [n]. *)
Lemma modBuffer_spec b n : 0 < n → modBuffer b n = be_get b mod n.
Proof.
  intros Hn. induction b as [|c b IH] using rev_ind; [done|].
  unfold modBuffer in *. rewrite foldl_app. simpl. rewrite IH.
  unfold be_get. rewrite reverse_snoc, le_get_cons.
  rewrite <- Z.add_mod_idemp_l, <- Z.mul_mod, Z.add_mod_idemp_l by lia.
  f_equal. lia.
Qed.

(** ** update_queue.go *)

Definition ErrUpdateQueueMaxLen : error := ESentinel "update queue is at max length".
Definition ErrUpdateQueueEpochUpdated : error := ESentinel "epoch already updated".
Definition ErrUpdateQueueSectorUpdated : error := ESentinel "sector already updated".
Definition ErrUpdateQueueThrottled : error := ESentinel "update is throttled".
Definition ErrUpdateQueueStaleSector : error := ESentinel "sector is stale".
Definition ErrUpdateQueueSpltBrain : error := ESentinel "split brain".
Definition ErrInitialImportIncomplete : error := ESentinel "initial import incomplete".

Section queue.
Context `{LevelDB, JSON, Secp256k1}.

Record UpdateQueueItem := mkItem {
  item_PeerIDs : PeerSet;
  item_Name : bytes;
  item_EpochHeight : Z;
  item_SectorSize : Z;
  item_Pub : PublicKey;
  item_Height : Z;
  item_Disposed : Z;
}.

Definition Dispose (u : UpdateQueueItem) : UpdateQueueItem :=
  mkItem (item_PeerIDs u) (item_Name u) (item_EpochHeight u) (item_SectorSize u)
    (item_Pub u) (item_Height u) 1.

Record UpdateQueue := mkQueue {
  MaxLen : Z;
  entries : gmap (list byte) UpdateQueueItem;
  queue : list bytes;
  queueLen : Z;
}.

Definition NewUpdateQueue (maxLen : Z) : UpdateQueue := mkQueue maxLen ∅ [] 0.

Definition validateUpdate (db : DB) (name : bytes) : result unit :=
  _ ← wrapping "update name is invalid" (ValidateName name);
  nameBan ← wrapping "error reading name ban state" (NameIsBanned db name);
  if (nameBan : bool) then Err (ENew "name is banned")
  else
    headerBan ← wrapping "error reading header ban state" (GetHeaderBan db name);
    if negb (IsZero headerBan) then Err (ENew "header is banned") else mret tt.

(** The epoch height and sector size of the header of a name, zero without one. *)
Definition header_heights (db : DB) (name : bytes) : result (Z * Z) :=
  match GetHeader db name with
  | Ok header => Ok (h_EpochHeight header, h_SectorSize header)
  | Err e => if errors_Is e ErrNotFound then Ok (0, 0)
             else Err (EWrap e "error getting name header")
  | Panic s => Panic s
  end.

(** [Enqueue] up to its lock: a read of the queue's length and of the
    database.  [None]: the update was answered by a request for a proof. *)
Definition Enqueue_check (send_err : Hash → option error) (len maxLen : Z) (peerID : Hash)
    (update : Update) : M World (option NameInfo) :=
  if decide (maxLen ≤ len) then M_fail ErrUpdateQueueMaxLen else
  complete ← M_wrapping "error getting initial import complete" (read_db GetInitialImportComplete);
  if negb complete then M_fail ErrInitialImportIncomplete else
  if decide (Update_SectorSize update = 0) then
    Mux_Send send_err peerID
      (MBlobReq (mkBlobReq (Update_Name update) (Update_EpochHeight update) MaxSectors));; mret None
  else
    read_db (λ db, validateUpdate db (Update_Name update));;
    nameInfo ← M_wrapping "error getting name info" (read_db (λ db, GetNameInfo db (Update_Name update)));
    '(epochHeight, sectorSize) ← read_db (λ db, header_heights db (Update_Name update));
    if decide (Update_EpochHeight update < epochHeight) then M_fail ErrUpdateQueueEpochUpdated
    else if decide (epochHeight = Update_EpochHeight update ∧ Update_SectorSize update < sectorSize)
    then M_fail ErrUpdateQueueStaleSector
    else if decide (epochHeight = Update_EpochHeight update ∧ sectorSize = Update_SectorSize update)
    then M_fail ErrUpdateQueueSectorUpdated
    else mret (Some nameInfo).

(** [Enqueue] under its lock. *)
Definition Enqueue_insert (peerID : Hash) (update : Update) (nameInfo : NameInfo)
    : M UpdateQueue unit :=
  u ← M_get;
  let name := Update_Name update in
  let fresh := mkItem (NewPeerSet [peerID]) name (Update_EpochHeight update) (Update_SectorSize update)
                 (ni_PublicKey nameInfo) (ni_ImportHeight nameInfo) 0 in
  match entries u !! name with
  | None => M_put (mkQueue (MaxLen u) (<[name := fresh]> (entries u)) (queue u ++ [name])
                     (i32 (queueLen u + 1)))
  | Some entry =>
      if decide (item_SectorSize entry < Update_SectorSize update) then
        M_put (mkQueue (MaxLen u) (<[name := fresh]> (entries u)) (queue u) (queueLen u))
      else if decide (Update_EpochHeight update < item_EpochHeight entry) then
        M_fail ErrUpdateQueueEpochUpdated
      else if decide (item_EpochHeight entry = Update_EpochHeight update ∧
                      Update_SectorSize update < item_SectorSize entry) then
        M_fail ErrUpdateQueueStaleSector
      else
        let entry' := mkItem (PeerSet_Add peerID (item_PeerIDs entry)) (item_Name entry)
                        (item_EpochHeight entry) (item_SectorSize entry) (item_Pub entry)
                        (item_Height entry) (item_Disposed entry) in
        M_put (mkQueue (MaxLen u) (<[name := entry']> (entries u)) (queue u) (queueLen u))
  end.

Definition QW : Type := UpdateQueue * World.

Definition on_queue {A} (m : M UpdateQueue A) : M QW A := M_zoom fst (λ u s, (u, s.2)) m.
Definition on_world {A} (m : M World A) : M QW A := M_zoom snd (λ w s, (s.1, w)) m.

Definition Enqueue (send_err : Hash → option error) (peerID : Hash) (update : Update)
    : M QW unit :=
  '(u, _) ← M_get;
  r ← on_world (Enqueue_check send_err (queueLen u) (MaxLen u) peerID update);
  match r with
  | None => mret tt
  | Some nameInfo => on_queue (Enqueue_insert peerID update nameInfo)
  end.

Definition Dequeue : M UpdateQueue (option UpdateQueueItem) :=
  u ← M_get;
  match queue u with
  | [] => mret None
  | name :: rest =>
      M_put (mkQueue (MaxLen u) (delete name (entries u)) rest (i32 (queueLen u - 1)));;
      mret (entries u !! name)
  end.

Definition reapDequeuedUpdates : M UpdateQueue unit :=
  M_modify (λ u, mkQueue (MaxLen u) (filter (λ p, item_Disposed p.2 = 0) (entries u))
                   (queue u) (queueLen u)).
End queue.
