(* ===== verification/UpdateQueueProofs.v ===== *)
(** * The update queue under interleaved handlers

    A handler of an update reads the length of the queue before it takes the
    lock, so any number of handlers may be between the check and the insertion.
    [q_step] interleaves them with the updater's [Dequeue] and the reaper. *)

From S2P Require Import Prelude GoLib Crypto Instances Sector Wire OsFile BlobTx Names BlobStore.
From S2P Require Import Util StoreDB StoreInstances Store Queue.

Section interleaving.
Context `{LevelDB, JSON, Secp256k1} (send_err : Hash → option error).
(** The number of handlers that may run at the same time. *)
Context (handlers : Z).

(** The queue and the handlers that have passed the check. *)
Definition QState : Type := UpdateQueue * list (Hash * Update * NameInfo).

Inductive q_step : QState → QState → Prop :=
| q_check u pend p upd ni w w' :
    zlen pend < handlers →
    Enqueue_check send_err (queueLen u) (MaxLen u) p upd w = (Ok (Some ni), w') →
    q_step (u, pend) (u, (p, upd, ni) :: pend)
| q_insert u pend1 pend2 p upd ni :
    q_step (u, pend1 ++ (p, upd, ni) :: pend2)
           ((Enqueue_insert p upd ni u).2, pend1 ++ pend2)
| q_dequeue u pend :
    q_step (u, pend) ((Dequeue u).2, pend)
| q_reap u pend :
    q_step (u, pend) ((reapDequeuedUpdates u).2, pend).

Inductive q_reach (maxLen : Z) : QState → Prop :=
| q_init : q_reach maxLen (NewUpdateQueue maxLen, [])
| q_next s s' : q_reach maxLen s → q_step s s' → q_reach maxLen s'.

Definition entry_ok (name : bytes) (e : UpdateQueueItem) : Prop :=
  item_Name e = name ∧ PeerSet_wf (item_PeerIDs e) ∧ ps_ids (item_PeerIDs e) ≠ [] ∧
  item_Disposed e = 0.

Record queue_inv (maxLen : Z) (s : QState) : Prop := mkQueueInv {
  qi_max : MaxLen s.1 = maxLen;
  qi_nodup : NoDup (queue s.1);
  qi_dom : dom (entries s.1) = list_to_set (queue s.1);
  qi_len : queueLen s.1 = zlen (queue s.1);
  qi_entries : map_Forall entry_ok (entries s.1);
  qi_bound : zlen (queue s.1) + zlen s.2 < maxLen + handlers;
}.

Lemma in_queue u name :
  dom (entries u) = list_to_set (queue u) → is_Some (entries u !! name) ↔ name ∈ queue u.
Proof. intros He. rewrite <- elem_of_dom, He. apply elem_of_list_to_set. Qed.

Lemma fresh_entry_ok p upd (ni : NameInfo) :
  entry_ok (Update_Name upd)
    (mkItem (NewPeerSet [p]) (Update_Name upd) (Update_EpochHeight upd) (Update_SectorSize upd)
       (ni_PublicKey ni) (ni_ImportHeight ni) 0).
Proof. split_and!; try done. apply NewPeerSet_wf. Qed.

(** Replacing the entry of a queued name. *)
Lemma queue_inv_replace maxLen u pend1 pend2 x name e :
  queue_inv maxLen (u, pend1 ++ x :: pend2) → is_Some (entries u !! name) → entry_ok name e →
  queue_inv maxLen
    (mkQueue (MaxLen u) (<[name := e]> (entries u)) (queue u) (queueLen u), pend1 ++ pend2).
Proof.
  intros [Hm Hn Hd Hl He Hb] Hs Hok. split; simpl in *; try done.
  - rewrite dom_insert_lookup_L; done.
  - by apply map_Forall_insert_2.
  - rewrite zlen_app, zlen_cons in Hb. rewrite zlen_app. lia.
Qed.

Lemma queue_inv_insert maxLen u pend1 pend2 p upd ni :
  maxLen + handlers < 2 ^ 31 →
  queue_inv maxLen (u, pend1 ++ (p, upd, ni) :: pend2) →
  queue_inv maxLen ((Enqueue_insert p upd ni u).2, pend1 ++ pend2).
Proof.
  intros Hw Hi. pose proof Hi as [Hm Hn Hd Hl He Hb]. simpl in *.
  rewrite zlen_app, zlen_cons in Hb.
  assert (0 ≤ zlen pend1 ∧ 0 ≤ zlen pend2 ∧ 0 ≤ zlen (queue u)) as (?&?&?)
    by (unfold zlen; lia).
  assert (queue_inv maxLen (u, pend1 ++ pend2)) as Hkeep.
  { split; simpl; try done. rewrite zlen_app. lia. }
  unfold Enqueue_insert, M_get, mbind, M_bind.
  destruct (entries u !! Update_Name upd) as [e|] eqn:Hent; simpl.
  - pose proof (He _ _ Hent) as (Hname & Hwf & Hne & Hdis).
    repeat case_decide; simpl; try done.
    + eapply queue_inv_replace; [done|by eexists|apply fresh_entry_ok].
    + eapply queue_inv_replace; [done|by eexists|].
      split_and!; simpl; try done; [by apply PeerSet_Add_wf|].
      intros Hnil. pose proof (PeerSet_Add_ids p _ Hwf) as Hin. rewrite Hnil in Hin. set_solver.
  - assert (Update_Name upd ∉ queue u) as Hni.
    { rewrite <- (in_queue u _ Hd), Hent. by intros [? ?]. }
    split; simpl.
    + done.
    + apply NoDup_app. split; [done|]. split; [set_solver|apply NoDup_singleton].
    + rewrite dom_insert_L, Hd, list_to_set_app_L. set_solver.
    + rewrite zlen_app, Hl, i32_small; unfold zlen in *; simpl; lia.
    + apply map_Forall_insert_2; [apply fresh_entry_ok|done].
    + rewrite !zlen_app. unfold zlen in *. simpl. lia.
Qed.

Lemma queue_inv_dequeue maxLen u pend :
  maxLen + handlers < 2 ^ 31 →
  queue_inv maxLen (u, pend) → queue_inv maxLen ((Dequeue u).2, pend).
Proof.
  intros Hw Hi. pose proof Hi as [Hm Hn Hd Hl He Hb]. simpl in *.
  unfold Dequeue, M_get, mbind, M_bind. destruct (queue u) as [|n rest] eqn:Hq; [done|].
  apply NoDup_cons in Hn as [Hnn Hn]. rewrite zlen_cons in Hl, Hb.
  assert (0 ≤ zlen pend ∧ 0 ≤ zlen rest) as (?&?) by (unfold zlen; lia).
  split; simpl; try done.
  - rewrite dom_delete_L, Hd. set_solver.
  - rewrite Hl, i32_small; lia.
  - by apply map_Forall_delete.
  - lia.
Qed.

Lemma queue_inv_reap maxLen u pend :
  queue_inv maxLen (u, pend) → reapDequeuedUpdates u = (Ok tt, u).
Proof.
  intros [_ _ _ _ He _]. unfold reapDequeuedUpdates, M_modify. f_equal. destruct u as [m es q l].
  simpl in *. f_equal. apply map_filter_id. intros n e Hn. simpl. by destruct (He n e Hn) as (_&_&_&?).
Qed.

Lemma q_reach_inv maxLen s :
  0 ≤ maxLen → 1 ≤ handlers → maxLen + handlers < 2 ^ 31 → q_reach maxLen s → queue_inv maxLen s.
Proof.
  intros Hm Hh Hw. induction 1 as [|s s' Hr IH Hs].
  { split; simpl; [done|constructor|by rewrite dom_empty_L|done|apply map_Forall_empty|].
    unfold zlen. simpl. lia. }
  destruct Hs as [u pend p upd ni w w' Hp Hc|u p1 p2 p upd ni|u pend|u pend].
  - destruct IH as [Hm' Hn Hd Hl He Hb]. split; simpl in *; try done.
    unfold Enqueue_check in Hc. case_decide as Hlen; [done|]. rewrite zlen_cons. lia.
  - by apply queue_inv_insert.
  - by apply queue_inv_dequeue.
  - by rewrite (queue_inv_reap _ _ _ IH).
Qed.
End interleaving.

(** C19: however handlers, updater and reaper interleave, the queue holds each
    name at most once, [queueLen] is its length, at most one update per running
    handler goes over [MaxLen], and [Dequeue] gives the entry of the name that
    came first, with at least one peer, and forgets it. *)
Theorem update_queue_invariant `{LevelDB, JSON, Secp256k1} send_err handlers maxLen u pend :
  0 ≤ maxLen → 1 ≤ handlers → maxLen + handlers < 2 ^ 31 →
  q_reach send_err handlers maxLen (u, pend) →
  NoDup (queue u) ∧ queueLen u = zlen (queue u) ∧ queueLen u < maxLen + handlers ∧
  match queue u with
  | [] => entries u = ∅ ∧ Dequeue u = (Ok None, u)
  | name :: rest => ∃ e u', Dequeue u = (Ok (Some e), u') ∧ item_Name e = name ∧
      ps_ids (item_PeerIDs e) ≠ [] ∧ queue u' = rest ∧ entries u' !! name = None
  end.
Proof.
  intros Hm Hh Hw Hr. apply q_reach_inv in Hr as [_ Hn Hd Hl He Hb]; [|done..]. simpl in *.
  split_and!; [done|done|unfold zlen in *; lia|].
  unfold Dequeue, M_get, mbind, M_bind. destruct (queue u) as [|name rest] eqn:Hq.
  - split; [|done]. apply dom_empty_inv_L. by rewrite Hd.
  - destruct (entries u !! name) as [e|] eqn:Hent.
    + eexists e, _. split; [done|]. destruct (He _ _ Hent) as (?&?&?&?).
      split_and!; try done. simpl. apply lookup_delete_eq.
    + apply not_elem_of_dom in Hent. rewrite Hd in Hent. set_solver.
Qed.

Definition demo_update : Update := mkUpdate (bs "foo") 3 2.
Definition demo_info : NameInfo := mkNameInfo (bs "foo") (PubKey toy_key) 9.
Definition demo_peer : Hash := replicate 32 x07.

(** A database with one name, whose import is complete. *)
Definition demo_db : DB :=
  (WithTx_only (SetInitialImportCompleteTx;; SetNameInfoTx (bs "foo") (PubKey toy_key) 9) empty_db).2.

Definition demo_world : World := mkWorld demo_db (empty_fs, NewPool) NewMultiLocker [].

Definition no_err (_ : Hash) : option error := None.

Lemma update_queue_invariant_witness :
  let u := (Enqueue_insert demo_peer demo_update demo_info (NewUpdateQueue 1)).2 in
  NoDup (queue u) ∧ queueLen u = zlen (queue u) ∧ queueLen u < 1 + 1 ∧
  match queue u with
  | [] => entries u = ∅ ∧ Dequeue u = (Ok None, u)
  | name :: rest => ∃ e u', Dequeue u = (Ok (Some e), u') ∧ item_Name e = name ∧
      ps_ids (item_PeerIDs e) ≠ [] ∧ queue u' = rest ∧ entries u' !! name = None
  end.
Proof.
  apply (update_queue_invariant no_err 1 1 _ []); [lia..|].
  apply (q_next _ _ _ (NewUpdateQueue 1, [] ++ (demo_peer, demo_update, demo_info) :: [])).
  - eapply q_next; [apply q_init|].
    by apply (q_check _ _ _ _ _ _ _ demo_world demo_world).
  - apply q_insert.
Defined.

(** The checks an update has passed. *)
Lemma Enqueue_check_Ok `{LevelDB, JSON, Secp256k1} send_err len maxLen p upd w ni w' :
  Enqueue_check send_err len maxLen p upd w = (Ok (Some ni), w') →
  let name := Update_Name upd in
  w' = w ∧ len < maxLen ∧ GetInitialImportComplete (w_db w) = Ok true ∧
  validateUpdate (w_db w) name = Ok tt ∧ GetNameInfo (w_db w) name = Ok ni ∧
  ∃ epoch size, header_heights (w_db w) name = Ok (epoch, size) ∧
    (epoch < Update_EpochHeight upd ∨ epoch = Update_EpochHeight upd ∧ size < Update_SectorSize upd).
Proof.
  unfold Enqueue_check, mbind, M_bind, M_wrapping, read_db, Mux_Send. simpl.
  case_decide; [done|].
  destruct (GetInitialImportComplete (w_db w)) as [[]| |] eqn:Hc; try done. simpl.
  case_decide; [by destruct (send_err p)|].
  destruct (validateUpdate (w_db w) (Update_Name upd)) as [[]| |] eqn:Hv; try done.
  destruct (GetNameInfo (w_db w) (Update_Name upd)) as [ni'| |] eqn:Hi; try done.
  destruct (header_heights (w_db w) (Update_Name upd)) as [[eh sz]| |] eqn:Hh; try done.
  repeat case_decide; try done. intros [= -> <-].
  split_and!; try done; [lia|]. exists eh, sz. split; [done|]. lia.
Qed.

Lemma validateUpdate_Ok `{LevelDB} db name :
  validateUpdate db name = Ok tt ↔
  ValidateName name = Ok tt ∧ NameIsBanned db name = Ok false ∧ GetHeaderBan db name = Ok ZeroTime.
Proof.
  unfold validateUpdate, wrapping. simpl.
  destruct (ValidateName name) as [[]| |]; simpl; [|naive_solver..].
  destruct (NameIsBanned db name) as [[]| |]; simpl; [naive_solver| |naive_solver..].
  destruct (GetHeaderBan db name) as [t| |]; simpl; [|naive_solver..].
  unfold IsZero. case_bool_decide; simpl; naive_solver.
Qed.

(** The entry an insertion that succeeds leaves. *)
Lemma Enqueue_insert_Ok `{LevelDB, JSON, Secp256k1} p upd ni u u' :
  map_Forall entry_ok (entries u) → Enqueue_insert p upd ni u = (Ok tt, u') →
  ∃ e, entries u' !! Update_Name upd = Some e ∧ p ∈ ps_ids (item_PeerIDs e) ∧
    Update_SectorSize upd ≤ item_SectorSize e.
Proof.
  intros He. unfold Enqueue_insert, M_get, mbind, M_bind.
  destruct (entries u !! Update_Name upd) as [e|] eqn:Hent; simpl.
  - repeat case_decide; try done; intros [= <-]; simpl; rewrite lookup_insert_eq; eexists;
      (split; [done|]); simpl.
    + split; [set_solver|lia].
    + split; [|lia]. destruct (He _ _ Hent) as (_ & Hwf & _). by apply PeerSet_Add_ids.
  - intros [= <-]. simpl. rewrite lookup_insert_eq. eexists. split; [done|]. simpl.
    split; [set_solver|lia].
Qed.

(** An update that is queued names a valid name, with no ban on it or on
    its header, of a node whose import is complete; it is strictly newer than
    the stored header (a later epoch, or more sectors in the same one); and the
    entry of the name then lists the peer and asks for at least its sectors. *)
Theorem enqueue_accepts `{LevelDB, JSON, Secp256k1} send_err p upd u w u' w' :
  map_Forall entry_ok (entries u) → Update_SectorSize upd ≠ 0 →
  Enqueue send_err p upd (u, w) = (Ok tt, (u', w')) →
  let name := Update_Name upd in
  w' = w ∧ queueLen u < MaxLen u ∧ GetInitialImportComplete (w_db w) = Ok true ∧
  ValidateName name = Ok tt ∧ NameIsBanned (w_db w) name = Ok false ∧
  GetHeaderBan (w_db w) name = Ok ZeroTime ∧
  (∃ epoch size, header_heights (w_db w) name = Ok (epoch, size) ∧
    (epoch < Update_EpochHeight upd ∨ epoch = Update_EpochHeight upd ∧ size < Update_SectorSize upd)) ∧
  ∃ e, entries u' !! name = Some e ∧ p ∈ ps_ids (item_PeerIDs e) ∧
    Update_SectorSize upd ≤ item_SectorSize e.
Proof.
  intros He Hz Hq. unfold Enqueue, mbind, M_bind, M_get, on_world, on_queue, M_zoom in Hq. simpl in Hq.
  destruct (Enqueue_check send_err (queueLen u) (MaxLen u) p upd w) as [[[ni|]| |] w1] eqn:Hc;
    simplify_eq/=.
  - apply Enqueue_check_Ok in Hc as (-> & ? & ? & (?&?&?)%validateUpdate_Ok & _ & ?).
    destruct (Enqueue_insert p upd ni u) as [r u1] eqn:Hi; simplify_eq/=.
    apply Enqueue_insert_Ok in Hi; [|done]. by split_and!.
  - unfold Enqueue_check, mbind, M_bind, M_wrapping, read_db in Hc. simpl in Hc.
    repeat first [case_decide | case_match; simplify_eq/=]; done.
Qed.

Lemma enqueue_accepts_witness :
  let u' := (Enqueue no_err demo_peer demo_update (NewUpdateQueue 1, demo_world)).2.1 in
  ∃ e, entries u' !! bs "foo" = Some e ∧ demo_peer ∈ ps_ids (item_PeerIDs e) ∧ 2 ≤ item_SectorSize e.
Proof.
  by apply (enqueue_accepts no_err demo_peer demo_update (NewUpdateQueue 1) demo_world _ demo_world).
Defined.

(** The entries of the queue are compared by sectors before epochs.  An
    update of an earlier epoch with more sectors replaces the queued one, and an
    update of a later epoch with no more sectors is lost: its peer joins the
    entry of the earlier epoch. *)
Theorem enqueue_confuses_epochs `{LevelDB, JSON, Secp256k1} p upd ni u e :
  entries u !! Update_Name upd = Some e →
  (Update_EpochHeight upd < item_EpochHeight e → item_SectorSize e < Update_SectorSize upd →
   ∃ e' u', Enqueue_insert p upd ni u = (Ok tt, u') ∧ entries u' !! Update_Name upd = Some e' ∧
     item_EpochHeight e' < item_EpochHeight e) ∧
  (item_EpochHeight e < Update_EpochHeight upd → Update_SectorSize upd ≤ item_SectorSize e →
   ∃ e' u', Enqueue_insert p upd ni u = (Ok tt, u') ∧ entries u' !! Update_Name upd = Some e' ∧
     item_EpochHeight e' = item_EpochHeight e ∧
     item_PeerIDs e' = PeerSet_Add p (item_PeerIDs e)).
Proof.
  intros Hent. unfold Enqueue_insert, M_get, mbind, M_bind. rewrite Hent. split; intros Hep Hsz.
  - rewrite decide_True by done. eexists _, _. split; [done|]. simpl. rewrite lookup_insert_eq.
    by split.
  - rewrite decide_False, decide_False, decide_False by lia. eexists _, _. split; [done|]. simpl.
    by rewrite lookup_insert_eq.
Qed.

Lemma enqueue_confuses_epochs_witness :
  let u := (Enqueue_insert demo_peer demo_update demo_info (NewUpdateQueue 1)).2 in
  ∃ e' u', Enqueue_insert demo_peer (mkUpdate (bs "foo") 1 5) demo_info u = (Ok tt, u') ∧
    entries u' !! bs "foo" = Some e' ∧ item_EpochHeight e' < 3.
Proof.
  refine (proj1 (enqueue_confuses_epochs demo_peer (mkUpdate (bs "foo") 1 5) demo_info
    (Enqueue_insert demo_peer demo_update demo_info (NewUpdateQueue 1)).2
    (mkItem (NewPeerSet [demo_peer]) (bs "foo") 3 2 (PubKey toy_key) 9 0) eq_refl) _ _); simpl; lia.
Defined.
