(* ===== verification/Syncer.v ===== *)
(** * Package protocol: syncing the sectors of a name

    [src/protocol/syncer.go].  The responses that reach the handler before the
    timer fires are the list [SyncSectors] processes; the timer fires when the
    list is at its end.  The goroutine that reads them is the only one to write
    the transaction while [SyncSectors] waits. *)

From S2P Require Import Prelude GoLib Crypto Instances Sector Wire OsFile BlobIO BlobTx Names.
From S2P Require Import BlobStore Util StoreDB StoreInstances Store Queue.

Definition ErrInvalidPayloadSignature : error := ESentinel "update signature is invalid".
Definition ErrPayloadEquivocation : error := ESentinel "update payload is equivocated".

(** The world and the transaction of an update. *)
Definition WT `{LevelDB, Secp256k1} : Type := World * Tx.

Section wt.
Context `{LevelDB, Secp256k1}.

Definition of_world {A} (m : M World A) : M WT A := M_zoom fst (λ w s, (w, s.2)) m.

Definition set_fs (fs : FS) (w : World) : World :=
  mkWorld (w_db w) (fs, (w_blobs w).2) (w_locks w) (w_sent w).

Definition of_tx {A} (m : M TS A) : M WT A :=
  M_zoom (λ s, ((w_blobs s.1).1, s.2)) (λ ts s, (set_fs ts.1 s.1, ts.2)) m.
End wt.

Section syncer.
Context `{LevelDB, JSON, Secp256k1, Blake2b}.

Record syncUpdate := mkSyncUpdate {
  su_sectorTipHash : Hash;
  su_reservedRoot : Hash;
  su_signature : Signature;
}.

Record SyncSectorsOpts := mkOpts {
  o_Peers : PeerSet;
  o_EpochHeight : Z;
  o_SectorSize : Z;
  o_PrevHash : Hash;
  o_Name : bytes;
}.

Definition validateBlobUpdate (db : DB) (name : bytes) (epochHeight sectorSize : Z)
    (sectorTipHash reservedRoot : Hash) (sig : Signature) : result unit :=
  _ ← wrapping "update name is invalid" (ValidateName name);
  banned ← wrapping "error reading name ban state" (NameIsBanned db name);
  if (banned : bool) then Err (ENew "name is banned")
  else
    info ← wrapping "error reading name info" (GetNameInfo db name);
    let h := SealHash name epochHeight sectorSize sectorTipHash reservedRoot in
    ok ← VerifySigPub (ni_PublicKey info) sig h;
    if negb ok then Err ErrInvalidPayloadSignature else mret tt.

(** One round of requests: the first seven peers that can be reached. *)
Fixpoint send_requests (send_err : Hash → option error) (opts : SyncSectorsOpts)
    (sendCount : Z) (peers : list Hash) : M World unit :=
  match peers with
  | [] => mret tt
  | peerID :: peers =>
      if decide (sendCount = 7) then mret tt
      else
        r ← M_try (Mux_Send send_err peerID
              (MBlobReq (mkBlobReq (o_Name opts) (o_EpochHeight opts) (o_SectorSize opts))));
        if is_ok r then send_requests send_err opts (sendCount + 1) peers
        else send_requests send_err opts sendCount peers
  end.

(** The payload is written sector by sector; errors are logged. *)
Fixpoint write_payload (payload : list Sector) : M WT unit :=
  match payload with
  | [] => mret tt
  | sector :: payload => M_try (of_tx (Tx_WriteSector sector));; write_payload payload
  end.

(** What the goroutine does with a response: go round again, send an error, or
    send the update. *)
Inductive verdict :=
| Again
| Failed (e : error)
| Processed (su : syncUpdate).

(** A response that does not start at our tip, in our epoch: keep the proof, ban
    the header and tell the peers. *)
Definition record_equivocation (now : Time) (msg : BlobRes) : M World verdict :=
  let name := BlobRes_Name msg in
  proof ← M_try (read_db (λ db, GetEquivocationProof db name));
  if is_ok proof then mret (Failed ErrPayloadEquivocation)
  else
    h ← M_try (read_db (λ db, GetHeader db name));
    match h with
    | Ok header =>
        r ← M_try (on_db (WithTx_only (SetHeaderBan now name ZeroTime)));
        if is_ok r then
          let proof := mkEquivocationProof name (BlobRes_EpochHeight msg)
            (BlobRes_PayloadPosition msg) (BlobRes_PrevHash msg) (BlobRes_ReservedRoot msg)
            (BlobRes_Payload msg) (BlobRes_Signature msg) (h_EpochHeight header)
            (h_SectorSize header) (h_SectorTipHash header) (h_ReservedRoot header)
            (h_Signature header) in
          M_try (on_db (WithTx_only (SetEquivocationProofTx name proof)));;
          GossipAll (MUpdate (mkUpdate name (BlobRes_EpochHeight msg) 0));;
          mret (Failed ErrPayloadEquivocation)
        else mret Again
    | _ => mret Again
    end.

Definition handle_payload (now : Time) (opts : SyncSectorsOpts) (received : gset Z) (msg : BlobRes)
    : M WT verdict :=
  if decide (BlobRes_Name msg ≠ o_Name opts) then mret Again
  else if decide (BlobRes_PayloadPosition msg ∈ received) then mret Again
  else if decide (BlobRes_EpochHeight msg < o_EpochHeight opts) then mret Again
  else if decide (o_SectorSize opts ≠ BlobRes_PayloadPosition msg) then mret Again
  else
    let sectorSize := u16 (BlobRes_PayloadPosition msg + u16 (zlen (BlobRes_Payload msg))) in
    if decide (MaxSectors < sectorSize) then mret Again
    else
      let sectorTipHash := tip_from (BlobRes_PrevHash msg) (BlobRes_Payload msg) in
      r ← M_try (of_world (read_db (λ db, validateBlobUpdate db (BlobRes_Name msg)
            (BlobRes_EpochHeight msg) sectorSize sectorTipHash (BlobRes_ReservedRoot msg)
            (BlobRes_Signature msg))));
      if negb (is_ok r) then
        mret (Failed (EWrap ErrInvalidPayloadSignature "signature validation failed"))
      else if decide (o_PrevHash opts ≠ BlobRes_PrevHash msg) then
        if decide (o_EpochHeight opts = BlobRes_EpochHeight msg) then
          of_world (record_equivocation now msg)
        else mret (Failed ErrPayloadEquivocation)
      else
        write_payload (BlobRes_Payload msg);;
        mret (Processed (mkSyncUpdate sectorTipHash (BlobRes_ReservedRoot msg)
                           (BlobRes_Signature msg))).

(** The goroutine from the start of a round.  After its last message to the main
    loop it sends one more round of requests before it sees [doneCh]. *)
Fixpoint payload_loop (now : Time) (send_err : Hash → option error) (opts : SyncSectorsOpts)
    (received : gset Z) (responses : list (Hash * BlobRes)) : M WT (option syncUpdate) :=
  of_world (send_requests send_err opts 0 (ps_ids (o_Peers opts)));;
  match responses with
  | [] => mret None
  | (_, msg) :: responses =>
      v ← handle_payload now opts received msg;
      match v with
      | Again => payload_loop now send_err opts received responses
      | Failed e =>
          of_world (send_requests send_err opts 0 (ps_ids (o_Peers opts)));; M_fail e
      | Processed su =>
          of_world (send_requests send_err opts 0 (ps_ids (o_Peers opts)));; mret (Some su)
      end
  end.

(** [None] is the nil update of a timeout. *)
Definition SyncSectors (now : Time) (send_err : Hash → option error) (opts : SyncSectorsOpts)
    (responses : list (Hash * BlobRes)) : M WT (option syncUpdate) :=
  payload_loop now send_err opts ∅ responses.
End syncer.

(** ** Lemmas *)

Section syncer_lemmas.
Context `{LevelDB, JSON, Secp256k1, Blake2b}.

Lemma validateBlobUpdate_Ok db name epoch size tip root sig :
  validateBlobUpdate db name epoch size tip root sig = Ok tt →
  ValidateName name = Ok tt ∧ NameIsBanned db name = Ok false ∧
  ∃ info, GetNameInfo db name = Ok info ∧
    VerifySigPub (ni_PublicKey info) sig (SealHash name epoch size tip root) = Ok true.
Proof.
  unfold validateBlobUpdate, wrapping. simpl.
  destruct (ValidateName name) as [[]| |]; simpl; try done.
  destruct (NameIsBanned db name) as [[]| |]; simpl; try done.
  destruct (GetNameInfo db name) as [info| |]; simpl; try done.
  destruct (VerifySigPub _ sig _) as [[]| |] eqn:Hv; simpl; try done. eauto 10.
Qed.

(** Only messages are sent. *)
Definition only_sends (w w' : World) : Prop :=
  w_db w' = w_db w ∧ w_blobs w' = w_blobs w ∧ w_locks w' = w_locks w ∧
  w_sent w `prefix_of` w_sent w'.

Lemma only_sends_refl w : only_sends w w.
Proof. by split_and!. Qed.

Lemma only_sends_trans w1 w2 w3 : only_sends w1 w2 → only_sends w2 w3 → only_sends w1 w3.
Proof.
  intros (?&?&?&?) (?&?&?&?). split_and!; [congruence..|]. by etrans.
Qed.

Lemma Mux_Send_spec send_err p m w :
  ∃ r w', Mux_Send send_err p m w = (r, w') ∧ only_sends w w' ∧
    r = match send_err p with Some e => Err e | None => Ok tt end.
Proof.
  unfold Mux_Send, log_sent, M_modify, M_fail. destruct (send_err p).
  - eexists _, _. split; [done|]. split; [apply only_sends_refl|done].
  - eexists _, _. split; [done|]. split; [|done]. split_and!; try done. simpl. by eexists.
Qed.

Lemma send_requests_spec send_err opts n peers w :
  ∃ w', send_requests send_err opts n peers w = (Ok tt, w') ∧ only_sends w w'.
Proof.
  revert n w. induction peers as [|p peers IH]; intros n w; simpl.
  { exists w. split; [done|apply only_sends_refl]. }
  case_decide; [exists w; split; [done|apply only_sends_refl]|].
  destruct (Mux_Send_spec send_err p
    (MBlobReq (mkBlobReq (o_Name opts) (o_EpochHeight opts) (o_SectorSize opts))) w)
    as (r & w1 & Hs & Hw & Hr).
  rewrite (M_bind_step _ _ _ r w1)
    by (unfold M_try; rewrite Hs, Hr; by destruct (send_err p)).
  rewrite Hr. destruct (send_err p); simpl.
  - destruct (IH n w1) as (w2 & -> & ?). exists w2. eauto using only_sends_trans.
  - destruct (IH (n + 1) w1) as (w2 & -> & ?). exists w2. eauto using only_sends_trans.
Qed.

Lemma of_world_send_requests send_err opts (w : World) (t : Tx) :
  ∃ w', of_world (send_requests send_err opts 0 (ps_ids (o_Peers opts))) (w, t) = (Ok tt, (w', t)) ∧
    only_sends w w'.
Proof.
  destruct (send_requests_spec send_err opts 0 (ps_ids (o_Peers opts)) w) as (w' & Hs & ?).
  exists w'. unfold of_world, M_zoom. simpl. by rewrite Hs.
Qed.

(** Calls on the transaction keep the database and the locks, and send nothing. *)
Definition keeps_world (w w' : World) : Prop :=
  w_db w' = w_db w ∧ w_locks w' = w_locks w ∧ (w_blobs w').2 = (w_blobs w).2 ∧
  w_sent w `prefix_of` w_sent w'.

Lemma keeps_world_refl w : keeps_world w w.
Proof. by split_and!. Qed.

Lemma keeps_world_trans w1 w2 w3 : keeps_world w1 w2 → keeps_world w2 w3 → keeps_world w1 w3.
Proof. intros (?&?&?&?) (?&?&?&?). split_and!; [congruence..|]. by etrans. Qed.

Lemma only_sends_keeps w w' : only_sends w w' → keeps_world w w'.
Proof. intros (?&He&?&?). split_and!; try done. by rewrite He. Qed.

Lemma of_tx_keeps {A} (m : M TS A) w t : keeps_world w (of_tx m (w, t)).2.1.
Proof. unfold of_tx, M_zoom. simpl. destruct (m _) as [r [fs t']]. by split_and!. Qed.

Lemma write_payload_keeps payload w t : keeps_world w (write_payload payload (w, t)).2.1.
Proof.
  revert w t. induction payload as [|s payload IH]; intros w t; simpl; [apply keeps_world_refl|].
  unfold mbind, M_bind, M_try. pose proof (of_tx_keeps (Tx_WriteSector s) w t) as Hk.
  destruct (of_tx (Tx_WriteSector s) (w, t)) as [[| |] [w1 t1]]; simpl in *; try done;
    eauto using keeps_world_trans.
Qed.

(** What a response must satisfy to be the result of a sync. *)
Definition authentic (opts : SyncSectorsOpts) (db : DB) (msg : BlobRes) (su : syncUpdate) : Prop :=
  BlobRes_Name msg = o_Name opts ∧ BlobRes_PayloadPosition msg = o_SectorSize opts ∧
  BlobRes_PrevHash msg = o_PrevHash opts ∧ o_EpochHeight opts ≤ BlobRes_EpochHeight msg ∧
  su = mkSyncUpdate (tip_from (o_PrevHash opts) (BlobRes_Payload msg)) (BlobRes_ReservedRoot msg)
         (BlobRes_Signature msg) ∧
  NameIsBanned db (o_Name opts) = Ok false ∧
  ∃ info, GetNameInfo db (o_Name opts) = Ok info ∧
    let size := u16 (o_SectorSize opts + u16 (zlen (BlobRes_Payload msg))) in
    size ≤ MaxSectors ∧
    VerifySigPub (ni_PublicKey info) (su_signature su)
      (SealHash (o_Name opts) (BlobRes_EpochHeight msg) size (su_sectorTipHash su)
         (su_reservedRoot su)) = Ok true.

Lemma handle_payload_Processed now opts received msg w t su w' t' :
  handle_payload now opts received msg (w, t) = (Ok (Processed su), (w', t')) →
  authentic opts (w_db w) msg su ∧ write_payload (BlobRes_Payload msg) (w, t) = (Ok tt, (w', t')).
Proof.
  unfold handle_payload. repeat (case_decide; [done|]).
  set (size := u16 _) in *. set (tip := tip_from _ _).
  unfold mbind, M_bind at 1. unfold M_try, of_world at 1, M_zoom at 1, read_db at 1. simpl.
  destruct (validateBlobUpdate (w_db w) _ _ size tip _ _) as [[]| |] eqn:Hv; try done. simpl.
  case_decide as Hp.
  { case_decide; [|done]. unfold of_world, M_zoom, record_equivocation. simpl.
    unfold mbind, M_bind, M_try, read_db, M_ret, mret. simpl.
    repeat (case_match; simplify_eq/=; try done). }
  unfold M_bind. destruct (write_payload _ (w, t)) as [[[]| |] s1] eqn:Hw; try done.
  intros [= <- ->]. split; [|done].
  apply validateBlobUpdate_Ok in Hv as (Hn & Hb & info & Hi & Hs).
  match goal with E : BlobRes_Name msg = o_Name opts |- _ => rewrite E in * end.
  match goal with E : o_SectorSize opts = _ |- _ => unfold authentic; rewrite E end.
  rewrite Hp. split_and!; try done; [lia|]. exists info. split_and!; try done. fold size. lia.
Qed.
End syncer_lemmas.
