(* ===== verification/SyncerProofs.v ===== *)
(** * What a sync of sectors guarantees *)

From S2P Require Import Prelude GoLib Crypto Instances Dwire Sector Wire OsFile BlobIO BlobTx.
From S2P Require Import BlobSys Names BlobStore Util StoreDB StoreInstances Store Queue.
From S2P Require Import UpdateQueueProofs Syncer.

Section sync.
Context `{LevelDBLaws, JSON, Secp256k1, Blake2b}.

(** The databases agree but for the ban of the header and the proof of [name]. *)
Definition db_frame (name : bytes) (db db' : DB) : Prop :=
  ∀ k, k ≠ headerBanPrefix [name] → k ≠ equivocationProofsPrefix [name] →
    db_map db' !! k = db_map db !! k.

Definition world_frame (name : bytes) (w w' : World) : Prop :=
  db_frame name (w_db w) (w_db w') ∧ w_locks w' = w_locks w ∧ (w_blobs w').2 = (w_blobs w).2.

Lemma world_frame_refl name w : world_frame name w w.
Proof. by split_and!. Qed.

Lemma world_frame_trans name w1 w2 w3 :
  world_frame name w1 w2 → world_frame name w2 w3 → world_frame name w1 w3.
Proof.
  intros (Hd1&?&?) (Hd2&?&?). split_and!; [|congruence..]. intros k ? ?. by rewrite Hd2, Hd1.
Qed.

Lemma keeps_world_frame name w w' : keeps_world w w' → world_frame name w w'.
Proof. intros (Hd&?&?&?). split_and!; try done. intros k _ _. by rewrite Hd. Qed.

(** The proof made of a response and of the stored header. *)
Definition proof_of (msg : BlobRes) (header : Header) : EquivocationProof :=
  mkEquivocationProof (BlobRes_Name msg) (BlobRes_EpochHeight msg)
    (BlobRes_PayloadPosition msg) (BlobRes_PrevHash msg) (BlobRes_ReservedRoot msg)
    (BlobRes_Payload msg) (BlobRes_Signature msg) (h_EpochHeight header)
    (h_SectorSize header) (h_SectorTipHash header) (h_ReservedRoot header) (h_Signature header).

(** The world after an equivocation has been recorded. *)
Definition recorded (now : Time) (msg : BlobRes) (header : Header) (w w' : World) : Prop :=
  db_map (w_db w') =
    <[equivocationProofsPrefix [BlobRes_Name msg] := (EquivocationProof_Encode (proof_of msg header)).1]>
      (<[headerBanPrefix [BlobRes_Name msg] := mustEncodeInt (Unix now)]> (db_map (w_db w))) ∧
  w_locks w' = w_locks w ∧ w_blobs w' = w_blobs w ∧
  w_sent w' = w_sent w ++ [ToAll (MUpdate (mkUpdate (BlobRes_Name msg) (BlobRes_EpochHeight msg) 0))].

Lemma record_equivocation_spec now msg w :
  let name := BlobRes_Name msg in
  ∃ r w', record_equivocation now msg w = (r, w') ∧
    match GetEquivocationProof (w_db w) name, GetHeader (w_db w) name with
    | Panic s, _ => r = Panic s ∧ w' = w
    | Ok _, _ => r = Ok (Failed ErrPayloadEquivocation) ∧ w' = w
    | Err _, Ok header => r = Ok (Failed ErrPayloadEquivocation) ∧ recorded now msg header w w'
    | Err _, Err _ => r = Ok Again ∧ w' = w
    | Err _, Panic s => r = Panic s ∧ w' = w
    end.
Proof.
  intros name. unfold record_equivocation, mbind, M_bind, M_try, read_db. fold name.
  destruct (GetEquivocationProof (w_db w) name) as [p|e|s]; simpl; [eauto| |eauto].
  destruct (GetHeader (w_db w) name) as [h|e'|s]; simpl; [|eauto..].
  unfold on_db, M_zoom, SetHeaderBan, SetEquivocationProofTx. simpl.
  destruct (WithTx_only_Put "error writing header tree" (headerBanPrefix [name])
    (mustEncodeInt (Unix now)) (w_db w)) as (db1 & -> & Hm1). simpl.
  destruct (WithTx_only_Put "error setting equivocation proof" (equivocationProofsPrefix [name])
    (EquivocationProof_Encode (proof_of msg h)).1 db1) as (db2 & Hw2 & Hm2).
  unfold proof_of in Hw2. fold name in Hw2. rewrite Hw2. simpl.
  eexists _, _. split; [done|]. split; [done|]. split_and!; try done. simpl. by rewrite Hm2, Hm1.
Qed.

Lemma recorded_frame now msg h w w' : recorded now msg h w w' → world_frame (BlobRes_Name msg) w w'.
Proof.
  intros (Hm & ? & Hb & _). split_and!; [|done|by rewrite Hb]. intros k Hk1 Hk2.
  by rewrite Hm, !lookup_insert_ne.
Qed.

Lemma record_equivocation_frame now msg w :
  world_frame (BlobRes_Name msg) w (record_equivocation now msg w).2.
Proof.
  destruct (record_equivocation_spec now msg w) as (r & w' & -> & Hr). simpl.
  repeat case_match; destruct Hr as [_ Hr]; subst;
    eauto using world_frame_refl, recorded_frame.
Qed.

Lemma handle_payload_frame now opts received msg w t :
  world_frame (o_Name opts) w (handle_payload now opts received msg (w, t)).2.1.
Proof.
  unfold handle_payload. case_decide as Hname; [apply world_frame_refl|].
  repeat (case_decide; [apply world_frame_refl|]).
  unfold mbind, M_bind at 1. unfold M_try, of_world at 1, M_zoom at 1, read_db at 1. simpl.
  destruct (validateBlobUpdate _ _ _ _ _ _ _) as [[]| |]; simpl; try apply world_frame_refl.
  case_decide.
  - case_decide; [|apply world_frame_refl]. unfold of_world, M_zoom. simpl.
    pose proof (record_equivocation_frame now msg w) as Hf. rewrite Hname in Hf.
    by destruct (record_equivocation now msg w).
  - unfold M_bind. pose proof (write_payload_keeps (BlobRes_Payload msg) w t) as Hk.
    destruct (write_payload _ (w, t)) as [[| |] s1]; by apply keeps_world_frame.
Qed.

Lemma handle_payload_Again now opts received msg w t w' t' :
  handle_payload now opts received msg (w, t) = (Ok Again, (w', t')) →
  w' = w ∧ t' = t.
Proof.
  unfold handle_payload.
  repeat (case_decide; [by intros [= <- <-]|]).
  unfold mbind, M_bind at 1. unfold M_try, of_world at 1, M_zoom at 1, read_db at 1. simpl.
  destruct (validateBlobUpdate _ _ _ _ _ _ _) as [[]| |]; simpl; try done.
  case_decide.
  - case_decide; [|done]. unfold of_world, M_zoom. simpl.
    destruct (record_equivocation_spec now msg w) as (r & w1 & -> & Hr).
    repeat case_match; destruct Hr as [-> Hr]; intros [= <- <-]; done.
  - unfold M_bind. by destruct (write_payload _ (w, t)) as [[| |] s1].
Qed.

(** Every outcome of a sync leaves all but the ban and the proof of its name. *)
Lemma payload_loop_frame now send_err opts received responses w t :
  world_frame (o_Name opts) w (payload_loop now send_err opts received responses (w, t)).2.1.
Proof.
  revert w t. induction responses as [|[p msg] responses IH]; intros w t; simpl;
    destruct (of_world_send_requests send_err opts w t) as (w1 & Hs & Hw1);
    rewrite (M_bind_step _ _ _ _ _ Hs); apply only_sends_keeps, (keeps_world_frame (o_Name opts)) in Hw1;
    [done|].
  pose proof (handle_payload_frame now opts received msg w1 t) as Hf.
  unfold mbind, M_bind. destruct (handle_payload _ _ _ _ (w1, t)) as [[[|e|su]| |] [w2 t2]];
    simpl in *; try by eapply world_frame_trans.
  - eapply world_frame_trans; [eapply world_frame_trans; [exact Hw1|exact Hf]|apply IH].
  - destruct (of_world_send_requests send_err opts w2 t2) as (w3 & -> & Hw3). simpl.
    apply only_sends_keeps, (keeps_world_frame (o_Name opts)) in Hw3.
    eauto using world_frame_trans.
  - destruct (of_world_send_requests send_err opts w2 t2) as (w3 & -> & Hw3). simpl.
    apply only_sends_keeps, (keeps_world_frame (o_Name opts)) in Hw3.
    eauto using world_frame_trans.
Qed.

(** A sync that ends without an error has written at most the blob. *)
Lemma payload_loop_Ok now send_err opts received responses w t r w' t' :
  payload_loop now send_err opts received responses (w, t) = (Ok r, (w', t')) →
  keeps_world w w' ∧
  match r with
  | Some su => ∃ p msg, (p, msg) ∈ responses ∧ authentic opts (w_db w) msg su
  | None => True
  end.
Proof.
  revert w t. induction responses as [|[p msg] responses IH]; intros w t; simpl;
    destruct (of_world_send_requests send_err opts w t) as (w1 & Hs & Hw1);
    rewrite (M_bind_step _ _ _ _ _ Hs); apply only_sends_keeps in Hw1.
  { by intros [= <- <- <-]. }
  pose proof Hw1 as (Hdb & _).
  unfold mbind, M_bind. destruct (handle_payload _ _ _ _ (w1, t)) as [[[|e|su]| |] [w2 t2]] eqn:Hp;
    try done.
  - apply handle_payload_Again in Hp as [-> ->]. intros (Hk & Hr)%IH. rewrite Hdb in Hr.
    split; [by eapply keeps_world_trans|]. destruct r as [su|]; [|done].
    destruct Hr as (p' & msg' & Hin & Ha). exists p', msg'. split; [by right|done].
  - by destruct (of_world_send_requests send_err opts w2 t2) as (w3 & -> & _).
  - destruct (of_world_send_requests send_err opts w2 t2) as (w3 & -> & Hw3).
    apply only_sends_keeps in Hw3. intros [= <- <- <-].
    apply handle_payload_Processed in Hp as [Ha Hwr].
    pose proof (write_payload_keeps (BlobRes_Payload msg) w1 t) as Hk. rewrite Hwr in Hk.
    rewrite Hdb in Ha. split; [eauto using keeps_world_trans|].
    exists p, msg. split; [left|done].
Qed.
End sync.

(** C5: the update a sync returns is one of the responses, for the name, at the
    position and on top of the tip that were asked for, in the same epoch or a
    later one; its size is within the blob and its signature verifies, with the
    key of the name, for its size and the tip of its payload; the name is not
    banned.  The database, the locks and the pool are as before. *)
Theorem sync_sectors_authentic `{LevelDBLaws, JSON, Secp256k1, Blake2b} now send_err opts responses
    w t su w' t' :
  SyncSectors now send_err opts responses (w, t) = (Ok (Some su), (w', t')) →
  w_db w' = w_db w ∧ w_locks w' = w_locks w ∧ (w_blobs w').2 = (w_blobs w).2 ∧
  ∃ p msg info, (p, msg) ∈ responses ∧
    BlobRes_Name msg = o_Name opts ∧ BlobRes_PayloadPosition msg = o_SectorSize opts ∧
    BlobRes_PrevHash msg = o_PrevHash opts ∧ o_EpochHeight opts ≤ BlobRes_EpochHeight msg ∧
    su_sectorTipHash su = tip_from (o_PrevHash opts) (BlobRes_Payload msg) ∧
    NameIsBanned (w_db w) (o_Name opts) = Ok false ∧ GetNameInfo (w_db w) (o_Name opts) = Ok info ∧
    let size := u16 (o_SectorSize opts + u16 (zlen (BlobRes_Payload msg))) in
    size ≤ MaxSectors ∧
    VerifySigPub (ni_PublicKey info) (su_signature su)
      (SealHash (o_Name opts) (BlobRes_EpochHeight msg) size (su_sectorTipHash su)
         (su_reservedRoot su)) = Ok true.
Proof.
  unfold SyncSectors. intros Hrun. apply payload_loop_Ok in Hrun.
  destruct Hrun as ((Hd & Hl & Hp & _) & p & msg & Hin & Ha).
  destruct Ha as (?&?&?&?&Hsu&?&info&?&?&?).
  split_and!; try done. exists p, msg, info. split_and!; try done. by rewrite Hsu.
Qed.

(** The keys a recorded equivocation writes. *)
Lemma recorded_keys `{LevelDBLaws, JSON, Secp256k1} now msg header w w' :
  recorded now msg header w w' → let name := BlobRes_Name msg in
  GetEquivocationProof (w_db w') name = Ok (EquivocationProof_Encode (proof_of msg header)).1 ∧
  (0 ≤ Unix now ≤ MaxInt32 → GetHeaderBan (w_db w') name = Ok (time_Unix (Unix now))) ∧
  GetHeader (w_db w') name = GetHeader (w_db w) name.
Proof.
  intros (Hm & _) name. fold name in Hm. split_and!.
  - unfold GetEquivocationProof. by rewrite db_Get_law, Hm, lookup_insert_eq.
  - intros Hn. unfold GetHeaderBan.
    rewrite db_Has_law, db_Get_law, Hm, lookup_insert_ne, lookup_insert_eq by done.
    rewrite bool_decide_true by done. simpl. unfold MaxInt32 in Hn.
    rewrite mustDecodeInt_Encode by lia. unfold MaxInt32. by rewrite decide_False by lia.
  - unfold GetHeader. by rewrite !db_Get_law, Hm, !lookup_insert_ne by done.
Qed.

(** C32: a signed response of our epoch that does not continue our tip is kept
    as a proof, with the stored header, its header is banned from now, the
    peers are told, and the sync fails without touching header or blob. *)
Theorem equivocation_recorded `{LevelDBLaws, JSON, Secp256k1, Blake2b} now send_err opts p msg rest
    header e w t :
  let name := o_Name opts in
  let size := u16 (BlobRes_PayloadPosition msg + u16 (zlen (BlobRes_Payload msg))) in
  BlobRes_Name msg = name → BlobRes_EpochHeight msg = o_EpochHeight opts →
  BlobRes_PayloadPosition msg = o_SectorSize opts → BlobRes_PrevHash msg ≠ o_PrevHash opts →
  size ≤ MaxSectors →
  validateBlobUpdate (w_db w) name (BlobRes_EpochHeight msg) size
    (tip_from (BlobRes_PrevHash msg) (BlobRes_Payload msg)) (BlobRes_ReservedRoot msg)
    (BlobRes_Signature msg) = Ok tt →
  GetEquivocationProof (w_db w) name = Err e → GetHeader (w_db w) name = Ok header →
  ∃ w', SyncSectors now send_err opts ((p, msg) :: rest) (w, t) =
      (Err ErrPayloadEquivocation, (w', t)) ∧
    GetEquivocationProof (w_db w') name = Ok (EquivocationProof_Encode (proof_of msg header)).1 ∧
    (0 ≤ Unix now ≤ MaxInt32 → GetHeaderBan (w_db w') name = Ok (time_Unix (Unix now))) ∧
    GetHeader (w_db w') name = Ok header ∧ w_blobs w' = w_blobs w ∧
    ToAll (MUpdate (mkUpdate name (BlobRes_EpochHeight msg) 0)) ∈ w_sent w'.
Proof.
  intros name size Hn He Hpos Hprev Hsize Hv Hpf Hh. unfold SyncSectors. simpl.
  destruct (of_world_send_requests send_err opts w t) as (w1 & Hs & Hd1 & Hb1 & Hl1 & Hs1).
  rewrite (M_bind_step _ _ _ _ _ Hs).
  destruct (record_equivocation_spec now msg w1) as (r & w2 & Hr & Hrec).
  rewrite Hn, Hd1 in Hrec. fold name in Hrec. rewrite Hpf, Hh in Hrec. destruct Hrec as [-> Hrec].
  pose proof (recorded_keys _ _ _ _ _ Hrec) as (Hk1 & Hk2 & Hk3). rewrite Hn in Hk1, Hk2, Hk3.
  rewrite (M_bind_step _ _ _ (Failed ErrPayloadEquivocation) (w2, t)).
  2:{ unfold handle_payload. rewrite decide_False by tauto. rewrite decide_False by set_solver.
      rewrite decide_False by lia. rewrite decide_False by (rewrite Hpos; tauto).
      fold size. rewrite decide_False by lia. rewrite Hn. fold name.
      unfold mbind, M_bind, M_try, of_world, M_zoom, read_db. simpl. rewrite Hd1, Hv. simpl.
      rewrite decide_True by (by intros E; apply Hprev). rewrite decide_True by done.
      cbn [fst snd]. by rewrite Hr. }
  destruct (of_world_send_requests send_err opts w2 t) as (w3 & Hs3 & Hd3 & Hb3 & Hl3 & Hs3').
  rewrite (M_bind_step _ _ _ _ _ Hs3). exists w3. split; [done|].
  destruct Hrec as (_ & _ & Hb2 & Hsent). rewrite Hd3. split_and!; try done.
  - by rewrite Hk3, Hd1.
  - by rewrite Hb3, Hb2.
  - destruct Hs3' as [l ->]. rewrite Hsent, Hn. fold name. set_solver.
Qed.

(** ** A run *)

Definition demo_tip (prev : Hash) : Hash := tip_from prev [ZeroSector].

(** The signature of the key of the name "foo". *)
Definition demo_sig (epoch : Z) (prev : Hash) : Signature :=
  match SECP256k1Signer_Sign toy_key (SealHash (bs "foo") epoch 1 (demo_tip prev) ZeroHash) with
  | Ok s => s
  | _ => []
  end.

Definition demo_res (epoch : Z) (prev : Hash) : BlobRes :=
  mkBlobRes (bs "foo") epoch 0 prev ZeroHash [ZeroSector] (demo_sig epoch prev).

Definition demo_opts (epoch : Z) : SyncSectorsOpts :=
  mkOpts (NewPeerSet [demo_peer]) epoch 0 ZeroHash (bs "foo").

Definition demo_world1 : World := mkWorld demo_db (demo_fs, NewPool) NewMultiLocker [].

Lemma sync_sectors_authentic_witness :
  ∃ p msg, (p, msg) ∈ [(demo_peer, demo_res 3 ZeroHash)] ∧
    su_sectorTipHash (mkSyncUpdate (demo_tip ZeroHash) ZeroHash (demo_sig 3 ZeroHash)) =
      tip_from ZeroHash (BlobRes_Payload msg).
Proof.
  set (run := SyncSectors 0 no_err (demo_opts 3) [(demo_peer, demo_res 3 ZeroHash)]
                (demo_world1, Blob_Transaction demo_blob)).
  destruct (sync_sectors_authentic 0 no_err (demo_opts 3) [(demo_peer, demo_res 3 ZeroHash)]
    demo_world1 (Blob_Transaction demo_blob)
    (mkSyncUpdate (demo_tip ZeroHash) ZeroHash (demo_sig 3 ZeroHash)) run.2.1 run.2.2)
    as (_ & _ & _ & p & msg & info & Hin & _ & _ & _ & _ & Htip & _).
  - apply run_eta2. vm_compute. reflexivity.
  - by exists p, msg.
Defined.

Definition demo_header1 : Header :=
  mkHeader (bs "foo") 3 1 (demo_tip ZeroHash) (demo_sig 3 ZeroHash) ZeroHash ZeroTime.

(** The database with a header of the name. *)
Definition demo_db1 : DB := (WithTx_only (SetHeaderTx demo_header1 ZeroSectorHashes) demo_db).2.

Definition demo_world2 : World := mkWorld demo_db1 (demo_fs, NewPool) NewMultiLocker [].

Lemma equivocation_recorded_witness :
  ∃ w', SyncSectors 0 no_err (mkOpts (NewPeerSet [demo_peer]) 3 0 demo_peer (bs "foo"))
      [(demo_peer, demo_res 3 ZeroHash)] (demo_world2, Blob_Transaction demo_blob) =
      (Err ErrPayloadEquivocation, (w', Blob_Transaction demo_blob)) ∧
    GetHeader (w_db w') (bs "foo") = Ok demo_header1.
Proof.
  destruct (equivocation_recorded 0 no_err
    (mkOpts (NewPeerSet [demo_peer]) 3 0 demo_peer (bs "foo")) demo_peer
    (demo_res 3 ZeroHash) [] demo_header1 (EWrap ErrNotFound "error getting equivocation proof")
    demo_world2 (Blob_Transaction demo_blob)) as (w' & Hs & _ & _ & Hh & _).
  1-3: reflexivity.
  1: vm_compute; discriminate.
  1: apply Z.leb_le; vm_compute; reflexivity.
  1-3: vm_compute; reflexivity.
  exists w'. split; [exact Hs|exact Hh].
Defined.
