(* ===== verification/Updater.v ===== *)
(** * Package protocol: applying the updates of the queue

    [src/protocol/updater.go]: [UpdateBlob] checks an update against the header
    of its name, syncs the sectors into a transaction under the lock of the
    name, and stores the new header.  [responses] are the blob responses that
    reach the node before the timer of the syncer fires; the clock is read once. *)

From S2P Require Import Prelude GoLib Crypto Instances Sector Wire OsFile BlobIO BlobTx Names.
From S2P Require Import BlobStore Util StoreDB StoreInstances Store Queue Syncer.

Definition ErrUpdaterAlreadySynchronized : error := ESentinel "updater already synchronized".
Definition ErrNameLocked : error := ESentinel "name is locked".
Definition ErrNameBanned : error := ESentinel "name is banned".
Definition ErrInvalidEpochCurrent : error := ESentinel "name epoch invalid current".
Definition ErrInvalidEpochThrottled : error := ESentinel "name epoch invalid throttled".
Definition ErrInvalidEpochBackdated : error := ESentinel "name epoch invalid backdated".
Definition ErrInvalidEpochFuturedated : error := ESentinel "name epoch invalid futuredated".

Section updater.
Context `{LevelDB, JSON, Secp256k1, Blake2b}.
Context (now : Time) (send_err : Hash → option error) (blobsPath : bytes).

(** Where the sync starts from. *)
Record plan := mkPlan {
  epochUpdated : bool;
  plan_epochHeight : Z;
  plan_sectorSize : Z;
  plan_prevHash : Hash;
}.

(** The checks of an epoch above the one of the header. *)
Definition check_rollover (header : Header) (item : UpdateQueueItem) (bannedAt : Time)
    : result plan :=
  let name := item_Name item in
  if negb (IsZero bannedAt) && bool_decide (now < bannedAt + 7 * 24 * Hour) then Err ErrNameBanned
  else if negb (IsZero bannedAt) && bool_decide (item_EpochHeight item ≤ u16 (h_EpochHeight header + 1))
  then Err ErrInvalidEpochCurrent
  else if bool_decide (now < h_EpochStartAt header + 7 * 24 * Hour) &&
          bool_decide (item_EpochHeight item < u16 (CurrentEpoch now name + 1))
  then Err ErrInvalidEpochThrottled
  else if decide (u16 (CurrentEpoch now name + 1) < item_EpochHeight item)
  then Err ErrInvalidEpochFuturedated
  else Ok (mkPlan true (item_EpochHeight item) 0 ZeroHash).

(** [UpdateBlob] up to the lock; it only reads the database. *)
Definition check_update (db : DB) (item : UpdateQueueItem) : result plan :=
  header ← match GetHeader db (item_Name item) with
           | Ok header => Ok (Some header)
           | Err e => if errors_Is e ErrNotFound then Ok None
                      else Err (EWrap e "error getting header")
           | Panic w => Panic w
           end;
  match header with
  | None =>
      if decide (item_EpochHeight item < 0) then Err ErrInvalidEpochBackdated
      else
        _ ← GetHeaderBan db (item_Name item);
        Ok (mkPlan true 0 0 ZeroHash)
  | Some header =>
      if decide (h_EpochHeight header = item_EpochHeight item ∧
                 item_SectorSize item ≤ h_SectorSize header)
      then Err ErrUpdaterAlreadySynchronized
      else if decide (item_EpochHeight item < h_EpochHeight header)
      then Err ErrInvalidEpochBackdated
      else
        bannedAt ← GetHeaderBan db (item_Name item);
        if decide (h_EpochHeight header < item_EpochHeight item)
        then check_rollover header item bannedAt
        else Ok (mkPlan false (h_EpochHeight header) (h_SectorSize header) (h_SectorTipHash header))
  end.

(** [tx.Rollback()], whose error is logged. *)
Definition rollback : M WT unit := M_try (of_tx Tx_Rollback);; mret tt.

(** [if err != nil { tx.Rollback(); return errors.Wrap(err, msg) }]. *)
Definition or_rollback {A} (msg : string) (m : M WT A) : M WT A :=
  r ← M_try m;
  match r with
  | Ok a => mret a
  | Err e => rollback;; M_fail (EWrap e msg)
  | Panic w => M_panic w
  end.

(** [blob.SerialHash(blob.NewReader(tx), blob.ZeroHash, n)]. *)
Definition hash_tx (n : Z) : M WT SectorHashes :=
  of_tx (M_zoom NewReader (λ st _, st.1) (SerialHash (Reader_Read Tx_ReadAt) ZeroHash n)).

(** Gossip the update, unless its name was imported less than ten blocks ago. *)
Definition gossip_update (item : UpdateQueueItem) : M World unit :=
  r ← M_try (read_db GetLastNameImportHeight);
  match r with
  | Ok height =>
      if decide (height - item_Height item < 10) then mret tt
      else GossipAll (MUpdate (mkUpdate (item_Name item) (item_EpochHeight item)
                                 (item_SectorSize item)))
  | _ => mret tt
  end.

Definition new_header (item : UpdateQueueItem) (p : plan) (tree : SectorHashes) (su : syncUpdate)
    : Header :=
  mkHeader (item_Name item) (item_EpochHeight item) (item_SectorSize item) (Tip tree)
    (su_signature su) (su_reservedRoot su) (if epochUpdated p then now else ZeroTime).

(** What follows a sync that did not fail; the update is nil after a timeout. *)
Definition finish_update (item : UpdateQueueItem) (p : plan) (sectorMeta : option syncUpdate)
    : M WT unit :=
  tree ← or_rollback "error calculating new blob sector tip hash" (hash_tx (item_SectorSize item));
  match sectorMeta with
  | None => M_panic "nil pointer dereference"
  | Some su =>
      if decide (su_sectorTipHash su ≠ Tip tree) then
        rollback;;
        match errors_Wrap None "sector tip hash mismatch" with
        | Some e => M_fail e
        | None => mret tt
        end
      else
        or_rollback "error storing header"
          (of_world (on_db (WithTx_only (SetHeaderTx (new_header item p tree su) tree))));;
        M_try (of_tx Tx_Commit);;
        of_world (gossip_update item)
  end.

(** The transaction where the sync starts: empty for a new epoch, and after the
    sectors we have. *)
Definition prepare (item : UpdateQueueItem) (p : plan) : M WT unit :=
  (if epochUpdated p then
     if decide (u16 (CurrentEpoch now (item_Name item) + 1) < plan_epochHeight p)
     then M_fail (ENew "cannot reset epoch ahead of schedule")
     else of_tx Tx_Truncate
   else mret tt);;
  M_wrapping "error seeking transaction"
    (of_tx (Tx_Seek (plan_sectorSize p * SectorBytes) io_SeekStart));;
  mret tt.

(** [UpdateBlob] from the start of the transaction. *)
Definition sync_blob (item : UpdateQueueItem) (p : plan) (responses : list (Hash * BlobRes))
    : M WT unit :=
  prepare item p;;
  sectorMeta ← or_rollback "error during sync"
    (SyncSectors now send_err
       (mkOpts (item_PeerIDs item) (plan_epochHeight p) (plan_sectorSize p) (plan_prevHash p)
          (item_Name item)) responses);
  finish_update item p sectorMeta.

(** Start a transaction of the blob and run [m] on it. *)
Definition with_transaction {A} (bl : Blob) (m : M WT A) : M World A :=
  λ w, let '(r, (w', _)) := m (w, Blob_Transaction bl) in (r, w').

Definition UpdateBlob (item : UpdateQueueItem) (responses : list (Hash * BlobRes)) : M World unit :=
  p ← read_db (λ db, check_update db item);
  locked ← on_locks (TryLock (item_Name item));
  if negb locked then M_fail ErrNameLocked
  else
    M_defer (on_locks (Unlock (item_Name item)))
      (bl ← M_wrapping "error getting blob" (on_blobs (Store_Open blobsPath (item_Name item)));
       M_defer (M_try (on_blobs (wrappedBlob_Close bl));; mret tt)
         (with_transaction bl (sync_blob item p responses))).

(** A turn of a worker of the updater; the item is disposed of. *)
Definition runWorker_step (responses : list (Hash * BlobRes)) : M QW (option (UpdateQueueItem * result unit)) :=
  i ← on_queue Dequeue;
  match i with
  | None => mret None
  | Some item =>
      r ← on_world (M_try (UpdateBlob item responses));
      mret (Some (Dispose item, r))
  end.
End updater.
