(* ===== verification/UpdaterProofs.v ===== *)
(** * What the updater guarantees

    An update is all or nothing: [sync_blob_atomic] says that the header and the
    blob of a name change together, to signed values that agree with each other,
    or not at all. *)

From S2P Require Import Prelude GoLib Crypto Instances Dwire Sector Wire OsFile BlobIO BlobTx.
From S2P Require Import BlobSpec BlobSys BlobHash Names BlobStore Util StoreDB StoreInstances Store.
From S2P Require Import Queue UpdateQueueProofs Syncer SyncerProofs Updater.

#[local] Opaque Size.

(** ** The blob of an update *)

Section view.
Context `{LevelDB, Secp256k1} (b : Blob) (i : nat) (P : bytes).

(** The blob holds [c] under its name; the transaction may be closed. *)
Definition blob_holds (c : bytes) (s : WT) : Prop :=
  ∃ ab a, Rblob b i P (w_blobs s.1).1 ab ∧ Rtx b i (w_blobs s.1).1 s.2 a ∧ ab = mkAB c true.

(** It is open and shows [v], which has the size of a blob. *)
Definition shows (c v : bytes) (s : WT) : Prop :=
  tx_view b i P c v ((w_blobs s.1).1, s.2) ∧ Size ≤ zlen v.

Definition in_progress (c : bytes) (s : WT) : Prop := ∃ v, shows c v s.

Lemma in_progress_holds c s : in_progress c s → blob_holds c s.
Proof. intros (v & (ab & a & ? & ? & ? & _) & _). by exists ab, a. Qed.

Lemma blob_holds_opened c s : blob_holds c s → blob_opened b i P c (w_blobs s.1).1.
Proof. by intros (ab & a & [Hf Hi Hn [? ?]] & _ & ->). Qed.

Lemma blob_holds_content c s : blob_holds c s → content (w_blobs s.1).1 i = c.
Proof. intros (ab & a & HR & _ & ->). apply content_Some, (rb_content _ _ _ _ _ HR). Qed.

Lemma shows_opened c w :
  blob_opened b i P c (w_blobs w).1 → Size ≤ zlen c → shows c c (w, Blob_Transaction b).
Proof.
  intros (Hf & Hi & Hn & ? & ?) Hs. split; [|done]. exists (mkAB c true), a_new. by split.
Qed.

(** A call on the transaction follows the specification. *)
Lemma of_tx_sim {A} (m : M TS A) am c v s :
  simulates b i P m am → shows c v s →
  ∃ ab a, ab = mkAB c true ∧ a_closed a = false ∧ a_removed a = false ∧ default c (a_work a) = v ∧
    (a_initialized a = true → a_work a ≠ None) ∧
    let '(r, (ab', a')) := am (ab, a) in
    (of_tx m s).1 = r ∧ Rblob b i P (w_blobs (of_tx m s).2.1).1 ab' ∧
    Rtx b i (w_blobs (of_tx m s).2.1).1 (of_tx m s).2.2 a'.
Proof.
  intros Hsim ((ab & a & HR & HT & Hc & Hcl & Hrm & Hv) & _). destruct s as [w t]. simpl in *.
  destruct (Hsim _ _ _ _ HR HT) as (r & fs' & t' & ab' & a' & Hm & Ham & HR' & HT' & _).
  exists ab, a. split_and!; try done.
  - intros Hin Hno. pose proof (rt_work _ _ _ _ _ HT) as Hw. unfold Rwork in Hw.
    rewrite Hno, Hin, Hcl, Hrm in Hw. by destruct Hw.
  - rewrite Ham. unfold of_tx, M_zoom. simpl. by rewrite Hm.
Qed.

Lemma preserves_Seek c off whence : preserves (in_progress c) (of_tx (Tx_Seek off whence)).
Proof.
  intros s (v & Hs). pose proof (proj2 Hs) as Hlen.
  destruct (of_tx_sim _ _ _ _ _ (simulates_Seek b i P off whence) Hs)
    as (ab & a & Hc & Hcl & Hr & Hv & _ & Hm).
  destruct (A_Seek off whence (ab, a)) as [r [ab' a']] eqn:E. destruct Hm as (_ & HR & HT).
  exists v. split; [|done]. exists ab', a'. unfold A_Seek in E.
  repeat case_decide; by simplify_eq.
Qed.

Lemma preserves_Truncate c : preserves (in_progress c) (of_tx Tx_Truncate).
Proof.
  intros s (v & Hs). pose proof (proj2 Hs) as Hlen.
  destruct (of_tx_sim _ _ _ _ _ (simulates_Truncate b i P) Hs)
    as (ab & a & Hc & Hcl & Hr & Hv & Hin & Hm).
  destruct (A_Truncate (ab, a)) as [r [ab' a']] eqn:E. destruct Hm as (_ & HR & HT).
  unfold A_Truncate in E. rewrite Hr in E. destruct (a_initialized a && _) eqn:Hi.
  - apply andb_true_iff in Hi as [Hi1 Hi2%bool_decide_eq_true]. by destruct (Hin Hi1).
  - simplify_eq. exists (replicate (Z.to_nat Size) x00). split.
    + by exists (mkAB c true), (a_set_work (replicate (Z.to_nat Size) x00) a).
    + unfold zlen. rewrite length_replicate, Size_eq. lia.
Qed.

Lemma preserves_WriteSector c sec : preserves (in_progress c) (of_tx (Tx_WriteSector sec)).
Proof.
  intros s (v & Hs). pose proof (proj2 Hs) as Hlen.
  destruct (of_tx_sim _ _ _ _ _ (simulates_WriteSector b i P sec) Hs)
    as (ab & a & -> & Hcl & Hr & Hv & _ & Hm).
  unfold A_WriteSector in Hm. rewrite (M_bind_step a_get _ (mkAB c true, a) a (mkAB c true, a) eq_refl) in Hm.
  unfold mbind, M_bind at 1 in Hm. unfold a_with in Hm. cbn [ab_content ab_linked] in Hm. rewrite Hcl, Hr, Hv in Hm.
  unfold M_wrapping, WriteSector, mem_WriteAt, mbind, M_bind in Hm. simpl in Hm.
  case_decide; [|case_decide]; simpl in Hm; destruct Hm as (_ & HR & HT);
    eexists; (split; [eexists (mkAB c true), _; split_and!; [exact HR|exact HT|done..]|]); simpl; rewrite ?Hv; try done.
  unfold zlen in *. rewrite length_write_at. lia.
Qed.

Lemma rollback_holds c s : in_progress c s → blob_holds c (rollback s).2.
Proof.
  intros (v & Hs).
  destruct (of_tx_sim _ _ _ _ _ (simulates_Rollback b i P) Hs)
    as (ab & a & Hc & Hcl & Hr & Hv & _ & Hm).
  unfold A_Rollback in Hm. rewrite Hcl in Hm. destruct Hm as (Hok & HR & HT).
  unfold rollback, mbind, M_bind, M_try.
  destruct (of_tx Tx_Rollback s) as [r s'] eqn:E. simpl in *. subst r.
  by exists ab, (a_close (a_drop a)).
Qed.

Lemma Commit_holds c v s :
  shows c v s → ∃ s', of_tx Tx_Commit s = (Ok tt, s') ∧ blob_holds (v ++ drop (length v) c) s'.
Proof.
  intros Hs. destruct (of_tx_sim _ _ _ _ _ (simulates_Commit b i P) Hs)
    as (ab & a & Hc & Hcl & Hr & Hv & Hin & Hm).
  unfold A_Commit in Hm. rewrite Hcl, Hr in Hm. destruct (of_tx Tx_Commit s) as [r s'].
  destruct (a_work a) as [v'|] eqn:Hw; simpl in *; subst v.
  - destruct Hm as (-> & HR & HT). exists s'. split; [done|]. rewrite Hc in HR.
    eexists _, _. split_and!; [exact HR|exact HT|done].
  - destruct Hm as (-> & HR & HT). exists s'. split; [done|]. rewrite drop_all, app_nil_r.
    eexists _, _. split_and!; [exact HR|exact HT|done].
Qed.
End view.

Section atomic.
Context `{HL : LevelDBLaws, JSON, Secp256k1, Blake2b} (b : Blob) (i : nat) (P : bytes).

Lemma preserves_of_world {A} c (m : M World A) :
  (∀ w, w_blobs (m w).2 = w_blobs w) → preserves (in_progress b i P c) (of_world m).
Proof.
  intros Hm [w t] (v & Hs). exists v. unfold of_world, M_zoom. simpl. specialize (Hm w).
  destruct (m w) as [r w']. simpl in *. unfold shows in *. simpl in *. by rewrite Hm.
Qed.

Lemma preserves_send_requests c send_err opts :
  preserves (in_progress b i P c) (of_world (send_requests send_err opts 0 (ps_ids (o_Peers opts)))).
Proof.
  apply preserves_of_world. intros w.
  destruct (send_requests_spec send_err opts 0 (ps_ids (o_Peers opts)) w) as (w' & -> & _ & Hb & _).
  done.
Qed.

Lemma preserves_write_payload c payload : preserves (in_progress b i P c) (write_payload payload).
Proof.
  induction payload as [|s payload IH]; simpl; auto with fnd.
  apply preserves_bind; [|done]. apply preserves_try, preserves_WriteSector.
Qed.

Lemma preserves_handle_payload c now opts received msg :
  preserves (in_progress b i P c) (handle_payload now opts received msg).
Proof.
  unfold handle_payload. repeat (case_decide; [apply preserves_ret|]).
  apply preserves_bind; [by apply preserves_try, preserves_of_world|]. intros r.
  destruct (negb _); [apply preserves_ret|]. case_decide.
  - case_decide; [|apply preserves_ret]. apply preserves_of_world. intros w.
    destruct (record_equivocation_spec now msg w) as (r' & w' & -> & Hr).
    repeat case_match; destruct Hr as [_ Hr]; subst; try done. by destruct Hr as (_ & _ & ? & _).
  - apply preserves_bind; [apply preserves_write_payload|]. intros _. apply preserves_ret.
Qed.

Lemma preserves_payload_loop c now send_err opts received responses :
  preserves (in_progress b i P c) (payload_loop now send_err opts received responses).
Proof.
  induction responses as [|[p msg] responses IH]; simpl;
    (apply preserves_bind; [apply preserves_send_requests|intros _]); [apply preserves_ret|].
  apply preserves_bind; [apply preserves_handle_payload|]. intros [|e|su]; [done|..];
    (apply preserves_bind; [apply preserves_send_requests|intros _]).
  - by intros s Hs.
  - apply preserves_ret.
Qed.

(** The hash of an update in progress is the chain of what it shows. *)
Lemma hash_tx_shows c v n w t :
  shows b i P c v (w, t) → 0 ≤ n ≤ MaxSectors →
  ∃ w' t', hash_tx n (w, t) =
      (Ok (go_copy ZeroSectorHashes (chain ZeroHash (sectors_of (Z.to_nat n) v))), (w', t')) ∧
    shows b i P c v (w', t') ∧ w_db w' = w_db w.
Proof.
  intros [Hs Hlen] Hn. rewrite Size_eq in Hlen.
  destruct (tx_SerialHash b i P c v _ ZeroHash n Hs Hn) as ([fs' t'] & Hh & Hs').
  { unfold SectorBytes, MaxSectors in *. lia. }
  exists (set_fs fs' w), t'. unfold hash_tx, of_tx, M_zoom. cbn [fst snd] in *. rewrite Hh.
  split; [done|]. split; [|done]. split; [done|]. by rewrite Size_eq.
Qed.

Lemma mustDecodeInt_no_Err v e : mustDecodeInt v ≠ Err e.
Proof.
  unfold mustDecodeInt, Uint64, mbind, result_bind. repeat (case_match; simplify_eq/=); done.
Qed.

Lemma IncrementHeaderCount_no_Err tx e tx' : IncrementHeaderCount tx ≠ (Err e, tx').
Proof.
  unfold IncrementHeaderCount, mbind, M_bind, M_get, M_lift, M_wrapping. rewrite tx_Get_law.
  assert (∀ v, (let '(r, s') := tx_Put headerCountKey v tx in
    (wrapping "error putting header count" r, s')) ≠ (Err e, tx')) as Hput.
  { intros v. by destruct (tx_Put_law tx headerCountKey v) as (tx1 & -> & _). }
  destruct (tx_map tx !! headerCountKey) as [v|]; simpl; [|apply Hput].
  pose proof (mustDecodeInt_no_Err v) as Hd.
  destruct (mustDecodeInt v) as [n|e'|s]; [apply Hput|by destruct (Hd e')|done].
Qed.

Lemma enc_list_write (l : list bytes) : (enc_list enc_write l).2 = None.
Proof.
  induction l as [|x l IH]; [done|]. unfold enc_list in *. simpl. unfold enc_seq. simpl.
  destruct (foldr _ _ l) as [out e]. done.
Qed.

Lemma SetHeaderTx_no_Err h hs tx e tx' : SetHeaderTx h hs tx ≠ (Err e, tx').
Proof.
  unfold SetHeaderTx. destruct (SectorHashes_Encode hs) as [buf [e'|]] eqn:Henc.
  { pose proof (enc_list_write hs) as Hn. unfold SectorHashes_Encode in Henc. by rewrite Henc in Hn. }
  rewrite (M_bind_step M_get _ tx tx tx eq_refl), tx_Has_law.
  set (ex := bool_decide _). rewrite (M_bind_step (M_lift _) _ tx ex tx eq_refl).
  destruct (tx_Put_law tx (headerSectorHashesPrefix [h_Name h]) buf) as (tx1 & Hp1 & _).
  rewrite (M_bind_step _ _ _ tt tx1) by (unfold M_wrapping; by rewrite Hp1).
  unfold mbind at 1, M_bind at 1, M_lift, must.
  destruct (Header_MarshalJSON h) as [data| |]; try done.
  destruct (tx_Put_law tx1 (headerDataPrefix [h_Name h]) data) as (tx2 & Hp2 & _).
  rewrite (M_bind_step _ _ _ tt tx2) by (unfold M_wrapping; by rewrite Hp2).
  destruct ex; simpl; [done|]. unfold M_wrapping.
  pose proof (IncrementHeaderCount_no_Err tx2) as Hi.
  destruct (IncrementHeaderCount tx2) as [[| |] tx3]; try done. by destruct (Hi e0 tx3).
Qed.

(** A transaction that does not end with a value leaves the database. *)
Lemma WithTx_only_SetHeader h hs db r db' :
  WithTx_only (SetHeaderTx h hs) db = (r, db') → r = Ok tt ∨ (∃ s, r = Panic s) ∧ db' = db.
Proof.
  unfold WithTx_only, WithTx. destruct (db_OpenTransaction_law db) as (tx & -> & _).
  unfold on_tx, M_zoom. simpl. pose proof (SetHeaderTx_no_Err h hs tx) as Hn.
  destruct (SetHeaderTx h hs tx) as [[[]|e|s] tx']; intros [= <- <-]; [by left| |right; eauto].
  by destruct (Hn e tx').
Qed.
Lemma rollback_db s : w_db (rollback s).2.1 = w_db s.1.
Proof.
  destruct s as [w t]. unfold rollback, mbind, M_bind, M_try.
  pose proof (of_tx_keeps Tx_Rollback w t) as (Hd & _).
  by destruct (of_tx Tx_Rollback (w, t)) as [[| |] [w' t']].
Qed.

Lemma gossip_update_keeps item w :
  w_db (gossip_update item w).2 = w_db w ∧ w_blobs (gossip_update item w).2 = w_blobs w.
Proof.
  unfold gossip_update, mbind, M_bind, M_try, read_db.
  destruct (GetLastNameImportHeight (w_db w)); simpl; [|done..]. by case_decide.
Qed.

(** What an update that is stored looks like: [v] is what the transaction shows. *)
Definition stored (now : Time) (item : UpdateQueueItem) (p : plan) (su : syncUpdate) (v : bytes)
    (db db' : DB) : Prop :=
  let tree := go_copy ZeroSectorHashes
                (chain ZeroHash (sectors_of (Z.to_nat (item_SectorSize item)) v)) in
  su_sectorTipHash su = Tip tree ∧
  WithTx_only (SetHeaderTx (new_header now item p tree su) tree) db = (Ok tt, db').

Lemma finish_update_atomic now item p sm c w t r s' :
  in_progress b i P c (w, t) → 0 ≤ item_SectorSize item ≤ MaxSectors →
  finish_update now item p sm (w, t) = (r, s') →
  (blob_holds b i P c s' ∧ w_db s'.1 = w_db w) ∨
  ∃ v su, sm = Some su ∧ Size ≤ zlen v ∧ blob_holds b i P (v ++ drop (length v) c) s' ∧
    stored now item p su v (w_db w) (w_db s'.1).
Proof.
  intros (v & Hs) Hn. unfold finish_update.
  destruct (hash_tx_shows c v _ w t Hs Hn) as (w1 & t1 & Hh & Hs1 & Hd1).
  rewrite (M_bind_step _ _ _ (go_copy ZeroSectorHashes (chain ZeroHash
    (sectors_of (Z.to_nat (item_SectorSize item)) v))) (w1, t1))
    by (unfold or_rollback, mbind, M_bind, M_try; by rewrite Hh).
  set (tree := go_copy _ _). assert (in_progress b i P c (w1, t1)) as Hp1 by (by exists v).
  destruct sm as [su|].
  2:{ intros [= <- <-]. left. split; [by apply in_progress_holds|done]. }
  case_decide as Htip.
  { pose proof (rollback_holds b i P c _ Hp1) as Hr. pose proof (rollback_db (w1, t1)) as Hdb.
    unfold mbind, M_bind. destruct (rollback (w1, t1)) as [[[]| |] [w2 t2]];
      intros [= <- <-]; left; (split; [done|]); simpl in *; congruence. }
  unfold or_rollback, mbind at 1, M_bind at 1. unfold mbind at 1, M_bind at 1.
  unfold M_try at 1. unfold of_world at 1, M_zoom at 1, on_db, M_zoom at 1. cbn [fst snd].
  destruct (WithTx_only (SetHeaderTx _ tree) (w_db w1)) as [r2 db2] eqn:Hset.
  assert (shows b i P c v (mkWorld db2 (w_blobs w1) (w_locks w1) (w_sent w1), t1)) as Hs2 by done.
  destruct (WithTx_only_SetHeader _ _ _ _ _ Hset) as [->|[[s ->] ->]].
  2:{ intros [= <- <-]. left. split; [apply in_progress_holds; by exists v|done]. }
  cbn [mret M_ret]. destruct (Commit_holds b i P c v _ Hs2) as ([w3 t3] & Hc & Hh3).
  pose proof (of_tx_keeps Tx_Commit (mkWorld db2 (w_blobs w1) (w_locks w1) (w_sent w1)) t1)
    as (Hd3 & _). rewrite Hc in Hd3. simpl in Hd3.
  unfold mbind, M_bind, M_try. unfold mret, M_ret. rewrite Hc.
  unfold of_world, M_zoom. cbn [fst snd].
  destruct (gossip_update_keeps item w3) as [Hd4 Hb4].
  destruct (gossip_update item w3) as [r4 w4]. simpl in *.
  intros [= <- <-]. right. exists v, su. split_and!; [done|apply Hs| |].
  - destruct Hh3 as (ab & a & HR & HT & Hab). exists ab, a. simpl in *. by rewrite Hb4.
  - split; [exact Htip|]. cbn [fst snd]. fold tree. rewrite Hd4, Hd3, <- Hd1. exact Hset.
Qed.
Lemma sectors_of_app n v x :
  (n * 256 ≤ length v)%nat → sectors_of n (v ++ x) = sectors_of n v.
Proof.
  revert v. induction n as [|n IH]; intros v Hn; simpl; [done|].
  rewrite take_app_le, drop_app_le by lia. f_equal. apply IH. rewrite length_drop. lia.
Qed.

Lemma preserves_prepare c now item p : preserves (in_progress b i P c) (prepare now item p).
Proof.
  unfold prepare. apply preserves_bind.
  - destruct (epochUpdated p); [|apply preserves_ret].
    case_decide; [by intros s Hs|apply preserves_Truncate].
  - intros _. apply preserves_bind; [apply preserves_wrapping, preserves_Seek|].
    intros _. apply preserves_ret.
Qed.

(** A call on the transaction keeps what does not mention the files. *)
Lemma preserves_of_tx {A} (I : WT → Prop) (m : M TS A) :
  (∀ fs w t t', I (w, t) → I (set_fs fs w, t')) → preserves I (of_tx m).
Proof.
  intros HI [w t] Hw. unfold of_tx, M_zoom. simpl. destruct (m _) as [r [fs t']]. by eapply HI.
Qed.

Lemma preserves_prepare_world (I : WT → Prop) now item p :
  (∀ fs w t t', I (w, t) → I (set_fs fs w, t')) → preserves I (prepare now item p).
Proof.
  intros HI. unfold prepare. apply preserves_bind.
  - destruct (epochUpdated p); [|apply preserves_ret].
    case_decide; [by intros s Hs|by apply preserves_of_tx].
  - intros _. apply preserves_bind; [by apply preserves_wrapping, preserves_of_tx|].
    intros _. apply preserves_ret.
Qed.

(** The sync of an update that fails has changed no header and no blob. *)
Lemma failed_sync now send_err opts responses c w t r s' :
  in_progress b i P c (w, t) →
  or_rollback "error during sync" (SyncSectors now send_err opts responses) (w, t) = (r, s') →
  match r with
  | Ok sm => in_progress b i P c s' ∧ w_db s'.1 = w_db w ∧
      match sm with
      | Some su => ∃ p msg, (p, msg) ∈ responses ∧ authentic opts (w_db w) msg su
      | None => True
      end
  | _ => blob_holds b i P c s' ∧ db_frame (o_Name opts) (w_db w) (w_db s'.1)
  end.
Proof.
  intros Hp. unfold or_rollback, SyncSectors, mbind, M_bind, M_try.
  pose proof (preserves_payload_loop c now send_err opts ∅ responses _ Hp) as Hp1.
  pose proof (payload_loop_frame now send_err opts ∅ responses w t) as (Hf & _).
  destruct (payload_loop now send_err opts ∅ responses (w, t)) as [[sm|e|x] [w1 t1]] eqn:Hl;
    simpl in *.
  - intros [= <- <-]. apply payload_loop_Ok in Hl as ((Hd & _) & Hr). done.
  - pose proof (rollback_holds b i P c _ Hp1) as Hh. pose proof (rollback_db (w1, t1)) as Hd.
    destruct (rollback (w1, t1)) as [[[]| |] s2]; intros [= <- <-]; simpl in *; by rewrite Hd.
  - intros [= <- <-]. split; [by apply in_progress_holds|done].
Qed.
End atomic.


Definition zero_blob : bytes := replicate (Z.to_nat Size) x00.

Definition demo_item (epoch size : Z) : UpdateQueueItem :=
  mkItem (NewPeerSet [demo_peer]) (bs "foo") epoch size (PubKey toy_key) 9 0.

Definition demo_world3 : World :=
  mkWorld demo_db (fs_set_inode 0 zero_blob demo_fs, NewPool) NewMultiLocker [].


(** ** Locks *)

Section locks.
Context `{HL : LevelDBLaws, JSON, Secp256k1, Blake2b} (now : Time) (send_err : Hash → option error)
  (blobsPath : bytes).

(** The locks and the pool of open blobs are these. *)
Definition locks_are (l : gmap bytes refCounter) (pool : gmap bytes poolEntry) (s : WT) : Prop :=
  w_locks s.1 = l ∧ (w_blobs s.1).2 = pool.

Lemma preserves_rollback_locks l pool : preserves (locks_are l pool) rollback.
Proof.
  apply preserves_bind; [by apply preserves_try, preserves_of_tx|]. intros _. apply preserves_ret.
Qed.

Lemma preserves_or_rollback_locks {A} l pool msg (m : M WT A) :
  preserves (locks_are l pool) m → preserves (locks_are l pool) (or_rollback msg m).
Proof.
  intros Hm. apply preserves_bind; [by apply preserves_try|]. intros [a|e|x].
  - apply preserves_ret.
  - apply preserves_bind; [apply preserves_rollback_locks|]. intros _. apply preserves_lift.
  - apply preserves_lift.
Qed.

Lemma sync_blob_locks l pool item p responses :
  preserves (locks_are l pool) (sync_blob now send_err item p responses).
Proof.
  apply preserves_bind; [by apply preserves_prepare_world|]. intros _.
  apply preserves_bind.
  { apply preserves_or_rollback_locks. intros [w t] Hl.
    destruct (payload_loop_frame now send_err (mkOpts (item_PeerIDs item) (plan_epochHeight p)
      (plan_sectorSize p) (plan_prevHash p) (item_Name item)) ∅ responses w t) as (_ & Hf & Hg).
    unfold locks_are, SyncSectors in *. by rewrite Hf, Hg. }
  intros sm. apply preserves_bind; [apply preserves_or_rollback_locks; by apply preserves_of_tx|].
  intros tree. destruct sm as [su|]; [|by intros s Hs].
  case_decide; [apply preserves_bind; [apply preserves_rollback_locks|intros _; apply preserves_ret]|].
  apply preserves_bind; [apply preserves_or_rollback_locks|intros _; apply preserves_bind].
  - intros [w t] Hs. unfold of_world, M_zoom, on_db, M_zoom. simpl. by destruct (WithTx_only _ _).
  - by apply preserves_try, preserves_of_tx.
  - intros _ [w t] Hs. unfold of_world, M_zoom. simpl. unfold gossip_update, mbind, M_bind, M_try, read_db.
    destruct (GetLastNameImportHeight (w_db w)); simpl; [|done..]. by case_decide.
Qed.
Lemma preserves_on_blobs {A} l (m : M PS A) :
  preserves (λ w, w_locks w = l) (on_blobs m).
Proof. intros w Hw. unfold on_blobs, M_zoom. by destruct (m (w_blobs w)). Qed.

(** What runs under the lock. *)
Definition locked_update (item : UpdateQueueItem) (p : plan) (responses : list (Hash * BlobRes))
    : M World unit :=
  bl ← M_wrapping "error getting blob" (on_blobs (Store_Open blobsPath (item_Name item)));
  M_defer (M_try (on_blobs (wrappedBlob_Close bl));; mret tt)
    (with_transaction bl (sync_blob now send_err item p responses)).

Lemma locked_update_locks l item p responses :
  preserves (λ w, w_locks w = l) (locked_update item p responses).
Proof.
  apply preserves_bind; [apply preserves_wrapping, preserves_on_blobs|]. intros bl.
  apply preserves_defer.
  - apply preserves_bind; [apply preserves_try, preserves_on_blobs|]. intros _. apply preserves_ret.
  - intros w Hw. unfold with_transaction.
    pose proof (sync_blob_locks l (w_blobs w).2 item p responses (w, Blob_Transaction bl) (conj Hw eq_refl)) as [Hl _].
    by destruct (sync_blob _ _ _ _ _ _) as [r [w' t']].
Qed.

Lemma UpdateBlob_eq item responses w :
  UpdateBlob now send_err blobsPath item responses w =
  match check_update now (w_db w) item with
  | Ok p =>
      let '(r, l) := TryLock (item_Name item) (w_locks w) in
      let w1 := mkWorld (w_db w) (w_blobs w) l (w_sent w) in
      match r with
      | Ok true => M_defer (on_locks (Unlock (item_Name item))) (locked_update item p responses) w1
      | Ok false => (Err ErrNameLocked, w1)
      | Err e => (Err e, w1)
      | Panic s => (Panic s, w1)
      end
  | Err e => (Err e, w)
  | Panic s => (Panic s, w)
  end.
Proof.
  unfold UpdateBlob, read_db, on_locks, mbind, M_bind, M_zoom. simpl.
  destruct (check_update now (w_db w) item); try done. simpl.
  by destruct (TryLock (item_Name item) (w_locks w)) as [[[]| |] l].
Qed.
End locks.

(** C30: an update leaves the locks as it found them, however it ends, a panic
    included; while its name is locked it fails, and changes neither the
    database nor the blobs. *)
Theorem update_blob_locks `{LevelDBLaws, JSON, Secp256k1, Blake2b} now send_err blobsPath item
    responses w h r w' :
  lock_inv (w_locks w, h) → UpdateBlob now send_err blobsPath item responses w = (r, w') →
  lock_inv (w_locks w', h) ∧
  (held_r h (item_Name item) ≠ 0 ∨ held_w h (item_Name item) ≠ 0 →
   r ≠ Ok tt ∧ w_db w' = w_db w ∧ w_blobs w' = w_blobs w).
Proof.
  intros Hinv. rewrite UpdateBlob_eq.
  destruct (check_update now (w_db w) item) as [p|e|s]; [|by intros [= <- <-]..].
  destruct (TryLock_spec (w_locks w) h (item_Name item) Hinv) as (l & -> & Hl).
  case_bool_decide as Hfree.
  - unfold M_defer. set (w1 := mkWorld _ _ l _).
    pose proof (locked_update_locks now send_err blobsPath l item p responses w1 eq_refl) as Hk.
    destruct (locked_update _ _ _ _ _ _ w1) as [r2 w2]. simpl in Hk.
    destruct (Unlock_spec l _ (item_Name item) Hl) as (l' & Hu & Hl').
    { simpl. unfold upd. rewrite decide_True by done. lia. }
    unfold on_locks, M_zoom. rewrite Hk, Hu. intros [= <- <-]. split; [|lia].
    destruct h as [hr hw]. eapply upd_ext; [..|exact Hl']; [done|].
    intros k. simpl. unfold upd. case_decide; lia.
  - intros [= <- <-]. split; [|done].
    destruct h as [hr hw]. eapply upd_ext; [..|exact Hl]; [done|].
    intros k. simpl. unfold upd. case_decide; lia.
Qed.

Lemma update_blob_locks_witness :
  let run := UpdateBlob 0 no_err (bs "blobs") (demo_item 3 1) [] demo_world3 in
  lock_inv (w_locks run.2, mkHeld (λ _ : bytes, 0) (λ _, 0)).
Proof.
  intros run. refine (proj1 (update_blob_locks 0 no_err (bs "blobs") (demo_item 3 1) [] demo_world3
    (mkHeld (λ _ : bytes, 0) (λ _, 0)) run.1 run.2 _ _)).
  - intros k. simpl. unfold NewMultiLocker. rewrite lookup_empty. lia.
  - by apply run_eta.
Defined.
