(* ===== verification/UpdaterComplete.v ===== *)
(** * An honest response completes an update

    [sync_blob] on a response that continues the blob: the sectors are written
    and committed, and the header is stored.  And what it does when no response
    comes. *)

From S2P Require Import Prelude GoLib Crypto Instances Dwire Sector Wire OsFile BlobIO BlobTx.
From S2P Require Import BlobSpec BlobSys BlobHash Names BlobStore Util StoreDB StoreInstances Store.
From S2P Require Import Queue UpdateQueueProofs Syncer SyncerProofs Updater UpdaterProofs.

#[local] Opaque Size.

Section steps.
Context `{HL : LevelDBLaws, JSON, Secp256k1, Blake2b} (b : Blob) (i : nat) (P : bytes).

(** The blob holds [c], the transaction shows [v] and writes at sector [k] next. *)
Definition shows_at (c v : bytes) (k : Z) (s : WT) : Prop :=
  ∃ ab a, Rblob b i P (w_blobs s.1).1 ab ∧ Rtx b i (w_blobs s.1).1 s.2 a ∧ ab = mkAB c true ∧
    a_open (a_work a) k a ∧ default c (a_work a) = v.

Lemma shows_at_shows c v k s : shows_at c v k s → Size ≤ zlen v → shows b i P c v s.
Proof.
  intros (ab & a & ? & ? & ? & (_ & _ & ? & ?) & ?) Hv. split; [|done]. by exists ab, a.
Qed.

(** A call on the transaction, with what the specification gives. *)
Lemma of_tx_step {A} (m : M TS A) am w t ab a r ab' a' :
  simulates b i P m am → Rblob b i P (w_blobs w).1 ab → Rtx b i (w_blobs w).1 t a →
  am (ab, a) = (r, (ab', a')) →
  ∃ fs' t', of_tx m (w, t) = (r, (set_fs fs' w, t')) ∧ Rblob b i P fs' ab' ∧ Rtx b i fs' t' a'.
Proof.
  intros Hsim HR HT Ham. destruct (Hsim _ _ _ _ HR HT) as (r' & fs' & t' & ab1 & a1 & Hm & Ha & HR' & HT' & _).
  rewrite Ham in Ha. simplify_eq. exists fs', t'. unfold of_tx, M_zoom. simpl. by rewrite Hm.
Qed.

Lemma A_Seek_Ok ab a k :
  a_sectorSize a = 0 → 0 ≤ k ≤ MaxSectors →
  A_Seek (k * SectorBytes) io_SeekStart (ab, a) = (Ok (k * SectorBytes), (ab, a_set_size k a)).
Proof.
  intros Ha Hk. unfold A_Seek. rewrite Z.rem_mul by done. rewrite decide_False by auto.
  rewrite Ha, decide_False by (unfold SectorBytes; lia). rewrite decide_True by done.
  rewrite decide_False by (rewrite Size_eq; unfold SectorBytes, MaxSectors in *; lia).
  rewrite Z.quot_mul by done. unfold u16. by rewrite Z.mod_small by (unfold MaxSectors in *; lia).
Qed.

(** What the sync of a plan starts from. *)
Definition base (p : plan) (c : bytes) : bytes := if epochUpdated p then zero_blob else c.

Lemma opened_new c fs :
  blob_opened b i P c fs → Rblob b i P fs (mkAB c true) ∧ Rtx b i fs (Blob_Transaction b) a_new.
Proof. intros (Hf & Hi & Hn & ? & ?). by split. Qed.

(** The transaction where an edit starts: empty if the blob is begun anew, and after
    the [k] sectors there are. *)
Lemma start_tx_Ok (anew : bool) k c w :
  blob_opened b i P c (w_blobs w).1 → 0 ≤ k ≤ MaxSectors →
  ∃ fs1 t1 fs2 t2,
    (if anew then of_tx Tx_Truncate else mret tt) (w, Blob_Transaction b) = (Ok tt, (set_fs fs1 w, t1)) ∧
    of_tx (Tx_Seek (k * SectorBytes) io_SeekStart) (set_fs fs1 w, t1) =
      (Ok (k * SectorBytes), (set_fs fs2 w, t2)) ∧
    shows_at c (if anew then zero_blob else c) k (set_fs fs2 w, t2).
Proof.
  intros [HR HT]%opened_new Hk.
  set (a0 := if anew then a_set_work zero_blob a_new else a_new).
  assert (∃ fs1 t1, (if anew then of_tx Tx_Truncate else mret tt) (w, Blob_Transaction b) =
      (Ok tt, (set_fs fs1 w, t1)) ∧
     Rblob b i P fs1 (mkAB c true) ∧ Rtx b i fs1 t1 a0) as (fs1 & t1 & Hst & HR1 & HT1).
  { unfold a0. destruct anew.
    - by apply (of_tx_step _ _ _ _ _ _ _ _ _ (simulates_Truncate b i P) HR HT).
    - exists (w_blobs w).1, (Blob_Transaction b). split; [|done].
      destruct w as [db [fs pool] locks out]. done. }
  destruct (of_tx_step _ _ (set_fs fs1 w) t1 _ _ _ _ _
    (simulates_Seek b i P (k * SectorBytes) io_SeekStart) HR1 HT1
    (A_Seek_Ok (mkAB c true) a0 k ltac:(unfold a0; by destruct anew) Hk))
    as (fs2 & t2 & Hsk & HR2 & HT2).
  exists fs1, t1, fs2, t2. split_and!; [done|done|].
  eexists _, _. split_and!; [exact HR2|exact HT2|done|..]; unfold a0; by destruct anew.
Qed.

Lemma prepare_Ok now item p c w :
  blob_opened b i P c (w_blobs w).1 → 0 ≤ plan_sectorSize p ≤ MaxSectors →
  (epochUpdated p = true → plan_epochHeight p ≤ u16 (CurrentEpoch now (item_Name item) + 1)) →
  ∃ fs' t', prepare now item p (w, Blob_Transaction b) = (Ok tt, (set_fs fs' w, t')) ∧
    shows_at c (base p c) (plan_sectorSize p) (set_fs fs' w, t').
Proof.
  intros Ho Hk Hep. unfold prepare, base.
  destruct (start_tx_Ok (epochUpdated p) (plan_sectorSize p) c w Ho Hk) as (fs1 & t1 & fs2 & t2 & Hst & Hsk & Hs).
  exists fs2, t2. split; [|done]. rewrite (M_bind_step _ _ _ tt (set_fs fs1 w, t1)).
  - unfold mbind, M_bind, M_wrapping. by rewrite Hsk.
  - destruct (epochUpdated p); [|done]. specialize (Hep eq_refl). by rewrite decide_False by lia.
Qed.

Lemma write_sector_Ok c s v k w t :
  shows_at c v k (w, t) → 0 ≤ k → k + 1 ≤ MaxSectors → Sector_wf s →
  ∃ fs' t', of_tx (Tx_WriteSector s) (w, t) = (Ok tt, (set_fs fs' w, t')) ∧
    shows_at c (write_at v (Z.to_nat (k * SectorBytes)) s) (k + 1) (set_fs fs' w, t').
Proof.
  intros (ab & a & HR & HT & Hab & Ha & Hd) Hk Hm Hs. simpl in HR, HT.
  destruct (A_WriteSector_Ok ab a s k _ Ha) as (a1 & E1 & Ha1); [done|lia|done|].
  rewrite Hab in Ha1. cbn [ab_content] in Ha1. rewrite Hd in Ha1.
  assert (A_WriteSector s (ab, a) = (Ok tt, (ab, a1))) as E2.
  { unfold A_exec, M_map, mbind, M_bind in E1.
    revert E1. by destruct (A_WriteSector s (ab, a)) as [[[]| |] [? ?]]; intros E; inversion E. }
  destruct (of_tx_step _ _ w t _ _ _ _ _ (simulates_WriteSector b i P s) HR HT E2)
    as (fs1 & t1 & Hw & HR1 & HT1).
  exists fs1, t1. split; [done|]. exists ab, a1.
  split_and!; try done; destruct Ha1 as (Hwk & ? & ? & ?); [by split|]. by rewrite Hwk.
Qed.

Lemma write_payload_Ok c ss : ∀ v k w t,
  shows_at c v k (w, t) → 0 ≤ k → k + zlen ss ≤ MaxSectors → Forall Sector_wf ss →
  (Z.to_nat (k * SectorBytes) ≤ length v)%nat →
  ∃ fs' t', write_payload ss (w, t) = (Ok tt, (set_fs fs' w, t')) ∧
    shows_at c (with_sectors v k ss) (k + zlen ss) (set_fs fs' w, t').
Proof.
  induction ss as [|s ss IH]; intros v k w t Hs Hk Hm Hss Hv.
  - exists (w_blobs w).1, t. rewrite zlen_nil, Z.add_0_r in *. unfold with_sectors. simpl.
    rewrite zlen_nil, Z.add_0_r, take_drop. by destruct w as [db [fs pool] locks out].
  - rewrite zlen_cons in Hm |- *. pose proof (zlen_nonneg ss) as Hz.
    apply Forall_cons in Hss as [Hs1 Hss].
    destruct (write_sector_Ok c s v k w t Hs Hk) as (fs1 & t1 & Hw & Hs2); [lia|done|].
    destruct (IH _ (k + 1) (set_fs fs1 w) t1 Hs2) as (fs2 & t2 & Hw2 & Hs3); [lia|lia|done| |].
    { rewrite length_write_at. apply Sector_wf_length in Hs1 as ->. unfold SectorBytes in *. lia. }
    exists fs2, t2. split.
    + simpl. unfold mbind, M_bind, M_try. by rewrite Hw, Hw2.
    + rewrite with_sectors_cons in Hs3 by done. replace (k + (1 + zlen ss)) with (k + 1 + zlen ss) by lia.
      exact Hs3.
Qed.

Lemma sectors_of_mjoin ss x : Forall Sector_wf ss → sectors_of (length ss) (mjoin ss ++ x) = ss.
Proof.
  induction 1 as [|s ss Hs _ IH]; [done|]. apply Sector_wf_length in Hs.
  change (mjoin (s :: ss)) with (s ++ mjoin ss). cbn [length sectors_of]. rewrite <- app_assoc.
  rewrite take_app_len, drop_app_length' by done. by rewrite IH.
Qed.

Lemma sectors_of_plus n m v : sectors_of (n + m) v = sectors_of n v ++ sectors_of m (drop (n * 256) v).
Proof.
  revert v. induction n as [|n IH]; intros v; cbn [Nat.add sectors_of app]; [done|].
  rewrite IH, drop_drop. do 3 f_equal. 
Qed.

(** The sectors after a write: those before it, and those written. *)
Lemma sectors_of_with v k ss :
  0 ≤ k → Forall Sector_wf ss → (Z.to_nat (k * SectorBytes) ≤ length v)%nat →
  sectors_of (Z.to_nat (k + zlen ss)) (with_sectors v k ss) = sectors_of (Z.to_nat k) v ++ ss.
Proof.
  intros Hk Hs Hv. unfold zlen. rewrite Z2Nat.inj_add, Nat2Z.id by lia. rewrite sectors_of_plus.
  unfold with_sectors, SectorBytes in *.
  rewrite drop_app_length' by (rewrite length_take; lia).
  rewrite sectors_of_mjoin by done. f_equal.
  rewrite sectors_of_app by (rewrite length_take; lia).
  rewrite <- (take_drop (Z.to_nat (k * 256)) v) at 2. by rewrite sectors_of_app by (rewrite length_take; lia).
Qed.
Lemma zlen_with_sectors v k ss :
  0 ≤ k → Forall Sector_wf ss → k + zlen ss ≤ MaxSectors → zlen v = Size →
  zlen (with_sectors v k ss) = Size.
Proof.
  intros Hk Hs Hm Hv. unfold with_sectors, zlen in *. rewrite !length_app, length_take, length_drop.
  rewrite (length_sectors ss Hs). rewrite Size_eq in *. unfold SectorBytes, MaxSectors in *. lia.
Qed.

(** A response that passes every check is written. *)
Lemma handle_payload_Ok now opts msg w t :
  let ss := BlobRes_Payload msg in
  let tip := tip_from (o_PrevHash opts) ss in
  BlobRes_Name msg = o_Name opts → o_EpochHeight opts ≤ BlobRes_EpochHeight msg →
  BlobRes_PayloadPosition msg = o_SectorSize opts → BlobRes_PrevHash msg = o_PrevHash opts →
  0 ≤ o_SectorSize opts → o_SectorSize opts + zlen ss ≤ MaxSectors →
  validateBlobUpdate (w_db w) (o_Name opts) (BlobRes_EpochHeight msg) (o_SectorSize opts + zlen ss)
    tip (BlobRes_ReservedRoot msg) (BlobRes_Signature msg) = Ok tt →
  handle_payload now opts ∅ msg (w, t) =
  (write_payload ss;;
   mret (Processed (mkSyncUpdate tip (BlobRes_ReservedRoot msg) (BlobRes_Signature msg)))) (w, t).
Proof.
  intros ss tip Hn He Hp Hv Hk Hm Hval. unfold handle_payload. pose proof (zlen_nonneg ss) as Hz.
  assert (u16 (BlobRes_PayloadPosition msg + u16 (zlen (BlobRes_Payload msg))) =
    o_SectorSize opts + zlen ss) as Hsz.
  { fold ss. rewrite Hp. unfold u16, MaxSectors in *. rewrite (Z.mod_small (zlen ss)) by lia. by rewrite Z.mod_small by lia. }
  rewrite Hsz, Hn, Hp, Hv. fold ss tip.
  rewrite decide_False by tauto. rewrite decide_False by set_solver.
  rewrite decide_False by lia. rewrite decide_False by tauto. rewrite decide_False by lia.
  unfold mbind at 1, M_bind at 1, M_try, of_world at 1, M_zoom at 1, read_db at 1. simpl.
  rewrite Hval. simpl. by rewrite decide_False by tauto.
Qed.

(** The sync of a response that passes every check. *)
Lemma sync_first now send_err opts peer msg rest c v w t :
  let ss := BlobRes_Payload msg in
  let k := o_SectorSize opts in
  let tip := tip_from (o_PrevHash opts) ss in
  shows_at c v k (w, t) → (Z.to_nat (k * SectorBytes) ≤ length v)%nat →
  BlobRes_Name msg = o_Name opts → o_EpochHeight opts ≤ BlobRes_EpochHeight msg →
  BlobRes_PayloadPosition msg = k → BlobRes_PrevHash msg = o_PrevHash opts →
  0 ≤ k → k + zlen ss ≤ MaxSectors → Forall Sector_wf ss →
  validateBlobUpdate (w_db w) (o_Name opts) (BlobRes_EpochHeight msg) (k + zlen ss) tip
    (BlobRes_ReservedRoot msg) (BlobRes_Signature msg) = Ok tt →
  ∃ w' t', or_rollback "error during sync" (SyncSectors now send_err opts ((peer, msg) :: rest)) (w, t) =
      (Ok (Some (mkSyncUpdate tip (BlobRes_ReservedRoot msg) (BlobRes_Signature msg))), (w', t')) ∧
    shows_at c (with_sectors v k ss) (k + zlen ss) (w', t') ∧ w_db w' = w_db w.
Proof.
  intros ss k tip Hs Hle Hn He Hp Hv Hk Hm Hss Hval.
  destruct (of_world_send_requests send_err opts w t) as (w2 & Hs2 & Hd2 & Hb2 & _).
  destruct (write_payload_Ok c ss v k w2 t) as (fs3 & t3 & Hw3 & Hs3); [|done..|].
  { destruct Hs as (ab & a & ?). exists ab, a. simpl in *. by rewrite Hb2. }
  destruct (of_world_send_requests send_err opts (set_fs fs3 w2) t3) as (w4 & Hs4 & Hd4 & Hb4 & _).
  exists w4, t3. split_and!.
  - unfold or_rollback, SyncSectors. cbn [payload_loop]. unfold mbind at 1, M_bind at 1, M_try.
    rewrite (M_bind_step _ _ _ _ _ Hs2). unfold mbind at 1, M_bind at 1.
    rewrite handle_payload_Ok; try done; [|by rewrite Hd2].
    fold ss. rewrite (M_bind_step _ _ _ _ _ Hw3). unfold mret at 1, M_ret.
    by rewrite (M_bind_step _ _ _ _ _ Hs4).
  - destruct Hs3 as (ab & a & ?). exists ab, a. simpl in *. by rewrite Hb4.
  - rewrite Hd4. simpl. by rewrite Hd2.
Qed.

(** Storing the header of what the transaction shows, and committing. *)
Lemma finish_update_Ok now item p su c v w t db' height :
  shows b i P c v (w, t) → 0 ≤ item_SectorSize item ≤ MaxSectors →
  stored now item p su v (w_db w) db' → GetLastNameImportHeight db' = Ok height →
  ∃ w' t', finish_update now item p (Some su) (w, t) = (Ok tt, (w', t')) ∧ w_db w' = db' ∧
    blob_holds b i P (v ++ drop (length v) c) (w', t').
Proof.
  intros Hs Hn [Htip Hset] Hl. unfold finish_update.
  destruct (hash_tx_shows b i P c v _ w t Hs Hn) as (w1 & t1 & Hh & Hs1 & Hd1).
  rewrite (M_bind_step _ _ _ (go_copy ZeroSectorHashes (chain ZeroHash
    (sectors_of (Z.to_nat (item_SectorSize item)) v))) (w1, t1))
    by (unfold or_rollback, mbind, M_bind, M_try; by rewrite Hh).
  set (tree := go_copy _ _) in *. rewrite decide_False by tauto. rewrite <- Hd1 in Hset.
  set (w2 := mkWorld db' (w_blobs w1) (w_locks w1) (w_sent w1)).
  rewrite (M_bind_step _ _ _ tt (w2, t1)).
  2:{ unfold or_rollback, mbind, M_bind, M_try, of_world, M_zoom, on_db, M_zoom. cbn [fst snd].
      by rewrite Hset. }
  destruct (Commit_holds b i P c v (w2, t1) Hs1) as ([w3 t3] & Hc & Hh3).
  rewrite (M_bind_step _ _ _ (Ok tt) (w3, t3)) by (unfold M_try; by rewrite Hc).
  pose proof (of_tx_keeps Tx_Commit w2 t1) as (Hd3 & _). rewrite Hc in Hd3. simpl in Hd3.
  destruct (gossip_update_keeps item w3) as [Hd4 Hb4].
  assert ((gossip_update item w3).1 = Ok tt) as Hg.
  { unfold gossip_update, mbind, M_bind, M_try, read_db. rewrite Hd3, Hl. by case_decide. }
  exists (gossip_update item w3).2, t3. unfold of_world, M_zoom. cbn [fst snd].
  destruct (gossip_update item w3) as [r4 w4]. simpl in *. subst r4. split; [done|].
  split; [congruence|]. destruct Hh3 as (ab & a & HR & HT & Hab). exists ab, a. simpl in *.
  by rewrite Hb4.
Qed.
End steps.

(** A response [msg] that continues the sectors the plan starts from up to the
    size of the update, signed by the key of the name, on a node that can store
    the header. *)
Section honest.
Context `{HL : LevelDBLaws, HJ : JSONLaws, Secp256k1, Blake2b}.

Definition old_sectors (p : plan) (c : bytes) : list Sector :=
  sectors_of (Z.to_nat (plan_sectorSize p)) (base p c).

Definition all_sectors (p : plan) (c : bytes) (msg : BlobRes) : list Sector :=
  old_sectors p c ++ BlobRes_Payload msg.

(** The header of the update: its epoch is the one of the item. *)
Definition header_of (now : Time) (item : UpdateQueueItem) (p : plan) (c : bytes) (msg : BlobRes)
    : Header :=
  mkHeader (item_Name item) (item_EpochHeight item) (item_SectorSize item)
    (tip_from ZeroHash (all_sectors p c msg)) (BlobRes_Signature msg) (BlobRes_ReservedRoot msg)
    (if epochUpdated p then now else ZeroTime).

Record honest (now : Time) (item : UpdateQueueItem) (p : plan) (msg : BlobRes) (c : bytes) (db : DB)
    : Prop := mkHonest {
  ho_start : 0 ≤ plan_sectorSize p;
  ho_size : item_SectorSize item = plan_sectorSize p + zlen (BlobRes_Payload msg);
  ho_max : item_SectorSize item ≤ MaxSectors;
  ho_epoch : epochUpdated p = true →
    plan_epochHeight p ≤ u16 (CurrentEpoch now (item_Name item) + 1);
  ho_prev : plan_prevHash p = tip_from ZeroHash (old_sectors p c);
  ho_name : BlobRes_Name msg = item_Name item;
  ho_msg_epoch : plan_epochHeight p ≤ BlobRes_EpochHeight msg;
  ho_position : BlobRes_PayloadPosition msg = plan_sectorSize p;
  ho_msg_prev : BlobRes_PrevHash msg = plan_prevHash p;
  ho_sectors : Forall Sector_wf (BlobRes_Payload msg);
  ho_valid : validateBlobUpdate db (item_Name item) (BlobRes_EpochHeight msg)
    (item_SectorSize item) (tip_from ZeroHash (all_sectors p c msg))
    (BlobRes_ReservedRoot msg) (BlobRes_Signature msg) = Ok tt;
  ho_nonzero : Forall (λ x, x ≠ ZeroHash) (chain ZeroHash (all_sectors p c msg));
  ho_header : Header_wf (header_of now item p c msg);
  ho_count : ∃ n, count_is (db_map db) n ∧ 0 ≤ n < MaxInt32;
  ho_height : ∃ height, GetLastNameImportHeight db = Ok height;
}.

Lemma base_size p c : zlen c = Size → zlen (base p c) = Size.
Proof.
  intros Hc. unfold base. destruct (epochUpdated p); [|done]. unfold zero_blob, zlen.
  rewrite length_replicate, Size_eq. lia.
Qed.

Lemma honest_sync now send_err item p peer msg rest b i P c w :
  blob_opened b i P c (w_blobs w).1 → zlen c = Size → honest now item p msg c (w_db w) →
  ∃ w' t', sync_blob now send_err item p ((peer, msg) :: rest) (w, Blob_Transaction b) =
      (Ok tt, (w', t')) ∧
    blob_opened b i P (with_sectors (base p c) (plan_sectorSize p) (BlobRes_Payload msg)) (w_blobs w').1 ∧
    GetHeader (w_db w') (item_Name item) = Ok (header_of now item p c msg) ∧
    GetSectorHashes (w_db w') (item_Name item) =
      Ok (go_copy ZeroSectorHashes (chain ZeroHash (all_sectors p c msg))).
Proof.
  intros Ho Hc [Hk Hsz Hmax Hep Hprev Hn He Hp Hv Hss Hval Hnz Hwf (n & Hcnt & Hnn) (height & Hl)].
  pose proof (zlen_nonneg (BlobRes_Payload msg)) as Hz. pose proof (base_size p c Hc) as Hbase.
  assert (Z.to_nat (plan_sectorSize p * SectorBytes) ≤ length (base p c))%nat as Hle.
  { unfold zlen in Hbase. rewrite Size_eq in Hbase. unfold SectorBytes, MaxSectors in *. lia. }
  assert (tip_from (plan_prevHash p) (BlobRes_Payload msg) = tip_from ZeroHash (all_sectors p c msg))
    as Htip by (unfold all_sectors; by rewrite tip_from_app, Hprev).
  destruct (prepare_Ok b i P now item p c w Ho) as (fs1 & t1 & Hprep & Hs1); [lia|done|].
  unfold sync_blob. rewrite (M_bind_step _ _ _ _ _ Hprep).
  destruct (sync_first b i P now send_err (mkOpts (item_PeerIDs item) (plan_epochHeight p)
    (plan_sectorSize p) (plan_prevHash p) (item_Name item)) peer msg rest c (base p c)
    (set_fs fs1 w) t1) as (w4 & t3 & Hsync & Hs3 & Hd4);
    simpl; try done; [lia|by rewrite Htip, <- Hsz|].
  simpl in Hsync, Hs3, Hd4. rewrite Htip in Hsync. rewrite (M_bind_step _ _ _ _ _ Hsync).
  set (v := with_sectors _ _ _) in *.
  assert (zlen v = Size) as Hv' by (apply zlen_with_sectors; [done|done|by rewrite <- Hsz|done]).
  assert (sectors_of (Z.to_nat (item_SectorSize item)) v = all_sectors p c msg) as Hsec
    by (rewrite Hsz; by apply sectors_of_with).
  assert (zlen (all_sectors p c msg) ≤ MaxSectors) as Hlen.
  { rewrite <- Hsec. unfold zlen. rewrite length_sectors_of. lia. }
  destruct (SetHeader_stored (w_db w) (header_of now item p c msg)
    (go_copy ZeroSectorHashes (chain ZeroHash (all_sectors p c msg))) n)
    as (db' & Hset & Hgh & Hgs & _ & Hkeys); [done|by apply go_copy_hashes_wf|done|done|].
  destruct (finish_update_Ok b i P now item p (mkSyncUpdate (tip_from ZeroHash (all_sectors p c msg))
    (BlobRes_ReservedRoot msg) (BlobRes_Signature msg)) c v w4 t3 db' height) as (w5 & t5 & Hf & Hd5 & Hh5).
  - apply (shows_at_shows b i P _ _ _ _ Hs3). lia.
  - lia.
  - unfold stored. rewrite Hsec, Hd4. split; [symmetry; by apply Tip_chain|].
    unfold new_header. rewrite Tip_chain by done. exact Hset.
  - revert Hl. unfold GetLastNameImportHeight. by rewrite !db_Get_law, Hkeys.
  - exists w5, t5. split; [exact Hf|]. subst db'. split_and!; [|done|done].
    unfold zlen in Hv', Hc. rewrite drop_ge, app_nil_r in Hh5 by lia.
    by apply (blob_holds_opened b i P _ (w5, t5)).
Qed.
End honest.

(** C3: an update whose first response is honest completes: the blob holds the
    old sectors and the new ones, and the header and the hashes that are read
    back are those of the new blob. *)
Theorem sync_blob_completes `{LevelDBLaws, JSONLaws, Secp256k1, Blake2b} now send_err item p peer msg
    rest b i P c w :
  blob_opened b i P c (w_blobs w).1 → zlen c = Size → honest now item p msg c (w_db w) →
  ∃ w' t', sync_blob now send_err item p ((peer, msg) :: rest) (w, Blob_Transaction b) =
      (Ok tt, (w', t')) ∧
    content (w_blobs w').1 i = with_sectors (base p c) (plan_sectorSize p) (BlobRes_Payload msg) ∧
    GetHeader (w_db w') (item_Name item) = Ok (header_of now item p c msg) ∧
    GetSectorHashes (w_db w') (item_Name item) =
      Ok (go_copy ZeroSectorHashes (chain ZeroHash (all_sectors p c msg))).
Proof.
  intros Ho Hc Hh. destruct (honest_sync _ send_err _ _ peer _ rest _ _ _ _ _ Ho Hc Hh) as (w' & t' & Hs & (_ & Hi & _) & Hr).
  exists w', t'. split; [done|]. split; [|done]. by apply content_Some.
Qed.

Lemma zero_blob_opened : blob_opened demo_blob 0 (bs "blob") zero_blob (fs_set_inode 0 zero_blob demo_fs).
Proof. split; [by exists 0%nat|]. split_and!; try done; simpl; lia. Qed.

Lemma zlen_zero_blob : zlen zero_blob = Size.
Proof. unfold zero_blob, zlen. rewrite length_replicate, Size_eq. lia. Qed.

(** The first update of a name. *)
Definition first_plan : plan := mkPlan true 0 0 ZeroHash.

Lemma demo_honest epoch :
  is_u16 epoch →
  honest 0 (demo_item epoch 1) first_plan (demo_res 3 ZeroHash) zero_blob (w_db demo_world3).
Proof.
  intros He. apply mkHonest; [done|done|done| |done|done|done|done|done| | | | | |].
  - intros _. apply Z.mod_pos_bound. done.
  - by repeat constructor.
  - vm_compute. reflexivity.
  - by repeat constructor.
  - split; [by apply (bool_decide_unpack (Forall (λ c, Z_of_byte c < 128) (bs "foo")))|].
    split; [exact He|]. by split_and!.
  - exists 0. split; [|done]. vm_compute. reflexivity.
  - exists 0. vm_compute. reflexivity.
Qed.

Lemma sync_blob_completes_witness :
  ∃ w' t', sync_blob 0 no_err (demo_item 3 1) first_plan [(demo_peer, demo_res 3 ZeroHash)]
      (demo_world3, Blob_Transaction demo_blob) = (Ok tt, (w', t')) ∧
    GetHeader (w_db w') (bs "foo") =
      Ok (header_of 0 (demo_item 3 1) first_plan zero_blob (demo_res 3 ZeroHash)).
Proof.
  destruct (sync_blob_completes 0 no_err (demo_item 3 1) first_plan demo_peer
    (demo_res 3 ZeroHash) [] demo_blob 0 (bs "blob") zero_blob demo_world3)
    as (w' & t' & Hs & _ & Hh & _).
  - apply zero_blob_opened.
  - apply zlen_zero_blob.
  - by apply demo_honest.
  - exists w', t'. split; [exact Hs|exact Hh].
Defined.

(** The epoch of an update is not authenticated.  For a name without a header
    a peer can announce any epoch with a response signed for another one: the
    header is stored with the announced epoch, and its signature does not verify
    for it. *)
Theorem announced_epoch_stored :
  ∃ w' t' h, sync_blob 0 no_err (demo_item 65535 1) first_plan [(demo_peer, demo_res 3 ZeroHash)]
      (demo_world3, Blob_Transaction demo_blob) = (Ok tt, (w', t')) ∧
    GetHeader (w_db w') (bs "foo") = Ok h ∧ h_EpochHeight h = 65535 ∧
    VerifySigPub (PubKey toy_key) (h_Signature h)
      (SealHash (bs "foo") (h_EpochHeight h) (h_SectorSize h) (h_SectorTipHash h)
         (h_ReservedRoot h)) = Ok false.
Proof.
  destruct (honest_sync 0 no_err (demo_item 65535 1) first_plan demo_peer (demo_res 3 ZeroHash) []
    demo_blob 0 (bs "blob") zero_blob demo_world3) as (w' & t' & Hs & _ & Hh & _).
  - apply zero_blob_opened.
  - apply zlen_zero_blob.
  - by apply demo_honest.
  - exists w', t'. eexists. split; [exact Hs|]. split; [exact Hh|]. split; [done|].
    vm_compute. reflexivity.
Qed.

(** when no peer answers before the timer fires, the update that has reached
    the sync does not fail: it dereferences the nil update and panics, after the
    requests have been sent. *)
Theorem sync_timeout_panics `{LevelDBLaws, JSON, Secp256k1, Blake2b} now send_err item p b i P c w :
  blob_opened b i P c (w_blobs w).1 → zlen c = Size →
  0 ≤ plan_sectorSize p ≤ MaxSectors → 0 ≤ item_SectorSize item ≤ MaxSectors →
  (epochUpdated p = true →
    plan_epochHeight p ≤ u16 (CurrentEpoch now (item_Name item) + 1)) →
  (sync_blob now send_err item p [] (w, Blob_Transaction b)).1 = Panic "nil pointer dereference".
Proof.
  intros Ho Hc Hk Hn Hep.
  destruct (prepare_Ok b i P now item p c w Ho Hk Hep) as (fs1 & t1 & Hprep & Hs1).
  unfold sync_blob. rewrite (M_bind_step _ _ _ _ _ Hprep). set (opts := mkOpts _ _ _ _ _).
  destruct (of_world_send_requests send_err opts (set_fs fs1 w) t1) as (w2 & Hs2 & Hd2 & Hb2 & _).
  rewrite (M_bind_step _ _ _ None (w2, t1)).
  2:{ unfold or_rollback, SyncSectors. cbn [payload_loop]. unfold mbind at 1, M_bind at 1, M_try.
      by rewrite (M_bind_step _ _ _ _ _ Hs2). }
  assert (shows b i P c (base p c) (w2, t1)) as Hs.
  { apply (shows_at_shows b i P _ _ (plan_sectorSize p)).
    - destruct Hs1 as (ab & a & ?). exists ab, a. simpl in *. by rewrite Hb2.
    - unfold base. destruct (epochUpdated p); [rewrite zlen_zero_blob|rewrite Hc]; lia. }
  destruct (hash_tx_shows b i P c _ _ w2 t1 Hs Hn) as (w3 & t3 & Hh & _).
  unfold finish_update. unfold mbind at 1, M_bind at 1, or_rollback, mbind at 1, M_bind at 1, M_try.
  by rewrite Hh.
Qed.

Lemma sync_timeout_panics_witness :
  (sync_blob 0 no_err (demo_item 3 1) first_plan []
     (demo_world3, Blob_Transaction demo_blob)).1 = Panic "nil pointer dereference".
Proof.
  apply (sync_timeout_panics _ _ _ _ _ 0 (bs "blob") zero_blob).
  - apply zero_blob_opened.
  - apply zlen_zero_blob.
  - done.
  - done.
  - intros _. apply Z.mod_pos_bound. done.
Defined.
