(* ===== verification/EpochRules.v ===== *)
(** * Which updates the updater takes

    The checks [UpdateBlob] makes before it takes the lock of the name. *)

From S2P Require Import Prelude GoLib Crypto Instances Dwire Sector Wire OsFile BlobIO BlobTx.
From S2P Require Import BlobSys Names BlobStore Util StoreDB StoreInstances Store.
From S2P Require Import Queue UpdateQueueProofs Syncer SyncerProofs Updater.

Definition Week : Z := 7 * 24 * Hour.

Section rules.
Context `{LevelDB, JSON, Secp256k1, Blake2b} (now : Time).

(** The epoch after the current one, in which a name may be a week early. *)
Definition next_epoch (name : bytes) : Z := u16 (CurrentEpoch now name + 1).

(** An epoch above the one of the header: after a ban one epoch and a week are
    skipped, within a week of the last epoch only the next epoch is taken, and
    no epoch lies after the next one. *)
Definition rollover_ok (header : Header) (item : UpdateQueueItem) (bannedAt : Time) : Prop :=
  let e := item_EpochHeight item in
  h_EpochHeight header < e ∧ e ≤ next_epoch (item_Name item) ∧
  (now < h_EpochStartAt header + Week → e = next_epoch (item_Name item)) ∧
  (bannedAt ≠ ZeroTime → bannedAt + Week ≤ now ∧ u16 (h_EpochHeight header + 1) < e).

Lemma check_rollover_Ok header item bannedAt p :
  h_EpochHeight header < item_EpochHeight item →
  check_rollover now header item bannedAt = Ok p ↔
  rollover_ok header item bannedAt ∧ p = mkPlan true (item_EpochHeight item) 0 ZeroHash.
Proof.
  unfold check_rollover, rollover_ok, next_epoch, IsZero, Week.
  generalize (u16 (CurrentEpoch now (item_Name item) + 1)) (u16 (h_EpochHeight header + 1)).
  generalize (item_EpochHeight item) (h_EpochHeight header) (h_EpochStartAt header) Hour ZeroTime.
  intros e he st hr zt nx he1 Hlt.
  assert (∀ x : error, ¬ (he < e ∧ e ≤ nx ∧ (now < st + 7 * 24 * hr → e = nx) ∧
    (bannedAt ≠ zt → bannedAt + 7 * 24 * hr ≤ now ∧ he1 < e)) →
    Err x = Ok p ↔ (he < e ∧ e ≤ nx ∧ (now < st + 7 * 24 * hr → e = nx) ∧
    (bannedAt ≠ zt → bannedAt + 7 * 24 * hr ≤ now ∧ he1 < e)) ∧ p = mkPlan true e 0 ZeroHash) as Hno.
  { intros x Hx. split; [done|]. by intros [? _]. }
  repeat case_bool_decide; simpl; try (apply Hno; lia); case_decide; try (apply Hno; lia);
    (split; [intros [= <-]; split; [lia|done]|by intros [_ ->]]).
Qed.
End rules.



(** For a name without a header the checks pass for every epoch, as late as
    it may be, and whether or not its header is banned. *)
Theorem first_update_unchecked `{LevelDB, JSON, Secp256k1, Blake2b} now db item e bannedAt :
  GetHeader db (item_Name item) = Err e → errors_Is e ErrNotFound = true →
  GetHeaderBan db (item_Name item) = Ok bannedAt → 0 ≤ item_EpochHeight item →
  check_update now db item = Ok (mkPlan true 0 0 ZeroHash).
Proof.
  intros Hh He Hb Hep. unfold check_update. rewrite Hh, He, Hb. simpl.
  by rewrite decide_False by lia.
Qed.

Lemma first_update_unchecked_witness :
  check_update 0 demo_db (mkItem (NewPeerSet [demo_peer]) (bs "foo") 65535 1 (PubKey toy_key) 9 0) =
    Ok (mkPlan true 0 0 ZeroHash).
Proof.
  apply (first_update_unchecked 0 demo_db _ (EWrap ErrNotFound "error getting header data") ZeroTime).
  - vm_compute. reflexivity.
  - reflexivity.
  - vm_compute. reflexivity.
  - done.
Defined.
