(* ===== verification/SectorServer.v ===== *)
(** * Package protocol: serving blobs and updates

    [src/protocol/sector_server.go] and [update_server.go].  A handler logs its
    errors, so what it does is what it sends, stores and locks. *)

From stdpp Require Import pretty.
From S2P Require Import Prelude GoLib Crypto Instances Dwire Sector Wire OsFile BlobIO BlobTx.
From S2P Require Import BlobSpec BlobSys BlobHash Names BlobStore Util StoreDB StoreInstances Store.
From S2P Require Import Queue UpdateQueueProofs Syncer SyncerProofs.

Section servers.
Context `{LevelDB, JSON, Secp256k1, Blake2b}.
Context (now : Time) (send_err : Hash → option error) (blobsPath : bytes).

(** The sector server: the world, and its cache of payloads. *)
Abbreviation payloads := (Cache (V := list Sector)).
Definition SW : Type := World * payloads.

Definition on_sw {A} (m : M World A) : M SW A := M_zoom fst (λ w s, (w, s.2)) m.
Definition on_cache {A} (m : M payloads A) : M SW A := M_zoom snd (λ c s, (s.1, c)) m.

(** [fmt.Sprintf("%d", n)] of a number that is not negative. *)
Definition itoa (n : Z) : bytes := bs (pretty (Z.to_N n)).

(** [fmt.Sprintf("%s:%d:%d", name, epochHeight, sectorSize)]. *)
Definition cache_key (req : BlobReq) : bytes :=
  BlobReq_Name req ++ bs ":" ++ itoa (BlobReq_EpochHeight req) ++ bs ":" ++
  itoa (BlobReq_SectorSize req).

(** [mux.Send], whose error is logged. *)
Definition try_send (peerID : Hash) (m : Message) : M World unit :=
  M_try (Mux_Send send_err peerID m);; mret tt.

(** The reserved root of the response is not set. *)
Definition sendResponse (peerID : Hash) (name : bytes) (prevHash : Hash) (sectors : list Sector)
    (epochHeight sectorSize : Z) (signature : Signature) : M World unit :=
  try_send peerID
    (MBlobRes (mkBlobRes name epochHeight sectorSize prevHash ZeroHash sectors signature)).

(** The sectors from index [i] on, [n] of them. *)
Fixpoint read_sectors (bl : Blob) (i : Z) (n : nat) : M PS (list Sector) :=
  match n with
  | O => mret []
  | S n =>
      '(sector, _, err) ← pool_fs (Blob_ReadAt bl ZeroSector (i * SectorBytes));
      match err with
      | Some e => M_fail e
      | None => sectors ← read_sectors bl (i + 1) n; mret (sector :: sectors)
      end
  end.

Definition serve_proof (peerID : Hash) (name : bytes) : M World unit :=
  r ← M_try (read_db (λ db, GetEquivocationProof db name));
  match r with
  | Ok raw =>
      match EquivocationProof_Decode raw with
      | Ok (proof, _) => try_send peerID (MEquivocationProof proof)
      | Err _ => mret tt
      | Panic s => M_panic s
      end
  | _ => mret tt
  end.

(** The hash the payload starts from. *)
Definition prev_hash (db : DB) (req : BlobReq) : result Hash :=
  if decide (BlobReq_SectorSize req = 0) then Ok ZeroHash
  else GetSectorHash db (BlobReq_Name req) (u16 (BlobReq_SectorSize req - 1)).

(** The blob is read, cached and sent; it is closed last. *)
Definition serve_blob (cacheExpiryMS : Z) (peerID : Hash) (req : BlobReq) (header : Header)
    (prevHash : Hash) : M SW unit :=
  let name := BlobReq_Name req in
  let unlock := on_sw (on_locks (RUnlock name)) in
  o ← M_try (on_sw (on_blobs (Store_Open blobsPath name)));
  match o with
  | Ok bl =>
      M_defer (M_try (on_sw (on_blobs (wrappedBlob_Close bl)));; mret tt)
        (r ← M_try (on_sw (on_blobs (read_sectors bl (BlobReq_SectorSize req)
                (Z.to_nat (h_SectorSize header - BlobReq_SectorSize req)))));
         match r with
         | Ok sectors =>
             on_cache (Cache_Set now (cache_key req) sectors cacheExpiryMS);;
             unlock;;
             on_sw (sendResponse peerID name prevHash sectors (h_EpochHeight header)
                      (BlobReq_SectorSize req) (h_Signature header))
         | _ => unlock
         end)
  | _ => unlock
  end.

Definition onBlobReq (cacheExpiryMS : Z) (peerID : Hash) (req : BlobReq) : M SW unit :=
  let name := BlobReq_Name req in
  h ← M_try (on_sw (read_db (λ db, GetHeader db name)));
  match h with
  | Ok header =>
      if decide (h_EpochHeight header < BlobReq_EpochHeight req) then mret tt
      else if decide (BlobReq_SectorSize req = MaxSectors) then on_sw (serve_proof peerID name)
      else
        locked ← on_sw (on_locks (TryRLock name));
        if negb locked then mret tt
        else
          r ← M_try (on_sw (read_db (λ db, prev_hash db req)));
          match r with
          | Ok prevHash =>
              '(cached, _) ← on_cache (Cache_Get now (cache_key req));
              match cached with
              | Some sectors =>
                  on_sw (on_locks (RUnlock name));;
                  on_sw (sendResponse peerID name prevHash sectors (h_EpochHeight header)
                           (BlobReq_SectorSize req) (h_Signature header))
              | None => serve_blob cacheExpiryMS peerID req header prevHash
              end
          | _ => mret tt
          end
  | _ => mret tt
  end.

(** The checks of an equivocation proof: the errors are those that are logged. *)
Definition check_proof (db : DB) (msg : EquivocationProof) : result unit :=
  let name := EP_Name msg in
  if decide (EP_LocalEpochHeight msg ≠ EP_RemoteEpochHeight msg)
  then Err (ENew "unexpected epoch height")
  else
    header ← GetHeader db name;
    bannedAt ← GetHeaderBan db name;
    if negb (IsZero bannedAt) && bool_decide (now < bannedAt + 7 * 24 * Hour)
    then Err (ENew "name banned")
    else if negb (IsZero bannedAt) && bool_decide (h_EpochHeight header = EP_RemoteEpochHeight msg)
    then Err (ENew "already equivocated")
    else if decide (EP_RemoteEpochHeight msg < h_EpochHeight header)
    then Err (ENew "remote epoch height must be <= header epoch heigth")
    else if decide (EP_LocalSectorSize msg ≠ EP_RemotePayloadPosition msg)
    then Err (ENew "unexpected sector size")
    else
      _ ← validateBlobUpdate db name (EP_LocalEpochHeight msg) (EP_LocalSectorSize msg)
            (EP_LocalSectorTipHash msg) (EP_LocalReservedRoot msg) (EP_LocalSignature msg);
      let sectorSize := u16 (EP_RemotePayloadPosition msg + u16 (zlen (EP_RemotePayload msg))) in
      if decide (MaxSectors < sectorSize) then Err (ENew "received unexpected sector size")
      else
        validateBlobUpdate db name (EP_RemoteEpochHeight msg) sectorSize
          (tip_from (EP_RemotePrevHash msg) (EP_RemotePayload msg)) (EP_RemoteReservedRoot msg)
          (EP_RemoteSignature msg).

Definition onEquivocationProof (msg : EquivocationProof) : M World unit :=
  r ← M_try (read_db (λ db, check_proof db msg));
  if is_ok r then
    M_try (on_db (WithTx_only (SetEquivocationProofTx (EP_Name msg) msg)));;
    M_try (on_db (WithTx_only (SetHeaderBan now (EP_Name msg) ZeroTime)));;
    mret tt
  else mret tt.

(** ** update_server.go *)

Definition UpdateReqHandler (peerID : Hash) (msg : UpdateReq) : M World unit :=
  let name := UpdateReq_Name msg in
  let nil_update := try_send peerID (MNilUpdate (NewNilUpdate name)) in
  locked ← on_locks (TryRLock name);
  if negb locked then nil_update
  else
    M_defer (on_locks (RUnlock name))
      (h ← M_try (read_db (λ db, GetHeader db name));
       match h with
       | Ok header =>
           if decide (h_SectorSize header < UpdateReq_SectorSize msg ∨
                      h_SectorSize header = UpdateReq_SectorSize msg)
           then nil_update
           else try_send peerID
                  (MUpdate (mkUpdate name (h_EpochHeight header) (h_SectorSize header)))
       | _ => nil_update
       end).
End servers.
