(* ===== verification/ServerProofs.v ===== *)
(** * What the servers guarantee

    Equivocation proofs, the answers to update requests, and the composition of
    the sector server of one node with the syncer of another. *)

From S2P Require Import Prelude GoLib Crypto Instances Dwire Sector Wire OsFile BlobIO BlobTx.
From S2P Require Import BlobSpec BlobSys BlobHash Names BlobStore Util StoreDB StoreInstances Store.
From S2P Require Import Queue UpdateQueueProofs Syncer SyncerProofs Updater UpdaterProofs UpdaterComplete.
From S2P Require Import SectorServer.

#[local] Opaque Size.

(** ** Equivocation proofs *)

(** The proof was stored and the header banned. *)
Definition proof_recorded `{LevelDB, Secp256k1} (now : Time) (msg : EquivocationProof)
    (w w' : World) : Prop :=
  db_map (w_db w') =
    <[headerBanPrefix [EP_Name msg] := mustEncodeInt (Unix now)]>
      (<[equivocationProofsPrefix [EP_Name msg] := (EquivocationProof_Encode msg).1]>
        (db_map (w_db w))) ∧
  w_blobs w' = w_blobs w ∧ w_locks w' = w_locks w ∧ w_sent w' = w_sent w.

Lemma onEquivocationProof_spec `{LevelDBLaws, JSON, Secp256k1, Blake2b} now msg w :
  match check_proof now (w_db w) msg with
  | Ok _ => ∃ w', onEquivocationProof now msg w = (Ok tt, w') ∧ proof_recorded now msg w w'
  | Err _ => onEquivocationProof now msg w = (Ok tt, w)
  | Panic s => onEquivocationProof now msg w = (Panic s, w)
  end.
Proof.
  unfold onEquivocationProof, mbind, M_bind, M_try, read_db.
  destruct (check_proof now (w_db w) msg) as [[]| |]; simpl; [|done..].
  unfold on_db, M_zoom, SetEquivocationProofTx, SetHeaderBan. simpl.
  destruct (WithTx_only_Put "error setting equivocation proof" (equivocationProofsPrefix [EP_Name msg])
    (EquivocationProof_Encode msg).1 (w_db w)) as (db1 & -> & Hm1). simpl.
  destruct (WithTx_only_Put "error writing header tree" (headerBanPrefix [EP_Name msg])
    (mustEncodeInt (Unix now)) db1) as (db2 & -> & Hm2). simpl.
  eexists. split; [done|]. split_and!; [|done..]. simpl. by rewrite Hm2, Hm1.
Qed.

Lemma proof_recorded_keys `{LevelDBLaws, Secp256k1} now msg w w' :
  proof_recorded now msg w w' →
  GetEquivocationProof (w_db w') (EP_Name msg) = Ok (EquivocationProof_Encode msg).1 ∧
  (0 ≤ Unix now ≤ MaxInt32 → GetHeaderBan (w_db w') (EP_Name msg) = Ok (time_Unix (Unix now))).
Proof.
  intros (Hm & _). split.
  - unfold GetEquivocationProof. by rewrite db_Get_law, Hm, lookup_insert_ne, lookup_insert_eq.
  - intros Hn. unfold GetHeaderBan. rewrite db_Has_law, db_Get_law, Hm, lookup_insert_eq.
    rewrite bool_decide_true by done. simpl. unfold MaxInt32 in Hn.
    rewrite mustDecodeInt_Encode by lia. unfold MaxInt32. by rewrite decide_False by lia.
Qed.

(** C33: a proof that is taken is of two updates of one epoch at or above the one
    of the header, both signed by the key of the name; anything else leaves the
    world as it was. *)
Theorem equivocation_proof_signed `{LevelDBLaws, JSON, Secp256k1, Blake2b} now msg w r w' :
  onEquivocationProof now msg w = (r, w') →
  w' = w ∨
  ∃ header info, r = Ok tt ∧ proof_recorded now msg w w' ∧
    GetHeader (w_db w) (EP_Name msg) = Ok header ∧ GetNameInfo (w_db w) (EP_Name msg) = Ok info ∧
    NameIsBanned (w_db w) (EP_Name msg) = Ok false ∧
    EP_LocalEpochHeight msg = EP_RemoteEpochHeight msg ∧
    h_EpochHeight header ≤ EP_RemoteEpochHeight msg ∧
    VerifySigPub (ni_PublicKey info) (EP_LocalSignature msg)
      (SealHash (EP_Name msg) (EP_LocalEpochHeight msg) (EP_LocalSectorSize msg)
         (EP_LocalSectorTipHash msg) (EP_LocalReservedRoot msg)) = Ok true ∧
    VerifySigPub (ni_PublicKey info) (EP_RemoteSignature msg)
      (SealHash (EP_Name msg) (EP_RemoteEpochHeight msg)
         (u16 (EP_RemotePayloadPosition msg + u16 (zlen (EP_RemotePayload msg))))
         (tip_from (EP_RemotePrevHash msg) (EP_RemotePayload msg)) (EP_RemoteReservedRoot msg)) =
      Ok true.
Proof.
  pose proof (onEquivocationProof_spec now msg w) as Hs. intros Hr.
  destruct (check_proof now (w_db w) msg) as [[]| |] eqn:Hc; [|rewrite Hs in Hr; simplify_eq; by left..].
  destruct Hs as (w1 & Hs & Hrec). rewrite Hs in Hr. simplify_eq. right.
  unfold check_proof in Hc. case_decide as Hep; [done|].
  destruct (GetHeader (w_db w) (EP_Name msg)) as [header| |] eqn:Hh; try done. simpl in Hc.
  destruct (GetHeaderBan (w_db w) (EP_Name msg)) as [bannedAt| |]; try done. simpl in Hc.
  destruct (_ && _); [done|]. destruct (_ && _); [done|].
  case_decide as He2; [done|]. case_decide as Hsz; [done|].
  destruct (validateBlobUpdate (w_db w) _ (EP_LocalEpochHeight msg) _ _ _ _) as [[]| |] eqn:Hv1;
    try done. simpl in Hc. case_decide; [done|].
  apply validateBlobUpdate_Ok in Hv1 as (_ & Hb & info & Hi & Hv1).
  apply validateBlobUpdate_Ok in Hc as (_ & _ & info' & Hi' & Hv2).
  rewrite Hi in Hi'. simplify_eq. exists header, info'. split_and!; try done; lia.
Qed.

(** The proof made of one header: the local and the remote update are the same. *)
Definition self_proof `{Secp256k1} (h : Header) : EquivocationProof :=
  mkEquivocationProof (h_Name h) (h_EpochHeight h) (h_SectorSize h) (h_SectorTipHash h)
    (h_ReservedRoot h) [] (h_Signature h) (h_EpochHeight h) (h_SectorSize h) (h_SectorTipHash h)
    (h_ReservedRoot h) (h_Signature h).

(** a proof need not show a conflict.  The proof a peer makes of any signed
    header, without a second update, bans the name on every node that has the
    header. *)
Theorem self_proof_bans `{LevelDBLaws, JSON, Secp256k1, Blake2b} now h w :
  GetHeader (w_db w) (h_Name h) = Ok h → GetHeaderBan (w_db w) (h_Name h) = Ok ZeroTime →
  0 ≤ h_SectorSize h ≤ MaxSectors →
  validateBlobUpdate (w_db w) (h_Name h) (h_EpochHeight h) (h_SectorSize h) (h_SectorTipHash h)
    (h_ReservedRoot h) (h_Signature h) = Ok tt →
  0 ≤ Unix now ≤ MaxInt32 →
  ∃ w', onEquivocationProof now (self_proof h) w = (Ok tt, w') ∧
    GetHeaderBan (w_db w') (h_Name h) = Ok (time_Unix (Unix now)) ∧
    GetEquivocationProof (w_db w') (h_Name h) = Ok (EquivocationProof_Encode (self_proof h)).1.
Proof.
  intros Hh Hb Hsz Hv Hn. pose proof (onEquivocationProof_spec now (self_proof h) w) as Hs.
  assert (check_proof now (w_db w) (self_proof h) = Ok tt) as Hc.
  { unfold check_proof, self_proof. simpl. rewrite decide_False by tauto. rewrite Hh. simpl.
    rewrite Hb. unfold IsZero. simpl. rewrite decide_False by lia. rewrite decide_False by tauto.
    rewrite Hv. simpl.
    assert (u16 (h_SectorSize h + u16 (zlen ([] : list Sector))) = h_SectorSize h) as ->.
    { change (zlen ([] : list Sector)) with 0. unfold u16, MaxSectors in *. rewrite (Z.mod_small 0), Z.add_0_r by lia.
      by rewrite Z.mod_small by lia. }
    by rewrite decide_False by lia. }
  rewrite Hc in Hs. destruct Hs as (w' & Hs & Hrec). exists w'. split; [done|].
  destruct (proof_recorded_keys _ _ _ _ Hrec) as [Hk1 Hk2]. by split; [apply Hk2|].
Qed.

Lemma self_proof_bans_witness :
  ∃ w', onEquivocationProof 0 (self_proof demo_header1) demo_world2 = (Ok tt, w') ∧
    GetHeaderBan (w_db w') (bs "foo") = Ok (time_Unix 0).
Proof.
  destruct (self_proof_bans 0 demo_header1 demo_world2) as (w' & Hs & Hb & _).
  - vm_compute. reflexivity.
  - vm_compute. reflexivity.
  - done.
  - vm_compute. reflexivity.
  - done.
  - exists w'. split; [exact Hs|exact Hb].
Defined.

Lemma equivocation_proof_signed_witness :
  let run := onEquivocationProof 0 (self_proof demo_header1) demo_world2 in
  run.2 = demo_world2 ∨ proof_recorded 0 (self_proof demo_header1) demo_world2 run.2.
Proof.
  intros run. destruct (equivocation_proof_signed 0 (self_proof demo_header1) demo_world2 run.1 run.2)
    as [Hw|(h & info & _ & Hrec & _)].
  - by apply run_eta.
  - by left.
  - right. exact Hrec.
Defined.

(** ** Serving blobs *)

Section serving.
Context `{LevelDB, JSON, Secp256k1, Blake2b} (send_err : Hash → option error).

Lemma try_send_spec p m w :
  try_send send_err p m w =
  (Ok tt, mkWorld (w_db w) (w_blobs w) (w_locks w)
            (w_sent w ++ match send_err p with None => [ToPeer p m] | Some _ => [] end)).
Proof.
  unfold try_send, Mux_Send, mbind, M_bind, M_try. destruct (send_err p); simpl; [|done].
  rewrite app_nil_r. by destruct w.
Qed.

Lemma chain_lookup p ss j :
  (j < length ss)%nat → chain p ss !! j = Some (tip_from p (take (S j) ss)).
Proof.
  revert p j. induction ss as [|s ss IH]; intros p j Hj; [simpl in Hj; lia|].
  destruct j as [|j]; [done|]. simpl in *. apply IH. lia.
Qed.

Lemma read_sectors_Ok bl i P c n : ∀ k ps,
  blob_opened bl i P c ps.1 → 0 ≤ k → k + Z.of_nat n ≤ MaxSectors →
  (k + Z.of_nat n) * SectorBytes ≤ zlen c →
  read_sectors bl k n ps = (Ok (sectors_of n (drop (Z.to_nat (k * SectorBytes)) c)), ps).
Proof.
  induction n as [|n IH]; intros k ps Ho Hk Hm Hc; [done|].
  destruct ps as [fs pool]. pose proof Ho as ((off & Hf) & Hi & _). simpl in Hf, Hi.
  assert (Blob_ReadAt bl ZeroSector (k * SectorBytes) fs =
    (Ok (take 256 (drop (Z.to_nat (k * SectorBytes)) c), SectorBytes, None), fs)) as Hr.
  { unfold Blob_ReadAt. rewrite (inode_sim_ReadBlobAt _ _ _ ZeroSector (k * SectorBytes) _ _ _ Hf Hi).
    rewrite mem_ReadBlobAt_sector by (done || unfold SectorBytes in *; lia). simpl.
    by rewrite fs_set_inode_id. }
  simpl. unfold mbind, M_bind, pool_fs, M_zoom. simpl. rewrite Hr.
  rewrite (IH (k + 1) (fs, pool)) by (done || unfold SectorBytes in *; lia).
  cbn [sectors_of]. rewrite drop_drop.
  by replace (Z.to_nat (k * SectorBytes) + 256)%nat with (Z.to_nat ((k + 1) * SectorBytes))
    by (unfold SectorBytes; lia).
Qed.

(** The hash a payload starts from is the tip of the sectors before it. *)
Lemma prev_hash_Ok db req hashes ss :
  GetSectorHashes db (BlobReq_Name req) = Ok hashes →
  hashes = go_copy ZeroSectorHashes (chain ZeroHash ss) → zlen ss ≤ MaxSectors →
  0 ≤ BlobReq_SectorSize req ≤ zlen ss →
  prev_hash db req = Ok (tip_from ZeroHash (take (Z.to_nat (BlobReq_SectorSize req)) ss)).
Proof.
  intros Hg -> Hl Hk. unfold prev_hash. case_decide as Hz; [by rewrite Hz|].
  unfold GetSectorHash. rewrite Hg. unfold u16, MaxSectors in *. rewrite Z.mod_small by lia.
  assert (zlen (chain ZeroHash ss) = zlen ss) as Hc by (unfold zlen; by rewrite length_chain).
  rewrite go_copy_hashes by (unfold MaxSectors; lia).
  rewrite decide_False by (rewrite zlen_app; unfold zlen in *; lia).
  unfold index_hashes. rewrite lookup_app_l by (rewrite length_chain; unfold zlen in *; lia).
  rewrite chain_lookup by (unfold zlen in *; lia). do 3 f_equal. lia.
Qed.
(** A reader's lock on a name that has no writer. *)
Lemma TryRLock_free (l : gmap bytes refCounter) hh k :
  lock_inv (l, hh) → held_w hh k = 0 →
  ∃ l', TryRLock k l = (Ok true, l') ∧
    lock_inv (l', mkHeld (upd (held_r hh) k 1) (held_w hh)).
Proof.
  intros Hinv Hw. destruct (TryRLock_spec l hh k Hinv) as (l' & Ht & Hl).
  rewrite bool_decide_true in Ht, Hl by done. by exists l'.
Qed.

Lemma RUnlock_taken (l : gmap bytes refCounter) hh k :
  lock_inv (l, mkHeld (upd (held_r hh) k 1) (held_w hh)) → 0 ≤ held_r hh k →
  ∃ l', RUnlock k l = (Ok tt, l') ∧ lock_inv (l', hh).
Proof.
  intros Hinv Hr. destruct (RUnlock_spec l _ k Hinv) as (l' & Hu & Hl).
  { simpl. unfold upd. rewrite decide_True by done. lia. }
  exists l'. split; [done|]. destruct hh as [hr hw]. eapply upd_ext; [..|exact Hl]; [|done].
  intros k'. simpl. unfold upd. case_decide; lia.
Qed.

Lemma on_locks_step {A} (m : M (gmap bytes refCounter) A) w a l :
  m (w_locks w) = (Ok a, l) →
  on_locks m w = (Ok a, mkWorld (w_db w) (w_blobs w) l (w_sent w)).
Proof. intros Hm. unfold on_locks, M_zoom. by rewrite Hm. Qed.

Lemma on_sw_step {A} (m : M World A) w (c : Cache (V := list Sector)) r w' : m w = (r, w') → on_sw m (w, c) = (r, (w', c)).
Proof. intros Hm. unfold on_sw, M_zoom. simpl. by rewrite Hm. Qed.
End serving.

(** The response of a node whose header [h] has the sectors [ss], from sector [k]. *)
Definition response_of `{Secp256k1, Blake2b} (h : Header) (ss : list Sector) (k : Z) : BlobRes :=
  mkBlobRes (h_Name h) (h_EpochHeight h) k (tip_from ZeroHash (take (Z.to_nat k) ss)) ZeroHash
    (drop (Z.to_nat k) ss) (h_Signature h).

(** The blob of a header is open, and the stored hashes are those of its sectors. *)
Record consistent `{LevelDB, JSON, Secp256k1, Blake2b} (db : DB) (fs : FS) (bl : Blob) (i : nat)
    (P c : bytes) (h : Header) : Prop := mkConsistent {
  co_opened : blob_opened bl i P c fs;
  co_size : zlen c = Size;
  co_header : GetHeader db (h_Name h) = Ok h;
  co_sectors : 0 ≤ h_SectorSize h ≤ MaxSectors;
  co_hashes : GetSectorHashes db (h_Name h) = Ok (go_copy ZeroSectorHashes
    (chain ZeroHash (sectors_of (Z.to_nat (h_SectorSize h)) c)));
}.

Lemma sectors_of_drop n k c :
  (k ≤ n)%nat → drop k (sectors_of n c) = sectors_of (n - k) (drop (k * 256) c).
Proof.
  revert n c. induction k as [|k IH]; intros n c Hk; [by rewrite Nat.sub_0_r|].
  destruct n as [|n]; [lia|]. cbn [sectors_of drop]. rewrite IH by lia. rewrite drop_drop.
  f_equal. 
Qed.

Lemma serve_blob_sends `{LevelDB, JSON, Secp256k1, Blake2b} now send_err blobsPath ms peer req h bl i P c
    w cache hh ps :
  Store_Open blobsPath (BlobReq_Name req) (w_blobs w) = (Ok bl, ps) →
  blob_opened bl i P c ps.1 → zlen c = Size → 0 ≤ h_SectorSize h ≤ MaxSectors →
  h_Name h = BlobReq_Name req → 0 ≤ BlobReq_SectorSize req ≤ h_SectorSize h →
  lock_inv (w_locks w, mkHeld (upd (held_r hh) (BlobReq_Name req) 1) (held_w hh)) →
  0 ≤ held_r hh (BlobReq_Name req) → send_err peer = None →
  let ss := sectors_of (Z.to_nat (h_SectorSize h)) c in
  let k := BlobReq_SectorSize req in
  ∀ prevHash, prevHash = tip_from ZeroHash (take (Z.to_nat k) ss) →
  let '(_, (w', _)) := serve_blob now send_err blobsPath ms peer req h prevHash (w, cache) in
  w_sent w' = w_sent w ++ [ToPeer peer (MBlobRes (response_of h ss k))] ∧
  w_db w' = w_db w ∧ lock_inv (w_locks w', hh).
Proof.
  intros Ho Hop Hc Hsz Hname Hk Hinv Hr Hse ss k prevHash ->. unfold serve_blob.
  unfold mbind at 1, M_bind at 1, M_try at 1.
  rewrite (on_sw_step (on_blobs (Store_Open blobsPath (BlobReq_Name req))) w cache (Ok bl)
    (mkWorld (w_db w) ps (w_locks w) (w_sent w))) by (unfold on_blobs, M_zoom; by rewrite Ho).
  set (w1 := mkWorld _ ps _ _).
  assert (read_sectors bl k (Z.to_nat (h_SectorSize h - k)) ps = (Ok (drop (Z.to_nat k) ss), ps)) as Hrd.
  { rewrite (read_sectors_Ok bl i P c) by (done || rewrite ?Hc, ?Size_eq; unfold SectorBytes, MaxSectors in *; lia).
    unfold ss. rewrite sectors_of_drop by lia. f_equal. f_equal. f_equal; [lia|].
    f_equal. unfold SectorBytes. lia. }
  destruct (RUnlock_taken _ _ _ Hinv Hr) as (l & Hu & Hl).
  set (cache1 := (Cache_Set now (cache_key req) (drop (Z.to_nat k) ss) ms cache).2).
  set (w3 := mkWorld (w_db w) ps l (w_sent w ++ [ToPeer peer (MBlobRes (response_of h ss k))])).
  match goal with |- context [M_defer _ ?m] => assert (m (w1, cache) = (Ok tt, (w3, cache1))) as Hbody end.
  { fold k. rewrite (M_bind_step _ _ _ (Ok (drop (Z.to_nat k) ss)) (w1, cache)).
    2:{ apply M_try_Ok, on_sw_step. unfold on_blobs, M_zoom. simpl. by rewrite Hrd. }
    rewrite (M_bind_step _ _ _ tt (w1, cache1)) by done.
    rewrite (M_bind_step _ _ _ tt (mkWorld (w_db w) ps l (w_sent w), cache1))
      by (apply on_sw_step; by apply (on_locks_step _ w1)).
    apply on_sw_step. unfold sendResponse. rewrite try_send_spec, Hse. unfold w3, response_of.
    by rewrite Hname. }
  unfold M_defer. rewrite Hbody.
  unfold mbind, M_bind, M_try, on_sw, M_zoom, on_blobs, M_zoom. simpl.
  by destruct (wrappedBlob_Close bl ps) as [[| |] ps'].
Qed.

(** Up to the lookup of the blob: the name is locked for a reader. *)
Lemma onBlobReq_serves `{LevelDB, JSON, Secp256k1, Blake2b} now send_err blobsPath ms peer req h prevHash
    w cache hh :
  GetHeader (w_db w) (BlobReq_Name req) = Ok h → BlobReq_EpochHeight req ≤ h_EpochHeight h →
  BlobReq_SectorSize req ≠ MaxSectors → prev_hash (w_db w) req = Ok prevHash →
  Cache_Get now (cache_key req) cache = (Ok (None, None), cache) →
  lock_inv (w_locks w, hh) → held_w hh (BlobReq_Name req) = 0 →
  ∃ l, onBlobReq now send_err blobsPath ms peer req (w, cache) =
      serve_blob now send_err blobsPath ms peer req h prevHash
        (mkWorld (w_db w) (w_blobs w) l (w_sent w), cache) ∧
    lock_inv (l, mkHeld (upd (held_r hh) (BlobReq_Name req) 1) (held_w hh)).
Proof.
  intros Hh He Hm Hp Hc Hinv Hw. destruct (TryRLock_free _ _ _ Hinv Hw) as (l & Hl & Hinv').
  exists l. split; [|done]. unfold onBlobReq.
  rewrite (M_bind_step _ _ _ (Ok h) (w, cache))
    by (apply M_try_Ok, on_sw_step; unfold read_db; by rewrite Hh).
  rewrite decide_False by lia. rewrite decide_False by done.
  rewrite (M_bind_step _ _ _ _ _ (on_sw_step _ _ _ _ _ (on_locks_step _ _ _ _ Hl))). cbn [negb].
  rewrite (M_bind_step _ _ _ (Ok prevHash) (mkWorld (w_db w) (w_blobs w) l (w_sent w), cache))
    by (apply M_try_Ok, on_sw_step; unfold read_db; simpl; by rewrite Hp).
  rewrite (M_bind_step _ _ _ (None, None) (mkWorld (w_db w) (w_blobs w) l (w_sent w), cache))
    by (unfold on_cache, M_zoom; simpl; by rewrite Hc).
  done.
Qed.

(** A request from sector [k] is answered with the sectors from [k] on. *)
Lemma onBlobReq_responds `{LevelDBLaws, JSON, Secp256k1, Blake2b} now send_err blobsPath ms peer req h
    bl i P c ps w cache hh :
  let ss := sectors_of (Z.to_nat (h_SectorSize h)) c in
  let k := BlobReq_SectorSize req in
  consistent (w_db w) ps.1 bl i P c h → Store_Open blobsPath (h_Name h) (w_blobs w) = (Ok bl, ps) →
  Cache_Get now (cache_key req) cache = (Ok (None, None), cache) →
  lock_inv (w_locks w, hh) → held_w hh (h_Name h) = 0 → send_err peer = None →
  BlobReq_Name req = h_Name h → BlobReq_EpochHeight req ≤ h_EpochHeight h →
  0 ≤ k ≤ h_SectorSize h → k ≠ MaxSectors →
  let '(_, (w', _)) := onBlobReq now send_err blobsPath ms peer req (w, cache) in
  w_sent w' = w_sent w ++ [ToPeer peer (MBlobRes (response_of h ss k))] ∧ w_db w' = w_db w ∧
  lock_inv (w_locks w', hh).
Proof.
  intros ss k [Hop Hc Hh Hsz Hhash] Hopen Hcache Hinv Hw Hse Hn He Hk Hm.
  assert (zlen ss = h_SectorSize h) as Hss by (unfold ss, zlen; rewrite length_sectors_of; lia).
  destruct (onBlobReq_serves now send_err blobsPath ms peer req h
    (tip_from ZeroHash (take (Z.to_nat k) ss)) w cache hh) as (l & -> & Hl);
    rewrite ?Hn; try done; [eapply prev_hash_Ok; rewrite ?Hn; try done; lia|].
  rewrite Hn in Hl. assert (0 ≤ held_r hh (h_Name h)) as Hr by (by destruct (Hinv (h_Name h)) as (_ & ? & _)).
  pose proof (serve_blob_sends now send_err blobsPath ms peer req h bl i P c
    (mkWorld (w_db w) (w_blobs w) l (w_sent w)) cache hh ps) as Hs. simpl in Hs. rewrite Hn in Hs.
  by specialize (Hs Hopen Hop Hc Hsz eq_refl Hk Hl Hr Hse _ eq_refl).
Qed.


(** A node that has one sector of the name "foo", its blob open. *)
Definition served_db : DB :=
  (WithTx_only (SetHeaderTx demo_header1
     (go_copy ZeroSectorHashes (chain ZeroHash (sectors_of 1 zero_blob)))) demo_db).2.

Definition served_fs : FS := fs_set_inode 0 zero_blob demo_fs.

Definition served_world : World :=
  mkWorld served_db (served_fs, {[bs "foo" := mkPoolEntry demo_blob 1]}) NewMultiLocker [].

Lemma served_consistent : consistent served_db served_fs demo_blob 0 (bs "blob") zero_blob demo_header1.
Proof.
  destruct (SetHeader_stored demo_db demo_header1
    (go_copy ZeroSectorHashes (chain ZeroHash (sectors_of 1 zero_blob))) 0) as (db' & Hs & Hh & Hhs & _).
  - split; [by apply (bool_decide_unpack (Forall (λ c, Z_of_byte c < 128) (bs "foo")))|]. by split_and!.
  - apply go_copy_hashes_wf. unfold zlen. by rewrite length_sectors_of.
  - vm_compute. reflexivity.
  - done.
  - apply mkConsistent; [apply zero_blob_opened|apply zlen_zero_blob| |done|];
      unfold served_db; rewrite Hs; [exact Hh|exact Hhs].
Qed.


(** a request one past the largest sector size is not refused.  Any peer that
    asks for a name the node has, with a sector size of [MaxSectors + 1], gets the
    handler to index past the stored hashes. *)
Theorem blob_req_crashes `{LevelDB, JSON, Secp256k1, Blake2b} now send_err blobsPath ms peer req h hashes
    w cache hh :
  GetHeader (w_db w) (BlobReq_Name req) = Ok h → BlobReq_EpochHeight req ≤ h_EpochHeight h →
  GetSectorHashes (w_db w) (BlobReq_Name req) = Ok hashes → SectorHashes_wf hashes →
  lock_inv (w_locks w, hh) → held_w hh (BlobReq_Name req) = 0 →
  BlobReq_SectorSize req = MaxSectors + 1 →
  (onBlobReq now send_err blobsPath ms peer req (w, cache)).1 = Panic "index out of range".
Proof.
  intros Hh He Hg [Hlen _] Hinv Hw Hsz. destruct (TryRLock_free _ _ _ Hinv Hw) as (l & Hl & _).
  unfold onBlobReq. rewrite (M_bind_step _ _ _ (Ok h) (w, cache))
    by (apply M_try_Ok, on_sw_step; unfold read_db; by rewrite Hh).
  rewrite Hsz, decide_False by lia. rewrite decide_False by (unfold MaxSectors; lia).
  rewrite (M_bind_step _ _ _ _ _ (on_sw_step _ _ _ _ _ (on_locks_step _ _ _ _ Hl))). cbn [negb].
  assert (prev_hash (w_db w) req = Panic "index out of range") as Hp.
  { unfold prev_hash, GetSectorHash. rewrite Hsz, Hg. change (u16 (MaxSectors + 1 - 1)) with MaxSectors.
    rewrite decide_False by done. rewrite decide_False by (rewrite Hlen; lia).
    unfold index_hashes. by rewrite lookup_ge_None_2 by (unfold zlen, MaxSectors in *; lia). }
  unfold mbind, M_bind, M_try, on_sw, M_zoom, read_db. simpl. by rewrite Hp.
Qed.

Lemma blob_req_crashes_witness :
  (onBlobReq 0 no_err (bs "blobs") 1000 demo_peer (mkBlobReq (bs "foo") 3 4097)
    (served_world, NewCache)).1 = Panic "index out of range".
Proof.
  apply (blob_req_crashes 0 no_err (bs "blobs") 1000 demo_peer (mkBlobReq (bs "foo") 3 4097)
    demo_header1 (go_copy ZeroSectorHashes (chain ZeroHash (sectors_of 1 zero_blob)))
    served_world NewCache (mkHeld (λ _, 0) (λ _, 0))).
  - apply (co_header _ _ _ _ _ _ _ served_consistent).
  - done.
  - apply (co_hashes _ _ _ _ _ _ _ served_consistent).
  - apply go_copy_hashes_wf. unfold zlen. by rewrite length_sectors_of.
  - intros k. split_and!; [done..|by left].
  - done.
  - done.
Defined.

(** ** Updates *)

(** What the node says of a name: nothing newer, or its own header. *)
Definition update_answer `{LevelDB, JSON, Secp256k1} (db : DB) (free : bool) (msg : UpdateReq) : Message :=
  let name := UpdateReq_Name msg in
  match GetHeader db name with
  | Ok h => if free && bool_decide (UpdateReq_SectorSize msg < h_SectorSize h)
            then MUpdate (mkUpdate name (h_EpochHeight h) (h_SectorSize h))
            else MNilUpdate (NewNilUpdate name)
  | _ => MNilUpdate (NewNilUpdate name)
  end.

(** An update request is answered, always, and with one message: the node's
    header if it has more sectors than the peer and the name is not being written,
    the nil update otherwise.  The database, the blobs and the locks held stay as
    they were. *)
Theorem update_req_reply `{LevelDB, JSON, Secp256k1, Blake2b} send_err peer msg w hh :
  lock_inv (w_locks w, hh) → (∀ s, GetHeader (w_db w) (UpdateReq_Name msg) ≠ Panic s) →
  ∃ w', UpdateReqHandler send_err peer msg w = (Ok tt, w') ∧
    w_sent w' = w_sent w ++
      match send_err peer with
      | None => [ToPeer peer (update_answer (w_db w)
                  (bool_decide (held_w hh (UpdateReq_Name msg) = 0)) msg)]
      | Some _ => []
      end ∧
    w_db w' = w_db w ∧ w_blobs w' = w_blobs w ∧ lock_inv (w_locks w', hh).
Proof.
  intros Hinv Hnp. set (name := UpdateReq_Name msg) in *. unfold UpdateReqHandler. fold name.
  destruct (TryRLock_spec _ _ name Hinv) as (l & Hl & Hinv').
  rewrite (M_bind_step _ _ _ _ _ (on_locks_step _ _ _ _ Hl)). unfold update_answer. fold name.
  revert Hinv'. destruct (bool_decide_reflect (held_w hh name = 0)) as [Hw|Hw]; cbn [negb andb]; intros Hinv'.
  2:{ rewrite try_send_spec. simpl. eexists. split; [done|]. split_and!; [|done..|].
      - simpl. by destruct (GetHeader (w_db w) name).
      - destruct hh. eapply upd_ext; [..|exact Hinv']; [|done].
        intros k. simpl. unfold upd. case_decide; lia. }
  destruct (RUnlock_taken _ _ _ Hinv') as (l' & Hu & Hl'); [by destruct (Hinv name) as (_ & ? & _)|].
  exists (mkWorld (w_db w) (w_blobs w) l' (w_sent w ++ match send_err peer with
    | None => [ToPeer peer (update_answer (w_db w) true msg)] | Some _ => [] end)).
  split; [|done]. unfold M_defer. set (w1 := mkWorld _ _ l _).
  match goal with |- context [let '(_, _) := ?m w1 in _] => assert (m w1 = (Ok tt, mkWorld (w_db w) (w_blobs w) l
    (w_sent w ++ match send_err peer with
     | None => [ToPeer peer (update_answer (w_db w) true msg)] | Some _ => [] end))) as -> end.
  { unfold update_answer, mbind, M_bind, M_try, read_db. fold name. simpl.
    destruct (GetHeader (w_db w) name) as [h| |s] eqn:Hh; [|by rewrite try_send_spec|by destruct (Hnp s)].
    destruct (bool_decide_reflect (UpdateReq_SectorSize msg < h_SectorSize h)); case_decide;
      try lia; by rewrite try_send_spec. }
  by rewrite (on_locks_step _ (mkWorld _ _ l _) _ _ Hu).
Qed.

Lemma update_req_reply_witness :
  ∃ w', UpdateReqHandler no_err demo_peer (mkUpdateReq (bs "foo") 3 0) served_world = (Ok tt, w') ∧
    w_sent w' = [ToPeer demo_peer (MUpdate (mkUpdate (bs "foo") 3 1))].
Proof.
  destruct (update_req_reply no_err demo_peer (mkUpdateReq (bs "foo") 3 0) served_world
    (mkHeld (λ _, 0) (λ _, 0))) as (w' & Hr & Hs & _).
  - intros k. split_and!; [done..|by left].
  - intros s Hs. exact (Ok_not_Panic _ _ (eq_trans (eq_sym (co_header _ _ _ _ _ _ _ served_consistent)) Hs)).
  - exists w'. split; [exact Hr|]. rewrite Hs. unfold update_answer.
    change (w_db served_world) with served_db. cbn [UpdateReq_Name].
    rewrite (co_header _ _ _ _ _ _ _ served_consistent : GetHeader served_db (bs "foo") = Ok demo_header1).
    reflexivity.
Defined.
