(* ===== verification/BanList.v ===== *)
(** * Package protocol: ban lists

    [src/protocol/ban_list.go] and [moderation.go].  What a server answers is a
    parameter: the bytes its response body delivers, or the error of the request. *)

From S2P Require Import Prelude GoLib Crypto Instances Sector OsFile BlobIO BlobTx Names BlobStore.
From S2P Require Import Util StoreDB StoreInstances Store Queue.

#[local] Opaque Size.

(** ** The standard library *)

(** [strings.Split] by a separator of one byte. *)
Fixpoint strings_Split (sep : byte) (s : bytes) : list bytes :=
  match s with
  | [] => [[]]
  | c :: s =>
      if decide (c = sep) then [] :: strings_Split sep s
      else match strings_Split sep s with
           | l :: ls => (c :: l) :: ls
           | [] => [[c]]
           end
  end.

(** [strings.TrimLeft] and [strings.Trim], of the bytes [cut] holds of. *)
Fixpoint trim_left (cut : byte → bool) (s : bytes) : bytes :=
  match s with
  | [] => []
  | c :: s' => if cut c then trim_left cut s' else s
  end.

Definition strings_Trim (cut : byte → bool) (s : bytes) : bytes :=
  reverse (trim_left cut (reverse (trim_left cut s))).

Definition is_digit (c : byte) : bool := bool_decide (48 ≤ Z_of_byte c ≤ 57).

Definition digits_value (s : bytes) : Z := foldl (λ n c, 10 * n + (Z_of_byte c - 48)) 0 s.

(** [strconv.Atoi] of digits. *)
Definition strconv_Atoi (s : bytes) : result Z :=
  let n := digits_value s in
  if decide (2 ^ 63 ≤ n) then Err (ENew "value out of range") else Ok n.

(** [bufio.Scanner] with its default split function: the lines, without a carriage
    return at their end, the last one only if it is not empty.  The scanner stops
    at a line that does not fit its buffer. *)
Definition MaxScanTokenSize : Z := 64 * 1024.

Definition dropCR (l : bytes) : bytes :=
  match reverse l with
  | c :: r => if decide (c = x0d) then reverse r else l
  | [] => l
  end.

Fixpoint scanned (ls : list bytes) : list bytes :=
  match ls with
  | [] => []
  | l :: ls =>
      if decide (MaxScanTokenSize ≤ zlen l) then []
      else if decide (l = [] ∧ ls = []) then []
      else dropCR l :: scanned ls
  end.

Definition Scanner_lines (data : bytes) : list bytes := scanned (strings_Split x0a data).

(** ** ban_list.go *)

Definition CurrentBanListVersion : Z := 1.

(** [^v([\d]+)$]. *)
Definition verRegex_MatchString (s : bytes) : bool :=
  match s with
  | c :: ((_ :: _) as ds) => bool_decide (c = x76) && forallb is_digit ds
  | _ => false
  end.

Definition ParseBanListVersion (line : bytes) : result Z :=
  match strings_Split x3a line with
  | [s0; s1] =>
      if decide (s0 ≠ bs "FNBAN") then Err (ENew "ban list version must start with FNBAN")
      else if negb (verRegex_MatchString s1)
      then Err (ENew "ban list version must end with v followed by a digit")
      else
        match strconv_Atoi (tail s1) with
        | Ok verInt => Ok verInt
        | Err _ => Panic "value out of range"
        | Panic w => Panic w
        end
  | _ => Err (ENew "ban list version must consist of two colon-separated components")
  end.

Definition is_blank (c : byte) : bool := bool_decide (c = x20) || bool_decide (c = x09).

Fixpoint read_names (lines : list bytes) : result (list bytes) :=
  match lines with
  | [] => Ok []
  | line :: lines =>
      let name := strings_Trim is_blank line in
      _ ← wrapping "invalid name" (ValidateName name);
      names ← read_names lines;
      Ok (name :: names)
  end.

(** The error of the scanner is not looked at. *)
Definition ReadBanList (data : bytes) : result (list bytes) :=
  match Scanner_lines data with
  | [] => Err (ENew "ban list must start with version line")
  | firstLine :: lines =>
      version ← ParseBanListVersion firstLine;
      if decide (version ≠ CurrentBanListVersion) then Err (ENew "unsupported ban list version")
      else read_names lines
  end.

Section moderation.
Context `{LevelDB, JSON, Secp256k1, Blake2b}.
Context (now : Time) (http_Get : bytes → result bytes) (blobsPath : bytes).

Definition FetchListFile (url : bytes) : result (list bytes) :=
  body ← wrapping "failed to fetch list" (http_Get url);
  ReadBanList body.

(** ** moderation.go *)

Definition BanListUpdateInterval : Z := 7 * 24 * Hour.

(** A transaction of a blob of the pool. *)
Definition with_blob_tx (bl : Blob) (m : M TS unit) : M PS unit :=
  λ s, let '(r, (fs, _)) := m (s.1, Blob_Transaction bl) in (r, (fs, s.2)).

Definition delete_blob (name : bytes) : M PS unit :=
  bl ← M_wrapping "error opening blob" (Store_Open blobsPath name);
  with_blob_tx bl
    (M_wrapping "error removing banned name" Tx_Remove;;
     M_wrapping "error committing transaction" Tx_Commit);;
  M_wrapping "error closing blob" (wrappedBlob_Close bl).

Definition on_rest {S T A} (m : M S A) : M (T * S) A := M_zoom snd (λ s t, (t.1, s)) m.

Fixpoint ban_names (names : list bytes) : M (TX * PS) unit :=
  match names with
  | [] => mret tt
  | name :: names =>
      on_tx (M_wrapping "error banning name" (BanName name));;
      exists_ ← on_rest (M_wrapping "error checking blob existence" (Store_Exists blobsPath name));
      (if exists_ : bool then on_rest (delete_blob name) else mret tt);;
      ban_names names
  end.

Fixpoint ban_lists (lists : list bytes) : M (TX * PS) unit :=
  match lists with
  | [] => mret tt
  | url :: lists =>
      listNames ← M_wrapping "failed to fetch ban list" (M_lift (FetchListFile url));
      ban_names listNames;;
      ban_lists lists
  end.

Definition ingest (lists : list bytes) : M (TX * PS) unit :=
  on_tx (M_wrapping "error truncating banned names" TruncateBannedNames);;
  ban_lists lists.

(** The database and the blobs of the world. *)
Definition on_db_blobs {A} (m : M (DB * PS) A) : M World A :=
  M_zoom (λ w, (w_db w, w_blobs w)) (λ s w, mkWorld s.1 s.2 (w_locks w) (w_sent w)) m.

Definition IngestBanLists (lists : list bytes) : M World unit :=
  currRev ← M_wrapping "failed to fetch latest ban list revision" (read_db GetLastBanListImportAt);
  if decide (time_Sub now currRev < BanListUpdateInterval) then mret tt
  else M_wrapping "error ingesting ban lists" (on_db_blobs (WithTx (ingest lists))).
End moderation.

(** ** Lemmas: lists *)

Lemma Split_line sep l rest :
  sep ∉ l → strings_Split sep (l ++ sep :: rest) = l :: strings_Split sep rest.
Proof.
  induction l as [|c l IH]; intros Hs; simpl; [by rewrite decide_True|].
  rewrite decide_False by set_solver. by rewrite IH by set_solver.
Qed.

Lemma trim_left_id cut s : (∀ c, head s = Some c → cut c = false) → trim_left cut s = s.
Proof. destruct s as [|c s]; intros Hc; [done|]. simpl. by rewrite Hc. Qed.

Lemma Trim_id cut s :
  (∀ c, head s = Some c → cut c = false) → (∀ c, last s = Some c → cut c = false) →
  strings_Trim cut s = s.
Proof.
  intros Hh Hl. unfold strings_Trim. rewrite (trim_left_id _ s) by done.
  rewrite trim_left_id, reverse_involutive; [done|]. intros c. rewrite head_reverse. apply Hl.
Qed.

Lemma dropCR_id l : (∀ c, last l = Some c → c ≠ x0d) → dropCR l = l.
Proof.
  intros Hl. unfold dropCR. pose proof (head_reverse l) as Hh.
  destruct (reverse l) as [|c r]; [done|]. by rewrite decide_False by (apply Hl; by rewrite <- Hh).
Qed.

Lemma alnum_not c : alnum c → is_blank c = false ∧ c ≠ x0d ∧ c ≠ x0a.
Proof. intros Hc. by destruct c; (split_and!; [done..]) || (vm_compute in Hc; naive_solver). Qed.

Lemma valid_name_line name :
  valid_name name →
  x0a ∉ name ∧ zlen name < MaxScanTokenSize ∧ name ≠ [] ∧ dropCR name = name ∧
  strings_Trim is_blank name = name.
Proof.
  intros (Hlen & Hc & Hh & Hl & _). split_and!.
  - intros Hin. rewrite Forall_forall in Hc. destruct (Hc _ Hin) as [Ha|[Ha|Ha]]; try done.
    by apply alnum_not in Ha as (_ & _ & ?).
  - unfold MaxNameLen, MaxScanTokenSize in *. lia.
  - intros ->. unfold zlen in Hlen. simpl in Hlen. lia.
  - apply dropCR_id. intros c Hc'. by apply alnum_not, Hl.
  - apply Trim_id; intros c Hc'; by apply alnum_not; auto.
Qed.

(** The list of these names, one a line. *)
Definition ban_list_file (names : list bytes) : bytes :=
  bs "FNBAN:v1" ++ x0a :: mjoin ((λ n, n ++ [x0a]) <$> names).

Lemma Split_names names :
  Forall valid_name names →
  strings_Split x0a (mjoin ((λ n, n ++ [x0a]) <$> names)) = names ++ [[]].
Proof.
  induction 1 as [|n names Hn _ IH]; [done|]. rewrite fmap_cons.
  change (mjoin ((n ++ [x0a]) :: ?l)) with ((n ++ [x0a]) ++ mjoin l). rewrite <- app_assoc. cbn [app].
  rewrite Split_line by (by apply valid_name_line in Hn as (? & _)). by rewrite IH.
Qed.

Lemma scanned_names names : Forall valid_name names → scanned (names ++ [[]]) = names.
Proof.
  induction 1 as [|n names Hn _ IH]; [by vm_compute|]. simpl.
  apply valid_name_line in Hn as (_ & ? & ? & -> & _).
  rewrite decide_False by lia. rewrite decide_False by naive_solver. by rewrite IH.
Qed.

Lemma read_names_valid names : Forall valid_name names → read_names names = Ok names.
Proof.
  induction 1 as [|n names Hn _ IH]; [done|]. simpl.
  pose proof Hn as (_ & _ & _ & _ & ->)%valid_name_line. apply ValidateName_Ok in Hn as ->. simpl.
  by rewrite IH.
Qed.

Lemma read_names_Ok lines names : read_names lines = Ok names → Forall valid_name names.
Proof.
  revert names. induction lines as [|l lines IH]; intros names; simpl; [by intros [= <-]|].
  destruct (ValidateName (strings_Trim is_blank l)) as [[]| |] eqn:Hv; try done. simpl.
  destruct (read_names lines) as [ns| |]; try done. intros [= <-].
  constructor; [by apply ValidateName_Ok|by apply IH].
Qed.

Lemma ReadBanList_Ok data names : ReadBanList data = Ok names → Forall valid_name names.
Proof.
  unfold ReadBanList. destruct (Scanner_lines data) as [|l ls]; [done|].
  destruct (ParseBanListVersion l) as [v| |]; try done. simpl. case_decide; [done|]. apply read_names_Ok.
Qed.

(** A list of names that are valid, one a line after the version, is read as
    these names. *)
Theorem ban_list_roundtrip names :
  Forall valid_name names → ReadBanList (ban_list_file names) = Ok names.
Proof.
  intros Hn. unfold ReadBanList, Scanner_lines, ban_list_file.
  rewrite Split_line by (by apply (bool_decide_unpack (x0a ∉ bs "FNBAN:v1"))).
  rewrite Split_names by done. cbn [scanned]. rewrite decide_False by (by apply Z.nle_gt).
  rewrite decide_False by (intros [? _]; done). rewrite scanned_names by done.
  change (ParseBanListVersion (dropCR (bs "FNBAN:v1"))) with (Ok 1 : result Z). simpl.
  by apply read_names_valid.
Qed.

Lemma ban_list_roundtrip_witness :
  ReadBanList (ban_list_file [bs "war"; bs "peace"]) = Ok [bs "war"; bs "peace"].
Proof.
  apply (ban_list_roundtrip [bs "war"; bs "peace"]).
  apply Forall_cons_2; [|apply Forall_cons_2; [|apply Forall_nil_2]];
    apply ValidateName_Ok; vm_compute; reflexivity.
Defined.

(** ** Lemmas: blobs that are deleted *)

Section ingest_lemmas.
Context `{HL : LevelDBLaws, JSON, Secp256k1, Blake2b} (blobsPath : bytes).

(** The file of a name. *)
Definition file_of (name : bytes) (p : path) : Prop :=
  ∃ sub, PathifyName name = Ok sub ∧ p = Path (path_Join [blobsPath; sub]).

Lemma NewInStorePath_exists name p ino fs :
  file_of name p → fs_names fs !! p = Some (File ino) →
  ∃ fs', NewInStorePath blobsPath name fs = (Ok (newFromFile name (fs_next fs)), fs') ∧
    fs_names fs' = fs_names fs ∧ fs_files fs' !! fs_next fs = Some (mkFile ino p 0 true).
Proof.
  intros (sub & Hp & ->) Hf. unfold NewInStorePath.
  rewrite (M_bind_step _ _ _ sub fs) by (unfold M_lift; by rewrite Hp).
  rewrite (M_bind_step _ _ _ true fs)
    by (unfold fileExists, mbind, M_bind, M_try, os_Stat; by rewrite Hf).
  rewrite (M_bind_step _ _ _ (fs_next fs) (fs_bump (fs_set_file (fs_next fs)
    (mkFile ino (Path (path_Join [blobsPath; sub])) 0 true) fs))) by (unfold OpenFile; by rewrite Hf).
  eexists. split; [|split].
  - unfold File_Truncate, open_file, mbind, M_bind. simpl. rewrite lookup_insert_eq. done.
  - done.
  - simpl. by rewrite lookup_insert_eq.
Qed.

Lemma delete_blob_Ok (name : bytes) (p : path) (ino : nat) (fs : FS) (pool : gmap bytes poolEntry) :
  file_of name p → fs_names fs !! p = Some (File ino) → pool !! name = None →
  ∃ fs', delete_blob blobsPath name (fs, pool) = (Ok tt, (fs', pool)) ∧
    fs_names fs' = delete p (fs_names fs).
Proof.
  intros Hp Hf Hpool. destruct (NewInStorePath_exists name p ino fs Hp Hf) as (fs1 & Ho & Hn & Hfd).
  set (fd := fs_next fs) in *. set (bl := newFromFile name fd).
  set (fs2 := fs_del_name p fs1).
  unfold delete_blob. rewrite (M_bind_step _ _ _ bl (fs1, <[name := mkPoolEntry bl 1]> pool)).
  2:{ unfold M_wrapping, Store_Open, Pool_Get, mbind, M_bind, pool_fs, M_zoom. simpl.
      rewrite Hpool. simpl. by rewrite Ho. }
  rewrite (M_bind_step _ _ _ tt (fs2, <[name := mkPoolEntry bl 1]> pool)).
  2:{ unfold with_blob_tx, M_wrapping, Tx_Remove, Tx_Commit, txRemover, File_Name, mbind, M_bind, M_must,
        on_fs, M_zoom, os_Remove. simpl. rewrite Hfd. simpl. by rewrite Hn, Hf. }
  exists (fs_set_file fd (mkFile ino p 0 false) fs2). split.
  - unfold M_wrapping, wrappedBlob_Close, Pool_Put, mbind, M_bind, pool_set, pool_fs, Blob_Close, File_Close,
      M_zoom, open_file, mbind, M_bind. simpl. rewrite lookup_insert_eq. simpl. rewrite Hfd. simpl.
    by rewrite insert_insert_eq, delete_insert_id.
  - simpl. by rewrite Hn.
Qed.

(** No directory is in the way of the files of these names. *)
Definition deletable (names : list bytes) (fs : FS) : Prop :=
  ∀ n, n ∈ names → ∃ p, file_of n p ∧ fs_names fs !! p ≠ Some Dir.

Definition deleted (names : list bytes) (fs : FS) : Prop :=
  ∀ n p, n ∈ names → file_of n p → fs_names fs !! p = None.

Definition ban_keys (names : list bytes) : list bytes := (λ n, banPrefix [n]) <$> names.

Lemma file_of_fun n p q : file_of n p → file_of n q → p = q.
Proof. intros (s & Hs & ->) (t & Ht & ->). congruence. Qed.

Lemma Store_Exists_file (n : bytes) (p : path) (fs : FS) (pool : gmap bytes poolEntry) :
  file_of n p → fs_names fs !! p ≠ Some Dir →
  Store_Exists blobsPath n (fs, pool) = (Ok (bool_decide (is_Some (fs_names fs !! p))), (fs, pool)).
Proof.
  intros (sub & Hs & ->) Hd. unfold Store_Exists. rewrite (M_bind_step _ _ _ sub (fs, pool))
    by (unfold M_lift; by rewrite Hs).
  unfold pool_fs, M_zoom, fileExists, mbind, M_bind, M_try, os_Stat. simpl.
  destruct (fs_names fs !! _) as [[ino|]|]; try done.
Qed.

(** One name: the blob is deleted if there is one. *)
Lemma ban_name_step n names tx fs :
  deletable [n] fs →
  ∃ tx' fs', ban_names blobsPath (n :: names) (tx, (fs, NewPool)) = ban_names blobsPath names (tx', (fs', NewPool)) ∧
    tx_map tx' = <[banPrefix [n] := [x01]]> (tx_map tx) ∧ fs_names fs' ⊆ fs_names fs ∧ deleted [n] fs'.
Proof.
  intros Hd. destruct (Hd n) as (p & Hp & Hnd); [set_solver|]. cbn [ban_names].
  destruct (tx_Put_law tx (banPrefix [n]) [x01]) as (tx1 & Hput & Hm).
  rewrite (M_bind_step _ _ _ tt (tx1, (fs, NewPool)))
    by (unfold on_tx, M_zoom, BanName, M_wrapping; simpl; by rewrite Hput).
  rewrite (M_bind_step _ _ _ (bool_decide (is_Some (fs_names fs !! p))) (tx1, (fs, NewPool)))
    by (unfold on_rest, M_zoom, M_wrapping; simpl; by rewrite (Store_Exists_file n p)).
  assert (∀ fs', fs_names fs' !! p = None → deleted [n] fs') as Hdel.
  { intros fs' Hfs' n' q ->%list_elem_of_singleton Hq. by rewrite (file_of_fun _ _ _ Hq Hp). }
  destruct (fs_names fs !! p) as [[ino|]|] eqn:Hf; [|done|].
  - destruct (delete_blob_Ok n p ino fs NewPool) as (fs' & Hdb & Hns); [done..|].
    exists tx1, fs'. rewrite bool_decide_true by done. split; [|split_and!].
    + rewrite (M_bind_step _ _ _ tt (tx1, (fs', NewPool))); [done|].
      unfold on_rest, M_zoom. simpl. by rewrite Hdb.
    + done.
    + rewrite Hns. apply delete_subseteq.
    + apply Hdel. by rewrite Hns, lookup_delete_eq.
  - exists tx1, fs. rewrite bool_decide_false by (by intros [? ?]). split_and!; [done..|by apply Hdel].
Qed.

Lemma names_subset p fs fs' :
  fs_names fs' ⊆ fs_names fs → fs_names fs !! p = None → fs_names fs' !! p = None.
Proof. intros Hs Hn. by eapply lookup_weaken_None. Qed.

Lemma deletable_mono names fs fs' :
  fs_names fs' ⊆ fs_names fs → deletable names fs → deletable names fs'.
Proof.
  intros Hs Hd n Hn. destruct (Hd n Hn) as (p & Hp & Hnd). exists p. split; [done|].
  intros Hp'. by destruct Hnd, (lookup_weaken _ _ _ _ Hp' Hs).
Qed.

Lemma ban_names_Ok names tx fs :
  deletable names fs →
  ∃ tx' fs', ban_names blobsPath names (tx, (fs, NewPool)) = (Ok tt, (tx', (fs', NewPool))) ∧
    (∀ k, tx_map tx' !! k = if decide (k ∈ ban_keys names) then Some [x01] else tx_map tx !! k) ∧
    fs_names fs' ⊆ fs_names fs ∧ deleted names fs'.
Proof.
  revert tx fs. induction names as [|n names IH]; intros tx fs Hd.
  { exists tx, fs. split_and!; try done. intros k ? Hin. set_solver. }
  destruct (ban_name_step n names tx fs) as (tx1 & fs1 & Hs & Hm & Hsub & Hdel).
  { intros n' Hn'. apply Hd. set_solver. }
  destruct (IH tx1 fs1) as (tx2 & fs2 & Hs2 & Hm2 & Hsub2 & Hdel2).
  { apply (deletable_mono _ fs); [done|]. intros n' Hn'. apply Hd. set_solver. }
  exists tx2, fs2. split_and!; [congruence| |by etrans|].
  - intros k. rewrite Hm2, Hm. unfold ban_keys. cbn [fmap list_fmap].
    destruct (decide (k ∈ _ <$> names)) as [Hk|Hk]; [by rewrite decide_True by set_solver|].
    destruct (decide (k = banPrefix [n])) as [->|Hne].
    + by rewrite lookup_insert_eq, decide_True by set_solver.
    + by rewrite lookup_insert_ne, decide_False by set_solver.
  - intros n' p [->|Hn']%elem_of_cons Hp; [|by eapply Hdel2].
    eapply names_subset; [exact Hsub2|]. eapply Hdel; [|done]. set_solver.
Qed.

Context (now : Time) (http_Get : bytes → result bytes).

(** The lists before one that fails, or all of them. *)
Lemma ban_lists_app lists nss rest tx fs :
  Forall2 (λ url names, FetchListFile http_Get url = Ok names) lists nss →
  deletable (mjoin nss) fs →
  ∃ tx' fs', ban_lists http_Get blobsPath (lists ++ rest) (tx, (fs, NewPool)) =
      ban_lists http_Get blobsPath rest (tx', (fs', NewPool)) ∧
    (∀ k, tx_map tx' !! k = if decide (k ∈ ban_keys (mjoin nss)) then Some [x01] else tx_map tx !! k) ∧
    fs_names fs' ⊆ fs_names fs ∧ deleted (mjoin nss) fs'.
Proof.
  intros HF. revert tx fs. induction HF as [|url names lists nss Hu _ IH]; intros tx fs Hd.
  { exists tx, fs. split_and!; try done. intros n p Hin. set_solver. }
  change (mjoin (names :: nss)) with (names ++ mjoin nss) in *. cbn [app ban_lists].
  rewrite (M_bind_step _ _ _ names (tx, (fs, NewPool))) by (unfold M_wrapping, M_lift; by rewrite Hu).
  destruct (ban_names_Ok names tx fs) as (tx1 & fs1 & Hs & Hm & Hsub & Hdel).
  { intros n Hn. apply Hd. set_solver. }
  rewrite (M_bind_step _ _ _ _ _ Hs). destruct (IH tx1 fs1) as (tx2 & fs2 & Hs2 & Hm2 & Hsub2 & Hdel2).
  { apply (deletable_mono _ fs); [done|]. intros n Hn. apply Hd. set_solver. }
  exists tx2, fs2. split_and!; [done| |by etrans|].
  - intros k. rewrite Hm2, Hm. unfold ban_keys. rewrite fmap_app.
    repeat case_decide; set_solver.
  - intros n p [Hn|Hn]%elem_of_app Hp; [|by eapply Hdel2].
    eapply names_subset; [exact Hsub2|]. by eapply Hdel.
Qed.

(** The state after the lists of [nss] have been ingested. *)
Record ingested (nss : list (list bytes)) (w w' : World) : Prop := mkIngested {
  in_banned : ∀ n, NameIsBanned (w_db w') n = Ok (bool_decide (n ∈ mjoin nss));
  in_others : ∀ k, ¬ bansPrefix [] `prefix_of` k → db_map (w_db w') !! k = db_map (w_db w) !! k;
  in_deleted : ∀ n, n ∈ mjoin nss → (Store_Exists blobsPath n (w_blobs w')).1 = Ok false;
  in_files : fs_names (w_blobs w').1 ⊆ fs_names (w_blobs w).1;
}.

Lemma banPrefix_prefix n : bansPrefix [] `prefix_of` banPrefix [n].
Proof. exists (bs "/ban/" ++ n). done. Qed.

Lemma ban_keys_elem n names : banPrefix [n] ∈ ban_keys names ↔ n ∈ names.
Proof.
  unfold ban_keys. rewrite list_elem_of_fmap. split; [|by eauto].
  by intros (m & <-%Prefixer_inj & ?).
Qed.

Lemma ingest_spec lists nss rest w fs rev r :
  Forall2 (λ url names, FetchListFile http_Get url = Ok names) lists nss →
  deletable (mjoin nss) fs → w_blobs w = (fs, NewPool) →
  GetLastBanListImportAt (w_db w) = Ok rev → BanListUpdateInterval ≤ time_Sub now rev →
  (∀ s, ban_lists http_Get blobsPath rest s = (r, s)) → (∀ s, r ≠ Panic s) →
  ∃ w', IngestBanLists now http_Get blobsPath (lists ++ rest) w =
      (wrapping "error ingesting ban lists" r, w') ∧ ingested nss w w'.
Proof.
  intros HF Hd Hw Hrev Hdue Hrest Hnp. unfold IngestBanLists.
  rewrite (M_bind_step _ _ _ rev w) by (unfold M_wrapping, read_db; by rewrite Hrev).
  rewrite decide_False by lia.
  destruct (db_OpenTransaction_law (w_db w)) as (tx & Ho & Htx).
  destruct (delete_prefix_spec "error deleting ban store key" (bansPrefix []) tx) as (tx1 & Ht & Hm1).
  destruct (ban_lists_app lists nss rest tx1 fs HF Hd) as (tx2 & fs2 & Hl & Hm2 & Hsub & Hdel).
  assert (ingest http_Get blobsPath (lists ++ rest) (tx, (fs, NewPool)) = (r, (tx2, (fs2, NewPool)))) as Hi.
  { unfold ingest. rewrite (M_bind_step _ _ _ tt (tx1, (fs, NewPool)))
      by (unfold on_tx, M_zoom, M_wrapping, TruncateBannedNames; simpl; by rewrite Ht).
    by rewrite Hl. }
  destruct (tx_Commit_law tx2 (w_db w)) as (db' & Hc & Hdb).
  exists (mkWorld db' (fs2, NewPool) (w_locks w) (w_sent w)).
  pose proof (WithTx_Ok _ _ _ _ _ _ _ Ho Hi Hnp) as Htr. rewrite Hc in Htr.
  split; [unfold M_wrapping, on_db_blobs, M_zoom; rewrite Hw; by rewrite Htr|].
  constructor; simpl.
  - intros n. unfold NameIsBanned. rewrite db_Has_law, Hdb, Hm2, Hm1.
    destruct (decide (n ∈ mjoin nss)) as [Hn|Hn].
    + rewrite decide_True by (by apply ban_keys_elem). by rewrite !bool_decide_true.
    + rewrite decide_False by (by rewrite ban_keys_elem).
      rewrite decide_True by apply banPrefix_prefix. by rewrite !bool_decide_false by (done || by intros [? ?]).
  - intros k Hk. rewrite Hdb, Hm2, Hm1, <- Htx. rewrite decide_False; [by rewrite decide_False|].
    intros (n & -> & _)%list_elem_of_fmap. apply Hk, banPrefix_prefix.
  - intros n Hn. destruct (Hd n Hn) as (p & Hp & _). rewrite (Store_Exists_file n p) by (done || by rewrite (Hdel n p)).
    by rewrite (Hdel n p).
  - by rewrite Hw.
Qed.
End ingest_lemmas.


(** A list that cannot be fetched, or does not parse, lifts the bans of the
    lists from it on: the error is returned, and the table that was emptied before
    is committed with the names of the lists before it only. *)
Theorem failed_list_unbans `{LevelDBLaws, JSON, Secp256k1, Blake2b} now http_Get blobsPath lists nss url
    rest w fs rev e :
  Forall2 (λ url names, FetchListFile http_Get url = Ok names) lists nss →
  FetchListFile http_Get url = Err e →
  deletable blobsPath (mjoin nss) fs → w_blobs w = (fs, NewPool) →
  GetLastBanListImportAt (w_db w) = Ok rev → BanListUpdateInterval ≤ time_Sub now rev →
  ∃ w' e', IngestBanLists now http_Get blobsPath (lists ++ url :: rest) w = (Err e', w') ∧
    ∀ n, n ∉ mjoin nss → NameIsBanned (w_db w') n = Ok false.
Proof.
  intros HF Hu Hd Hw Hrev Hdue.
  destruct (ingest_spec blobsPath now http_Get lists nss (url :: rest) w fs rev
    (Err (EWrap e "failed to fetch ban list"))) as (w' & Hi & Hin); try done.
  { intros s. cbn [ban_lists]. unfold mbind, M_bind, M_wrapping, M_lift. by rewrite Hu. }
  exists w'. eexists. split; [exact Hi|]. intros n Hn. rewrite (in_banned _ _ _ _ Hin).
  by rewrite bool_decide_false.
Qed.

(** A server with one list, and none at the other addresses. *)
Definition demo_get (url : bytes) : result bytes :=
  if decide (url = bs "a") then Ok (ban_list_file [bs "foo"]) else Err (ENew "no route to host").

Definition ban_world : World :=
  mkWorld (WithTx_only (BanName (bs "bar")) empty_db).2 (empty_fs, NewPool) NewMultiLocker [].

Lemma demo_deletable : deletable (bs "blobs") [bs "foo"] empty_fs.
Proof.
  intros n ->%list_elem_of_singleton.
  destruct (PathifyName (bs "foo")) as [sub| |] eqn:Hs; [|vm_compute in Hs; discriminate..].
  exists (Path (path_Join [bs "blobs"; sub])). split; [by exists sub|done].
Qed.


Lemma failed_list_unbans_witness :
  ∃ w' e', IngestBanLists (8 * 24 * Hour) demo_get (bs "blobs") [bs "b"] ban_world = (Err e', w') ∧
    NameIsBanned (w_db w') (bs "bar") = Ok false.
Proof.
  destruct (failed_list_unbans (8 * 24 * Hour) demo_get (bs "blobs") [] [] (bs "b") [] ban_world empty_fs
    (time_Unix 0) (EWrap (ENew "no route to host") "failed to fetch list")) as (w' & e' & Hi & Hb).
  - apply Forall2_nil_2.
  - reflexivity.
  - by intros n Hn%not_elem_of_nil.
  - done.
  - vm_compute. reflexivity.
  - by apply Z.leb_le.
  - exists w', e'. split; [exact Hi|]. apply Hb, not_elem_of_nil.
Defined.

(** The version is a number of any length for the regular expression, and the
    comment that the conversion cannot fail is wrong. *)
Example ban_list_version_panics :
  ParseBanListVersion (bs "FNBAN:v9223372036854775808") = Panic "value out of range".
Proof. reflexivity. Qed.

Lemma scanned_cut names l rest :
  Forall valid_name names → x0a ∉ l → MaxScanTokenSize ≤ zlen l →
  scanned (strings_Split x0a (mjoin ((λ n, n ++ [x0a]) <$> names) ++ l ++ x0a :: rest)) = names.
Proof.
  intros Hn Hl Hz. induction Hn as [|n names Hv _ IH].
  { cbn [fmap list_fmap mjoin list_join app]. rewrite Split_line by done. cbn [scanned].
    by rewrite decide_True. }
  rewrite fmap_cons. change (mjoin ((n ++ [x0a]) :: ?l)) with ((n ++ [x0a]) ++ mjoin l).
  rewrite <- !app_assoc. cbn [app]. apply valid_name_line in Hv as (? & ? & ? & Hd & _).
  rewrite Split_line by done. cbn [scanned]. rewrite decide_False by lia.
  rewrite decide_False by naive_solver. by rewrite Hd, IH.
Qed.

(** A line that is too long ends the list, without an error. *)
Lemma ban_list_cut names l rest :
  Forall valid_name names → x0a ∉ l → MaxScanTokenSize ≤ zlen l →
  ReadBanList (ban_list_file names ++ l ++ x0a :: rest) = Ok names.
Proof.
  intros Hn Hl Hz. unfold ReadBanList, Scanner_lines, ban_list_file. rewrite <- app_assoc. cbn [app].
  rewrite Split_line by (by apply (bool_decide_unpack (x0a ∉ bs "FNBAN:v1"))).
  cbn [scanned]. rewrite decide_False by (by apply Z.nle_gt).
  rewrite decide_False by (intros [? _]; done). rewrite scanned_cut by done.
  change (ParseBanListVersion (dropCR (bs "FNBAN:v1"))) with (Ok 1 : result Z). simpl.
  by apply read_names_valid.
Qed.
