(* ===== verification/NetIP.v ===== *)
(** * Addresses of package net

    [ParseIP], [IP.To4], [IP.To16] and [IP.String] of the Go standard library (as of Go 1.17,
    which takes no leading zeros in a dotted address): the forms in which addresses
    are stored, compared and exchanged. *)

From S2P Require Import Prelude GoLib Crypto Wire StoreDB BanList.

(** ** Parsing *)

(** A number of a dotted address. *)
Definition parse_octet (s : bytes) : option byte :=
  match s with
  | [] => None
  | c :: rest =>
      if negb (forallb is_digit s) then None
      else if bool_decide (c = x30) && negb (bool_decide (rest = [])) then None
      else if decide (255 < digits_value s) then None
      else Some (byte_of_Z (digits_value s))
  end.

Definition parseIPv4 (s : bytes) : option bytes :=
  match strings_Split x2e s with
  | [a; b; c; d] =>
      a ← parse_octet a; b ← parse_octet b; c ← parse_octet c; d ← parse_octet d;
      Some (v4InV6Prefix ++ [a; b; c; d])
  | _ => None
  end.

Definition hex_value_of (c : byte) : option Z :=
  let n := Z_of_byte c in
  if decide (48 ≤ n ≤ 57) then Some (n - 48)
  else if decide (97 ≤ n ≤ 102) then Some (n - 87)
  else if decide (65 ≤ n ≤ 70) then Some (n - 55)
  else None.

(** [xtoi]: the value of the hexadecimal digits in front, and the rest; [None] without
    a digit, or from [0xFFFFFF] on. *)
Fixpoint xtoi_loop (s : bytes) (n : Z) (some : bool) : option (Z * bytes) :=
  match s with
  | [] => if some then Some (n, []) else None
  | c :: s' =>
      match hex_value_of c with
      | Some d =>
          let n := 16 * n + d in
          if decide (16777215 ≤ n) then None else xtoi_loop s' n true
      | None => if some then Some (n, s) else None
      end
  end.

Definition xtoi (s : bytes) : option (Z * bytes) := xtoi_loop s 0 false.

(** The loop of [parseIPv6]: what is left of the string, the bytes so far, and how
    many of them come before the ellipsis. *)
Fixpoint v6_loop (fuel : nat) (s ip : bytes) (ellipsis : option nat) : option (bytes * bytes * option nat) :=
  match fuel with
  | O => Some (s, ip, ellipsis)
  | S fuel =>
      '(n, rest) ← xtoi s;
      if decide (65535 < n) then None
      else if decide (head rest = Some x2e) then
        if bool_decide (ellipsis = None) && bool_decide (length ip ≠ 12%nat) then None
        else if decide (16 < length ip + 4)%nat then None
        else ip4 ← parseIPv4 s; Some ([], ip ++ drop 12 ip4, ellipsis)
      else
        let ip := ip ++ [byte_of_Z (n / 256); byte_of_Z n] in
        match rest with
        | [] => Some ([], ip, ellipsis)
        | c :: [] => None
        | c :: d :: more =>
            if decide (c ≠ x3a) then None
            else if decide (d = x3a) then
              if decide (ellipsis ≠ None) then None
              else match more with
                   | [] => Some ([], ip, Some (length ip))
                   | _ => v6_loop fuel more ip (Some (length ip))
                   end
            else v6_loop fuel (d :: more) ip ellipsis
        end
  end.

Definition parseIPv6 (s : bytes) : option bytes :=
  let '(s, ellipsis) :=
    match s with
    | c :: d :: rest => if decide (c = x3a ∧ d = x3a) then (rest, Some 0%nat) else (s, None)
    | _ => (s, None)
    end in
  if bool_decide (s = []) && bool_decide (ellipsis ≠ None) then Some (replicate 16 x00)
  else
    '(rest, ip, ellipsis) ← v6_loop 8 s [] ellipsis;
    if decide (rest ≠ []) then None
    else
      match ellipsis with
      | None => if decide (length ip < 16)%nat then None else Some ip
      | Some e =>
          if decide (length ip < 16)%nat
          then Some (take e ip ++ replicate (16 - length ip) x00 ++ drop e ip)
          else None
      end.

(** The first dot or colon says which of the two it is. *)
Fixpoint parse_as (l s : bytes) : option bytes :=
  match l with
  | [] => None
  | c :: l =>
      if decide (c = x2e) then parseIPv4 s
      else if decide (c = x3a) then parseIPv6 s
      else parse_as l s
  end.

Definition ParseIP (s : bytes) : option bytes := parse_as s s.

(** [To4] of an address, [None] for nil. *)
Definition To4 (ip : bytes) : option bytes :=
  if decide (length ip = 4%nat) then Some ip
  else if decide (length ip = 16%nat ∧ take 12 ip = v4InV6Prefix) then Some (drop 12 ip)
  else None.

(** [To16] of an address, [None] for nil. *)
Definition To16 (ip : bytes) : option bytes :=
  if decide (length ip = 4%nat) then Some (v4InV6Prefix ++ ip)
  else if decide (length ip = 16%nat) then Some ip
  else None.

(** ** Printing *)

(** [ubtoa]: a byte in decimal. *)
Definition ubtoa (v : byte) : bytes :=
  let n := Z_of_byte v in
  let digit d := byte_of_Z (48 + d) in
  if decide (n < 10) then [digit n]
  else if decide (n < 100) then [digit (n / 10); digit (n mod 10)]
  else [digit (n / 100); digit (n / 10 mod 10); digit (n mod 10)].

Definition dotted (ip : bytes) : bytes := strings_Join (ubtoa <$> ip) (bs ".").

(** The 16-bit numbers of an address. *)
Fixpoint groups (ip : bytes) : list Z :=
  match ip with
  | hi :: lo :: ip => 256 * Z_of_byte hi + Z_of_byte lo :: groups ip
  | _ => []
  end.

(** [appendHex]: without leading zeros. *)
Definition appendHex (n : Z) : bytes :=
  if decide (n < 16) then [hex_digit n]
  else if decide (n < 256) then [hex_digit (n / 16); hex_digit (n mod 16)]
  else if decide (n < 4096) then [hex_digit (n / 256); hex_digit (n / 16 mod 16); hex_digit (n mod 16)]
  else [hex_digit (n / 4096); hex_digit (n / 256 mod 16); hex_digit (n / 16 mod 16); hex_digit (n mod 16)].

(** The length of the run of zeros in front. *)
Fixpoint zero_run (l : list Z) : nat :=
  match l with
  | 0%Z :: l => S (zero_run l)
  | _ => 0
  end.

(** The longest run of zeros, the first of them: its start and its length. *)
Fixpoint longest_run (fuel : nat) (i : nat) (l : list Z) (best : nat * nat) : nat * nat :=
  match fuel, l with
  | S fuel, _ :: _ =>
      let r := zero_run l in
      if decide (best.2 < r)%nat then longest_run fuel (S (i + r)) (drop (S r) l) (i, r)
      else longest_run fuel (S i) (tail l) best
  | _, _ => best
  end.

Fixpoint print_groups (fuel : nat) (i : nat) (l : list Z) (run : nat * nat) : bytes :=
  match fuel with
  | O => []
  | S fuel =>
      let at_run := bool_decide (run.2 ≠ 0%nat ∧ i = run.1) in
      let sep := if at_run then bs "::" else if decide (0 < i ∧ l ≠ [])%nat then bs ":" else [] in
      let skip := if at_run then run.2 else 0%nat in
      match drop skip l with
      | [] => sep
      | n :: l => sep ++ appendHex n ++ print_groups fuel (S (i + skip)) l run
      end
  end.

Definition IP_String (ip : bytes) : bytes :=
  if decide (ip = []) then bs "<nil>"
  else
    match To4 ip with
    | Some ip4 => dotted ip4
    | None =>
        if decide (length ip ≠ 16%nat) then bs "?" ++ hex_EncodeToString ip
        else
          let l := groups ip in
          let run := longest_run 8 0 l (0%nat, 0%nat) in
          print_groups 9 0 l (if decide (run.2 ≤ 1)%nat then (0%nat, 0%nat) else run)
    end.

(** ** An IPv4 address is read as it is written *)

(** A byte in decimal: it parses as the byte, and has neither dots nor colons. *)
Lemma ubtoa_spec v : parse_octet (ubtoa v) = Some v ∧ x2e ∉ ubtoa v ∧ x3a ∉ ubtoa v.
Proof. split_and!; [|apply (bool_decide_unpack _)..]; destruct v; by vm_compute. Qed.

Lemma Split_last sep l : sep ∉ l → strings_Split sep l = [l].
Proof.
  induction l as [|c l IH]; [done|]. intros [? ?]%not_elem_of_cons. simpl.
  by rewrite decide_False, IH by done.
Qed.

Lemma parse_as_skip l rest s : x2e ∉ l → x3a ∉ l → parse_as (l ++ rest) s = parse_as rest s.
Proof.
  induction l as [|c l IH]; [done|]. intros [? ?]%not_elem_of_cons [? ?]%not_elem_of_cons. simpl.
  rewrite !decide_False by done. by apply IH.
Qed.

Lemma ParseIP_dotted a b c d :
  ParseIP (dotted [a; b; c; d]) = Some (v4InV6Prefix ++ [a; b; c; d]).
Proof.
  destruct (ubtoa_spec a) as (Pa & Da & Ca), (ubtoa_spec b) as (Pb & Db & _),
    (ubtoa_spec c) as (Pc & Dc & _), (ubtoa_spec d) as (Pd & Dd & _).
  unfold ParseIP. unfold dotted at 1. simpl. rewrite parse_as_skip by done. simpl.
  unfold parseIPv4, dotted. simpl.
  rewrite !Split_line by done. rewrite Split_last by done.
  by rewrite Pa, Pb, Pc, Pd.
Qed.

Lemma IP_String_v4 a b c d : IP_String (v4InV6Prefix ++ [a; b; c; d]) = dotted [a; b; c; d].
Proof. done. Qed.
