(* ===== verification/Peer.v ===== *)
(** * Package p2p: peers

    [src/p2p/peer.go] with its counting reader and writer: one end of a
    connection, whose goroutines [send] and [recv] serve the requests of the
    callers; [envelope_io.go]: what makes an envelope acceptable.

    A peer is a state; each round of a goroutine is one step of it.  The channels
    are queues, and a request that blocks is a step that cannot be taken. *)

From S2P Require Import Prelude GoLib Crypto Instances Dwire Sector Wire.

Inductive PeerDirection := Inbound | Outbound.

Definition ErrPeerSendBufferFull : error := ESentinel "peer send buffer full".
Definition ErrPeerRecvBufferFull : error := ESentinel "peer receive buffer full".
Definition ErrPeerClosed : error := ESentinel "peer closed".
Definition ErrPeerHangup : error := ESentinel "remote hung up".

Definition MaxPeerPacketSize : Z := 5 * 1024 * 1024.
Definition ValidMessageDeadline : Z := 2 * Hour.

(** The capacity of [sendCh] and of [recvCh]. *)
Definition channel_cap : Z := 128.

Section peer.
Context `{Secp256k1}.

(** [sendCh] and the number of requests in [recvCh]; [p_delivered] are the
    envelopes the requests were answered with. *)
Record PeerImpl := mkPeerImpl {
  p_sendCh : list Envelope;
  p_recvCh : Z;
  p_delivered : list Envelope;
  p_countW : Z;
  p_countR : Z;
  p_closeReason : option error;
  p_closed : bool;
}.

Definition NewPeer : PeerImpl := mkPeerImpl [] 0 [] 0 0 None false.

(** ** counting_writer.go and counting_reader.go *)

(** [n] bytes have gone through. *)
Definition CountingWriter_Write (n : Z) (p : PeerImpl) : PeerImpl :=
  mkPeerImpl (p_sendCh p) (p_recvCh p) (p_delivered p) (u64 (p_countW p + n)) (p_countR p)
    (p_closeReason p) (p_closed p).

Definition CountingReader_Read (n : Z) (p : PeerImpl) : PeerImpl :=
  mkPeerImpl (p_sendCh p) (p_recvCh p) (p_delivered p) (p_countW p) (u64 (p_countR p + n))
    (p_closeReason p) (p_closed p).

Definition BandwidthUsage (p : PeerImpl) : Z * Z := (p_countW p, p_countR p).

(** ** Closing *)

Definition with_reason (e : option error) (p : PeerImpl) : PeerImpl :=
  mkPeerImpl (p_sendCh p) (p_recvCh p) (p_delivered p) (p_countW p) (p_countR p) e (p_closed p).

(** The first reason stays. *)
Definition setCloseReason (err : error) (p : PeerImpl) : error * PeerImpl :=
  match p_closeReason p with
  | Some reason => (reason, p)
  | None =>
      let reason := if decide (err = EOF) then ErrPeerHangup else err in
      (reason, with_reason (Some reason) p)
  end.

Definition Close (p : PeerImpl) : PeerImpl :=
  if p_closed p then p
  else
    mkPeerImpl (p_sendCh p) (p_recvCh p) (p_delivered p) (p_countW p) (p_countR p)
      (match p_closeReason p with None => Some ErrPeerClosed | r => r end) true.

(** ** Requests *)

(** [bufferSendCtx] from the retry [n] of eleven: whether there is room in the
    channel before the timer fires, and whether the context ends first. *)
Fixpoint bufferSendCtx (room : nat → bool) (ctx_err : nat → option error) (retries fuel : nat)
    : result unit :=
  match fuel with
  | O => Err ErrPeerSendBufferFull
  | S fuel =>
      match ctx_err retries with
      | Some e => Err e
      | None => if room retries then Ok tt else bufferSendCtx room ctx_err (S retries) fuel
      end
  end.

Definition max_attempts : nat := 11.

(** The first part of [SendCtx], with room in the channel. *)
Definition SendCtx (e : Envelope) : M PeerImpl unit :=
  λ p,
    if p_closed p then (match p_closeReason p with Some r => Err r | None => Ok tt end, p)
    else if decide (channel_cap ≤ zlen (p_sendCh p)) then (Err ErrPeerSendBufferFull, p)
    else (Ok tt, mkPeerImpl (p_sendCh p ++ [e]) (p_recvCh p) (p_delivered p) (p_countW p) (p_countR p)
                   (p_closeReason p) (p_closed p)).

Definition ReceiveCtx : M PeerImpl unit :=
  λ p,
    if p_closed p then (match p_closeReason p with Some r => Err r | None => Ok tt end, p)
    else if decide (channel_cap ≤ p_recvCh p) then (Err ErrPeerRecvBufferFull, p)
    else (Ok tt, mkPeerImpl (p_sendCh p) (p_recvCh p + 1) (p_delivered p) (p_countW p) (p_countR p)
                   (p_closeReason p) (p_closed p)).

(** ** The goroutines *)

(** A round of [send], with the bytes it writes; [write_err] is the error of the
    connection, if the write fails after [n] bytes. *)
Definition send (write_err : option (nat * error)) (p : PeerImpl) : option (bytes * PeerImpl) :=
  if p_closed p then None
  else
    match p_sendCh p with
    | [] => None
    | e :: rest =>
        let p := mkPeerImpl rest (p_recvCh p) (p_delivered p) (p_countW p) (p_countR p)
                   (p_closeReason p) (p_closed p) in
        let '(out, err) :=
          match Envelope_Encode e, write_err with
          | (out, Some err), _ => (out, Some err)
          | (out, None), Some (n, err) => (take n out, Some err)
          | (out, None), None => (out, None)
          end in
        let p := CountingWriter_Write (zlen out) p in
        match err with
        | Some err => Some (out, Close (setCloseReason err p).2)
        | None => Some (out, p)
        end
    end.

(** The frame of an envelope needs more bytes than these. *)
Definition incomplete (packet : bytes) : bool :=
  match DecodeFields defaultEncoder Envelope_fields packet with
  | Err e => errors_Is e EOF || errors_Is e ErrUnexpectedEOF
  | _ => false
  end.

(** A round of [recv] on the bytes that have arrived.  [eof] says that no more
    will come: until then a read that finds too few bytes blocks.  A packet is cut
    at [MaxPeerPacketSize].  The reservation of the rate limiter is always granted,
    so its delay is never waited for.  The bytes of a packet that does not decode are
    not counted: the peer is closed. *)
Definition recv (eof : bool) (conn : bytes) (p : PeerImpl) : result (option (bytes * PeerImpl)) :=
  if p_closed p then Ok None
  else if decide (p_recvCh p ≤ 0) then Ok None
  else
    let packet := take (Z.to_nat MaxPeerPacketSize) conn in
    if negb eof && bool_decide (zlen conn < MaxPeerPacketSize) && incomplete packet then Ok None
    else
      let p := mkPeerImpl (p_sendCh p) (p_recvCh p - 1) (p_delivered p) (p_countW p) (p_countR p)
                 (p_closeReason p) (p_closed p) in
      match Envelope_Decode packet with
      | Ok (e, rest) =>
          let n := zlen packet - zlen rest in
          let p := CountingReader_Read n p in
          Ok (Some (drop (Z.to_nat n) conn,
                mkPeerImpl (p_sendCh p) (p_recvCh p) (p_delivered p ++ [e]) (p_countW p) (p_countR p)
                  (p_closeReason p) (p_closed p)))
      | Err err => Ok (Some (conn, Close (setCloseReason err p).2))
      | Panic s => Panic s
      end.

(** ** envelope_io.go *)

Definition ErrInvalidEnvelopeMagic : error := ESentinel "envelope has invalid magic".
Definition ErrInvalidEnvelopeTimestamp : error := ESentinel "envelope has stale timestamp".
Definition ErrInvalidEnvelopeSignature : error := ESentinel "envelope has invalid signature".

Context `{Blake2b}.

Definition ValidateEnvelope (now : Time) (expMagic : Z) (expPeerID : Hash) (envelope : Envelope)
    : result unit :=
  if decide (Envelope_Magic envelope ≠ expMagic) then Err ErrInvalidEnvelopeMagic
  else if decide (Envelope_Timestamp envelope < now - ValidMessageDeadline ∨
                  now + ValidMessageDeadline < Envelope_Timestamp envelope)
  then Err ErrInvalidEnvelopeTimestamp
  else
    ok ← VerifySigHashedPub expPeerID (Envelope_Signature envelope) (Envelope_Hash envelope);
    if negb ok then Err ErrInvalidEnvelopeSignature else Ok tt.
End peer.

(** ** Lemmas *)

Section peer_lemmas.
Context `{Hc : Secp256k1, HS : !Secp256k1Laws}.

(** An envelope that fits in a packet. *)
Definition sendable (e : Envelope) : Prop :=
  Envelope_wf (truncate_timestamp e) ∧
  zlen (Message_Encode (Envelope_Message e)).1 ≤ DefaultMaxByteFieldLen ∧
  zlen (Envelope_Encode e).1 ≤ MaxPeerPacketSize.

Lemma sendable_roundtrips e :
  sendable e → Envelope_Encode e = ((Envelope_Encode e).1, None) ∧
  ∀ r, Envelope_Decode ((Envelope_Encode e).1 ++ r) = Ok (truncate_timestamp e, r).
Proof.
  intros (Hwf & Hl & _). destruct (Envelope_roundtrips (truncate_timestamp e)) as (out & He & Hd); try done.
  rewrite Envelope_Encode_truncate in He. by rewrite He.
Qed.

Lemma sendable_nonempty e : sendable e → (Envelope_Encode e).1 ≠ [].
Proof. intros [_ Hd]%sendable_roundtrips He. specialize (Hd []). by rewrite He in Hd. Qed.

Lemma Envelope_Decode_complete r e r' : Envelope_Decode r = Ok (e, r') → incomplete r = false.
Proof.
  unfold incomplete, Envelope_Decode, mbind, dec_bind. by destruct (DecodeFields _ _ r) as [[? ?]| |].
Qed.

(** The bytes of these envelopes. *)
Definition frames (es : list Envelope) : bytes := foldr (λ e r, (Envelope_Encode e).1 ++ r) [] es.

Lemma frames_app es fs : frames (es ++ fs) = frames es ++ frames fs.
Proof. induction es as [|e es IH]; [done|]. simpl. by rewrite IH, app_assoc. Qed.

Lemma frames_nil es : Forall sendable es → frames es = [] → es = [].
Proof.
  destruct 1 as [|e es He _]; [done|]. unfold frames. simpl. intros [Hn _]%app_eq_nil.
  by apply sendable_nonempty in He.
Qed.

(** A packet whose bytes have arrived is delivered. *)
Lemma recv_frame eof e rest p :
  sendable e → p_closed p = false → 0 < p_recvCh p →
  ∃ p', recv eof ((Envelope_Encode e).1 ++ rest) p = Ok (Some (rest, p')) ∧
    p_delivered p' = p_delivered p ++ [truncate_timestamp e] ∧ p_closed p' = false ∧
    p_sendCh p' = p_sendCh p ∧ p_closeReason p' = p_closeReason p.
Proof.
  intros Hs Hc' Hr. pose proof Hs as (_ & _ & Hmax). apply sendable_roundtrips in Hs as [_ Hd].
  unfold recv. rewrite Hc', decide_False by lia. set (out := (Envelope_Encode e).1) in *.
  assert (take (Z.to_nat MaxPeerPacketSize) (out ++ rest) =
    out ++ take (Z.to_nat MaxPeerPacketSize - length out) rest) as ->.
  { rewrite take_app, (take_ge out) by (unfold zlen in Hmax; lia). done. }
  rewrite (Envelope_Decode_complete _ _ _ (Hd _)), andb_false_r, Hd.
  rewrite zlen_app, Z.add_simpl_r. unfold zlen. rewrite Nat2Z.id, drop_app_length.
  eexists. split; [reflexivity|]. by split_and!.
Qed.

(** ** Delivery *)

(** Two ends of a connection, and the bytes on the way from the first to the
    second; [l_accepted] are the envelopes [SendCtx] took. *)
Record link := mkLink {
  l_from : PeerImpl;
  l_to : PeerImpl;
  l_wire : bytes;
  l_accepted : list Envelope;
}.

Inductive link_op := LSend (e : Envelope) | LFlush | LReceive | LRecv.

Definition link_step (op : link_op) (l : link) : link :=
  match op with
  | LSend e =>
      match SendCtx e (l_from l) with
      | (Ok _, p) => mkLink p (l_to l) (l_wire l) (l_accepted l ++ [e])
      | (_, p) => mkLink p (l_to l) (l_wire l) (l_accepted l)
      end
  | LFlush =>
      match send None (l_from l) with
      | Some (out, p) => mkLink p (l_to l) (l_wire l ++ out) (l_accepted l)
      | None => l
      end
  | LReceive => mkLink (l_from l) (ReceiveCtx (l_to l)).2 (l_wire l) (l_accepted l)
  | LRecv =>
      match recv false (l_wire l) (l_to l) with
      | Ok (Some (wire, p)) => mkLink (l_from l) p wire (l_accepted l)
      | _ => l
      end
  end.

Definition link_run (ops : list link_op) (l : link) : link := foldl (λ l op, link_step op l) l ops.

Definition new_link : link := mkLink NewPeer NewPeer [] [].

Definition op_sendable (op : link_op) : Prop := match op with LSend e => sendable e | _ => True end.

Definition link_inv (l : link) : Prop :=
  p_closed (l_from l) = false ∧ p_closed (l_to l) = false ∧
  ∃ inflight, l_wire l = frames inflight ∧ Forall sendable (inflight ++ p_sendCh (l_from l)) ∧
    p_delivered (l_to l) ++ (truncate_timestamp <$> inflight ++ p_sendCh (l_from l)) =
    truncate_timestamp <$> l_accepted l.

Lemma link_step_inv op l : op_sendable op → link_inv l → link_inv (link_step op l).
Proof.
  destruct l as [a b w acc]. intros Hop (Ha & Hb & fl & Hw & Hs & Hd). simpl in *. subst w.
  destruct op as [e| | |]; simpl.
  - unfold SendCtx. rewrite Ha. case_decide; (split; [done|]; split; [done|]); exists fl; simpl; [done|].
    rewrite app_assoc. split; [done|]. split; [by apply Forall_app; split; [|constructor]|].
    by rewrite fmap_app, app_assoc, Hd, <- fmap_app.
  - unfold send. rewrite Ha. destruct (p_sendCh a) as [|e rest] eqn:He.
    { split; [done|]. split; [done|]. exists fl. simpl. by rewrite He. }
    apply Forall_app in Hs as [Hfl [Hse Hrest]%Forall_cons].
    destruct (sendable_roundtrips e Hse) as [Hen _]. rewrite Hen. simpl.
    split; [done|]. split; [done|]. exists (fl ++ [e]). simpl. rewrite frames_app, <- app_assoc.
    split; [|split; [apply Forall_app; split; [done|by constructor]|done]].
    unfold frames at 3. simpl. by rewrite app_nil_r.
  - split; [done|]. unfold ReceiveCtx. rewrite Hb. split; [by case_decide|].
    exists fl. simpl. by case_decide.
  - destruct (decide (p_recvCh b ≤ 0)) as [Hr|Hr].
    { unfold recv. rewrite Hb, decide_True by done. split; [done|]. split; [done|]. by exists fl. }
    destruct fl as [|e fl].
    { unfold recv. rewrite Hb, decide_False by done. simpl. split; [done|]. split; [done|]. by exists []. }
    simpl in Hs. apply Forall_cons in Hs as [Hse Hs].
    destruct (recv_frame false e (frames fl) b) as (b' & Hr' & Hdel & Hcl & _); [done..|lia|].
    change (frames (e :: fl)) with ((Envelope_Encode e).1 ++ frames fl). rewrite Hr'.
    split; [done|]. split; [done|]. exists fl. simpl. rewrite Hdel. split; [done|]. split; [done|].
    by rewrite <- app_assoc.
Qed.

Lemma link_run_inv ops l : Forall op_sendable ops → link_inv l → link_inv (link_run ops l).
Proof.
  intros Hops. revert l. induction Hops as [|op ops Hop _ IH]; intros l Hl; [done|].
  by apply IH, link_step_inv.
Qed.
End peer_lemmas.


Definition demo_envelope : Envelope :=
  mkEnvelope 7 MessageTypePing (time_Unix 5 + 250 * Millisecond) MPing ZeroSignature.


(** ** Closing *)

(** What a caller or a goroutine does to a peer. *)
Inductive peer_step `{Secp256k1} : PeerImpl → PeerImpl → Prop :=
| step_SendCtx e p : peer_step p (SendCtx e p).2
| step_ReceiveCtx p : peer_step p (ReceiveCtx p).2
| step_Close p : peer_step p (Close p)
| step_send we p out p' : send we p = Some (out, p') → peer_step p p'
| step_recv eof conn p conn' p' : recv eof conn p = Ok (Some (conn', p')) → peer_step p p'.

(** A peer that is closed has a reason, and a reason stays. *)
Definition reason_kept `{Secp256k1} (p p' : PeerImpl) : Prop :=
  (p_closed p' = true → is_Some (p_closeReason p')) ∧
  (∀ r, p_closeReason p = Some r → p_closeReason p' = Some r) ∧
  (p_closed p = true → p_closed p' = true).

Lemma closing_kept `{Secp256k1} err p q :
  p_closed p = false → p_closed q = false → p_closeReason q = p_closeReason p →
  reason_kept p (Close (setCloseReason err q).2).
Proof.
  intros Hp Hq Hr. unfold reason_kept, setCloseReason, Close. rewrite Hp, <- Hr.
  destruct (p_closeReason q) as [r|] eqn:Hc; simpl; rewrite Hq; simpl; rewrite ?Hc; by split_and!.
Qed.

Lemma kept_open `{Secp256k1} p q :
  p_closed p = false → p_closed q = false → p_closeReason q = p_closeReason p → reason_kept p q.
Proof. intros Hp Hq Hr. unfold reason_kept. rewrite Hp, Hq, Hr. by split_and!. Qed.

Lemma kept_refl `{Secp256k1} p : (p_closed p = true → is_Some (p_closeReason p)) → reason_kept p p.
Proof. intros Hp. by split; [|split]. Qed.

Lemma peer_step_kept `{Secp256k1} p p' :
  (p_closed p = true → is_Some (p_closeReason p)) → peer_step p p' → reason_kept p p'.
Proof.
  intros Hp Hs. destruct Hs as [e p|p|p|we p out p' Hs|eof conn p conn' p' Hs].
  - unfold SendCtx. destruct (p_closed p) eqn:Hc; [apply kept_refl; intros _; by apply Hp|].
    case_decide; by apply kept_open.
  - unfold ReceiveCtx. destruct (p_closed p) eqn:Hc; [apply kept_refl; intros _; by apply Hp|].
    case_decide; by apply kept_open.
  - unfold Close. destruct (p_closed p) eqn:Hc; [apply kept_refl; intros _; by apply Hp|].
    split; [|split]; simpl; [by destruct (p_closeReason p)|by intros r ->|done].
  - unfold send in Hs. destruct (p_closed p) eqn:Hc; [done|]. destruct (p_sendCh p) as [|e rest]; [done|].
    destruct (match Envelope_Encode e with (_, _) => _ end) as [o [err|]] in Hs; simplify_eq.
    + by apply closing_kept.
    + by apply kept_open.
  - unfold recv in Hs. destruct (p_closed p) eqn:Hc; [done|]. case_decide; [done|].
    set (packet := take _ conn) in Hs. clearbody packet.
    destruct (_ && _); [done|]. destruct (Envelope_Decode packet) as [[e rest]|err|]; simplify_eq.
    + by apply kept_open.
    + by apply closing_kept.
Qed.

(** A peer that is closed has a reason, so that no call on it reports success;
    the first reason is the one that is kept, and a closed peer stays closed. *)
Theorem close_reason_kept `{Secp256k1} p :
  rtc peer_step NewPeer p →
  (p_closed p = true → is_Some (p_closeReason p) ∧ (∀ e, is_ok (SendCtx e p).1 = false) ∧
    is_ok (ReceiveCtx p).1 = false) ∧
  ∀ p', rtc peer_step p p' → reason_kept p p'.
Proof.
  assert (∀ p p', (p_closed p = true → is_Some (p_closeReason p)) → rtc peer_step p p' → reason_kept p p') as Hrtc.
  { intros q q' Hq Hs. induction Hs as [q|q q1 q2 Hs _ IH]; [by apply kept_refl|].
    destruct (peer_step_kept _ _ Hq Hs) as (H1 & H2 & H3). destruct (IH H1) as (H4 & H5 & H6).
    split; [|split]; auto. }
  intros Hs. destruct (Hrtc NewPeer p) as (Hp & _); [done..|]. split; [|intros p'; by apply Hrtc].
  intros Hc. destruct (Hp Hc) as [r Hr]. split; [done|]. unfold SendCtx, ReceiveCtx. by rewrite Hc, Hr.
Qed.

Lemma close_reason_kept_witness :
  is_ok (ReceiveCtx (Close NewPeer)).1 = false ∧
  p_closeReason (Close (Close NewPeer)) = Some ErrPeerClosed.
Proof.
  destruct (close_reason_kept (Close NewPeer)) as [Hc Hk].
  - apply rtc_once, step_Close.
  - split; [by apply Hc|]. apply (Hk (Close (Close NewPeer))); [apply rtc_once, step_Close|done].
Defined.
