(* ===== verification/Handshake.v ===== *)
(** * Package p2p: the handshake

    [src/p2p/incoming_handshake.go] and [outgoing_handshake.go].  Each side is a
    session: a tree of the requests it makes of its peer and of the clock, and of
    what it does with each answer.  A session runs against the answers of any
    peer, or against another session over a wire of bytes. *)

From S2P Require Import Prelude GoLib Crypto Instances Dwire Sector Wire Peer.

Definition ErrUnexpectedMessage : error := ESentinel "unexpected handshake message".
Definition ErrIncompatibleProtocol : error := ESentinel "incompatible protocol version".
Definition ErrInvalidNonce : error := ESentinel "invalid nonce on hello message".

Definition Zero32 : bytes := replicate 32 x00.

Section handshake.
Context `{Secp256k1, Blake2b}.

Inductive session :=
| Receive (k : result Envelope → session)
| Transmit (e : Envelope) (k : option error → session)
| Clock (k : Time → session)
| Finish (r : result Hash).

(** The peer of the configuration is what the session talks to. *)
Record HandshakeConfig := mkHandshakeConfig {
  hc_Magic : Z;
  hc_ProtocolVersion : Z;
  hc_Signer : Signer;
}.

Definition fail (e : error) : session := Finish (Err e).

(** [WriteEnvelope] of a message, and what follows if it is sent. *)
Definition WriteEnvelope (cfg : HandshakeConfig) (m : Message) (msg : string) (k : session) : session :=
  Clock (λ now,
    match NewEnvelope now (hc_Magic cfg) m (hc_Signer cfg) with
    | Ok e => Transmit e (λ err, match err with Some err => fail (EWrap err msg) | None => k end)
    | Err err => fail (EWrap err msg)
    | Panic s => Finish (Panic s)
    end).

(** [ReceiveCtx] of an envelope of a type. *)
Definition expect (t : Z) (msg : string) (k : Envelope → session) : session :=
  Receive (λ r,
    match r with
    | Err err => fail (EWrap err msg)
    | Panic s => Finish (Panic s)
    | Ok e => if decide (Envelope_MessageType e ≠ t) then fail ErrUnexpectedMessage else k e
    end).

Definition validate (cfg : HandshakeConfig) (id : Hash) (e : Envelope) (msg : string) (k : session)
    : session :=
  Clock (λ now,
    match ValidateEnvelope now (hc_Magic cfg) id e with
    | Ok _ => k
    | Err err => fail (EWrap err msg)
    | Panic s => Finish (Panic s)
    end).

Definition type_assertion : session := Finish (Panic "interface conversion").

Definition HandleIncomingHandshake (localNonce : bytes) (cfg : HandshakeConfig) : session :=
  expect MessageTypeHello "failed to receive hello message" (λ theirHelloEnv,
    match Envelope_Message theirHelloEnv with
    | MHello theirHelloMsg =>
        let theirPeerID := HashPub (Hello_PublicKey theirHelloMsg) in
        validate cfg theirPeerID theirHelloEnv "peer initiated with invalid hello message" (
          if decide (hc_ProtocolVersion cfg < Hello_ProtocolVersion theirHelloMsg)
          then fail ErrIncompatibleProtocol
          else
            let ourHelloMsg := mkHello (hc_ProtocolVersion cfg) localNonce
              (Hello_LocalNonce theirHelloMsg) (Pub (hc_Signer cfg)) [] in
            WriteEnvelope cfg (MHello ourHelloMsg) "failed to respond with hello message" (
              expect MessageTypeHelloAck "failed to receive hello ack message" (λ theirHelloAckEnv,
                validate cfg theirPeerID theirHelloAckEnv "peer responded with invalid hello ack message" (
                  match Envelope_Message theirHelloAckEnv with
                  | MHelloAck theirHelloAck =>
                      if decide (HelloAck_Nonce theirHelloAck ≠ localNonce) then fail ErrInvalidNonce
                      else Finish (Ok theirPeerID)
                  | _ => type_assertion
                  end))))
    | _ => type_assertion
    end).

(** [userAgent] is [version.UserAgent], which the build sets. *)
Definition HandleOutgoingHandshake (userAgent localNonce : bytes) (cfg : HandshakeConfig) : session :=
  let ourHelloMsg := mkHello (hc_ProtocolVersion cfg) localNonce Zero32 (Pub (hc_Signer cfg)) userAgent in
  WriteEnvelope cfg (MHello ourHelloMsg) "failed to send hello message" (
    expect MessageTypeHello "failed to receive peer hello message" (λ theirHelloEnv,
      match Envelope_Message theirHelloEnv with
      | MHello theirHelloMsg =>
          let theirPeerID := HashPub (Hello_PublicKey theirHelloMsg) in
          validate cfg theirPeerID theirHelloEnv "peer responded with invalid hello message" (
            if decide (hc_ProtocolVersion cfg < Hello_ProtocolVersion theirHelloMsg)
            then fail ErrIncompatibleProtocol
            else if decide (Hello_RemoteNonce theirHelloMsg ≠ localNonce) then fail ErrInvalidNonce
            else
              WriteEnvelope cfg (MHelloAck (mkHelloAck (Hello_LocalNonce theirHelloMsg)))
                "failed to send hello ack message" (Finish (Ok theirPeerID)))
      | _ => type_assertion
      end)).

(** ** Running a session *)

(** Against any peer: the answers it gives, the errors of what is sent, and the
    readings of the clock.  [None] is a session that waits for another answer. *)
Fixpoint converse (clock : nat → Time) (n : nat) (answers : list (result Envelope))
    (errs : list (option error)) (s : session) : option (result Hash) :=
  match s with
  | Finish r => Some r
  | Clock k => converse clock (S n) answers errs (k (clock n))
  | Transmit e k =>
      match errs with
      | [] => converse clock n answers [] (k None)
      | err :: errs => converse clock n answers errs (k err)
      end
  | Receive k =>
      match answers with
      | [] => None
      | a :: answers => converse clock n answers errs (k a)
      end
  end.

(** Over a wire, until it has to wait: the session that is left, how often the
    clock was read, the bytes left on the wire and the bytes written. *)
Fixpoint advance (clock : nat → Time) (n : nat) (wire : bytes) (s : session)
    : session * nat * bytes * bytes :=
  match s with
  | Finish r => (s, n, wire, [])
  | Clock k => advance clock (S n) wire (k (clock n))
  | Transmit e k =>
      let '(out, err) := Envelope_Encode e in
      let '(s', n', wire', out') := advance clock n wire (k err) in (s', n', wire', out ++ out')
  | Receive k =>
      if incomplete wire then (s, n, wire, [])
      else
        match Envelope_Decode wire with
        | Ok (e, rest) => advance clock n rest (k (Ok e))
        | Err e => advance clock n wire (k (Err e))
        | Panic w => (Finish (Panic w), n, wire, [])
        end
  end.

(** Two sessions that take turns, each with the bytes that are on the way to it. *)
Record party := mkParty { pa_session : session; pa_reads : nat; pa_wire : bytes }.

Definition turn (clock : nat → Time) (p q : party) : party * party :=
  let '(s, n, wire, out) := advance clock (pa_reads p) (pa_wire p) (pa_session p) in
  (mkParty s n wire, mkParty (pa_session q) (pa_reads q) (pa_wire q ++ out)).

Fixpoint dialogue (rounds : nat) (clockA clockB : nat → Time) (a b : party) : party * party :=
  match rounds with
  | O => (a, b)
  | S rounds =>
      let '(a, b) := turn clockA a b in
      let '(b, a) := turn clockB b a in
      dialogue rounds clockA clockB a b
  end.

Definition start (s : session) : party := mkParty s 0 [].
End handshake.

(** ** Lemmas *)

Section handshake_lemmas.
Context `{Hc : Secp256k1, Hb : Blake2b}.

(** The envelope is of this magic and recent, and its hash signed by this peer. *)
Definition vouched (now : Time) (magic : Z) (id : Hash) (e : Envelope) : Prop :=
  Envelope_Magic e = magic ∧
  now - ValidMessageDeadline ≤ Envelope_Timestamp e ≤ now + ValidMessageDeadline ∧
  VerifySigHashedPub id (Envelope_Signature e) (Envelope_Hash e) = Ok true.

Lemma ValidateEnvelope_Ok now magic id e :
  ValidateEnvelope now magic id e = Ok tt ↔ vouched now magic id e.
Proof.
  unfold ValidateEnvelope, vouched. case_decide as Hm; [naive_solver|].
  case_decide as Ht; [split; [done|lia]|].
  destruct (VerifySigHashedPub id _ _) as [[]| |]; simpl; split; try done; [|naive_solver..].
  intros _. split_and!; (done || lia || by apply dec_stable).
Qed.

Lemma converse_validate clock n answers errs cfg id e msg k r :
  converse clock n answers errs (validate cfg id e msg k) = Some (Ok r) →
  vouched (clock n) (hc_Magic cfg) id e ∧ converse clock (S n) answers errs k = Some (Ok r).
Proof.
  unfold validate. simpl. destruct (ValidateEnvelope _ _ _ _) as [[]| |] eqn:Hv; [|done..].
  apply ValidateEnvelope_Ok in Hv. done.
Qed.

Lemma converse_expect clock n answers errs t msg k r :
  converse clock n answers errs (expect t msg k) = Some (Ok r) →
  ∃ e rest, answers = Ok e :: rest ∧ Envelope_MessageType e = t ∧
    converse clock n rest errs (k e) = Some (Ok r).
Proof.
  unfold expect. destruct answers as [|[e| |] rest]; simpl; try done.
  case_decide as Ht; [done|]. intros Hk. exists e, rest. split_and!; try done.
Qed.

Lemma converse_write clock n answers errs cfg m msg k r :
  converse clock n answers errs (WriteEnvelope cfg m msg k) = Some (Ok r) →
  converse clock (S n) answers (tail errs) k = Some (Ok r).
Proof.
  unfold WriteEnvelope. simpl. destruct (NewEnvelope _ _ _ _) as [e| |]; [|done..]. simpl.
  destruct errs as [|[err|] errs]; done.
Qed.
End handshake_lemmas.


Section forging.
Context `{Hc : Secp256k1, Hb : Blake2b}.

(** The envelope with another message in it: its signature is kept. *)
Definition with_message (e : Envelope) (m : Message) : Envelope :=
  mkEnvelope (Envelope_Magic e) (Envelope_MessageType e) (Envelope_Timestamp e) m (Envelope_Signature e).

Lemma Envelope_Hash_message e m :
  (Message_Encode (Envelope_Message e)).2 = None → (Message_Encode m).2 = None →
  Envelope_Hash (with_message e m) = Envelope_Hash e.
Proof.
  intros He Hm. unfold Envelope_Hash, with_message. simpl.
  by destruct (Message_Encode m), (Message_Encode (Envelope_Message e)); simplify_eq/=.
Qed.

Lemma vouched_message now magic id e m :
  (Message_Encode (Envelope_Message e)).2 = None → (Message_Encode m).2 = None →
  vouched now magic id e → vouched now magic id (with_message e m).
Proof. intros He Hm (? & ? & Hv). split_and!; try done; simpl; try lia. by rewrite Envelope_Hash_message. Qed.

Lemma HelloAck_encodes n : length n = 32%nat → (Message_Encode (MHelloAck (mkHelloAck n))).2 = None.
Proof. intros Hn. by cbn; rewrite ?Hn. Qed.

Lemma validate_Ok clock n answers errs cfg id e msg k :
  vouched (clock n) (hc_Magic cfg) id e →
  converse clock n answers errs (validate cfg id e msg k) = converse clock (S n) answers errs k.
Proof. intros Hv%ValidateEnvelope_Ok. unfold validate. simpl. by rewrite Hv. Qed.
End forging.

(** C39: the nonces of a handshake prove nothing.  Whoever has a hello and an
    acknowledgement of a peer, from any of its handshakes of the last two hours,
    is taken for that peer: putting our nonce into the old acknowledgement leaves
    its signature valid. *)
Theorem handshake_forgeable `{Secp256k1, Blake2b} clock nonce cfg he hello ae old reply :
  let id := HashPub (Hello_PublicKey hello) in
  Envelope_MessageType he = MessageTypeHello → Envelope_Message he = MHello hello →
  Hello_ProtocolVersion hello ≤ hc_ProtocolVersion cfg → vouched (clock 0%nat) (hc_Magic cfg) id he →
  Envelope_MessageType ae = MessageTypeHelloAck → Envelope_Message ae = MHelloAck old →
  length (HelloAck_Nonce old) = 32%nat → length nonce = 32%nat →
  vouched (clock 2%nat) (hc_Magic cfg) id ae →
  NewEnvelope (clock 1%nat) (hc_Magic cfg) (MHello (mkHello (hc_ProtocolVersion cfg) nonce
    (Hello_LocalNonce hello) (Pub (hc_Signer cfg)) [])) (hc_Signer cfg) = Ok reply →
  converse clock 0 [Ok he; Ok (with_message ae (MHelloAck (mkHelloAck nonce)))] []
    (HandleIncomingHandshake nonce cfg) = Some (Ok id).
Proof.
  intros id Ht Hm Hp Hv Ht' Hm' Hold Hn Hv' Hr. unfold HandleIncomingHandshake, expect. cbn [converse].
  rewrite decide_False by tauto. rewrite Hm. rewrite validate_Ok by done.
  rewrite decide_False by lia. unfold WriteEnvelope at 1. cbn [converse]. rewrite Hr. cbn [converse].
  rewrite decide_False by tauto.
  rewrite validate_Ok; [simpl; by rewrite decide_False by tauto|].
  apply vouched_message; [|by apply HelloAck_encodes|done].
  rewrite Hm'. destruct old. by apply HelloAck_encodes.
Qed.

(** ** Two honest ends *)

Section honest.
Context `{Hc : Secp256k1, HS : !Secp256k1Laws, Hb : Blake2b}.

(** A message that goes into an envelope. *)
Definition fits (m : Message) : Prop :=
  Message_wf m ∧ zlen (Message_Encode m).1 ≤ DefaultMaxByteFieldLen.

(** A key that signs, and a clock whose readings fit the format. *)
Definition signs (sk : PrivateKey) : Prop := ∀ h, ∃ sig, SignCompact sk h = Ok sig.

Definition clock_ok (clock : nat → Time) : Prop := ∀ n, is_u32 (Unix (clock n)).

(** The clocks are less than two hours apart. *)
Definition in_step (clockA clockB : nat → Time) : Prop :=
  ∀ i j, Z.abs (clockA i - clockB j) ≤ ValidMessageDeadline - Second.

Lemma truncated_near now t :
  Z.abs (t - now) ≤ ValidMessageDeadline - Second →
  now - ValidMessageDeadline ≤ time_Unix (Unix t) ≤ now + ValidMessageDeadline.
Proof.
  intros Ht. unfold time_Unix, Unix, Second in *.
  pose proof (Z.div_mod t 1000000000 ltac:(lia)). pose proof (Z.mod_pos_bound t 1000000000 ltac:(lia)). lia.
Qed.

Lemma fits_encodes m : fits m → (Message_Encode m).2 = None.
Proof. intros [Hm _]. by destruct (Message_roundtrips m Hm) as (out & -> & _). Qed.

(** What an honest end writes: it decodes, and the other end accepts it. *)
Lemma honest_envelope sk now magic m :
  signs sk → is_u32 magic → is_u32 (Unix now) → fits m →
  ∃ e out, NewEnvelope now magic m (NewSECP256k1Signer sk) = Ok e ∧ Envelope_Encode e = (out, None) ∧
    (∀ r, Envelope_Decode (out ++ r) = Ok (truncate_timestamp e, r)) ∧
    Envelope_MessageType e = MsgType m ∧ Envelope_Message e = m ∧
    ∀ now', Z.abs (now - now') ≤ ValidMessageDeadline - Second →
      vouched now' magic (HashPub (PubKey sk)) (truncate_timestamp e).
Proof.
  intros Hsk Hmg Hu Hm. pose proof (fits_encodes m Hm) as He. destruct Hm as [Hm Hl].
  set (e0 := mkEnvelope magic (MsgType m) now m ZeroSignature).
  assert (∃ h, Envelope_Hash e0 = Ok h) as [h Hh].
  { unfold Envelope_Hash. simpl. destruct (Message_Encode m) as [o [err|]]; [done|]. unfold EncodeFields. cbn.
    unfold EncodeTime. rewrite decide_False by (unfold is_u32 in Hu; lia). by eexists. }
  destruct (Hsk h) as [sg Hsg].
  assert (SECP256k1Signer_Sign sk (Envelope_Hash e0) = Ok sg) as Hsign.
  { rewrite Hh. unfold SECP256k1Signer_Sign. simpl. rewrite Hsg. simpl.
    by rewrite go_copy_full by (by erewrite SignCompact_length). }
  set (e := mkEnvelope magic (MsgType m) now m sg). exists e.
  assert (Envelope_wf (truncate_timestamp e)) as Hwf.
  { split_and!; try done; [by exists (Unix now)|]. by eapply SignCompact_length. }
  destruct (Envelope_roundtrips (truncate_timestamp e)) as (out & Ho & Hd); [done..|].
  rewrite Envelope_Encode_truncate in Ho. exists out. split_and!; try done.
  - unfold NewEnvelope. fold e0. simpl. by rewrite Hsign.
  - intros now' Hn. split_and!; [done|by apply truncated_near|by apply truncated_near|].
    rewrite Envelope_Hash_truncate.
    assert (Envelope_Hash e = Envelope_Hash e0) as -> by (exact (Envelope_Hash_message e0 m He He)).
    by apply Sign_verifies_hashed.
Qed.

(** Steps of a session over a wire. *)
Lemma advance_write clock n wire cfg m msg k e out :
  NewEnvelope (clock n) (hc_Magic cfg) m (hc_Signer cfg) = Ok e → Envelope_Encode e = (out, None) →
  advance clock n wire (WriteEnvelope cfg m msg k) =
    let '(s, n', wire', out') := advance clock (S n) wire k in (s, n', wire', out ++ out').
Proof. intros He Ho. unfold WriteEnvelope. cbn [advance]. rewrite He. cbn [advance]. by rewrite Ho. Qed.

Lemma advance_expect clock n wire e t msg k :
  Envelope_Decode wire = Ok (e, []) → Envelope_MessageType e = t →
  advance clock n wire (expect t msg k) = advance clock n [] (k e).
Proof.
  intros Hd Ht. unfold expect. cbn [advance]. rewrite (Envelope_Decode_complete _ _ _ Hd), Hd.
  by rewrite decide_False by tauto.
Qed.

Lemma advance_validate clock n wire cfg id e msg k :
  vouched (clock n) (hc_Magic cfg) id e →
  advance clock n wire (validate cfg id e msg k) = advance clock (S n) wire k.
Proof. intros Hv%ValidateEnvelope_Ok. unfold validate. cbn [advance]. by rewrite Hv. Qed.

Lemma advance_wait clock n t msg k : advance clock n [] (expect t msg k) = (expect t msg k, n, [], []).
Proof. done. Qed.

(** The two sides, given what the other writes: [o1] the hello of the one that
    dials, [o2] the answer, [o3] the acknowledgement. *)
Lemma outgoing_side clock cfg userAgent nonce e1 o1 o2 e2 hello e3 o3 :
  NewEnvelope (clock 0%nat) (hc_Magic cfg) (MHello (mkHello (hc_ProtocolVersion cfg) nonce Zero32
    (Pub (hc_Signer cfg)) userAgent)) (hc_Signer cfg) = Ok e1 → Envelope_Encode e1 = (o1, None) →
  Envelope_Decode o2 = Ok (e2, []) → Envelope_MessageType e2 = MessageTypeHello →
  Envelope_Message e2 = MHello hello → Hello_ProtocolVersion hello ≤ hc_ProtocolVersion cfg →
  Hello_RemoteNonce hello = nonce →
  vouched (clock 1%nat) (hc_Magic cfg) (HashPub (Hello_PublicKey hello)) e2 →
  NewEnvelope (clock 2%nat) (hc_Magic cfg) (MHelloAck (mkHelloAck (Hello_LocalNonce hello)))
    (hc_Signer cfg) = Ok e3 → Envelope_Encode e3 = (o3, None) →
  ∃ s, advance clock 0 [] (HandleOutgoingHandshake userAgent nonce cfg) = (s, 1%nat, [], o1) ∧
    advance clock 1 o2 s = (Finish (Ok (HashPub (Hello_PublicKey hello))), 3%nat, [], o3).
Proof.
  intros He1 Ho1 Hd Ht Hm Hp Hn Hv He3 Ho3. eexists. split.
  - unfold HandleOutgoingHandshake. rewrite (advance_write _ _ _ _ _ _ _ _ _ He1 Ho1), advance_wait.
    rewrite app_nil_r. reflexivity.
  - rewrite (advance_expect _ _ _ _ _ _ _ Hd Ht), Hm. rewrite advance_validate by done.
    rewrite decide_False by lia. rewrite decide_False by tauto.
    rewrite (advance_write _ _ _ _ _ _ _ _ _ He3 Ho3). simpl. by rewrite app_nil_r.
Qed.

Lemma incoming_side clock cfg nonce o1 e1 hello e2 o2 o3 e3 :
  Envelope_Decode o1 = Ok (e1, []) → Envelope_MessageType e1 = MessageTypeHello →
  Envelope_Message e1 = MHello hello → Hello_ProtocolVersion hello ≤ hc_ProtocolVersion cfg →
  vouched (clock 0%nat) (hc_Magic cfg) (HashPub (Hello_PublicKey hello)) e1 →
  NewEnvelope (clock 1%nat) (hc_Magic cfg) (MHello (mkHello (hc_ProtocolVersion cfg) nonce
    (Hello_LocalNonce hello) (Pub (hc_Signer cfg)) [])) (hc_Signer cfg) = Ok e2 →
  Envelope_Encode e2 = (o2, None) →
  Envelope_Decode o3 = Ok (e3, []) → Envelope_MessageType e3 = MessageTypeHelloAck →
  Envelope_Message e3 = MHelloAck (mkHelloAck nonce) →
  vouched (clock 2%nat) (hc_Magic cfg) (HashPub (Hello_PublicKey hello)) e3 →
  ∃ s, advance clock 0 o1 (HandleIncomingHandshake nonce cfg) = (s, 2%nat, [], o2) ∧
    advance clock 2 o3 s = (Finish (Ok (HashPub (Hello_PublicKey hello))), 3%nat, [], []).
Proof.
  intros Hd1 Ht1 Hm1 Hp Hv1 He2 Ho2 Hd3 Ht3 Hm3 Hv3. eexists. split.
  - unfold HandleIncomingHandshake. rewrite (advance_expect _ _ _ _ _ _ _ Hd1 Ht1), Hm1.
    rewrite advance_validate by done. rewrite decide_False by lia.
    rewrite (advance_write _ _ _ _ _ _ _ _ _ He2 Ho2), advance_wait, app_nil_r. reflexivity.
  - rewrite (advance_expect _ _ _ _ _ _ _ Hd3 Ht3). rewrite advance_validate by done.
    rewrite Hm3. by rewrite decide_False by (simpl; tauto).
Qed.
End honest.

(** C12: two honest ends agree.  Two nodes of one network and version, whose keys
    sign and whose clocks are less than two hours apart, exchange three envelopes
    over the wire, and each ends with the identity of the other. *)
Theorem handshake_agrees `{Secp256k1Laws, Blake2b} magic version userAgent nonceA nonceB skA skB
    clockA clockB :
  let a := mkHandshakeConfig magic version (NewSECP256k1Signer skA) in
  let b := mkHandshakeConfig magic version (NewSECP256k1Signer skB) in
  is_u32 magic → signs skA → signs skB → clock_ok clockA → clock_ok clockB → in_step clockA clockB →
  fits (MHello (mkHello version nonceA Zero32 (PubKey skA) userAgent)) →
  fits (MHello (mkHello version nonceB nonceA (PubKey skB) [])) →
  fits (MHelloAck (mkHelloAck nonceB)) →
  let '(pa, pb) := dialogue 2 clockA clockB (start (HandleOutgoingHandshake userAgent nonceA a))
                     (start (HandleIncomingHandshake nonceB b)) in
  pa_session pa = Finish (Ok (HashPub (PubKey skB))) ∧
  pa_session pb = Finish (Ok (HashPub (PubKey skA))) ∧
  pa_wire pa = [] ∧ pa_wire pb = [].
Proof.
  intros a b Hmg HsA HsB HcA HcB Hst Hf1 Hf2 Hf3.
  destruct (honest_envelope skA (clockA 0%nat) magic _ HsA Hmg (HcA _) Hf1)
    as (e1 & o1 & Hn1 & Ho1 & Hd1 & Ht1 & Hm1 & Hv1).
  destruct (honest_envelope skB (clockB 1%nat) magic _ HsB Hmg (HcB _) Hf2)
    as (e2 & o2 & Hn2 & Ho2 & Hd2 & Ht2 & Hm2 & Hv2).
  destruct (honest_envelope skA (clockA 2%nat) magic _ HsA Hmg (HcA _) Hf3)
    as (e3 & o3 & Hn3 & Ho3 & Hd3 & Ht3 & Hm3 & Hv3).
  destruct (outgoing_side clockA a userAgent nonceA e1 o1 o2 (truncate_timestamp e2)
    (mkHello version nonceB nonceA (PubKey skB) []) e3 o3) as (sA & HA1 & HA2); try done.
  { by rewrite <- (app_nil_r o2), Hd2. }
  { apply Hv2. specialize (Hst 1%nat 1%nat). lia. }
  destruct (incoming_side clockB b nonceB o1 (truncate_timestamp e1)
    (mkHello version nonceA Zero32 (PubKey skA) userAgent) e2 o2 o3 (truncate_timestamp e3))
    as (sB & HB1 & HB2); try done.
  { by rewrite <- (app_nil_r o1), Hd1. }
  { apply Hv1, Hst. }
  { by rewrite <- (app_nil_r o3), Hd3. }
  { apply Hv3, Hst. }
  unfold dialogue, turn, start. cbn [pa_session pa_reads pa_wire].
  rewrite HA1. cbn [pa_session pa_reads pa_wire app]. rewrite HB1. cbn [pa_session pa_reads pa_wire app].
  rewrite HA2. cbn [pa_session pa_reads pa_wire app]. rewrite HB2. done.
Qed.

Definition demo_nonce : bytes := replicate 32 x05.

Definition key1 : PrivateKey (Secp256k1 := toy_secp256k1) := x01.
Definition key2 : PrivateKey (Secp256k1 := toy_secp256k1) := x02.

Lemma toy_signs sk : signs sk.
Proof. by eexists. Qed.

Lemma handshake_agrees_witness :
  pa_session (dialogue 2 (λ _, 0) (λ _, 0)
    (start (HandleOutgoingHandshake (bs "fnd") demo_nonce (mkHandshakeConfig 7 1 (NewSECP256k1Signer key1))))
    (start (HandleIncomingHandshake Zero32 (mkHandshakeConfig 7 1 (NewSECP256k1Signer key2))))).1 =
  Finish (Ok (HashPub (PubKey key2))).
Proof.
  pose proof (handshake_agrees 7 1 (bs "fnd") demo_nonce Zero32 key1 key2 (λ _, 0) (λ _, 0)) as Ha.
  cbn zeta in Ha. destruct (dialogue _ _ _ _ _) as [pa pb]. apply Ha; try done; try apply toy_signs.
Defined.

(** An old handshake of the key 9, with other nonces. *)
Definition old_envelope (m : Message) : Envelope :=
  default (mkEnvelope 0 0 0 m []) (match NewEnvelope 0 7 m (NewSECP256k1Signer toy_key) with
    | Ok e => Some e | _ => None end).

Definition old_hello : Hello := mkHello 1 demo_nonce Zero32 (PubKey toy_key) [].

Lemma handshake_forgeable_witness :
  converse (λ _, Second) 0
    [Ok (old_envelope (MHello old_hello));
     Ok (with_message (old_envelope (MHelloAck (mkHelloAck demo_nonce))) (MHelloAck (mkHelloAck Zero32)))] []
    (HandleIncomingHandshake Zero32 (mkHandshakeConfig 7 1 (NewSECP256k1Signer key2))) =
  Some (Ok (HashPub (PubKey toy_key))).
Proof.
  eapply (handshake_forgeable (λ _, Second) Zero32 (mkHandshakeConfig 7 1 (NewSECP256k1Signer key2))
    (old_envelope (MHello old_hello)) old_hello (old_envelope (MHelloAck (mkHelloAck demo_nonce)))
    (mkHelloAck demo_nonce)); try reflexivity; try done; by apply ValidateEnvelope_Ok; vm_compute.
Defined.
