(* ===== verification/Mux.v ===== *)
(** * Package p2p: the peer muxer

    [src/p2p/peer_muxer.go]: the peers of the node by identity and by address,
    their number in each direction, and the filter that keeps a message from being
    gossiped back to the peer it came from.  The lock of the muxer makes each
    operation one step.  A peer is a reference: two peers are the same pointer when
    their references are equal. *)

From S2P Require Import Prelude GoLib Crypto Instances Dwire Sector Wire Util Peer.

Definition DefaultPeerMuxerGossipTimeoutMS : Z := 5 * 60 * 1000.

Definition ErrAlreadyConnected : error := ESentinel "already connected to this peer".

#[export] Instance PeerDirection_eq_dec : EqDecision PeerDirection.
Proof. solve_decision. Defined.

Record PeerRef := mkPeerRef {
  pr_ref : nat;
  pr_direction : PeerDirection;
  pr_ip : bytes;
  pr_addr : bytes;
}.

#[export] Instance PeerRef_eq_dec : EqDecision PeerRef.
Proof. solve_decision. Defined.

Section mux.
Context `{Secp256k1, Blake2b}.

(** What the observable of the muxer emits. *)
Inductive mux_event := Opened (id : Hash) | Closed (id : Hash) | Received (id : Hash) (e : Envelope).

Record PeerMuxer := mkPeerMuxer {
  mx_outboundPeersByIP : gmap bytes PeerRef;
  mx_inboundPeersByIP : gmap bytes (list PeerRef);
  mx_peers : gmap bytes PeerRef;
  mx_gossipFilter : Cache (V := unit);
  mx_inboundCount : Z;
  mx_outboundCount : Z;
  mx_bytesTx : Z;
  mx_bytesRx : Z;
  mx_closed : gset nat; (* the peers [Close] was called on *)
  mx_emitted : list mux_event;
}.

Definition NewPeerMuxer : PeerMuxer := mkPeerMuxer ∅ ∅ ∅ NewCache 0 0 0 0 ∅ [].

Definition PeerCount (m : PeerMuxer) : Z * Z := (mx_inboundCount m, mx_outboundCount m).

Definition HasPeerID (id : Hash) (m : PeerMuxer) : bool := bool_decide (is_Some (mx_peers m !! id)).

Definition HasOutboundPeerIP (ip : bytes) (m : PeerMuxer) : bool :=
  bool_decide (is_Some (mx_outboundPeersByIP m !! ip)).

Definition PeersByIP (ip : bytes) (m : PeerMuxer) : list PeerRef :=
  default [] (mx_inboundPeersByIP m !! ip) ++
  match mx_outboundPeersByIP m !! ip with Some p => [p] | None => [] end.

Definition PeerByID (id : Hash) (m : PeerMuxer) : result PeerRef :=
  match mx_peers m !! id with Some p => Ok p | None => Err (ENew "peer not found") end.

Definition PeerByIP (ip : bytes) (m : PeerMuxer) : result PeerRef :=
  match mx_outboundPeersByIP m !! ip with Some p => Ok p | None => Err (ENew "peer not found") end.

(** ** Opening and closing *)

(** The loop of [removeInboundPeerByIP] from index [i]: it ranges over the array of
    [n] elements it started with, which the removals shift; [len] is the length of
    the slice of the map. *)
Fixpoint remove_loop (fuel : nat) (i : nat) (peer : PeerRef) (arr : list PeerRef) (len : nat)
    : result (list PeerRef * nat) :=
  match fuel with
  | O => Ok (arr, len)
  | S fuel =>
      match arr !! i with
      | None => Ok (arr, len)
      | Some stored =>
          if decide (stored = peer) then
            if decide (len < i + 1)%nat then Panic "slice bounds out of range"
            else
              let tail := drop (i + 1) (take len arr) in
              remove_loop fuel (S i) peer (take i arr ++ tail ++ drop (i + length tail) arr) (len - 1)
          else remove_loop fuel (S i) peer arr len
      end
  end.

Definition removeInboundPeerByIP (peer : PeerRef) (byIP : gmap bytes (list PeerRef))
    : result (gmap bytes (list PeerRef)) :=
  match byIP !! pr_ip peer with
  | None => Ok byIP
  | Some l =>
      '(arr, len) ← remove_loop (length l) 0 peer l (length l);
      Ok (<[pr_ip peer := take len arr]> byIP)
  end.

Definition handlePeerOpen (id : Hash) (peer : PeerRef) : M PeerMuxer unit :=
  λ m,
    if HasPeerID id m then (Err ErrAlreadyConnected, m)
    else
      let inbound := bool_decide (pr_direction peer = Inbound) in
      (Ok tt, mkPeerMuxer
        (if inbound then mx_outboundPeersByIP m else <[pr_ip peer := peer]> (mx_outboundPeersByIP m))
        (if inbound then <[pr_ip peer := default [] (mx_inboundPeersByIP m !! pr_ip peer) ++ [peer]]>
                           (mx_inboundPeersByIP m)
         else mx_inboundPeersByIP m)
        (<[id := peer]> (mx_peers m)) (mx_gossipFilter m)
        (if inbound then mx_inboundCount m + 1 else mx_inboundCount m)
        (if inbound then mx_outboundCount m else mx_outboundCount m + 1)
        (mx_bytesTx m) (mx_bytesRx m) (mx_closed m) (mx_emitted m ++ [Opened id])).

Definition handlePeerClose (id : Hash) : M PeerMuxer unit :=
  λ m,
    match mx_peers m !! id with
    | None => (Ok tt, m)
    | Some peer =>
        let inbound := bool_decide (pr_direction peer = Inbound) in
        let byIP := if inbound then removeInboundPeerByIP peer (mx_inboundPeersByIP m)
                    else Ok (mx_inboundPeersByIP m) in
        match byIP with
        | Ok byIP =>
            (Ok tt, mkPeerMuxer
              (if inbound then mx_outboundPeersByIP m
               else delete (pr_ip peer) (mx_outboundPeersByIP m))
              byIP (delete id (mx_peers m)) (mx_gossipFilter m)
              (if inbound then mx_inboundCount m - 1 else mx_inboundCount m)
              (if inbound then mx_outboundCount m else mx_outboundCount m - 1)
              (mx_bytesTx m) (mx_bytesRx m) ({[pr_ref peer]} ∪ mx_closed m)
              (mx_emitted m ++ [Closed id]))
        | Err e => (Err e, m)
        | Panic s => (Panic s, m)
        end
    end.

(** [AddPeer] up to the goroutine it starts. *)
Definition AddPeer (id : Hash) (peer : PeerRef) : M PeerMuxer unit :=
  M_wrapping "error adding peer" (handlePeerOpen id peer).

Definition ClosePeer (id : Hash) : M PeerMuxer unit := handlePeerClose id.

(** ** Messages *)

(** [fmt.Sprintf("%s:%s", peerID, hash)]. *)
Definition gossipKey (peerID : Hash) (message : Message) : result bytes :=
  hash ← Message_Hash message;
  Ok (Hash_String peerID ++ bs ":" ++ Hash_String hash).

Definition set_filter (c : Cache (V := unit)) (m : PeerMuxer) : PeerMuxer :=
  mkPeerMuxer (mx_outboundPeersByIP m) (mx_inboundPeersByIP m) (mx_peers m) c (mx_inboundCount m)
    (mx_outboundCount m) (mx_bytesTx m) (mx_bytesRx m) (mx_closed m) (mx_emitted m).

Definition on_filter {A} (c : M (Cache (V := unit)) A) : M PeerMuxer A :=
  M_zoom mx_gossipFilter set_filter c.

Definition emit (e : mux_event) : M PeerMuxer unit :=
  M_modify (λ m, mkPeerMuxer (mx_outboundPeersByIP m) (mx_inboundPeersByIP m) (mx_peers m)
    (mx_gossipFilter m) (mx_inboundCount m) (mx_outboundCount m) (mx_bytesTx m) (mx_bytesRx m)
    (mx_closed m) (mx_emitted m ++ [e])).

Definition count_bytes (tx rx : Z) : M PeerMuxer unit :=
  M_modify (λ m, mkPeerMuxer (mx_outboundPeersByIP m) (mx_inboundPeersByIP m) (mx_peers m)
    (mx_gossipFilter m) (mx_inboundCount m) (mx_outboundCount m) (u64 (mx_bytesTx m + tx))
    (u64 (mx_bytesRx m + rx)) (mx_closed m) (mx_emitted m)).

Definition handlePeerMessage (now timeoutMS : Z) (id : Hash) (envelope : Envelope) : M PeerMuxer unit :=
  key ← M_lift (gossipKey id (Envelope_Message envelope));
  on_filter (Cache_Set now key tt timeoutMS);;
  emit (Received id envelope).

(** A round of the goroutine of [AddPeer]: what [Receive] returned, and the bytes
    that were read for it.  The result says whether the goroutine goes on. *)
Definition receive_round (now magic timeoutMS : Z) (id : Hash) (r : result (Envelope * Z))
    : M PeerMuxer bool :=
  match r with
  | Err _ => handlePeerClose id;; mret false
  | Panic s => M_panic s
  | Ok (envelope, n) =>
      v ← M_try (M_lift (ValidateEnvelope now magic id envelope));
      if negb (is_ok v) then handlePeerClose id;; mret false
      else handlePeerMessage now timeoutMS id envelope;; count_bytes 0 n;; mret true
  end.

(** [Send]: [peer_Send] is what sending on a peer does, the bytes it writes or its
    error. *)
Definition Send (now magic : Z) (signer : Signer) (peer_Send : PeerRef → Envelope → result Z)
    (id : Hash) (message : Message) : M PeerMuxer unit :=
  m ← M_get;
  match mx_peers m !! id with
  | None => M_fail (ENew "peer not found")
  | Some peer =>
      envelope ← M_lift (wrapping "error creating envelope" (NewEnvelope now magic message signer));
      n ← M_lift (wrapping "error sending message to peer" (peer_Send peer envelope));
      count_bytes n 0
  end.

(** ** Gossip *)

(** [PeerIDs]: Go gives the keys of a map in any order. *)
Definition PeerIDs (order : list bytes → list bytes) (m : PeerMuxer) : list Hash :=
  order (fst <$> map_to_list (mx_peers m)).

Fixpoint gossip_filter (now : Time) (message : Message) (ids : list Hash) : M PeerMuxer (list Hash) :=
  match ids with
  | [] => mret []
  | peerID :: ids =>
      key ← M_lift (gossipKey peerID message);
      has ← on_filter (Cache_Has now key);
      out ← gossip_filter now message ids;
      mret (if has : bool then out else peerID :: out)
  end.

Definition GossipPeerIDs (order : list bytes → list bytes) (now : Time) (message : Message)
    : M PeerMuxer (list Hash) :=
  λ m, gossip_filter now message (PeerIDs order m) m.

(** The sends to a list of peers, with their errors. *)
Fixpoint send_each (send : Hash → M PeerMuxer unit) (ids : list Hash) : M PeerMuxer (list (result unit)) :=
  match ids with
  | [] => mret []
  | id :: ids =>
      err ← M_try (send id);
      errs ← send_each send ids;
      mret (err :: errs)
  end.

Definition BroadcastAll (order : list bytes → list bytes) (send : Hash → M PeerMuxer unit)
    : M PeerMuxer (list Hash * list (result unit)) :=
  m ← M_get;
  let recips := PeerIDs order m in
  errs ← send_each send recips;
  mret (recips, errs).

Definition MuxGossipAll (order : list bytes → list bytes) (now : Time) (message : Message)
    (send : Hash → M PeerMuxer unit) : M PeerMuxer (list Hash * list (result unit)) :=
  recips ← GossipPeerIDs order now message;
  errs ← send_each send recips;
  mret (recips, errs).

(** [indices] is the result of [SampleIndices] on the number of peers. *)
Definition BroadcastRandom (order : list bytes → list bytes) (indices : list nat)
    (send : Hash → M PeerMuxer unit) : M PeerMuxer (list Hash * list (result unit)) :=
  m ← M_get;
  let peerIDs := PeerIDs order m in
  recips ← M_lift (match mapM (λ i, peerIDs !! i) indices with
                   | Some recips => Ok recips
                   | None => Panic "index out of range"
                   end);
  errs ← send_each send recips;
  mret (recips, errs).

(** [PeerMessageHandlerForType]. *)
Definition PeerMessageHandlerForType {S} (msgType : Z) (hdlr : Hash → Envelope → M S unit)
    (id : Hash) (envelope : Envelope) : M S unit :=
  if decide (Envelope_MessageType envelope ≠ msgType) then mret tt else hdlr id envelope.
End mux.

(** ** Lemmas: the slice of an address *)

Lemma remove_loop_absent fuel i peer arr len :
  peer ∉ drop i arr → remove_loop fuel i peer arr len = Ok (arr, len).
Proof.
  revert i. induction fuel as [|fuel IH]; intros i Hp; [done|]. cbn [remove_loop].
  destruct (arr !! i) as [stored|] eqn:Ha; [|done].
  assert (drop i arr = stored :: drop (S i) arr) as Hd by (by apply drop_S).
  rewrite Hd in Hp. rewrite decide_False by set_solver. apply IH. set_solver.
Qed.

Lemma remove_loop_one fuel i peer pre post :
  peer ∉ pre → peer ∉ post → (i ≤ length pre)%nat → (length pre < i + fuel)%nat →
  ∃ arr, remove_loop fuel i peer (pre ++ peer :: post) (length (pre ++ peer :: post)) =
      Ok (arr, (length pre + length post)%nat) ∧
    take (length pre + length post) arr = pre ++ post.
Proof.
  intros Hpre Hpost. revert i. induction fuel as [|fuel IH]; intros i Hi Hf; [lia|]. cbn [remove_loop].
  destruct (decide (i = length pre)) as [->|Hne].
  - rewrite list_lookup_middle by done. rewrite decide_True by done.
    rewrite decide_False by (rewrite length_app; simpl; lia).
    rewrite (take_ge (pre ++ peer :: post) (length (pre ++ peer :: post))) by lia. rewrite take_app_length.
    assert (drop (length pre + 1) (pre ++ peer :: post) = post) as -> by
      (rewrite <- drop_drop, drop_app_length; done).
    set (last := drop (length pre + length post) (pre ++ peer :: post)).
    exists (pre ++ post ++ last). split.
    + replace (length (pre ++ peer :: post) - 1)%nat with (length pre + length post)%nat
        by (rewrite length_app; simpl; lia).
      apply remove_loop_absent. replace (S (length pre)) with (length pre + 1)%nat by lia.
      rewrite <- drop_drop, drop_app_length. destruct post as [|q post]; simpl.
      { unfold last. rewrite Nat.add_0_r, drop_app_length. set_solver. }
      rewrite ?drop_0. intros [Hin|Hin]%elem_of_app; [set_solver|]. apply Hpost.
      unfold last in Hin. rewrite <- drop_drop, drop_app_length in Hin. simpl in Hin.
      by apply subseteq_drop in Hin.
    + rewrite app_assoc, <- length_app, take_app_length. done.
  - destruct (lookup_lt_is_Some_2 pre i) as [s Hs]; [lia|].
    rewrite lookup_app_l by lia. rewrite Hs.
    rewrite decide_False by (intros ->; apply Hpre; by eapply list_elem_of_lookup_2).
    apply IH; lia.
Qed.

Lemma removeInboundPeerByIP_Ok peer byIP l :
  byIP !! pr_ip peer = Some l → NoDup l → peer ∈ l →
  ∃ l', removeInboundPeerByIP peer byIP = Ok (<[pr_ip peer := l']> byIP) ∧ NoDup l' ∧
    ∀ p, p ∈ l' ↔ p ∈ l ∧ p ≠ peer.
Proof.
  intros Hl Hn (pre & post & ->)%list_elem_of_split. apply NoDup_app in Hn as (Hn1 & Hd & Hn2).
  apply NoDup_cons in Hn2 as [Hp Hn2]. assert (peer ∉ pre) as Hpre by (intros ?; apply (Hd peer); set_solver).
  destruct (remove_loop_one (length (pre ++ peer :: post)) 0 peer pre post) as (arr & Hr & Ht);
    [done..|lia|rewrite length_app; simpl; lia|].
  exists (pre ++ post). split_and!.
  - unfold removeInboundPeerByIP. rewrite Hl, Hr. simpl. by rewrite Ht.
  - apply NoDup_app. split_and!; [done| |done]. set_solver.
  - intros p. set_solver.
Qed.

(** ** The invariant *)

Section mux_inv.
Context `{Secp256k1, Blake2b}.

(** The peers of a direction. *)
Definition facing (d : PeerDirection) (peers : gmap bytes PeerRef) : gmap bytes PeerRef :=
  filter (λ kv, pr_direction kv.2 = d) peers.

(** A peer the muxer has, of this direction and address. *)
Definition connected (m : PeerMuxer) (d : PeerDirection) (ip : bytes) (p : PeerRef) : Prop :=
  pr_direction p = d ∧ pr_ip p = ip ∧ ∃ id, mx_peers m !! id = Some p.

Record mux_inv (m : PeerMuxer) : Prop := mkMuxInv {
  mi_inbound : mx_inboundCount m = Z.of_nat (size (facing Inbound (mx_peers m)));
  mi_outbound : mx_outboundCount m = Z.of_nat (size (facing Outbound (mx_peers m)));
  mi_nodup : ∀ ip l, mx_inboundPeersByIP m !! ip = Some l → NoDup l;
  mi_by_ip : ∀ ip p, p ∈ default [] (mx_inboundPeersByIP m !! ip) ↔ connected m Inbound ip p;
  mi_out_ip : ∀ ip p, mx_outboundPeersByIP m !! ip = Some p → connected m Outbound ip p;
  mi_refs : ∀ i j p q,
    mx_peers m !! i = Some p → mx_peers m !! j = Some q → pr_ref p = pr_ref q → i = j;
  mi_live : ∀ i p, mx_peers m !! i = Some p → pr_ref p ∉ mx_closed m;
}.

Lemma size_facing_insert d id p peers :
  peers !! id = None →
  Z.of_nat (size (facing d (<[id := p]> peers))) =
  Z.of_nat (size (facing d peers)) + (if decide (pr_direction p = d) then 1 else 0).
Proof.
  intros Hid. unfold facing. case_decide as Hd.
  - rewrite map_filter_insert_True by done. rewrite map_size_insert_None; [lia|].
    apply map_lookup_filter_None. by left.
  - rewrite map_filter_insert_False by done. rewrite delete_id by done. lia.
Qed.

Lemma size_facing_delete d id p peers :
  peers !! id = Some p →
  Z.of_nat (size (facing d (delete id peers))) =
  Z.of_nat (size (facing d peers)) - (if decide (pr_direction p = d) then 1 else 0).
Proof.
  intros Hid. rewrite <- (insert_delete_id peers id p Hid) at 2.
  rewrite size_facing_insert by apply lookup_delete_eq. lia.
Qed.

(** A peer that was made by [NewPeer] just now. *)
Definition fresh (m : PeerMuxer) (p : PeerRef) : Prop :=
  pr_ref p ∉ mx_closed m ∧ ∀ id q, mx_peers m !! id = Some q → pr_ref q ≠ pr_ref p.

Lemma connected_insert m m' id peer d ip p :
  mx_peers m !! id = None → mx_peers m' = <[id := peer]> (mx_peers m) →
  connected m' d ip p ↔ connected m d ip p ∨ p = peer ∧ pr_direction p = d ∧ pr_ip p = ip.
Proof.
  intros Hid Hm. unfold connected. rewrite Hm. split.
  - intros (Hd & Hip & i & Hi). destruct (decide (i = id)) as [->|Hne].
    + rewrite lookup_insert_eq in Hi. simplify_eq. by right.
    + rewrite lookup_insert_ne in Hi by done. left. eauto.
  - intros [(Hd & Hip & i & Hi)|(-> & Hd & Hip)]; (split; [done|]; split; [done|]).
    + exists i. rewrite lookup_insert_ne; [done|]. congruence.
    + exists id. apply lookup_insert_eq.
Qed.

Lemma handlePeerOpen_inv id peer m :
  mux_inv m → fresh m peer → mux_inv (handlePeerOpen id peer m).2.
Proof.
  intros [Hin Hout Hnd Hip Hoip Href Hlive] [Hcl Hfr]. unfold handlePeerOpen, HasPeerID.
  case_bool_decide as Hid; [done|]. rewrite <- eq_None_not_Some in Hid. simpl.
  set (m' := mkPeerMuxer _ _ _ _ _ _ _ _ _ _).
  assert (∀ ip p, connected m' (pr_direction peer) ip p ↔ connected m (pr_direction peer) ip p ∨
    p = peer ∧ pr_ip p = ip) as Hcon.
  { intros ip p. rewrite (connected_insert m m' id peer) by done. naive_solver. }
  assert (∀ d ip p, d ≠ pr_direction peer → connected m' d ip p ↔ connected m d ip p) as Hcon'.
  { intros d ip p Hd. rewrite (connected_insert m m' id peer) by done. naive_solver. }
  assert (∀ ip, ¬ connected m Inbound ip peer) as Hnew by (intros ip (_ & _ & i & Hi); by apply (Hfr i peer)).
  split.
  - simpl. rewrite size_facing_insert by done. rewrite Hin. repeat (case_decide || case_bool_decide); (done || lia).
  - simpl. rewrite size_facing_insert by done. rewrite Hout.
    case_bool_decide; case_decide; destruct (pr_direction peer); (done || lia).
  - simpl. case_bool_decide; [|apply Hnd]. intros ip l. destruct (decide (ip = pr_ip peer)) as [->|Hne].
    + rewrite lookup_insert_eq. intros [= <-]. apply NoDup_app. split_and!; [| |apply NoDup_singleton].
      * destruct (mx_inboundPeersByIP m !! pr_ip peer) as [l|] eqn:Hl; [by eapply Hnd|constructor].
      * intros p Hp ->%list_elem_of_singleton. by apply Hip, Hnew in Hp.
    + rewrite lookup_insert_ne by done. apply Hnd.
  - intros ip p. simpl. case_bool_decide as Hd.
    + rewrite <- Hd. rewrite Hcon, Hd, <- Hip. destruct (decide (ip = pr_ip peer)) as [->|Hne].
      * rewrite lookup_insert_eq. simpl. rewrite elem_of_app, list_elem_of_singleton. naive_solver.
      * rewrite lookup_insert_ne by done. naive_solver.
    + rewrite Hcon' by done. apply Hip.
  - intros ip p. simpl. case_bool_decide as Hd.
    + intros Hp%Hoip. apply (connected_insert m m' id peer); [done..|]. by left.
    + assert (pr_direction peer = Outbound) as Ho by (by destruct (pr_direction peer)).
      rewrite <- Ho. intros Hp. apply Hcon. destruct (decide (ip = pr_ip peer)) as [->|Hne].
      * rewrite lookup_insert_eq in Hp. simplify_eq. by right.
      * rewrite lookup_insert_ne in Hp by done. left. rewrite Ho. by apply Hoip.
  - simpl. intros i j p q. destruct (decide (i = id)) as [->|Hi], (decide (j = id)) as [->|Hj];
      rewrite ?lookup_insert_eq, ?lookup_insert_ne by done; [done| | |by apply Href].
    + intros [= ->] Hq Hr. by apply Hfr in Hq.
    + intros Hp [= ->] Hr. by apply Hfr in Hp.
  - simpl. intros i p. destruct (decide (i = id)) as [->|Hi];
      rewrite ?lookup_insert_eq, ?lookup_insert_ne by done; [by intros [= ->]|apply Hlive].
Qed.

Lemma connected_delete m m' id peer d ip p :
  mux_inv m → mx_peers m !! id = Some peer → mx_peers m' = delete id (mx_peers m) →
  connected m' d ip p ↔ connected m d ip p ∧ p ≠ peer.
Proof.
  intros Hinv Hid Hm. unfold connected. rewrite Hm. split.
  - intros (Hd & Hip & i & Hi). apply lookup_delete_Some in Hi as [Hne Hi]. split; [by eauto|].
    intros ->. by apply Hne, (mi_refs m Hinv id i peer peer).
  - intros [(Hd & Hip & i & Hi) Hne]. split; [done|]. split; [done|]. exists i.
    rewrite lookup_delete_ne; [done|]. congruence.
Qed.

(** What closing leaves of the addresses of inbound peers. *)
Lemma close_by_ip m id peer :
  mux_inv m → mx_peers m !! id = Some peer → pr_direction peer = Inbound →
  ∃ byIP, removeInboundPeerByIP peer (mx_inboundPeersByIP m) = Ok byIP ∧
    (∀ ip l, byIP !! ip = Some l → NoDup l) ∧
    ∀ ip p, p ∈ default [] (byIP !! ip) ↔ connected m Inbound ip p ∧ p ≠ peer.
Proof.
  intros Hinv Hid Hd. assert (connected m Inbound (pr_ip peer) peer) as Hc by (split_and!; eauto).
  pose proof Hc as Hin. rewrite <- (mi_by_ip m Hinv) in Hin.
  destruct (mx_inboundPeersByIP m !! pr_ip peer) as [l|] eqn:Hl; [|set_solver]. simpl in Hin.
  destruct (removeInboundPeerByIP_Ok peer (mx_inboundPeersByIP m) l) as (l' & Hr & Hn & Hl');
    [done|by eapply mi_nodup|done|].
  eexists. split; [exact Hr|]. split.
  - intros ip k. destruct (decide (ip = pr_ip peer)) as [->|Hne].
    + rewrite lookup_insert_eq. by intros [= <-].
    + rewrite lookup_insert_ne by done. by apply mi_nodup.
  - intros ip p. destruct (decide (ip = pr_ip peer)) as [->|Hne].
    + rewrite lookup_insert_eq. simpl. rewrite Hl', <- (mi_by_ip m Hinv), Hl. done.
    + rewrite lookup_insert_ne, (mi_by_ip m Hinv) by done. split; [|naive_solver].
      intros Hp. split; [done|]. intros ->. by destruct Hp as (_ & ? & _).
Qed.

Lemma handlePeerClose_inv id m :
  mux_inv m → (handlePeerClose id m).1 = Ok tt ∧ mux_inv (handlePeerClose id m).2.
Proof.
  intros Hinv. unfold handlePeerClose. destruct (mx_peers m !! id) as [peer|] eqn:Hid; [|done].
  set (inbound := bool_decide (pr_direction peer = Inbound)).
  assert (∃ byIP, (if inbound then removeInboundPeerByIP peer (mx_inboundPeersByIP m)
      else Ok (mx_inboundPeersByIP m)) = Ok byIP ∧ (∀ ip l, byIP !! ip = Some l → NoDup l) ∧
    ∀ ip p, p ∈ default [] (byIP !! ip) ↔ connected m Inbound ip p ∧ p ≠ peer) as (byIP & -> & Hnd & Hip).
  { unfold inbound. case_bool_decide as Hd; [by eapply close_by_ip|].
    eexists. split; [done|]. split; [apply (mi_nodup m Hinv)|]. intros ip p.
    rewrite (mi_by_ip m Hinv). split; [|naive_solver]. intros Hp. split; [done|].
    intros ->. by destruct Hp. }
  split; [done|]. set (m' := mkPeerMuxer _ _ _ _ _ _ _ _ _ _).
  assert (∀ d ip p, connected m' d ip p ↔ connected m d ip p ∧ p ≠ peer) as Hcon
    by (intros d ip p; by apply (connected_delete m m' id)).
  destruct Hinv as [Hin Hout _ _ Hoip Href Hlive]. split.
  - simpl. rewrite (size_facing_delete _ _ peer), Hin by done. unfold inbound.
    case_bool_decide; case_decide; (done || lia).
  - simpl. rewrite (size_facing_delete _ _ peer), Hout by done. unfold inbound.
    case_bool_decide; case_decide; destruct (pr_direction peer); (done || lia).
  - exact Hnd.
  - intros ip p. rewrite Hcon. apply Hip.
  - intros ip p. simpl. rewrite Hcon. unfold inbound. case_bool_decide as Hd; intros Hp.
    + split; [by apply Hoip|]. intros ->. by destruct (Hoip _ _ Hp) as [? _]; congruence.
    + apply lookup_delete_Some in Hp as [Hne Hp]. split; [by apply Hoip|]. intros ->.
      by destruct (Hoip _ _ Hp) as (_ & ? & _).
  - simpl. intros i j p q [_ Hp]%lookup_delete_Some [_ Hq]%lookup_delete_Some. by apply Href.
  - simpl. intros i p [Hne Hp]%lookup_delete_Some. apply not_elem_of_union. split; [|by eapply Hlive].
    rewrite elem_of_singleton. intros Hr. by apply Hne, (Href id i peer p).
Qed.

(** Only the peers, the counters and the closed ones matter. *)
Lemma mux_inv_ext m m' :
  mx_peers m' = mx_peers m → mx_outboundPeersByIP m' = mx_outboundPeersByIP m →
  mx_inboundPeersByIP m' = mx_inboundPeersByIP m → mx_inboundCount m' = mx_inboundCount m →
  mx_outboundCount m' = mx_outboundCount m → mx_closed m' = mx_closed m → mux_inv m → mux_inv m'.
Proof.
  intros Hp Ho Hi Hci Hco Hcl [H1 H2 H3 H4 H5 H6 H7].
  split; rewrite ?Hp, ?Ho, ?Hi, ?Hci, ?Hco, ?Hcl; try done; intros ip p; unfold connected; rewrite Hp;
    [apply H4|apply H5].
Qed.

Lemma preserves_on_filter {A} (c : M (Cache (V := unit)) A) : preserves mux_inv (on_filter c).
Proof. intros m Hm. unfold on_filter, M_zoom. destruct (c _) as [r c']. by apply (mux_inv_ext m). Qed.

Lemma preserves_emit e : preserves mux_inv (emit e).
Proof. intros m Hm. by apply (mux_inv_ext m). Qed.

Lemma preserves_count_bytes tx rx : preserves mux_inv (count_bytes tx rx).
Proof. intros m Hm. by apply (mux_inv_ext m). Qed.

Lemma preserves_close id : preserves mux_inv (handlePeerClose id).
Proof. intros m Hm. by apply handlePeerClose_inv. Qed.

#[local] Hint Resolve preserves_on_filter preserves_emit preserves_count_bytes preserves_close : fnd.

Lemma preserves_receive_round now magic t id r : preserves mux_inv (receive_round now magic t id r).
Proof.
  unfold receive_round, handlePeerMessage. destruct r as [[e n]| |];
    [|auto 10 with fnd|by intros m Hm].
  apply preserves_bind; [auto with fnd|]. intros v. destruct (negb _); auto 10 with fnd.
Qed.

Lemma preserves_Send now magic signer ps id msg : preserves mux_inv (Send now magic signer ps id msg).
Proof.
  unfold Send. apply preserves_bind; [by intros m Hm|]. intros m.
  destruct (mx_peers m !! id); [auto 10 with fnd|by intros m' Hm'].
Qed.

(** What happens to a muxer: peers are added by the manager and closed by it or by
    their goroutine, messages are sent and received. *)
Inductive mux_step : PeerMuxer → PeerMuxer → Prop :=
| step_add id peer m : fresh m peer → mux_step m (AddPeer id peer m).2
| step_close id m : mux_step m (ClosePeer id m).2
| step_round now magic timeout id r m : mux_step m (receive_round now magic timeout id r m).2
| step_mux_send now magic signer peer_Send id msg m :
    mux_step m (Send now magic signer peer_Send id msg m).2.

Lemma mux_step_inv m m' : mux_inv m → mux_step m m' → mux_inv m'.
Proof.
  intros Hm Hs. destruct Hs as [id peer m Hf| | |].
  - unfold AddPeer, M_wrapping. pose proof (handlePeerOpen_inv id peer m Hm Hf) as Hi.
    by destruct (handlePeerOpen id peer m).
  - by apply handlePeerClose_inv.
  - by apply preserves_receive_round.
  - by apply preserves_Send.
Qed.

Lemma new_mux_inv : mux_inv NewPeerMuxer.
Proof.
  split; simpl; try done.
  intros ip p. split; [set_solver|]. by intros (_ & _ & id & Hid).
Qed.
End mux_inv.


Definition demo_peer_id (b : byte) : Hash := replicate 32 b.

Definition demo_inbound (n : nat) : PeerRef := mkPeerRef n Inbound (bs "10.0.0.1") (bs "10.0.0.1:4000").


(** ** Gossip *)

Section gossip.
Context `{Secp256k1, Blake2b}.

(** The key is in the cache and has not expired. *)
Definition live (now : Time) (c : Cache (V := unit)) (key : bytes) : Prop :=
  match (c : gmap bytes entry) !! key with Some e => now ≤ entry_expiry e | None => False end.

#[local] Instance live_dec now c key : Decision (live now c key).
Proof. unfold live. destruct (_ !! key); apply _. Defined.

Lemma Cache_Has_live now key c :
  ∃ c', Cache_Has now key c = (Ok (bool_decide (live now c key)), c') ∧
    ∀ k, live now c' k ↔ live now c k.
Proof.
  destruct (decide (live now c key)) as [Hl|Hl];
    [rewrite bool_decide_true by done|rewrite bool_decide_false by done];
    unfold live in Hl; unfold Cache_Has, Cache_Get, mbind, M_bind; simpl;
    destruct ((c : gmap bytes entry) !! key) as [e|] eqn:He; try done.
  - rewrite decide_False by lia. by exists c.
  - rewrite decide_True by lia. exists (delete key (c : gmap bytes entry)). split; [done|].
    intros k. unfold live. destruct (decide (k = key)) as [->|Hne].
    + rewrite lookup_delete_eq, He. lia.
    + by rewrite lookup_delete_ne.
  - by exists c.
Qed.

(** The key of a peer for a message of this hash. *)
Definition key_of (h : Hash) (id : Hash) : bytes := Hash_String id ++ bs ":" ++ Hash_String h.

Lemma gossip_filter_spec now msg h ids m :
  Message_Hash msg = Ok h →
  ∃ c', gossip_filter now msg ids m =
      (Ok (filter (λ id, ¬ live now (mx_gossipFilter m) (key_of h id)) ids), set_filter c' m).
Proof.
  intros Hh. revert m. induction ids as [|id ids IH]; intros m; [by exists (mx_gossipFilter m); destruct m|].
  cbn [gossip_filter]. rewrite (M_bind_step _ _ _ (key_of h id) m)
    by (unfold M_lift, gossipKey; by rewrite Hh).
  destruct (Cache_Has_live now (key_of h id) (mx_gossipFilter m)) as (c & Hc & Hl).
  rewrite (M_bind_step _ _ _ (bool_decide (live now (mx_gossipFilter m) (key_of h id))) (set_filter c m))
    by (unfold on_filter, M_zoom; by rewrite Hc).
  destruct (IH (set_filter c m)) as (c' & Hg). exists c'. rewrite (M_bind_step _ _ _ _ _ Hg).
  unfold mret, M_ret. f_equal. f_equal. rewrite filter_cons. simpl.
  assert (filter (λ id, ¬ live now c (key_of h id)) ids =
    filter (λ id, ¬ live now (mx_gossipFilter m) (key_of h id)) ids) as ->
    by (apply list_filter_iff; intros x; by rewrite Hl).
  case_bool_decide as Hx; case_decide as Hy; done.
Qed.

Lemma key_of_inj h id id' : key_of h id = key_of h id' → id = id'.
Proof. unfold key_of. intros He%app_inv_tail. by apply hex_Encode_inj in He. Qed.

(** After a message the key of its peer is live, and no other key changes. *)
Lemma handlePeerMessage_live now timeoutMS id e m h now' :
  Message_Hash (Envelope_Message e) = Ok h → 0 < timeoutMS →
  0 ≤ now ≤ now' → now' ≤ now + timeoutMS * Millisecond < 2 ^ 63 →
  ∃ m', handlePeerMessage now timeoutMS id e m = (Ok tt, m') ∧ mx_peers m' = mx_peers m ∧
    ∀ other, live now' (mx_gossipFilter m') (key_of h other) ↔
      other = id ∨ live now' (mx_gossipFilter m) (key_of h other).
Proof.
  intros Hh Ht Hn Hx. unfold handlePeerMessage. rewrite (M_bind_step _ _ _ (key_of h id) m)
    by (unfold M_lift, gossipKey; by rewrite Hh).
  eexists. split; [reflexivity|]. split; [done|]. intros other. simpl. unfold live.
  rewrite decide_False by lia. unfold Millisecond in *. rewrite (i64_small (timeoutMS * 1000000)) by lia. rewrite i64_small by lia.
  destruct (decide (other = id)) as [->|Hne].
  - rewrite lookup_insert_eq. simpl. split; [by left|lia].
  - rewrite lookup_insert_ne by (intros ?%key_of_inj; congruence). split; [by right|]. by intros [?|?].
Qed.
End gossip.

(** A message is not gossiped back.  Until the timeout of the filter, the
    peers a message is gossiped to are exactly the connected ones it has not been
    received from: never the one that sent it. *)
Theorem gossip_no_echo `{Secp256k1, Blake2b} now timeoutMS id e m h now' order :
  Message_Hash (Envelope_Message e) = Ok h → 0 < timeoutMS →
  0 ≤ now ≤ now' → now' ≤ now + timeoutMS * Millisecond < 2 ^ 63 → (∀ l, order l ≡ₚ l) →
  ∃ ids m', (handlePeerMessage now timeoutMS id e;; GossipPeerIDs order now' (Envelope_Message e)) m =
      (Ok ids, m') ∧
    ∀ other, other ∈ ids ↔
      is_Some (mx_peers m !! other) ∧ other ≠ id ∧ ¬ live now' (mx_gossipFilter m) (key_of h other).
Proof.
  intros Hh Ht Hn Hx Ho. destruct (handlePeerMessage_live now timeoutMS id e m h now')
    as (m1 & Hm & Hp & Hl); [done..|].
  rewrite (M_bind_step _ _ _ _ _ Hm). unfold GossipPeerIDs.
  destruct (gossip_filter_spec now' (Envelope_Message e) h (PeerIDs order m1) m1 Hh) as (c & ->).
  eexists _, _. split; [reflexivity|]. intros other. rewrite list_elem_of_filter, Hl.
  unfold PeerIDs. rewrite (Ho _), Hp. rewrite list_elem_of_fmap. split.
  - intros (Hnl & [k p] & -> & Hin%elem_of_map_to_list). simpl. split_and!; [by eexists| |]; tauto.
  - intros ([p Hin] & Hne & Hnl). split; [tauto|]. exists (other, p). by rewrite elem_of_map_to_list.
Qed.

Lemma gossip_no_echo_witness :
  let m := (AddPeer (demo_peer_id x02) (demo_inbound 2)
             (AddPeer (demo_peer_id x01) (demo_inbound 1) NewPeerMuxer).2).2 in
  let e := mkEnvelope 7 MessageTypeUpdate 0 (MUpdate (mkUpdate (bs "foo") 3 10)) ZeroSignature in
  ∃ ids m', (handlePeerMessage 0 DefaultPeerMuxerGossipTimeoutMS (demo_peer_id x01) e;;
      GossipPeerIDs id 1 (Envelope_Message e)) m = (Ok ids, m') ∧ demo_peer_id x01 ∉ ids.
Proof.
  intros m e. destruct (Message_Hash (Envelope_Message e)) as [h| |] eqn:Hh; [|done..].
  destruct (gossip_no_echo 0 DefaultPeerMuxerGossipTimeoutMS (demo_peer_id x01) e m h 1 id)
    as (ids & m' & Hg & Hi).
  - exact Hh.
  - done.
  - done.
  - done.
  - done.
  - exists ids, m'. split; [exact Hg|]. rewrite Hi. tauto.
Defined.
