(* ===== verification/PeerManager.v ===== *)
(** * Package p2p: the peer manager

    [src/p2p/peer_manager.go] and [seeds.go].  A call of [AcceptPeer]
    or [DialPeer] waits twice, for the connection and for the handshake, and other
    calls run meanwhile: each part between two waits is a step on the state of the
    manager, and a call under way is a session.  The clock, the outcome of a dial
    and the outcome of a handshake are arguments of the steps. *)

From S2P Require Import Prelude GoLib Crypto Instances Dwire Sector Wire Util StoreDB StoreInstances.
From S2P Require Import StorePeers Peer Mux BanList.

Definition MaxPendingInbound : Z := 12.
Definition MaxPendingOutbound : Z := 5.
Definition DayBan : Z := 24 * Hour.
Definition YearBan : Z := 365 * DayBan.

Definition ErrMaxOutbound : error := ESentinel "reached maximum outbound peers".
Definition ErrMaxInbound : error := ESentinel "reached maximum inbound peers".
Definition ErrAlreadyConnecting : error := ESentinel "already connecting to this peer".
Definition ErrPeerIDMismatch : error := ESentinel "peer IDs do not match after handshake".
Definition ErrSelfDial : error := ESentinel "self-dial after handshake".
Definition ErrPeerBanned : error := ESentinel "peer is banned".
Definition ErrInboundBusy : error := ESentinel "all inbound connections busy".
Definition ErrOutboundBusy : error := ESentinel "all outbound connections busy".

(** ** seeds.go *)

(** [pieces[0]] is the identity in hex, [pieces[1]] the address. *)
Record SeedPeer := mkSeedPeer { sp_ID : Hash; sp_IP : bytes }.

Fixpoint ParseSeedPeers (seedPeers : list bytes) : result (list SeedPeer) :=
  match seedPeers with
  | [] => Ok []
  | seed :: seedPeers =>
      match strings_Split x40 seed with
      | [p0; p1] =>
          peerID ← wrapping "mal-formed peer ID" (NewHashFromHex p0);
          peers ← ParseSeedPeers seedPeers;
          Ok (mkSeedPeer peerID p1 :: peers)
      | _ => Err (ENew "seed peer must specify both a peer ID and address")
      end
  end.

(** [ResolveDNSSeeds]: the addresses a lookup returned, each with its form as an
    IPv4 address, if it has one.  The set [used] stays empty. *)
Definition ResolveDNSSeeds (lookup : result (list (bytes * option bytes))) : result (list bytes) :=
  match wrapping "error looking up DNS seeds" lookup with
  | Ok ips => Ok (omap (λ ip : bytes * option bytes, ip.2) ips)
  | Err e => Err e
  | Panic s => Panic s
  end.

(** ** peer_manager.go *)

Section manager.
Context `{LevelDB, JSON, Secp256k1, Blake2b}.

Record peerManager := mkPeerManager {
  pm_mux : PeerMuxer;
  pm_db : DB;
  pm_pendingInbound : gset bytes;
  pm_pendingOutbound : gset bytes;
  pm_inSem : Z; (* what is held of the semaphores *)
  pm_outSem : Z;
  pm_next : nat; (* the next peer that [NewPeer] returns *)
}.

(** What the options fix. *)
Record PeerManagerOpts := mkPeerManagerOpts {
  po_MaxInbound : Z;
  po_MaxOutbound : Z;
  po_ListenHost : bytes;
  po_peerID : Hash;
}.

Definition NewPeerManager (mux : PeerMuxer) (db : DB) : peerManager := mkPeerManager mux db ∅ ∅ 0 0 0.

Context (opts : PeerManagerOpts).

Definition on_mux {A} (m : M PeerMuxer A) : M peerManager A :=
  M_zoom pm_mux (λ x p, mkPeerManager x (pm_db p) (pm_pendingInbound p) (pm_pendingOutbound p)
    (pm_inSem p) (pm_outSem p) (pm_next p)) m.

Definition on_pm_db {A} (m : M DB A) : M peerManager A :=
  M_zoom pm_db (λ x p, mkPeerManager (pm_mux p) x (pm_pendingInbound p) (pm_pendingOutbound p)
    (pm_inSem p) (pm_outSem p) (pm_next p)) m.

Definition set_pending (ins outs : gset bytes) (p : peerManager) : peerManager :=
  mkPeerManager (pm_mux p) (pm_db p) ins outs (pm_inSem p) (pm_outSem p) (pm_next p).

Definition set_sems (i o : Z) (p : peerManager) : peerManager :=
  mkPeerManager (pm_mux p) (pm_db p) (pm_pendingInbound p) (pm_pendingOutbound p) i o (pm_next p).

(** [NewPeer]. *)
Definition new_peer (d : PeerDirection) (ip addr : bytes) : M peerManager PeerRef :=
  λ p, (Ok (mkPeerRef (pm_next p) d ip addr),
        mkPeerManager (pm_mux p) (pm_db p) (pm_pendingInbound p) (pm_pendingOutbound p)
          (pm_inSem p) (pm_outSem p) (S (pm_next p))).

(** [peer.Close()] of a peer that is not with the muxer. *)
Definition close_peer (peer : PeerRef) : M peerManager unit :=
  on_mux (M_modify (λ m, mkPeerMuxer (mx_outboundPeersByIP m) (mx_inboundPeersByIP m) (mx_peers m)
    (mx_gossipFilter m) (mx_inboundCount m) (mx_outboundCount m) (mx_bytesTx m) (mx_bytesRx m)
    ({[pr_ref peer]} ∪ mx_closed m) (mx_emitted m))).

Definition cleanupInboundPeer (addr : bytes) : M peerManager unit :=
  M_modify (λ p, set_pending (pm_pendingInbound p ∖ {[addr]}) (pm_pendingOutbound p) p).

Definition cleanupOutboundPeer (ip : bytes) : M peerManager unit :=
  M_modify (λ p, set_pending (pm_pendingInbound p) (pm_pendingOutbound p ∖ {[ip]}) p).

(** An error of [IsBanned] is logged, and the peer passes. *)
Definition gateInboundPeer (now : Time) (ip addr : bytes) : M peerManager unit :=
  λ p,
    if decide (ip = po_ListenHost opts) then (Err ErrSelfDial, p)
    else if decide (addr ∈ pm_pendingInbound p) then (Err ErrAlreadyConnecting, p)
    else if decide (po_MaxInbound opts ≤ (PeerCount (pm_mux p)).1) then (Err ErrMaxInbound, p)
    else
      match IsBanned now (pm_db p) ip with
      | Panic s => (Panic s, p)
      | Ok (true, _) => (Err ErrPeerBanned, p)
      | _ => (Ok tt, set_pending ({[addr]} ∪ pm_pendingInbound p) (pm_pendingOutbound p) p)
      end.

Definition gateOutboundPeer (now : Time) (peerID : Hash) (ip : bytes) : M peerManager unit :=
  λ p,
    if decide (ip = po_ListenHost opts) then (Err ErrSelfDial, p)
    else if decide (ip ∈ pm_pendingOutbound p) then (Err ErrAlreadyConnecting, p)
    else if decide (po_MaxOutbound opts ≤ (PeerCount (pm_mux p)).2) then (Err ErrMaxOutbound, p)
    else if HasPeerID peerID (pm_mux p) then (Err ErrAlreadyConnected, p)
    else if HasOutboundPeerIP ip (pm_mux p) then (Err ErrAlreadyConnected, p)
    else
      match IsBanned now (pm_db p) ip with
      | Panic s => (Panic s, p)
      | Ok (_, true) => (Err ErrPeerBanned, p)
      | _ => (Ok tt, set_pending (pm_pendingInbound p) ({[ip]} ∪ pm_pendingOutbound p) p)
      end.

Definition banOutboundPeer (now : Time) (ip : bytes) : M peerManager unit :=
  M_try (on_pm_db (BanOutboundPeer now ip Hour));; mret tt.

(** ** Accepting *)

Definition acquireIn : M peerManager bool :=
  λ p, if decide (pm_inSem p + 1 ≤ MaxPendingInbound)
       then (Ok true, set_sems (pm_inSem p + 1) (pm_outSem p) p) else (Ok false, p).

Definition releaseIn : M peerManager unit := M_modify (λ p, set_sems (pm_inSem p - 1) (pm_outSem p) p).

Definition acquireOut : M peerManager bool :=
  λ p, if decide (pm_outSem p + 1 ≤ MaxPendingOutbound)
       then (Ok true, set_sems (pm_inSem p) (pm_outSem p + 1) p) else (Ok false, p).

Definition releaseOut : M peerManager unit := M_modify (λ p, set_sems (pm_inSem p) (pm_outSem p - 1) p).

(** [AcceptPeer] up to the handshake. *)
Definition accept_begin (now : Time) (ip addr : bytes) : M peerManager PeerRef :=
  ok ← acquireIn;
  if negb ok then M_fail ErrInboundBusy
  else
    r ← M_try (gateInboundPeer now ip addr);
    match r with
    | Ok _ => new_peer Inbound ip addr
    | Err e => releaseIn;; M_fail e
    | Panic s => M_panic s
    end.

(** The first part of [completeConnection]. *)
Definition complete_cleanup (peer : PeerRef) : M peerManager unit :=
  match pr_direction peer with
  | Inbound => cleanupInboundPeer (pr_addr peer)
  | Outbound => cleanupOutboundPeer (pr_ip peer)
  end.

Definition complete_add (now : Time) (peerID : Hash) (peer : PeerRef) (verify : bool) : M peerManager unit :=
  if decide (po_peerID opts = peerID) then
    close_peer peer;;
    (if decide (pr_direction peer = Outbound)
     then M_try (on_pm_db (BanOutboundPeer now (pr_ip peer) YearBan));; mret tt else mret tt);;
    M_fail ErrSelfDial
  else
    r ← M_try (on_mux (AddPeer peerID peer));
    match r with
    | Err e =>
        close_peer peer;;
        M_fail (if errors_Is e ErrAlreadyConnected then e
                else EWrap e "error completing peer connection")
    | Panic s => M_panic s
    | Ok _ => M_try (on_pm_db (SetPeer now peerID (pr_ip peer) verify));; mret tt
    end.

Definition completeConnection (now : Time) (peerID : Hash) (peer : PeerRef) (verify : bool)
    : M peerManager unit :=
  complete_cleanup peer;; complete_add now peerID peer verify.

(** What a handshake that failed leaves to do. *)
Definition accept_failed (peer : PeerRef) : M peerManager unit :=
  close_peer peer;; cleanupInboundPeer (pr_addr peer).

Definition accept_end (now : Time) (peer : PeerRef) (hs : result Hash) : M peerManager unit :=
  match hs with
  | Err e => accept_failed peer;; M_fail e
  | Panic s => M_panic s
  | Ok theirPeerID => completeConnection now theirPeerID peer false
  end.

(** [AcceptPeer] without others between its parts; [hs] is the outcome of the
    handshake. *)
Definition AcceptPeer (now : Time) (ip addr : bytes) (hs : result Hash) : M peerManager unit :=
  peer ← accept_begin now ip addr;
  M_defer releaseIn (accept_end now peer hs).

(** ** Dialling *)

Definition dial_begin (now : Time) (peerID : Hash) (ip addr : bytes) : M peerManager PeerRef :=
  ok ← acquireOut;
  if negb ok then M_fail ErrOutboundBusy
  else
    r ← M_try (gateOutboundPeer now peerID ip);
    match r with
    | Ok _ => new_peer Outbound ip addr
    | Err e => releaseOut;; M_fail e
    | Panic s => M_panic s
    end.

Definition dial_failed (now : Time) (ip : bytes) : M peerManager unit :=
  banOutboundPeer now ip;; cleanupOutboundPeer ip.

(** The identity of the other side is the one that was dialled, if that matters. *)
Definition check_id (peerID : Hash) (verifyPeerID : bool) (hs : result Hash) : result Hash :=
  theirPeerID ← hs;
  if verifyPeerID && bool_decide (peerID ≠ theirPeerID) then Err ErrPeerIDMismatch else Ok theirPeerID.

(** How a dial goes: no connection, or a connection and a handshake. *)
Inductive dial_outcome := NoConnection (e : error) | Handshook (hs : result Hash).

Definition dial_end (now : Time) (peerID : Hash) (peer : PeerRef) (verifyPeerID : bool) (o : dial_outcome)
    : M peerManager unit :=
  match o with
  | NoConnection e => dial_failed now (pr_ip peer);; M_fail (EWrap e "dial failed")
  | Handshook hs =>
      match check_id peerID verifyPeerID hs with
      | Err e => close_peer peer;; dial_failed now (pr_ip peer);; M_fail e
      | Panic s => M_panic s
      | Ok theirPeerID => completeConnection now theirPeerID peer verifyPeerID
      end
  end.

Definition DialPeer (now : Time) (peerID : Hash) (ip addr : bytes) (verifyPeerID : bool) (o : dial_outcome)
    : M peerManager unit :=
  peer ← dial_begin now peerID ip addr;
  M_defer releaseOut (dial_end now peerID peer verifyPeerID o).

(** ** Refilling *)

(** The loop over the stream: at most 256 candidates, none that is connected. *)
Fixpoint candidates (fuel : nat) (now : Time) (db : DB) (mux : PeerMuxer) (iter : list (bytes * bytes))
    (have : list StorePeers.Peer) : list StorePeers.Peer :=
  match fuel with
  | O => have
  | S fuel =>
      if decide (256 ≤ zlen have) then have
      else
        match PeerStream_Next now db false iter with
        | (Ok (Some peer), iter) =>
            if HasPeerID (p_ID peer) mux then candidates fuel now db mux iter have
            else candidates fuel now db mux iter (have ++ [peer])
        | _ => have
        end
  end.

Fixpoint dial_all (now : Time) (dial : StorePeers.Peer → M peerManager unit) (l : list StorePeers.Peer)
    : M peerManager unit :=
  match l with
  | [] => mret tt
  | peer :: l =>
      λ p,
        if decide (po_MaxOutbound opts ≤ (PeerCount (pm_mux p)).2) then (Ok tt, p)
        else (M_try (dial peer);; dial_all now dial l) p
  end.

(** [dial] is [DialPeer] of a stored peer. *)
Definition refillPeers (now : Time) (dial : StorePeers.Peer → M peerManager unit) : M peerManager unit :=
  λ p,
    if decide (po_MaxOutbound opts ≤ (PeerCount (pm_mux p)).2) then (Ok tt, p)
    else
      let stream := StreamPeers (pm_db p) in
      dial_all now dial (candidates (S (length stream)) now (pm_db p) (pm_mux p) stream []) p.
End manager.
