(* ===== verification/ManagerProofs.v ===== *)
(** * The limits of the peer manager

    The manager with the calls of [AcceptPeer] and [DialPeer] that are under way,
    in any interleaving with each other and with the muxer. *)

From S2P Require Import Prelude GoLib Crypto Instances Dwire Sector Wire Util StoreDB StoreInstances.
From S2P Require Import StorePeers Peer Mux PeerManager.

Section sessions.
Context `{LevelDB, JSON, Secp256k1, Blake2b} (opts : PeerManagerOpts).

(** A call under way: its peer, the identity that was dialled, and the identity
    the handshake ended with, when it has. *)
Record sess := mkSess {
  s_peer : PeerRef;
  s_want : Hash;
  s_verify : bool;
  s_done : option Hash;
}.

Definition Sys : Type := peerManager * gmap nat sess.

Definition no_panic {A} (r : result A) : Prop := ∀ s, r ≠ Panic s.

Definition release (d : PeerDirection) : M peerManager unit :=
  match d with Inbound => releaseIn | Outbound => releaseOut end.

(** What a handshake that failed leaves to do, by direction. *)
Definition failed (now : Time) (s : sess) (o : dial_outcome) : M peerManager unit :=
  match pr_direction (s_peer s), o with
  | Inbound, _ => accept_failed (s_peer s);; releaseIn
  | Outbound, NoConnection _ => dial_failed now (pr_ip (s_peer s));; releaseOut
  | Outbound, Handshook _ => close_peer (s_peer s);; dial_failed now (pr_ip (s_peer s));; releaseOut
  end.

Definition outcome (s : sess) (o : dial_outcome) : result Hash :=
  match pr_direction (s_peer s), o with
  | Inbound, Handshook hs => hs
  | Outbound, Handshook hs => check_id (s_want s) (s_verify s) hs
  | _, NoConnection e => Err e
  end.

Inductive sys_step : Sys → Sys → Prop :=
| sys_accept now ip addr pm peer pm' ss :
    accept_begin opts now ip addr pm = (Ok peer, pm') →
    sys_step (pm, ss) (pm', <[pr_ref peer := mkSess peer ZeroHash false None]> ss)
| sys_refuse_in now ip addr pm e pm' ss :
    accept_begin opts now ip addr pm = (Err e, pm') → sys_step (pm, ss) (pm', ss)
| sys_dial now id ip addr verify pm peer pm' ss :
    dial_begin opts now id ip addr pm = (Ok peer, pm') →
    sys_step (pm, ss) (pm', <[pr_ref peer := mkSess peer id verify None]> ss)
| sys_refuse_out now id ip addr pm e pm' ss :
    dial_begin opts now id ip addr pm = (Err e, pm') → sys_step (pm, ss) (pm', ss)
| sys_failed now k s o e pm r pm' ss :
    ss !! k = Some s → s_done s = None → outcome s o = Err e →
    failed now s o pm = (r, pm') → no_panic r → sys_step (pm, ss) (pm', delete k ss)
| sys_shaken k s o id pm ss :
    ss !! k = Some s → s_done s = None → outcome s o = Ok id →
    sys_step (pm, ss) ((complete_cleanup (s_peer s) pm).2,
      <[k := mkSess (s_peer s) (s_want s) (s_verify s) (Some id)]> ss)
| sys_complete now k s id pm r pm' ss :
    ss !! k = Some s → s_done s = Some id →
    complete_add opts now id (s_peer s) (s_verify s) pm = (r, pm') → no_panic r →
    sys_step (pm, ss) ((release (pr_direction (s_peer s)) pm').2, delete k ss)
| sys_close id pm ss : sys_step (pm, ss) ((on_mux (ClosePeer id) pm).2, ss)
| sys_round now magic timeout id r pm ss :
    sys_step (pm, ss) ((on_mux (receive_round now magic timeout id r) pm).2, ss)
| sys_send now magic signer peer_Send id msg pm ss :
    sys_step (pm, ss) ((on_mux (Send now magic signer peer_Send id msg) pm).2, ss).

(** ** The invariant *)

Definition sem (d : PeerDirection) (pm : peerManager) : Z :=
  match d with Inbound => pm_inSem pm | Outbound => pm_outSem pm end.

Definition sem_max (d : PeerDirection) : Z :=
  match d with Inbound => MaxPendingInbound | Outbound => MaxPendingOutbound end.

Definition pending (d : PeerDirection) (pm : peerManager) : gset bytes :=
  match d with Inbound => pm_pendingInbound pm | Outbound => pm_pendingOutbound pm end.

Definition count (d : PeerDirection) (pm : peerManager) : Z :=
  match d with Inbound => mx_inboundCount (pm_mux pm) | Outbound => mx_outboundCount (pm_mux pm) end.

Definition limit (d : PeerDirection) : Z :=
  match d with Inbound => po_MaxInbound opts | Outbound => po_MaxOutbound opts end.

(** What a pending connection is known by. *)
Definition handle (s : sess) : bytes :=
  match pr_direction (s_peer s) with Inbound => pr_addr (s_peer s) | Outbound => pr_ip (s_peer s) end.

Definition going (d : PeerDirection) (ss : gmap nat sess) : gmap nat sess :=
  filter (λ kv, pr_direction (s_peer kv.2) = d) ss.

(** A handshake is under way with this address. *)
Definition shaking (ss : gmap nat sess) (d : PeerDirection) (a : bytes) (k : nat) : Prop :=
  ∃ s, ss !! k = Some s ∧ pr_direction (s_peer s) = d ∧ s_done s = None ∧ handle s = a.

Record sys_inv (x : Sys) : Prop := mkSysInv {
  si_mux : mux_inv (pm_mux x.1);
  si_sem : ∀ d, sem d x.1 = Z.of_nat (size (going d x.2));
  si_sem_max : ∀ d, sem d x.1 ≤ sem_max d;
  si_limit : ∀ d, count d x.1 + sem d x.1 ≤ Z.max 0 (limit d - 1 + sem_max d);
  si_key : ∀ k s, x.2 !! k = Some s → pr_ref (s_peer s) = k ∧ (k < pm_next x.1)%nat;
  si_fresh : ∀ k s, x.2 !! k = Some s → fresh (pm_mux x.1) (s_peer s);
  si_peers : ∀ id p, mx_peers (pm_mux x.1) !! id = Some p → (pr_ref p < pm_next x.1)%nat;
  si_closed : ∀ r, r ∈ mx_closed (pm_mux x.1) → (r < pm_next x.1)%nat;
  si_self : ∀ p, mx_peers (pm_mux x.1) !! po_peerID opts ≠ Some p;
  si_pending : ∀ d a, a ∈ pending d x.1 ↔ ∃ k, shaking x.2 d a k;
  si_unique : ∀ d a k k', shaking x.2 d a k → shaking x.2 d a k' → k = k';
}.

Lemma size_going_insert d k s ss :
  ss !! k = None →
  Z.of_nat (size (going d (<[k := s]> ss))) =
  Z.of_nat (size (going d ss)) + (if decide (pr_direction (s_peer s) = d) then 1 else 0).
Proof.
  intros Hk. unfold going. case_decide as Hd.
  - rewrite map_filter_insert_True by done. rewrite map_size_insert_None; [lia|].
    apply map_lookup_filter_None. by left.
  - rewrite map_filter_insert_False by done. rewrite delete_id by done. lia.
Qed.

Lemma size_going_delete d k s ss :
  ss !! k = Some s →
  Z.of_nat (size (going d (delete k ss))) =
  Z.of_nat (size (going d ss)) - (if decide (pr_direction (s_peer s) = d) then 1 else 0).
Proof.
  intros Hk. rewrite <- (insert_delete_id ss k s Hk) at 2.
  rewrite size_going_insert by apply lookup_delete_eq. lia.
Qed.

(** A session that goes on: only its outcome changes. *)
Lemma size_going_update d k s s' ss :
  ss !! k = Some s → s_peer s' = s_peer s →
  Z.of_nat (size (going d (<[k := s']> ss))) = Z.of_nat (size (going d ss)).
Proof.
  intros Hk Hp. rewrite <- insert_delete_eq. rewrite size_going_insert by apply lookup_delete_eq.
  rewrite (size_going_delete d k s ss Hk), Hp. lia.
Qed.

(** ** Steps of the muxer *)

(** Peers may have left, and those that left may have been closed. *)
Definition shrinks (m m' : PeerMuxer) : Prop :=
  mx_peers m' ⊆ mx_peers m ∧
  ∀ r, r ∈ mx_closed m' → r ∈ mx_closed m ∨ ∃ id p, mx_peers m !! id = Some p ∧ pr_ref p = r.

Lemma shrinks_refl m : shrinks m m.
Proof. split; [done|]. by left. Qed.

Lemma shrinks_fresh m m' p : shrinks m m' → fresh m p → fresh m' p.
Proof.
  intros [Hp Hc] [Hcl Hfr]. split.
  - intros [?|(id & q & Hq & Hr)]%Hc; [done|]. by apply (Hfr id q).
  - intros id q Hq. by apply (Hfr id), (lookup_weaken _ _ _ _ Hq).
Qed.

Lemma shrinks_count d m m' :
  mux_inv m → mux_inv m' → shrinks m m' →
  (match d with Inbound => mx_inboundCount m' | Outbound => mx_outboundCount m' end) ≤
  (match d with Inbound => mx_inboundCount m | Outbound => mx_outboundCount m end).
Proof.
  intros Hm Hm' [Hs _]. assert (∀ d, facing d (mx_peers m') ⊆ facing d (mx_peers m)) as Hf
    by (intros d'; by apply map_filter_subseteq_mono).
  destruct d; [rewrite (mi_inbound m Hm), (mi_inbound m' Hm')|rewrite (mi_outbound m Hm), (mi_outbound m' Hm')];
    apply inj_le, map_subseteq_size, Hf.
Qed.

Lemma close_shrinks id m : mux_inv m → shrinks m (handlePeerClose id m).2.
Proof.
  intros Hm. pose proof (handlePeerClose_inv id m Hm) as [Hok _]. revert Hok. unfold handlePeerClose.
  destruct (mx_peers m !! id) as [p|] eqn:Hid; [|intros _; apply shrinks_refl].
  destruct (if bool_decide _ then _ else _); [|done..]. intros _. split; simpl; [apply delete_subseteq|].
  intros r [->%elem_of_singleton|?]%elem_of_union; [right; eauto|by left].
Qed.

(** A round and a send do not add peers. *)
Lemma round_shrinks now magic timeout id r m :
  mux_inv m → shrinks m (receive_round now magic timeout id r m).2.
Proof.
  intros Hm. unfold receive_round, mbind, M_bind. destruct r as [[e n]| |]; [| |apply shrinks_refl].
  - unfold M_try, M_lift. destruct (ValidateEnvelope _ _ _ _) as [v| |]; simpl; [| |apply shrinks_refl].
    + unfold handlePeerMessage, mbind, M_bind, M_lift.
      destruct (gossipKey _ _); simpl; (split; [done|by left]).
    + pose proof (close_shrinks id m Hm) as Hs. by destruct (handlePeerClose id m) as [[]].
  - pose proof (close_shrinks id m Hm) as Hs. by destruct (handlePeerClose id m) as [[]].
Qed.

Lemma send_shrinks now magic signer ps id msg m : shrinks m (Send now magic signer ps id msg m).2.
Proof.
  unfold Send, mbind, M_bind, M_lift. simpl. destruct (mx_peers m !! id); [|apply shrinks_refl].
  destruct (wrapping _ _); [|apply shrinks_refl..]. destruct (wrapping _ _); [|apply shrinks_refl..].
  split; [done|by left].
Qed.

(** Everything but the muxer stays, and the muxer shrinks. *)
Lemma sys_inv_shrinks pm pm' ss :
  sys_inv (pm, ss) → mux_inv (pm_mux pm') → shrinks (pm_mux pm) (pm_mux pm') →
  (∀ d, sem d pm' = sem d pm) → (∀ d, pending d pm' = pending d pm) → pm_next pm' = pm_next pm →
  sys_inv (pm', ss).
Proof.
  intros Hinv Hm Hsh Hse Hpe Hne. pose proof Hsh as [Hp Hc].
  destruct Hinv as [Hmux I1 I2 I3 I4 I5 I6 I7 I8 I9 I10].
  split; simpl in *; intros *; rewrite ?Hse, ?Hpe, ?Hne; try by eauto using shrinks_fresh.
  - pose proof (shrinks_count d _ _ Hmux Hm Hsh) as Hcnt. specialize (I3 d). unfold count in *.
    destruct d; lia.
  - intros Hx. by eapply I6, lookup_weaken.
  - intros Hr. apply Hc in Hr as [?|(id & p & Hid & <-)]; [by apply I7|by eapply I6].
  - intros Hx. by eapply I8, lookup_weaken.
Qed.

(** ** Sessions begin *)

(** A new session with address [a] of direction [d]. *)
Record begun (d : PeerDirection) (a : bytes) (pm pm' : peerManager) : Prop := mkBegun {
  be_mux : pm_mux pm' = pm_mux pm;
  be_sem : ∀ d', sem d' pm' = sem d' pm + (if decide (d = d') then 1 else 0);
  be_pending : ∀ d', pending d' pm' = (if decide (d = d') then {[a]} else ∅) ∪ pending d' pm;
  be_next : pm_next pm' = S (pm_next pm);
  be_room : sem d pm + 1 ≤ sem_max d;
  be_new : a ∉ pending d pm;
  be_limit : count d pm < limit d;
}.

Lemma begin_in now ip addr pm r pm' :
  accept_begin opts now ip addr pm = (r, pm') →
  match r with
  | Ok peer => peer = mkPeerRef (pm_next pm) Inbound ip addr ∧ begun Inbound addr pm pm'
  | Err _ => pm_mux pm' = pm_mux pm ∧ (∀ d, sem d pm' = sem d pm) ∧
             (∀ d, pending d pm' = pending d pm) ∧ pm_next pm' = pm_next pm
  | Panic _ => True
  end.
Proof.
  unfold accept_begin, acquireIn, mbind, M_bind. destruct (decide (pm_inSem pm + 1 ≤ MaxPendingInbound)) as [Hs|Hs].
  2:{ simpl. intros [= <- <-]. done. }
  simpl. unfold M_try, gateInboundPeer. simpl.
  assert (∀ d, sem d (set_sems (pm_inSem pm + 1 - 1) (pm_outSem pm) pm) = sem d pm) as Hse
    by (intros []; simpl; lia).
  repeat case_decide; [intros [= <- <-]; split; [done|split; [apply Hse|done]]..|].
  destruct (IsBanned now (pm_db pm) ip) as [[[] ?]| |]; intros [= <- <-]; try done.
  - split; [done|]. split; try done; [intros []; simpl; lia|intros []; simpl; set_solver|simpl; lia].
  - split; [done|]. split; try done; [intros []; simpl; lia|intros []; simpl; set_solver|simpl; lia].
Qed.

Lemma begin_out now id ip addr pm r pm' :
  dial_begin opts now id ip addr pm = (r, pm') →
  match r with
  | Ok peer => peer = mkPeerRef (pm_next pm) Outbound ip addr ∧ begun Outbound ip pm pm'
  | Err _ => pm_mux pm' = pm_mux pm ∧ (∀ d, sem d pm' = sem d pm) ∧
             (∀ d, pending d pm' = pending d pm) ∧ pm_next pm' = pm_next pm
  | Panic _ => True
  end.
Proof.
  unfold dial_begin, acquireOut, mbind, M_bind. destruct (decide (pm_outSem pm + 1 ≤ MaxPendingOutbound)) as [Hs|Hs].
  2:{ simpl. intros [= <- <-]. done. }
  simpl. unfold M_try, gateOutboundPeer. simpl.
  assert (∀ d, sem d (set_sems (pm_inSem pm) (pm_outSem pm + 1 - 1) pm) = sem d pm) as Hse
    by (intros []; simpl; lia).
  repeat case_decide; [intros [= <- <-]; split; [done|split; [apply Hse|done]]..|].
  destruct (HasPeerID _ _); [intros [= <- <-]; split; [done|split; [apply Hse|done]]|].
  destruct (HasOutboundPeerIP _ _); [intros [= <- <-]; split; [done|split; [apply Hse|done]]|].
  destruct (IsBanned now (pm_db pm) ip) as [[? []]| |]; intros [= <- <-]; try done.
  - split; [done|]. split; try done; [intros []; simpl; lia|intros []; simpl; set_solver|simpl; lia].
  - split; [done|]. split; try done; [intros []; simpl; lia|intros []; simpl; set_solver|simpl; lia].
Qed.

Lemma shaking_insert ss k s d a k' :
  ss !! k = None →
  shaking (<[k := s]> ss) d a k' ↔
  shaking ss d a k' ∨ k' = k ∧ pr_direction (s_peer s) = d ∧ s_done s = None ∧ handle s = a.
Proof.
  intros Hk. unfold shaking. split.
  - intros (x & Hx & Hr). destruct (decide (k' = k)) as [->|Hne].
    + rewrite lookup_insert_eq in Hx. simplify_eq. by right.
    + rewrite lookup_insert_ne in Hx by done. left. eauto.
  - intros [(x & Hx & Hr)|(-> & Hr)].
    + exists x. rewrite lookup_insert_ne by congruence. done.
    + exists s. by rewrite lookup_insert_eq.
Qed.

Lemma begun_inv d a pm pm' ss s :
  sys_inv (pm, ss) → begun d a pm pm' → pr_direction (s_peer s) = d → pr_ref (s_peer s) = pm_next pm →
  s_done s = None → handle s = a → sys_inv (pm', <[pm_next pm := s]> ss).
Proof.
  intros Hinv [Bm Bs Bp Bn Br Bw Bl] Hd Hk Hdone Ha.
  destruct Hinv as [Imux Isem Imax Ilim Ikey Ifr Ipe Icl Iself Ipend Iuni]. simpl in *.
  assert (ss !! pm_next pm = None) as Hn.
  { destruct (ss !! pm_next pm) as [t|] eqn:Ht; [|done]. apply Ikey in Ht as [_ ?]. lia. }
  split; simpl; rewrite ?Bm, ?Bn; try done.
  - intros d'. rewrite size_going_insert, Bs, Isem, Hd by done. done.
  - intros d'. rewrite Bs. case_decide as E; [by subst d'|]. specialize (Imax d'). lia.
  - intros d'. rewrite Bs. specialize (Ilim d'). unfold count in *. rewrite Bm.
    case_decide as E; [subst d'; lia|lia].
  - intros k t [[<- <-]|[Hne Ht]]%lookup_insert_Some; [split; [done|lia]|].
    apply Ikey in Ht as [? ?]. split; [done|lia].
  - intros k t [[<- <-]|[Hne Ht]]%lookup_insert_Some; [|by eapply Ifr].
    split; rewrite Hk; [intros Hc%Icl; lia|]. intros id q Hq%Ipe. lia.
  - intros id p Hp%Ipe. lia.
  - intros r Hr%Icl. lia.
  - intros d' a'. rewrite Bp, elem_of_union, Ipend. split.
    + intros [Hin|[k Hsh]]; [|exists k; apply shaking_insert; auto]. exists (pm_next pm).
      apply shaking_insert; [done|]. right. case_decide as E; set_solver.
    + intros [k [Hsh|(-> & E & _ & Ea)]%shaking_insert]; [right; eauto| |done].
      left. rewrite decide_True by congruence. set_solver.
  - intros d' a' k k' Hs1%shaking_insert Hs2%shaking_insert; [|done..].
    assert (∀ k0, shaking ss d' a' k0 → pr_direction (s_peer s) = d' → handle s = a' → False) as Hno.
    { intros k0 Hsh E1 E2. apply Bw. rewrite <- Ha, E2, <- Hd, E1. apply Ipend. eauto. }
    destruct Hs1 as [Hs1|(-> & ? & _ & ?)], Hs2 as [Hs2|(-> & ? & _ & ?)];
      [by eapply Iuni|by exfalso; eapply Hno|by exfalso; eapply Hno|done].
Qed.

(** ** Sessions end *)

Lemma shaking_delete ss k s d a k' :
  ss !! k = Some s → shaking (delete k ss) d a k' ↔ shaking ss d a k' ∧ k' ≠ k.
Proof.
  intros Hk. unfold shaking. split.
  - intros (x & [Hne Hx]%lookup_delete_Some & Hr). split; [eauto|done].
  - intros [(x & Hx & Hr) Hne]. exists x. by rewrite lookup_delete_ne.
Qed.

Lemma shaking_update ss k s s' d a k' :
  ss !! k = Some s → s_done s' ≠ None → shaking (<[k := s']> ss) d a k' ↔ shaking ss d a k' ∧ k' ≠ k.
Proof.
  intros Hk Hd. rewrite <- insert_delete_eq, shaking_insert by apply lookup_delete_eq.
  rewrite shaking_delete by done. naive_solver.
Qed.

(** The address of a session that leaves is no longer pending; the others are. *)
Lemma pending_left ss k s d pm pm' :
  (∀ d a, a ∈ pending d pm ↔ ∃ k, shaking ss d a k) →
  (∀ d a k k', shaking ss d a k → shaking ss d a k' → k = k') →
  ss !! k = Some s → s_done s = None →
  (∀ d, pending d pm' = pending d pm ∖ (if decide (pr_direction (s_peer s) = d) then {[handle s]} else ∅)) →
  ∀ a, a ∈ pending d pm' ↔ ∃ k', shaking ss d a k' ∧ k' ≠ k.
Proof.
  intros Ip Iu Hk Hd Hp a. rewrite Hp, elem_of_difference, Ip. split.
  - intros [[k' Hs] Hne]. exists k'. split; [done|]. intros ->. apply Hne.
    destruct Hs as (x & Hx & Hdir & _ & Hh). simplify_eq. rewrite decide_True by done. set_solver.
  - intros (k' & Hs & Hne). split; [by exists k'|]. case_decide as E; [|set_solver].
    rewrite elem_of_singleton. intros ->. apply Hne. eapply Iu; [exact Hs|]. by exists s.
Qed.

(** The handshake of a session is over, or it fails: [closed] says whether its peer
    was closed. *)
Record ended (s : sess) (pm pm' : peerManager) : Prop := mkEnded {
  en_peers : mx_peers (pm_mux pm') = mx_peers (pm_mux pm);
  en_mux : mux_inv (pm_mux pm) → fresh (pm_mux pm) (s_peer s) → mux_inv (pm_mux pm');
  en_closed : ∀ r, r ∈ mx_closed (pm_mux pm') → r ∈ mx_closed (pm_mux pm) ∨ r = pr_ref (s_peer s);
  en_count : ∀ d, count d pm' = count d pm;
  en_sem : ∀ d, sem d pm' = sem d pm - (if decide (pr_direction (s_peer s) = d) then 1 else 0);
  en_next : pm_next pm' = pm_next pm;
}.

(** A session that is removed: [pending] has to fit what is left. *)
Lemma ended_inv k s pm pm' ss :
  sys_inv (pm, ss) → ss !! k = Some s → ended s pm pm' →
  (∀ d a, a ∈ pending d pm' ↔ ∃ k', shaking ss d a k' ∧ k' ≠ k) →
  sys_inv (pm', delete k ss).
Proof.
  intros Hinv Hk [Ep Em Ec Ecnt Es En] Hp.
  destruct Hinv as [Imux Isem Imax Ilim Ikey Ifr Ipe Icl Iself Ipend Iuni]. simpl in *.
  pose proof (Ikey k s Hk) as [Hr Hlt]. split; simpl; rewrite ?Ep, ?En; try done.
  - by apply Em, (Ifr k).
  - intros d. by rewrite (size_going_delete d k s), Es, Isem.
  - intros d. rewrite Es. specialize (Imax d). case_decide; lia.
  - intros d. rewrite Es, Ecnt. specialize (Ilim d). case_decide; lia.
  - intros k' t [_ Ht]%lookup_delete_Some. by apply Ikey.
  - intros k' t [Hne Ht]%lookup_delete_Some. destruct (Ifr k' t Ht) as [F1 F2]. split; [|by rewrite Ep].
    pose proof (Ikey k' t Ht) as [Hr' _]. intros [?|?]%Ec; [done|]. congruence.
  - intros r [? | ->]%Ec; [by apply Icl|lia].
  - intros d a. rewrite Hp. split; intros (k' & Hs); exists k'; by apply (shaking_delete ss k s).
  - intros d a k1 k2 [J1 _]%(shaking_delete ss k s) [J2 _]%(shaking_delete ss k s); [|done..].
    by eapply Iuni.
Qed.

(** The handshake succeeded: the session goes on without its address. *)
Lemma shaken_inv k s id pm ss :
  sys_inv (pm, ss) → ss !! k = Some s → s_done s = None →
  sys_inv ((complete_cleanup (s_peer s) pm).2,
    <[k := mkSess (s_peer s) (s_want s) (s_verify s) (Some id)]> ss).
Proof.
  intros Hinv Hk Hd. set (pm' := (complete_cleanup (s_peer s) pm).2). set (s' := mkSess _ _ _ _).
  assert (pm_mux pm' = pm_mux pm ∧ (∀ d, sem d pm' = sem d pm) ∧ pm_next pm' = pm_next pm ∧
    ∀ d, pending d pm' = pending d pm ∖ (if decide (pr_direction (s_peer s) = d) then {[handle s]} else ∅))
    as (Em & Es & En & Ep).
  { unfold pm', complete_cleanup, handle. destruct (pr_direction (s_peer s)); split_and!; try done;
      intros []; simpl; try done; set_solver. }
  destruct Hinv as [Imux Isem Imax Ilim Ikey Ifr Ipe Icl Iself Ipend Iuni]. simpl in *.
  split; simpl; unfold count; rewrite ?Em, ?En; try done.
  - intros d. rewrite Es, Isem. symmetry. by apply (size_going_update d k s).
  - intros d. rewrite Es. apply Imax.
  - intros d. rewrite Es. apply Ilim.
  - intros k' t [[<- <-]|[_ Ht]]%lookup_insert_Some; [by apply (Ikey k s)|by apply Ikey].
  - intros k' t [[<- <-]|[_ Ht]]%lookup_insert_Some; [by apply (Ifr k s)|by eapply Ifr].
  - intros d a. rewrite (pending_left ss k s d pm pm') by done.
    split; intros (k' & Hs); exists k'; by apply (shaking_update ss k s s').
  - intros d a k1 k2 [J1 _]%(shaking_update ss k s s') [J2 _]%(shaking_update ss k s s'); [|done..].
    by eapply Iuni.
Qed.

(** ** The parts of the calls *)

Definition with_db (db : DB) (pm : peerManager) : peerManager :=
  mkPeerManager (pm_mux pm) db (pm_pendingInbound pm) (pm_pendingOutbound pm) (pm_inSem pm)
    (pm_outSem pm) (pm_next pm).

(** A write to the database whose error is logged. *)
Lemma try_db_spec (m : M DB unit) pm r pm' :
  (M_try (on_pm_db m);; mret tt) pm = (r, pm') → no_panic r →
  r = Ok tt ∧ ∃ db, pm' = with_db db pm.
Proof.
  unfold mbind, M_bind, M_try, on_pm_db, M_zoom. destruct (m (pm_db pm)) as [[]]; intros [= <- <-] Hn;
    [by eauto..|by destruct (Hn why)].
Qed.

Lemma close_ref_inv m r :
  mux_inv m → (∀ id q, mx_peers m !! id = Some q → pr_ref q ≠ r) →
  mux_inv (mkPeerMuxer (mx_outboundPeersByIP m) (mx_inboundPeersByIP m) (mx_peers m)
    (mx_gossipFilter m) (mx_inboundCount m) (mx_outboundCount m) (mx_bytesTx m) (mx_bytesRx m)
    ({[r]} ∪ mx_closed m) (mx_emitted m)).
Proof.
  intros [M1 M2 M3 M4 M5 M6 M7] Hr. split; try done. simpl. intros i p Hp.
  apply not_elem_of_union. split; [|by eapply M7]. rewrite elem_of_singleton. by eapply Hr.
Qed.

Definition pending_without (s : sess) (pm pm' : peerManager) : Prop :=
  ∀ d, pending d pm' = pending d pm ∖ (if decide (pr_direction (s_peer s) = d) then {[handle s]} else ∅).

(** The peer is closed, its address is no longer pending, its slot is free. *)
Definition dropped (close : bool) (s : sess) (db : DB) (pm : peerManager) : peerManager :=
  let m := pm_mux pm in
  let inbound := bool_decide (pr_direction (s_peer s) = Inbound) in
  mkPeerManager
    (if close then mkPeerMuxer (mx_outboundPeersByIP m) (mx_inboundPeersByIP m) (mx_peers m)
       (mx_gossipFilter m) (mx_inboundCount m) (mx_outboundCount m) (mx_bytesTx m) (mx_bytesRx m)
       ({[pr_ref (s_peer s)]} ∪ mx_closed m) (mx_emitted m) else m) db
    (if inbound then pm_pendingInbound pm ∖ {[handle s]} else pm_pendingInbound pm)
    (if inbound then pm_pendingOutbound pm else pm_pendingOutbound pm ∖ {[handle s]})
    (if inbound then pm_inSem pm - 1 else pm_inSem pm) (if inbound then pm_outSem pm else pm_outSem pm - 1)
    (pm_next pm).

Lemma dropped_ended close s db pm :
  ended s pm (dropped close s db pm) ∧ pending_without s pm (dropped close s db pm).
Proof.
  split; [split|].
  - by destruct close.
  - intros Hm [_ Hf]. destruct close; [by apply close_ref_inv|done].
  - intros r. destruct close; [|by left]. simpl. intros [->%elem_of_singleton|?]%elem_of_union; [by right|by left].
  - by intros []; destruct close.
  - intros d. unfold dropped. destruct (pr_direction (s_peer s)), d; simpl; lia.
  - done.
  - intros d. unfold dropped. destruct (pr_direction (s_peer s)), d; simpl; set_solver.
Qed.

Lemma failed_spec now s o pm r pm' :
  failed now s o pm = (r, pm') → no_panic r → ∃ close db, pm' = dropped close s db pm.
Proof.
  unfold failed, dropped, handle. destruct (pr_direction (s_peer s)) eqn:Hd; simpl.
  { intros [= <- <-] _. by exists true, (pm_db pm). }
  destruct o as [e|hs]; unfold dial_failed, banOutboundPeer.
  - unfold mbind at 1, M_bind at 1, mbind at 1, M_bind at 1.
    destruct ((M_try (on_pm_db (BanOutboundPeer now (pr_ip (s_peer s)) Hour));; mret tt) pm) as [r1 pm1] eqn:H1'.
    intros Hf Hn. destruct (try_db_spec _ _ _ _ H1') as [-> [db ->]].
    { intros w ->. simplify_eq/=. by destruct (Hn w). }
    injection Hf as <- <-. by exists false, db.
  - unfold mbind at 1, M_bind at 1. simpl. unfold mbind at 1, M_bind at 1, mbind at 1, M_bind at 1.
    destruct ((M_try (on_pm_db (BanOutboundPeer now (pr_ip (s_peer s)) Hour));; mret tt) _) as [r1 pm1] eqn:H1'.
    intros Hf Hn. destruct (try_db_spec _ _ _ _ H1') as [-> [db ->]].
    { intros w ->. simplify_eq/=. by destruct (Hn w). }
    injection Hf as <- <-. by exists true, db.
Qed.

Lemma errors_no_panic {A} (r : result A) s : no_panic r → r = Panic s → False.
Proof. intros Hn ->. by apply (Hn s). Qed.

(** A session that completes: its peer is closed, or joins the others. *)
Lemma complete_add_spec now id peer verify pm r pm' :
  complete_add opts now id peer verify pm = (r, pm') → no_panic r →
  ∃ db, (pm_mux pm' = (close_peer peer pm).2.(pm_mux) ∨
         id ≠ po_peerID opts ∧ mx_peers (pm_mux pm) !! id = None ∧
         pm_mux pm' = (handlePeerOpen id peer (pm_mux pm)).2) ∧
    pm' = mkPeerManager (pm_mux pm') db (pm_pendingInbound pm) (pm_pendingOutbound pm) (pm_inSem pm)
            (pm_outSem pm) (pm_next pm).
Proof.
  unfold complete_add. case_decide as Hself.
  - rewrite (M_bind_step _ _ _ tt (close_peer peer pm).2) by done. set (pm1 := (close_peer peer pm).2).
    case_decide as Hd.
    + unfold mbind at 1, M_bind at 1.
      destruct ((M_try (on_pm_db (BanOutboundPeer now (pr_ip peer) YearBan));; mret tt) pm1) as [r1 pm2] eqn:Hb.
      intros Hf Hn. destruct (try_db_spec _ _ _ _ Hb) as [-> [db ->]].
      { intros w ->. simplify_eq/=. by destruct (Hn w). }
      injection Hf as <- <-. exists db. split; [by left|done].
    + intros [= <- <-] _. exists (pm_db pm). split; [by left|done].
  - unfold mbind at 1, M_bind at 1, M_try at 1, on_mux at 1, M_zoom at 1, AddPeer, M_wrapping, handlePeerOpen.
    unfold HasPeerID. case_bool_decide as Hid; simpl.
    + intros [= <- <-] _. exists (pm_db pm). split; [by left|done].
    + rewrite <- eq_None_not_Some in Hid. intros Hf Hn.
      destruct (try_db_spec _ _ _ _ Hf Hn) as [_ [db ->]]. exists db. split; [|done].
      by right.
Qed.

Lemma shaking_done ss k s : ss !! k = Some s → s_done s ≠ None →
  ∀ d a k', shaking ss d a k' → k' ≠ k.
Proof. intros Hk Hd d a k' (x & Hx & _ & Hn & _) ->. simplify_eq. Qed.

Lemma release_sem d pm :
  (release d pm).2 = mkPeerManager (pm_mux pm) (pm_db pm) (pm_pendingInbound pm) (pm_pendingOutbound pm)
    (match d with Inbound => pm_inSem pm - 1 | Outbound => pm_inSem pm end)
    (match d with Inbound => pm_outSem pm | Outbound => pm_outSem pm - 1 end) (pm_next pm).
Proof. by destruct d. Qed.

(** The peer of a session joins the others. *)
Lemma added_inv k s id pm db ss :
  sys_inv (pm, ss) → ss !! k = Some s → s_done s = Some id → id ≠ po_peerID opts →
  mx_peers (pm_mux pm) !! id = None →
  sys_inv ((release (pr_direction (s_peer s)) (mkPeerManager (handlePeerOpen id (s_peer s) (pm_mux pm)).2 db
    (pm_pendingInbound pm) (pm_pendingOutbound pm) (pm_inSem pm) (pm_outSem pm) (pm_next pm))).2,
    delete k ss).
Proof.
  intros Hinv Hk Hd Hself Hid. rewrite release_sem.
  destruct Hinv as [Imux Isem Imax Ilim Ikey Ifr Ipe Icl Iself Ipend Iuni]. simpl in *.
  pose proof (Ikey k s Hk) as [Hr Hlt]. pose proof (Ifr k s Hk) as Hfr.
  pose proof (handlePeerOpen_inv id (s_peer s) (pm_mux pm) Imux Hfr) as Hm.
  assert (∀ d, (match d with Inbound => mx_inboundCount (handlePeerOpen id (s_peer s) (pm_mux pm)).2
      | Outbound => mx_outboundCount (handlePeerOpen id (s_peer s) (pm_mux pm)).2 end) =
    count d pm + (if decide (pr_direction (s_peer s) = d) then 1 else 0)) as Hcnt.
  { intros d. unfold handlePeerOpen, HasPeerID, count. rewrite bool_decide_false by (by rewrite Hid; intros [? ?]).
    destruct (pr_direction (s_peer s)), d; simpl; lia. }
  assert (mx_peers (handlePeerOpen id (s_peer s) (pm_mux pm)).2 = <[id := s_peer s]> (mx_peers (pm_mux pm)) ∧
    mx_closed (handlePeerOpen id (s_peer s) (pm_mux pm)).2 = mx_closed (pm_mux pm)) as [Hp Hc].
  { unfold handlePeerOpen, HasPeerID. by rewrite bool_decide_false by (by rewrite Hid; intros [? ?]). }
  set (m' := (handlePeerOpen id (s_peer s) (pm_mux pm)).2) in *.
  split; simpl; rewrite ?Hp, ?Hc; try done.
  - intros d. rewrite (size_going_delete d k s), <- Isem by done.
    destruct (pr_direction (s_peer s)), d; simpl; lia.
  - intros d. specialize (Imax d). destruct (pr_direction (s_peer s)), d; simpl in *; lia.
  - intros d. specialize (Ilim d). specialize (Hcnt d). unfold count in *.
    destruct (pr_direction (s_peer s)), d; simpl in *; rewrite Hcnt; lia.
  - intros k' t [_ Ht]%lookup_delete_Some. by apply Ikey.
  - intros k' t [Hne Ht]%lookup_delete_Some. destruct (Ifr k' t Ht) as [F1 F2].
    pose proof (Ikey k' t Ht) as [Hr' _]. split; rewrite ?Hp, ?Hc; [done|].
    intros i q [[<- <-]|[_ Hq]]%lookup_insert_Some; [congruence|by eapply F2].
  - intros i p [[<- <-]|[_ Hq]]%lookup_insert_Some; [lia|by eapply Ipe].
  - intros p. rewrite lookup_insert_ne by done. apply Iself.
  - intros d a. transitivity (a ∈ pending d pm); [by destruct d|]. rewrite Ipend.
    split; intros (k' & Hs); exists k'; [|by apply (shaking_delete ss k s) in Hs as [? _]].
    apply (shaking_delete ss k s); [done|]. split; [done|]. eapply shaking_done; [exact Hk|congruence|exact Hs].
  - intros d a k1 k2 [J1 _]%(shaking_delete ss k s) [J2 _]%(shaking_delete ss k s); [|done..].
    by eapply Iuni.
Qed.

Lemma complete_inv now k s id pm r pm' ss :
  sys_inv (pm, ss) → ss !! k = Some s → s_done s = Some id →
  complete_add opts now id (s_peer s) (s_verify s) pm = (r, pm') → no_panic r →
  sys_inv ((release (pr_direction (s_peer s)) pm').2, delete k ss).
Proof.
  intros Hinv Hk Hd Hc Hn. destruct (complete_add_spec _ _ _ _ _ _ _ Hc Hn)
    as (db & [Hm|(Hself & Hid & Hm)] & Hpm); rewrite Hpm, Hm; [|by apply added_inv].
  rewrite release_sem. apply (ended_inv k s pm); [done..| |].
  - split; simpl; try done.
    + intros Hmux [_ Hf]. by apply close_ref_inv.
    + intros r' [->%elem_of_singleton|?]%elem_of_union; [by right|by left].
    + intros d. destruct (pr_direction (s_peer s)), d; simpl; lia.
  - intros d a. transitivity (a ∈ pending d pm); [by destruct d|].
    rewrite (si_pending _ Hinv). simpl. split; [|naive_solver]. intros (k' & Hs). exists k'.
    split; [done|]. eapply shaking_done; [exact Hk|congruence|exact Hs].
Qed.

Lemma sys_step_inv x y : sys_inv x → sys_step x y → sys_inv y.
Proof.
  intros Hinv Hs. destruct Hs as
    [now ip addr pm peer pm' ss Hb|now ip addr pm e pm' ss Hb|now id ip addr v pm peer pm' ss Hb
    |now id ip addr pm e pm' ss Hb|now k s o e pm r pm' ss Hk Hd Ho Hf Hn|k s o id pm ss Hk Hd Ho
    |now k s id pm r pm' ss Hk Hd Hc Hn|id pm ss|now mg t id r pm ss|now mg sg ps id msg pm ss].
  - apply begin_in in Hb as [-> Hb]. by eapply begun_inv.
  - apply begin_in in Hb as (Hm & ? & ? & ?). apply (sys_inv_shrinks pm); rewrite ?Hm; try done;
      [apply (si_mux _ Hinv)|apply shrinks_refl].
  - apply begin_out in Hb as [-> Hb]. by eapply begun_inv.
  - apply begin_out in Hb as (Hm & ? & ? & ?). apply (sys_inv_shrinks pm); rewrite ?Hm; try done;
      [apply (si_mux _ Hinv)|apply shrinks_refl].
  - destruct (failed_spec _ _ _ _ _ _ Hf Hn) as (close & db & ->).
    destruct (dropped_ended close s db pm) as [He Hp]. eapply ended_inv; [done..|]. intros d.
    apply (pending_left ss k s d pm); try done; [apply (si_pending _ Hinv)|apply (si_unique _ Hinv)].
  - by apply shaken_inv.
  - by eapply complete_inv.
  - eapply sys_inv_shrinks; [exact Hinv|..]; unfold on_mux, M_zoom, ClosePeer;
      pose proof (handlePeerClose_inv id (pm_mux pm) (si_mux _ Hinv)) as [_ Hi];
      pose proof (close_shrinks id (pm_mux pm) (si_mux _ Hinv)) as Hsh;
      destruct (handlePeerClose id (pm_mux pm)) as [r m]; try done; by intros [].
  - eapply sys_inv_shrinks; [exact Hinv|..]; unfold on_mux, M_zoom;
      pose proof (preserves_receive_round now mg t id r (pm_mux pm) (si_mux _ Hinv)) as Hi;
      pose proof (round_shrinks now mg t id r (pm_mux pm) (si_mux _ Hinv)) as Hsh;
      destruct (receive_round now mg t id r (pm_mux pm)) as [r' m]; try done; by intros [].
  - eapply sys_inv_shrinks; [exact Hinv|..]; unfold on_mux, M_zoom;
      pose proof (preserves_Send now mg sg ps id msg (pm_mux pm) (si_mux _ Hinv)) as Hi;
      pose proof (send_shrinks now mg sg ps id msg (pm_mux pm)) as Hsh;
      destruct (Send now mg sg ps id msg (pm_mux pm)) as [r' m]; try done; by intros [].
Qed.

Definition start_sys (db : DB) : Sys := (NewPeerManager NewPeerMuxer db, ∅).

Lemma start_inv db : sys_inv (start_sys db).
Proof.
  split; simpl; try done.
  - apply new_mux_inv.
  - by intros [].
  - by intros [].
  - intros []; simpl; lia.
  - intros d a. split; [by destruct d|]. by intros (k & s & Hk & _).
  - by intros d a k k' (s & Hk & _).
Qed.
End sessions.


Definition demo_opts1 : PeerManagerOpts := mkPeerManagerOpts 1 1 (bs "127.0.0.1") (demo_peer_id x09).

(** A connection from a host. *)
Definition demo_accept (host : string) : M peerManager PeerRef :=
  accept_begin demo_opts1 0 (bs host) (bs host ++ bs ":4000").


(** Two connections that pass the gate together: the limit of one is exceeded. *)
Example inbound_limit_exceeded :
  let m : M peerManager unit :=
    (p1 ← demo_accept "10.0.0.1"; p2 ← demo_accept "10.0.0.2";
     completeConnection demo_opts1 0 (demo_peer_id x01) p1 false;;
     completeConnection demo_opts1 0 (demo_peer_id x02) p2 false) in
  let run := m (NewPeerManager NewPeerMuxer empty_db) in
  run.1 = Ok tt ∧ (PeerCount (pm_mux run.2)).1 = 2 ∧ po_MaxInbound demo_opts1 = 1.
Proof. vm_compute. done. Qed.
