(* ===== verification/HnsEncoding.v ===== *)
(** * The Handshake library: words, varints and byte strings

    [src/vendor/fnd.localhost/handshake/encoding]: what blocks, transactions and
    resources are read and written with.  Readers are decoders over the bytes
    that are left; writers are [io.Writer]s over a state, so that the same
    functions write to a buffer and to the bounded writer of resources.  [codes]
    says that what an encoder writes to a buffer is what a decoder reads back. *)

From S2P Require Import Prelude GoLib NetIP.
#[local] Open Scope Z_scope.

Create HintDb hns discriminated.

(** ** decoding.go *)

Definition ReadUint64 : dec Z := buf ← ReadFull 8; mret (le_get buf).
Definition ReadUint32 : dec Z := buf ← ReadFull 4; mret (le_get buf).
Definition ReadUint16 : dec Z := buf ← ReadFull 2; mret (le_get buf).
Definition ReadUint16BE : dec Z := buf ← ReadFull 2; mret (be_get buf).
Definition ReadUint8 : dec Z := buf ← ReadFull 1; mret (be_get buf).

(** [make([]byte, l)] of an [int]; memory itself is not bounded. *)
Definition make_ok (l : Z) : bool := bool_decide (0 ≤ l ≤ 2 ^ 48).

Definition ReadBytes (l : Z) : dec bytes :=
  if make_ok l then ReadFull (Z.to_nat l) else dec_panic "makeslice: len out of range".

Definition ReadString (l : Z) : dec bytes := ReadBytes l.

Definition ReadByte : dec Z := buf ← ReadBytes 1; mret (be_get buf).

(** The error of the first byte is not returned. *)
Definition ReadVarint : dec Z :=
  λ r,
    match ReadByte r with
    | Err _ => Ok (0, r)
    | Panic w => Panic w
    | Ok (sigil, r) =>
        if decide (sigil < 253) then Ok (sigil, r)
        else if decide (sigil = 253) then ReadUint16 r
        else if decide (sigil = 254) then ReadUint32 r
        else ReadUint64 r
    end.

Definition ReadVarBytes : dec bytes := l ← ReadVarint; ReadBytes (i64 l).

Definition ReadIP4 : dec bytes := ReadFull 4.
Definition ReadIP6 : dec bytes := ReadFull 16.

(** [for i := 0; i < int(count); i++] of a decoder that appends to a slice. *)
Definition dec_times {A} (count : Z) (d : dec A) : dec (list A) := dec_repeat (Z.to_nat (i64 count)) d.

(** ** encoding.go and special.go *)

Definition Writer (S : Type) : Type := bytes → M S (Z * option error).

Section writers.
Context {S : Type} (w : Writer S).

(** [if _, err := w.Write(p); err != nil { return err }]: the count is dropped. *)
Definition write (p : bytes) : M S unit :=
  '(_, err) ← w p;
  match err with Some e => M_fail e | None => mret tt end.

Definition WriteUint64 (val : Z) : M S unit := write (le_put 8 val).
Definition WriteUint32 (val : Z) : M S unit := write (le_put 4 val).
Definition WriteUint16 (val : Z) : M S unit := write (le_put 2 val).
Definition WriteUInt16BE (val : Z) : M S unit := write (be_put 2 val).
Definition WriteUint8 (val : Z) : M S unit := write [byte_of_Z val].

(** The last branch assigns a buffer of its own, so [buf] stays empty. *)
Definition WriteVarint (val : Z) : M S unit :=
  write (if decide (val ≤ 252) then [byte_of_Z val]
         else if decide (val < 2 ^ 16) then xfd :: le_put 2 val
         else if decide (val < 2 ^ 32) then xfe :: le_put 4 val
         else []).

Definition WriteVarBytes (buf : bytes) : M S unit :=
  WriteVarint (zlen buf);; write buf.

Definition WriteIP4 (ip : bytes) : M S unit :=
  match To4 ip with
  | None => M_fail (ENew "invalid IP")
  | Some data => write data
  end.

Definition WriteIP6 (ip : bytes) : M S unit :=
  match To16 ip with
  | None => M_fail (ENew "invalid IP")
  | Some data => write data
  end.

(** [for _, x := range l], up to the first error. *)
Fixpoint each {A} (f : A → M S unit) (l : list A) : M S unit :=
  match l with
  | [] => mret tt
  | x :: l => f x;; each f l
  end.
End writers.

(** A [bytes.Buffer]. *)
Definition Buffer_Write : Writer bytes := λ p b, (Ok (zlen p, None), b ++ p).

(** ** Round trips *)

(** The encoder writes [o], whatever the buffer holds. *)
Definition appends (e : M bytes unit) (o : bytes) : Prop := ∀ b, e b = (Ok tt, b ++ o).

(** The decoder reads back what the encoder wrote as [a], whatever follows. *)
Definition codes {A} (e : M bytes unit) (d : dec A) (a : A) : Prop :=
  ∃ o, appends e o ∧ ∀ r, d (o ++ r) = Ok (a, r).

Lemma appends_write p : appends (write Buffer_Write p) p.
Proof. done. Qed.

Lemma appends_seq e1 e2 o1 o2 : appends e1 o1 → appends e2 o2 → appends (e1;; e2) (o1 ++ o2).
Proof. intros E1 E2 b. rewrite (M_bind_step _ _ _ _ _ (E1 b)), E2. by rewrite app_assoc. Qed.

Lemma codes_write {A} p (d : dec A) a :
  (∀ r, d (p ++ r) = Ok (a, r)) → codes (write Buffer_Write p) d a.
Proof. intros Hd. exists p. split; [apply appends_write|done]. Qed.

Lemma codes_bind {A B} e1 e2 (d : dec A) (f : A → dec B) a b :
  codes e1 d a → codes e2 (f a) b → codes (e1;; e2) (d ≫= f) b.
Proof.
  intros (o1 & E1 & D1) (o2 & E2 & D2). exists (o1 ++ o2). split; [by apply appends_seq|].
  intros r. rewrite <- app_assoc, (dec_bind_step _ _ _ _ _ (D1 _)). apply D2.
Qed.

(** The last call of an encoder, and the value a decoder makes of it. *)
Lemma codes_last {A B} e (d : dec A) (f : A → dec B) a b :
  codes e d a → (∀ r, f a r = Ok (b, r)) → codes e (d ≫= f) b.
Proof.
  intros (o & E & D) Hf. exists o. split; [done|]. intros r.
  by rewrite (dec_bind_step _ _ _ _ _ (D _)), Hf.
Qed.

Lemma codes_assoc {A} (e1 e2 e3 : M bytes unit) (d : dec A) a : codes (e1;; (e2;; e3)) d a → codes ((e1;; e2);; e3) d a.
Proof.
  intros (o & E & D). exists o. split; [|done]. intros b. rewrite <- E. unfold mbind, M_bind.
  by destruct (e1 b) as [[]].
Qed.

Lemma codes_each {A} (f : A → M bytes unit) (d : dec A) l :
  Forall (λ x, codes (f x) d x) l → codes (each f l) (dec_repeat (length l) d) l.
Proof.
  induction 1 as [|x l Hx _ IH]; [exists []; split; [intros b; by rewrite app_nil_r|done]|].
  simpl. eapply codes_bind; [done|]. eapply codes_last; [done|done].
Qed.

Lemma codes_times {A} (f : A → M bytes unit) (d : dec A) n l :
  zlen l = n → n < 2 ^ 63 → Forall (λ x, codes (f x) d x) l → codes (each f l) (dec_times n d) l.
Proof.
  intros <- Hn Hl. unfold dec_times. unfold zlen in *. rewrite i64_small by lia.
  rewrite Nat2Z.id. by apply codes_each.
Qed.

Lemma codes_full n p : length p = n → codes (write Buffer_Write p) (ReadFull n) p.
Proof. intros Hn. apply codes_write. intros r. by apply ReadFull_app. Qed.

Lemma codes_read n buf p :
  length p = length buf → length buf = S n → codes (write Buffer_Write p) (ReadInto buf) p.
Proof. intros Hp Hn. apply codes_write. intros r. apply ReadInto_app; [done|]. destruct p; simpl in *; [lia|done]. Qed.

Lemma codes_le n z : 0 ≤ z < 2 ^ (8 * Z.of_nat n) →
  codes (write Buffer_Write (le_put n z)) (buf ← ReadFull n; mret (le_get buf)) z.
Proof.
  intros Hz. apply codes_write. intros r.
  rewrite (dec_bind_step _ _ _ _ _ (ReadFull_app _ _ _ (length_le_put _ _))).
  by rewrite le_get_put_small.
Qed.

Lemma codes_Uint64 z : is_u64 z → codes (WriteUint64 Buffer_Write z) ReadUint64 z.
Proof. exact (codes_le 8 z). Qed.

Lemma codes_Uint32 z : is_u32 z → codes (WriteUint32 Buffer_Write z) ReadUint32 z.
Proof. exact (codes_le 4 z). Qed.

Lemma ReadUint8_byte z r : is_u8 z → ReadUint8 (byte_of_Z z :: r) = Ok (z, r).
Proof.
  intros Hz. unfold ReadUint8. rewrite (dec_bind_step _ _ _ _ _ (ReadFull_1 _ _)).
  rewrite be_get_singleton, Z_of_byte_of_Z, Z.mod_small by done. done.
Qed.

Lemma ReadByte_byte b r : ReadByte (b :: r) = Ok (Z_of_byte b, r).
Proof.
  unfold ReadByte. change (ReadBytes 1) with (ReadFull 1).
  by rewrite (dec_bind_step _ _ _ _ _ (ReadFull_1 _ _)), be_get_singleton.
Qed.

Lemma codes_Uint8 z : is_u8 z → codes (WriteUint8 Buffer_Write z) ReadUint8 z.
Proof. intros Hz. apply codes_write. intros r. by apply ReadUint8_byte. Qed.

Lemma ReadVarint_sigil b r :
  ReadVarint (b :: r) =
  if decide (Z_of_byte b < 253) then Ok (Z_of_byte b, r)
  else if decide (Z_of_byte b = 253) then ReadUint16 r
  else if decide (Z_of_byte b = 254) then ReadUint32 r
  else ReadUint64 r.
Proof. unfold ReadVarint. by rewrite ReadByte_byte. Qed.

Lemma codes_Varint z : 0 ≤ z < 2 ^ 32 → codes (WriteVarint Buffer_Write z) ReadVarint z.
Proof.
  intros Hz. apply codes_write. intros r.
  destruct (decide (z ≤ 252)); [|destruct (decide (z < 2 ^ 16)); [|rewrite decide_True by lia]];
    cbn [app]; rewrite ReadVarint_sigil.
  - rewrite Z_of_byte_of_Z, Z.mod_small by lia. by rewrite decide_True by lia.
  - destruct (codes_le 2 z) as (o & E & D); [lia|]. injection (E []) as <-. apply D.
  - destruct (codes_le 4 z) as (o & E & D); [lia|]. injection (E []) as <-. apply D.
Qed.

Lemma codes_VarBytes b : zlen b < 2 ^ 32 → codes (WriteVarBytes Buffer_Write b) ReadVarBytes b.
Proof.
  intros Hb. assert (0 ≤ zlen b) by (unfold zlen; lia). eapply codes_bind; [by apply codes_Varint|].
  cbv beta. rewrite i64_small by lia. unfold ReadBytes, make_ok. rewrite bool_decide_true by lia.
  apply codes_full. unfold zlen. lia.
Qed.

#[export] Hint Resolve codes_Uint64 codes_Uint32 codes_Uint8 codes_Varint codes_VarBytes codes_full : hns.
