(* ===== verification/HnsDns.v ===== *)
(** * The Handshake library: resources

    [src/vendor/fnd.localhost/handshake/dns]: the records a name has on the chain,
    and the bounded writer and the reader they go through.  Domain names are
    packed and unpacked by github.com/miekg/dns: the class [MiekgDNS], with what
    its documentation promises as the laws of [MiekgDNSLaws]. *)

From S2P Require Import Prelude GoLib NetIP HnsEncoding.
#[local] Open Scope Z_scope.

(** ** github.com/miekg/dns *)

(** [PackDomainName(s, msg, off, compression, compress)] writes to [msg] and to the
    map, and returns the new offset; [UnpackDomainName(msg, off)] returns the
    name and the new offset. *)
Class MiekgDNS := {
  UnpackDomainName : bytes → Z → result (bytes * Z);
  PackDomainName : bytes → bytes → Z → gmap bytes Z → bool → result Z * (bytes * gmap bytes Z);
}.

(** The two buffers are the same up to an offset. *)
Definition agree (off : Z) (a b : bytes) : Prop := take (Z.to_nat off) a = take (Z.to_nat off) b.

(** The map holds offsets of names in the message before [off]. *)
Definition points_into `{MiekgDNS} (msg : bytes) (off : Z) (m : gmap bytes Z) : Prop :=
  ∀ name o, m !! name = Some o →
    ∀ msg', off ≤ zlen msg' → agree off msg' msg → ∃ off', UnpackDomainName msg' o = Ok (name, off').

Class MiekgDNSLaws `{MiekgDNS} := {
  (** A domain name in the form [UnpackDomainName] gives it. *)
  IsName : bytes → Prop;
  UnpackDomainName_off msg off name off' :
    UnpackDomainName msg off = Ok (name, off') → off < off' ≤ zlen msg;
  UnpackDomainName_no_panic msg off w : UnpackDomainName msg off ≠ Panic w;
  (** What is packed unpacks, in any message that has the same bytes so far. *)
  PackDomainName_law name msg off m off' msg' m' :
    IsName name → 0 ≤ off ≤ zlen msg → points_into msg off m →
    PackDomainName name msg off m true = (Ok off', (msg', m')) →
    off < off' ≤ zlen msg' ∧ zlen msg' = zlen msg ∧ agree off msg' msg ∧ points_into msg' off' m' ∧
    ∀ msg'', off' ≤ zlen msg'' → agree off' msg'' msg' → UnpackDomainName msg'' off = Ok (name, off');
}.

(** ** io.go *)

Record ResourceReader := mkResourceReader { rr_b : bytes; rr_off : Z }.

Definition NewResourceReader (b : bytes) : ResourceReader := mkResourceReader b 0.

Definition ResourceReader_Read : Reader ResourceReader :=
  λ p r,
    let bufLen := zlen (rr_b r) in
    if decide (rr_off r = bufLen) then (Ok (p, 0, Some EOF), r)
    else
      let p' := go_copy p (drop (Z.to_nat (rr_off r)) (rr_b r)) in
      if decide (bufLen < rr_off r + zlen p)
      then (Ok (p', bufLen - rr_off r, None), mkResourceReader (rr_b r) bufLen)
      else (Ok (p', zlen p, None), mkResourceReader (rr_b r) (rr_off r + zlen p)).

Record ResourceWriter := mkResourceWriter { rw_b : bytes; rw_off : Z }.

Definition NewResourceWriter : ResourceWriter := mkResourceWriter (replicate 1024 x00) 0.

(** [copy(w.b[w.off:], p)]. *)
Definition copy_at (b : bytes) (off : Z) (p : bytes) : bytes :=
  take (Z.to_nat off) b ++ go_copy (drop (Z.to_nat off) b) p.

(** What does not fit is dropped, and the error comes with the next write. *)
Definition ResourceWriter_Write : Writer ResourceWriter :=
  λ p w,
    let bufLen := zlen (rw_b w) in
    if decide (rw_off w = bufLen) then (Ok (0, Some (ENew "resource too long")), w)
    else if decide (bufLen < rw_off w) then (Panic "slice bounds out of range", w)
    else if decide (bufLen < rw_off w + zlen p) then
      let amtWritten := bufLen - rw_off w in
      (Ok (amtWritten, None),
       mkResourceWriter (copy_at (rw_b w) (rw_off w) (take (Z.to_nat amtWritten) p)) bufLen)
    else
      (Ok (zlen p, None), mkResourceWriter (copy_at (rw_b w) (rw_off w) p) (rw_off w + zlen p)).

Definition ResourceWriter_Bytes (w : ResourceWriter) : bytes := take (Z.to_nat (rw_off w)) (rw_b w).

(** A function of package encoding on a [ResourceReader]: it reads through
    [io.ReadFull], and no error of it leaves a reader that is read again. *)
Definition on_rr {A} (d : dec A) : M ResourceReader A :=
  λ r,
    match d (drop (Z.to_nat (rr_off r)) (rr_b r)) with
    | Ok (a, rest) => (Ok a, mkResourceReader (rr_b r) (zlen (rr_b r) - zlen rest))
    | Err e => (Err e, r)
    | Panic w => (Panic w, r)
    end.

(** The state of an encoder: the writer and the map of the names it has written. *)
Definition ES : Type := ResourceWriter * gmap bytes Z.

Definition es_write : Writer ES := λ p, M_zoom fst (λ w s, (w, s.2)) (ResourceWriter_Write p).

(** ** record.go *)

Definition RecordTypeDS : Z := 0.
Definition RecordTypeNS : Z := 1.
Definition RecordTypeGlue4 : Z := 2.
Definition RecordTypeGlue6 : Z := 3.
Definition RecordTypeSynth4 : Z := 4.
Definition RecordTypeSynth6 : Z := 5.
Definition RecordTypeTXT : Z := 6.

Definition RecordType_String (r : Z) : bytes :=
  if decide (r = RecordTypeDS) then bs "DS"
  else if decide (r = RecordTypeNS) then bs "NS"
  else if decide (r = RecordTypeGlue4) then bs "GLUE4"
  else if decide (r = RecordTypeGlue6) then bs "GLUE6"
  else if decide (r = RecordTypeSynth4) then bs "SYNTH4"
  else if decide (r = RecordTypeSynth6) then bs "SYNTH6"
  else if decide (r = RecordTypeTXT) then bs "TXT"
  else bs "unknown".

Inductive Record_ :=
| DSRecord (KeyTag Algorithm DigestType : Z) (Digest : bytes)
| NSRecord (NS : bytes)
| Glue4Record (NS Address : bytes)
| Glue6Record (NS Address : bytes)
| Synth4Record (Address : bytes)
| Synth6Record (Address : bytes)
| TXTRecord (Entries : list bytes).

Definition Record_Type (r : Record_) : Z :=
  match r with
  | DSRecord _ _ _ _ => RecordTypeDS
  | NSRecord _ => RecordTypeNS
  | Glue4Record _ _ => RecordTypeGlue4
  | Glue6Record _ _ => RecordTypeGlue6
  | Synth4Record _ => RecordTypeSynth4
  | Synth6Record _ => RecordTypeSynth6
  | TXTRecord _ => RecordTypeTXT
  end.

Definition DSRecord_Encode (KeyTag Algorithm DigestType : Z) (Digest : bytes) : M ES unit :=
  if decide (255 < zlen Digest) then M_fail (ENew "digest must be less than 256 bytes")
  else
    WriteUInt16BE es_write KeyTag;;
    WriteUint8 es_write Algorithm;;
    WriteUint8 es_write DigestType;;
    WriteUint8 es_write (zlen Digest);;
    write es_write Digest.

Definition DSRecord_Decode : dec Record_ :=
  keyTag ← ReadUint16BE;
  algorithm ← ReadUint8;
  digestType ← ReadUint8;
  digestLen ← ReadUint8;
  digest ← ReadBytes digestLen;
  mret (DSRecord keyTag algorithm digestType digest).

Definition Synth4Record_Decode : dec Record_ := addr ← ReadIP4; mret (Synth4Record addr).
Definition Synth6Record_Decode : dec Record_ := addr ← ReadIP6; mret (Synth6Record addr).

Definition entry_Encode (entry : bytes) : M ES unit :=
  if decide (255 < zlen entry) then M_fail (ENew "entry must be shorter than 256 bytes")
  else
    WriteUint8 es_write (zlen entry);;
    write es_write entry.

Definition TXTRecord_Encode (Entries : list bytes) : M ES unit :=
  if decide (255 < zlen Entries) then M_fail (ENew "can encode a max of 255 entries")
  else
    WriteUint8 es_write (zlen Entries);;
    each entry_Encode Entries.

Definition entry_Decode : dec bytes := entryLen ← ReadUint8; ReadString entryLen.

Definition TXTRecord_Decode : dec Record_ :=
  count ← ReadUint8;
  entries ← dec_times count entry_Decode;
  mret (TXTRecord entries).

Section dns.
Context `{MiekgDNS}.

Definition readName : M ResourceReader bytes :=
  λ r,
    match UnpackDomainName (rr_b r) (rr_off r) with
    | Ok (name, off) => (Ok name, mkResourceReader (rr_b r) off)
    | Err e => (Err e, r)
    | Panic w => (Panic w, r)
    end.

Definition writeName (name : bytes) : M ES unit :=
  λ s,
    let '(w, compressMap) := s in
    match PackDomainName name (rw_b w) (rw_off w) compressMap true with
    | (Ok newOff, (b, m)) => (Ok tt, (mkResourceWriter b newOff, m))
    | (Err e, (b, m)) => (Err e, (mkResourceWriter b (rw_off w), m))
    | (Panic why, (b, m)) => (Panic why, (mkResourceWriter b (rw_off w), m))
    end.

Definition NSRecord_Decode : M ResourceReader Record_ := server ← readName; mret (NSRecord server).

Definition Glue4Record_Encode (NS Address : bytes) : M ES unit := writeName NS;; WriteIP4 es_write Address.

Definition Glue4Record_Decode : M ResourceReader Record_ :=
  server ← readName;
  addr ← on_rr ReadIP4;
  mret (Glue4Record server addr).

Definition Glue6Record_Encode (NS Address : bytes) : M ES unit := writeName NS;; WriteIP6 es_write Address.

Definition Glue6Record_Decode : M ResourceReader Record_ :=
  server ← readName;
  addr ← on_rr ReadIP6;
  mret (Glue6Record server addr).

(** ** resource.go *)

Record Resource := mkResource { rs_TTL : Z; rs_Records : list Record_ }.

(** The two switches on the dynamic type of a record. *)
Definition Record_Encode (record : Record_) : M ES unit :=
  match record with
  | DSRecord tag alg typ digest => DSRecord_Encode tag alg typ digest
  | NSRecord ns => writeName ns
  | Glue4Record ns addr => Glue4Record_Encode ns addr
  | Glue6Record ns addr => Glue6Record_Encode ns addr
  | Synth4Record addr => WriteIP4 es_write addr
  | Synth6Record addr => WriteIP6 es_write addr
  | TXTRecord entries => TXTRecord_Encode entries
  end.

Definition Record_Decode (recType : Z) : M ResourceReader Record_ :=
  if decide (recType = RecordTypeDS) then on_rr DSRecord_Decode
  else if decide (recType = RecordTypeNS) then NSRecord_Decode
  else if decide (recType = RecordTypeGlue4) then Glue4Record_Decode
  else if decide (recType = RecordTypeGlue6) then Glue6Record_Decode
  else if decide (recType = RecordTypeSynth4) then on_rr Synth4Record_Decode
  else if decide (recType = RecordTypeSynth6) then on_rr Synth6Record_Decode
  else if decide (recType = RecordTypeTXT) then on_rr TXTRecord_Decode
  else M_fail (ENew "unknown record type").

Definition encode_record (record : Record_) : M ES unit :=
  WriteUint8 es_write (Record_Type record);;
  Record_Encode record.

Definition Resource_Encode {S} (w : Writer S) (rs : Resource) : M S unit :=
  match (WriteUint8 es_write 0;; each encode_record (rs_Records rs)) (NewResourceWriter, ∅) with
  | (Ok _, (rw, _)) => write w (ResourceWriter_Bytes rw)
  | (Err e, _) => M_fail e
  | (Panic why, _) => M_panic why
  end.

(** The loop ends at the end of the bytes; every record takes at least one, so
    [fuel] is the number of bytes and one. *)
Fixpoint decode_records (fuel : nat) (records : list Record_) : M ResourceReader (list Record_) :=
  match fuel with
  | O => M_panic "out of fuel"
  | S fuel =>
      t ← M_try (on_rr ReadUint8);
      match t with
      | Ok recType =>
          record ← Record_Decode recType;
          decode_records fuel (records ++ [record])
      | Err e => if decide (e = EOF) then mret records else M_fail e
      | Panic w => M_panic w
      end
  end.

Definition Resource_Decode (buf : bytes) : result Resource :=
  let run :=
    version ← on_rr ReadUint8;
    if decide (version ≠ 0) then M_fail (ENew "invalid serialization version")
    else decode_records (S (length buf)) [] in
  mkResource 0 <$> (run (NewResourceReader buf)).1.
End dns.
