(* ===== verification/HnsDnsProofs.v ===== *)
(** * What encoding and decoding a resource guarantees

    A resource that fits its writer is read back as it was, compressed names
    included, and decoding ends on any bytes. *)

From S2P Require Import Prelude GoLib NetIP HnsEncoding HnsDns.
#[local] Open Scope Z_scope.

(** ** Buffers that agree *)

Lemma agree_le a b o1 o2 : o1 ≤ o2 → agree o2 a b → agree o1 a b.
Proof.
  unfold agree. intros Ho Ha. apply (f_equal (take (Z.to_nat o1))) in Ha.
  by rewrite !take_take, !Nat.min_l in Ha by lia.
Qed.

Lemma agree_trans o a b c : agree o a b → agree o b c → agree o a c.
Proof. unfold agree. congruence. Qed.

Lemma zlen_copy_at b off p : zlen (copy_at b off p) = zlen b.
Proof. unfold copy_at, zlen. rewrite length_app, length_go_copy, length_take, length_drop. lia. Qed.

Lemma copy_at_agree b off p : 0 ≤ off ≤ zlen b → agree off (copy_at b off p) b.
Proof.
  intros Ho. unfold agree, copy_at, zlen in *. rewrite take_app_le by (rewrite length_take; lia).
  by rewrite take_take, Nat.min_id.
Qed.

(** The bytes that were copied, in a message that agrees with the copy. *)
Lemma copy_at_drop b off p msg :
  0 ≤ off → off + zlen p ≤ zlen b → off + zlen p ≤ zlen msg → agree (off + zlen p) msg (copy_at b off p) →
  drop (Z.to_nat off) msg = p ++ drop (Z.to_nat (off + zlen p)) msg.
Proof.
  intros Ho Hb Hm Ha. unfold agree, copy_at, go_copy, zlen in *.
  rewrite Z2Nat.inj_add, Nat2Z.id in * by lia. set (k := Z.to_nat off) in *.
  apply (f_equal (drop k)) in Ha. rewrite !skipn_firstn_comm in Ha.
  replace (k + length p - k)%nat with (length p) in Ha by lia.
  rewrite (drop_app_length' (take k b)) in Ha by (rewrite length_take; lia).
  rewrite length_drop, (take_ge p) in Ha by lia. rewrite take_app_length in Ha.
  rewrite <- (take_drop (length p) (drop k msg)) at 1. rewrite Ha, drop_drop. done.
Qed.

Section laws.
Context `{MiekgDNSLaws}.

Lemma points_into_ext msg msg' off off' m :
  off ≤ off' → agree off msg' msg → points_into msg off m → points_into msg' off' m.
Proof.
  intros Ho Ha Hp name o Hm msg2 Hl Hag. apply (Hp name o Hm); [lia|].
  eapply agree_trans; [|done]. by eapply agree_le.
Qed.

(** ** Encoders and decoders over a bounded writer *)

Definition es_ok (s : ES) : Prop :=
  zlen (rw_b s.1) = 1024 ∧ 0 ≤ rw_off s.1 ≤ 1024 ∧ points_into (rw_b s.1) (rw_off s.1) s.2.

(** What an encoder leaves of the bytes it found. *)
Definition es_ext (s s' : ES) : Prop :=
  es_ok s' ∧ rw_off s.1 ≤ rw_off s'.1 ∧ agree (rw_off s.1) (rw_b s'.1) (rw_b s.1).

(** A message that has what has been written. *)
Definition holds (s : ES) (msg : bytes) : Prop :=
  rw_off s.1 ≤ zlen msg ∧ agree (rw_off s.1) msg (rw_b s.1).

(** When the writer is not full afterwards, nothing has been dropped, and the
    decoder reads [a] where the encoder wrote it. *)
Definition rcodes {A} (e : M ES unit) (d : M ResourceReader A) (a : A) : Prop :=
  ∀ s s', es_ok s → e s = (Ok tt, s') →
    es_ext s s' ∧
    (rw_off s'.1 < 1024 → ∀ msg, holds s' msg →
      d (mkResourceReader msg (rw_off s.1)) = (Ok a, mkResourceReader msg (rw_off s'.1))).

(** The same for a decoder of an [io.Reader]. *)
Definition dcodes {A} (e : M ES unit) (d : dec A) (a : A) : Prop :=
  ∀ s s', es_ok s → e s = (Ok tt, s') →
    es_ext s s' ∧
    (rw_off s'.1 < 1024 → ∀ msg, holds s' msg →
      d (drop (Z.to_nat (rw_off s.1)) msg) = Ok (a, drop (Z.to_nat (rw_off s'.1)) msg)).

Lemma es_ext_trans s1 s2 s3 : es_ext s1 s2 → es_ext s2 s3 → es_ext s1 s3.
Proof.
  intros (_ & ? & Ha1) (? & ? & Ha2). split_and!; [done|lia|].
  eapply agree_trans; [by eapply agree_le|done].
Qed.

Lemma es_ext_holds s s' msg : es_ext s s' → holds s' msg → holds s msg.
Proof.
  intros (_ & Ho & Ha) [Hl Hm]. split; [lia|]. eapply agree_trans; [by eapply agree_le|done].
Qed.

Lemma rcodes_dcodes {A} e (d : dec A) a : dcodes e d a → rcodes e (on_rr d) a.
Proof.
  intros Hd s s' Hok He. destruct (Hd s s' Hok He) as [Hx Hr]. split; [done|]. intros Ho msg Hm.
  unfold on_rr. simpl. rewrite (Hr Ho msg Hm). do 2 f_equal. destruct Hm as [Hm _], Hx as ((_ & ? & _) & _).
  unfold zlen in *. rewrite length_drop. lia.
Qed.

Lemma rcodes_bind {A B} e1 e2 (d : M ResourceReader A) (f : A → M ResourceReader B) a b :
  rcodes e1 d a → rcodes e2 (f a) b → rcodes (e1;; e2) (d ≫= f) b.
Proof.
  intros R1 R2 s s' Hok (? & s1 & E1 & E2)%M_bind_Ok. destruct x.
  destruct (R1 s s1 Hok E1) as [X1 D1]. pose proof X1 as (Hok1 & _).
  destruct (R2 s1 s' Hok1 E2) as [X2 D2]. split; [by eapply es_ext_trans|]. intros Ho msg Hm.
  pose proof X2 as (_ & ? & _). erewrite M_bind_step by (apply D1; [lia|by eapply es_ext_holds]).
  by apply D2.
Qed.

Lemma rcodes_last {A B} e (d : M ResourceReader A) (f : A → M ResourceReader B) a b :
  rcodes e d a → (∀ r, f a r = (Ok b, r)) → rcodes e (d ≫= f) b.
Proof.
  intros R Hf s s' Hok He. destruct (R s s' Hok He) as [X D]. split; [done|]. intros Ho msg Hm.
  by rewrite (M_bind_step _ _ _ _ _ (D Ho msg Hm)), Hf.
Qed.

Lemma dcodes_bind {A B} e1 e2 (d : dec A) (f : A → dec B) a b :
  dcodes e1 d a → dcodes e2 (f a) b → dcodes (e1;; e2) (d ≫= f) b.
Proof.
  intros R1 R2 s s' Hok (? & s1 & E1 & E2)%M_bind_Ok. destruct x.
  destruct (R1 s s1 Hok E1) as [X1 D1]. pose proof X1 as (Hok1 & _).
  destruct (R2 s1 s' Hok1 E2) as [X2 D2]. split; [by eapply es_ext_trans|]. intros Ho msg Hm.
  pose proof X2 as (_ & ? & _). erewrite dec_bind_step by (apply D1; [lia|by eapply es_ext_holds]).
  by apply D2.
Qed.

Lemma dcodes_last {A B} e (d : dec A) (f : A → dec B) a b :
  dcodes e d a → (∀ r, f a r = Ok (b, r)) → dcodes e (d ≫= f) b.
Proof.
  intros R Hf s s' Hok He. destruct (R s s' Hok He) as [X D]. split; [done|]. intros Ho msg Hm.
  by rewrite (dec_bind_step _ _ _ _ _ (D Ho msg Hm)), Hf.
Qed.

Lemma dcodes_each {A} (f : A → M ES unit) (d : dec A) l :
  Forall (λ x, dcodes (f x) d x) l → dcodes (each f l) (dec_repeat (length l) d) l.
Proof.
  induction 1 as [|x l Hx _ IH].
  - intros s s' Hok [= <-]. split; [by split_and!|done].
  - simpl. eapply dcodes_bind; [done|]. eapply dcodes_last; [done|done].
Qed.

Lemma es_write_ok p s s' : es_ok s → write es_write p s = (Ok tt, s') →
  es_ext s s' ∧ (rw_off s'.1 < 1024 → rw_b s'.1 = copy_at (rw_b s.1) (rw_off s.1) p ∧ rw_off s'.1 = rw_off s.1 + zlen p) ∧
  rw_off s.1 < 1024 ∧ (rw_off s'.1 = Z.min 1024 (rw_off s.1 + zlen p)).
Proof.
  destruct s as [[b off] m]. intros (Hl & Ho & Hp). simpl in *. unfold write, es_write, mbind, M_bind, M_zoom.
  unfold ResourceWriter_Write. simpl. rewrite Hl. case_decide as Hfull; [done|]. rewrite decide_False by lia.
  assert (∀ q off', off ≤ off' ≤ 1024 → es_ext (mkResourceWriter b off, m) (mkResourceWriter (copy_at b off q) off', m)) as Hx.
  { intros q off' Ho'. assert (agree off (copy_at b off q) b) by (apply copy_at_agree; lia).
    split_and!; simpl; [|lia|done]. split_and!; simpl; [by rewrite zlen_copy_at|lia..|].
    by eapply points_into_ext; [|done|done]; lia. }
  assert (0 ≤ zlen p) by (unfold zlen; lia).
  case_decide as Hfit; intros [= <-]; simpl; (split; [apply Hx; lia|]); split_and!; lia || done.
Qed.

Lemma dcodes_write {A} p (d : dec A) a :
  (∀ r, d (p ++ r) = Ok (a, r)) → dcodes (write es_write p) d a.
Proof.
  intros Hd s s' Hok He. destruct (es_write_ok _ _ _ Hok He) as (Hx & Hc & _). split; [done|].
  intros Ho msg [Hm Ha]. destruct (Hc Ho) as [Hb Hoff]. destruct Hok as (Hl & Ho1 & _).
  rewrite Hb in Ha. rewrite Hoff in *. rewrite (copy_at_drop (rw_b s.1) (rw_off s.1) p msg) by (done || lia). apply Hd.
Qed.

(** ** Records *)

Lemma dcodes_Uint8 z : is_u8 z → dcodes (WriteUint8 es_write z) ReadUint8 z.
Proof. intros Hz. apply dcodes_write. intros r. by apply ReadUint8_byte. Qed.

Lemma dcodes_Uint16BE z : is_u16 z → dcodes (WriteUInt16BE es_write z) ReadUint16BE z.
Proof.
  intros Hz. apply dcodes_write. intros r. unfold ReadUint16BE.
  rewrite (dec_bind_step _ _ _ _ _ (ReadFull_app _ _ _ (length_be_put _ _))).
  by rewrite (be_get_put_small 2).
Qed.

Lemma dcodes_full n p : length p = n → dcodes (write es_write p) (ReadFull n) p.
Proof. intros Hn. apply dcodes_write. intros r. by apply ReadFull_app. Qed.

Lemma dcodes_bytes p : zlen p ≤ 255 → dcodes (write es_write p) (ReadBytes (zlen p)) p.
Proof.
  intros Hp. unfold ReadBytes, make_ok, zlen in *. rewrite bool_decide_true by lia.
  rewrite Nat2Z.id. by apply dcodes_full.
Qed.

Lemma is_u8_zlen {A} (l : list A) : zlen l ≤ 255 → is_u8 (zlen l).
Proof. unfold is_u8, zlen. lia. Qed.

Hint Resolve dcodes_Uint8 dcodes_Uint16BE dcodes_bytes dcodes_full is_u8_zlen : hns.

(** The records an encoding can give back: addresses in the form they are read,
    and words of their widths. *)
Definition record_ok (r : Record_) : Prop :=
  match r with
  | DSRecord tag alg typ digest => is_u16 tag ∧ is_u8 alg ∧ is_u8 typ ∧ zlen digest ≤ 255
  | NSRecord ns => IsName ns
  | Glue4Record ns addr => IsName ns ∧ length addr = 4%nat
  | Glue6Record ns addr => IsName ns ∧ length addr = 16%nat
  | Synth4Record addr => length addr = 4%nat
  | Synth6Record addr => length addr = 16%nat
  | TXTRecord entries => zlen entries ≤ 255 ∧ Forall (λ e, zlen e ≤ 255) entries
  end.

Lemma dcodes_DS tag alg typ digest :
  record_ok (DSRecord tag alg typ digest) →
  dcodes (DSRecord_Encode tag alg typ digest) DSRecord_Decode (DSRecord tag alg typ digest).
Proof.
  intros (Ht & Ha & Hy & Hd). unfold DSRecord_Encode, DSRecord_Decode. rewrite decide_False by lia.
  repeat (eapply dcodes_bind; [by auto with hns|]). eapply dcodes_last; [by auto with hns|done].
Qed.

Lemma dcodes_entry e : zlen e ≤ 255 → dcodes (entry_Encode e) entry_Decode e.
Proof.
  intros He. unfold entry_Encode, entry_Decode. rewrite decide_False by lia.
  eapply dcodes_bind; by auto with hns.
Qed.

Lemma dcodes_TXT entries :
  record_ok (TXTRecord entries) → dcodes (TXTRecord_Encode entries) TXTRecord_Decode (TXTRecord entries).
Proof.
  intros [Hn He]. unfold TXTRecord_Encode, TXTRecord_Decode. rewrite decide_False by lia.
  eapply dcodes_bind; [by auto with hns|]. eapply dcodes_last; [|done]. cbv beta. unfold dec_times, zlen in *.
  rewrite i64_small, Nat2Z.id by lia. apply dcodes_each. eapply Forall_impl; [done|]. apply dcodes_entry.
Qed.

Lemma rcodes_name name : IsName name → rcodes (writeName name) readName name.
Proof.
  intros Hn [[b off] m] s' (Hl & Ho & Hp). simpl in *. unfold writeName, readName. simpl.
  destruct (PackDomainName name b off m true) as [[off'| |] [b' m']] eqn:Hk; intros [= <-].
  destruct (PackDomainName_law name b off m off' b' m' Hn ltac:(lia) Hp Hk) as (Ho' & Hl' & Ha & Hp' & Hu).
  split; [split_and!; simpl; [split_and!; simpl; (done || lia)|lia|done]|]. intros _ msg [Hm Hag]. simpl in *.
  by rewrite (Hu msg Hm Hag).
Qed.

Lemma dcodes_IP4 addr : length addr = 4%nat → dcodes (WriteIP4 es_write addr) ReadIP4 addr.
Proof. intros Ha. unfold WriteIP4, To4. rewrite decide_True by done. by apply dcodes_full. Qed.

Lemma dcodes_IP6 addr : length addr = 16%nat → dcodes (WriteIP6 es_write addr) ReadIP6 addr.
Proof.
  intros Ha. unfold WriteIP6, To16. rewrite decide_False, decide_True by lia. by apply dcodes_full.
Qed.

Lemma rcodes_record r : record_ok r → rcodes (Record_Encode r) (Record_Decode (Record_Type r)) r.
Proof.
  destruct r as [tag alg typ digest|ns|ns addr|ns addr|addr|addr|entries]; intros Hr.
  - by apply rcodes_dcodes, dcodes_DS.
  - eapply rcodes_last; [by apply rcodes_name|done].
  - destruct Hr as [Hn Ha]. eapply rcodes_bind; [by apply rcodes_name|].
    eapply rcodes_last; [by apply rcodes_dcodes, dcodes_IP4|done].
  - destruct Hr as [Hn Ha]. eapply rcodes_bind; [by apply rcodes_name|].
    eapply rcodes_last; [by apply rcodes_dcodes, dcodes_IP6|done].
  - apply rcodes_dcodes. eapply dcodes_last; [by apply dcodes_IP4|done].
  - apply rcodes_dcodes. eapply dcodes_last; [by apply dcodes_IP6|done].
  - by apply rcodes_dcodes, dcodes_TXT.
Qed.

Lemma Record_Type_u8 r : is_u8 (Record_Type r).
Proof. by destruct r. Qed.

(** Each record takes a byte at least. *)
Lemma encode_record_grows r s s' :
  record_ok r → es_ok s → encode_record r s = (Ok tt, s') → es_ext s s' ∧ rw_off s.1 < rw_off s'.1.
Proof.
  intros Hr Hok (? & s1 & E1 & E2)%M_bind_Ok. destruct x.
  destruct (es_write_ok _ _ _ Hok E1) as (X1 & _ & Hlt & Hoff). pose proof X1 as (Hok1 & _).
  destruct (rcodes_record r Hr s1 s' Hok1 E2) as [X2 _]. split; [by eapply es_ext_trans|].
  destruct X2 as (_ & ? & _). change (zlen [_]) with 1 in Hoff. lia.
Qed.

Lemma on_rr_end msg : on_rr ReadUint8 (mkResourceReader msg (zlen msg)) = (Err EOF, mkResourceReader msg (zlen msg)).
Proof. unfold on_rr, zlen. simpl. by rewrite Nat2Z.id, drop_all. Qed.

Lemma each_records_ext records s s' :
  Forall record_ok records → es_ok s → each encode_record records s = (Ok tt, s') → es_ext s s'.
Proof.
  intros Hr. revert s. induction Hr as [|x l Hx _ IH]; intros s Hok E.
  - injection E as <-. by split_and!.
  - apply M_bind_Ok in E as ([] & s2 & E1 & E2).
    destruct (encode_record_grows x s s2 Hx Hok E1) as [X _]. pose proof X as (? & _).
    eapply es_ext_trans; [done|]. by apply IH.
Qed.

Lemma decode_records_each records : ∀ s s' acc fuel msg,
  Forall record_ok records → es_ok s → each encode_record records s = (Ok tt, s') → rw_off s'.1 < 1024 →
  holds s' msg → zlen msg = rw_off s'.1 → zlen msg - rw_off s.1 < Z.of_nat fuel →
  (decode_records fuel acc (mkResourceReader msg (rw_off s.1))).1 = Ok (acc ++ records).
Proof.
  induction records as [|r records IH]; intros s s' acc fuel msg Hr Hok He Ho Hm Hz Hf.
  - injection He as <-. rewrite <- Hz. destruct fuel as [|fuel]; [lia|]. cbn [decode_records].
    erewrite M_bind_step by (unfold M_try; by rewrite on_rr_end). cbv beta iota. rewrite decide_True by done.
    by rewrite app_nil_r.
  - apply Forall_cons in Hr as [Hr Hrs]. simpl in He. apply M_bind_Ok in He as ([] & s1 & E1 & E2).
    destruct (encode_record_grows r s s1 Hr Hok E1) as [X1 Hg]. pose proof X1 as (Hok1 & _).
    pose proof (each_records_ext _ _ _ Hrs Hok1 E2) as X2.
    assert (rw_off s1.1 ≤ rw_off s'.1) as Hle by apply X2. destruct fuel as [|fuel]; [lia|].
    assert (rcodes (encode_record r) (t ← on_rr ReadUint8; Record_Decode t) r) as Hc.
    { eapply rcodes_bind; [by apply rcodes_dcodes, dcodes_Uint8, Record_Type_u8|by apply rcodes_record]. }
    destruct (Hc s s1 Hok E1) as [_ Hd]. specialize (Hd ltac:(lia) msg (es_ext_holds _ _ _ X2 Hm)).
    apply M_bind_Ok in Hd as (t & rr & D1 & D2). cbn [decode_records].
    erewrite M_bind_step by (by apply M_try_Ok). cbv beta iota.
    erewrite M_bind_step by done. rewrite (IH s1 s' (acc ++ [r]) fuel msg) by (done || lia).
    by rewrite <- app_assoc.
Qed.

Lemma NewResourceWriter_ok : es_ok (NewResourceWriter, ∅).
Proof. split_and!; [done..|]. intros name o Hm. simpl in Hm. by rewrite lookup_empty in Hm. Qed.

(** ** Decoding ends *)

(** A decoder that does not panic and only consumes. *)
Definition dec_safe {A} (d : dec A) : Prop :=
  ∀ r, (∀ w, d r ≠ Panic w) ∧ ∀ a rest, d r = Ok (a, rest) → zlen rest ≤ zlen r.

Lemma dec_safe_ret {A} (a : A) : dec_safe (mret a).
Proof. intros r. split; [done|]. by intros ? ? [= <- <-]. Qed.

Lemma dec_safe_bind {A B} (d : dec A) (f : A → dec B) :
  dec_safe d → (∀ a, dec_safe (f a)) → dec_safe (d ≫= f).
Proof.
  intros Hd Hf r. destruct (Hd r) as [Hp Hl]. unfold mbind, dec_bind.
  destruct (d r) as [[a r1]|e|w]; [|done|by destruct (Hp w)]. destruct (Hf a r1) as [Hp1 Hl1].
  split; [done|]. intros b rest Hb. specialize (Hl _ _ eq_refl). specialize (Hl1 _ _ Hb). lia.
Qed.

Lemma dec_safe_full n : dec_safe (ReadFull n).
Proof.
  intros r. split; [intros w; apply ReadFull_no_panic|]. intros a rest [-> _]%ReadFull_Ok.
  unfold zlen. rewrite length_app. lia.
Qed.

Lemma dec_safe_repeat {A} (d : dec A) n : dec_safe d → dec_safe (dec_repeat n d).
Proof.
  intros Hd. induction n as [|n IH]; [apply dec_safe_ret|]. simpl.
  apply dec_safe_bind; [done|]. intros x. apply dec_safe_bind; [done|]. intros xs. apply dec_safe_ret.
Qed.

Hint Resolve dec_safe_ret dec_safe_bind dec_safe_full dec_safe_repeat : hns.

(** A length that was read as one byte can be allocated. *)
Lemma dec_safe_u8 {A} (f : Z → dec A) : (∀ z, is_u8 z → dec_safe (f z)) → dec_safe (ReadUint8 ≫= f).
Proof.
  intros Hf r. assert (dec_safe ReadUint8) as Hs by (unfold ReadUint8; auto with hns).
  destruct (Hs r) as [Hp Hl]. unfold mbind, dec_bind. destruct (ReadUint8 r) as [[z r1]|e|w] eqn:Hr;
    [|done|by destruct (Hp w)].
  assert (is_u8 z) as Hz.
  { unfold ReadUint8 in Hr. apply dec_bind_Ok in Hr as (l & ? & [_ Hn]%ReadFull_Ok & [= <- <-]).
    pose proof (be_get_bound l) as Hb. unfold zlen in Hb. rewrite Hn in Hb. done. }
  destruct (Hf z Hz r1) as [Hp1 Hl1]. split; [done|]. intros b rest Hb.
  specialize (Hl _ _ eq_refl). specialize (Hl1 _ _ Hb). lia.
Qed.

Lemma dec_safe_bytes z : is_u8 z → dec_safe (ReadBytes z).
Proof.
  intros [Hz Hz']. unfold ReadBytes, make_ok. rewrite bool_decide_true by lia. auto with hns.
Qed.

(** A step of the decoder: no panic, and the offset stays in the message. *)
Definition rr_safe {A} (m : M ResourceReader A) : Prop :=
  ∀ msg off, 0 ≤ off ≤ zlen msg →
    match m (mkResourceReader msg off) with
    | (Ok _, r) => rr_b r = msg ∧ off ≤ rr_off r ≤ zlen msg
    | (Err _, _) => True
    | (Panic _, _) => False
    end.

Lemma rr_safe_on {A} (d : dec A) : dec_safe d → rr_safe (on_rr d).
Proof.
  intros Hd msg off Ho. unfold on_rr. simpl. destruct (Hd (drop (Z.to_nat off) msg)) as [Hp Hl].
  destruct (d _) as [[a rest]|e|w]; [|done|by destruct (Hp w)]. specialize (Hl _ _ eq_refl). simpl.
  unfold zlen in *. rewrite length_drop in Hl. split; [done|lia].
Qed.

Lemma rr_safe_bind {A B} (m : M ResourceReader A) (f : A → M ResourceReader B) :
  rr_safe m → (∀ a, rr_safe (f a)) → rr_safe (m ≫= f).
Proof.
  intros Hm Hf msg off Ho. specialize (Hm msg off Ho). unfold mbind, M_bind.
  destruct (m _) as [[a|e|w] [b off1]]; [|done..]. simpl in Hm. destruct Hm as [-> Ho1].
  specialize (Hf a msg off1 ltac:(lia)). destruct (f a _) as [[c|e|w] r]; [|done..].
  destruct Hf as [? ?]. split; [done|lia].
Qed.

Lemma rr_safe_ret {A} (a : A) : rr_safe (mret a).
Proof. intros msg off Ho. simpl. split; [done|lia]. Qed.

Lemma rr_safe_fail {A} e : rr_safe (A := A) (M_fail e).
Proof. by intros msg off Ho. Qed.

Lemma rr_safe_name : rr_safe readName.
Proof.
  intros msg off Ho. unfold readName. simpl. destruct (UnpackDomainName msg off) as [[name off']|e|w] eqn:Hu; simpl.
  - apply UnpackDomainName_off in Hu. split; [done|lia].
  - done.
  - by apply UnpackDomainName_no_panic in Hu.
Qed.

Hint Resolve rr_safe_on rr_safe_bind rr_safe_ret rr_safe_fail rr_safe_name : hns.

Lemma rr_safe_record t : rr_safe (Record_Decode t).
Proof.
  assert (dec_safe DSRecord_Decode) as Hds.
  { unfold DSRecord_Decode, ReadUint16BE. apply dec_safe_bind; [auto with hns|]. intros tag.
    apply dec_safe_u8. intros alg _. apply dec_safe_u8. intros typ _. apply dec_safe_u8. intros n Hn.
    apply dec_safe_bind; [by apply dec_safe_bytes|auto with hns]. }
  assert (dec_safe TXTRecord_Decode) as Htxt.
  { apply dec_safe_u8. intros n Hn. apply dec_safe_bind; [|auto with hns].
    apply dec_safe_repeat, dec_safe_u8. intros k. apply dec_safe_bytes. }
  unfold Record_Decode, NSRecord_Decode, Glue4Record_Decode, Glue6Record_Decode, Synth4Record_Decode,
    Synth6Record_Decode, ReadIP4, ReadIP6. repeat case_decide; auto 10 with hns.
Qed.

(** Reading a record type takes a byte, and fails only at the end. *)
Lemma read_type msg off : 0 ≤ off ≤ zlen msg →
  match on_rr ReadUint8 (mkResourceReader msg off) with
  | (Ok _, r) => r = mkResourceReader msg (off + 1) ∧ off < zlen msg
  | (Err e, r) => e = EOF ∧ r = mkResourceReader msg off
  | (Panic _, _) => False
  end.
Proof.
  intros Ho. unfold on_rr, ReadUint8. simpl. destruct (drop (Z.to_nat off) msg) as [|b rest] eqn:Hd; [done|].
  rewrite (dec_bind_step _ _ _ _ _ (ReadFull_1 _ _)). simpl. apply (f_equal length) in Hd.
  rewrite length_drop in Hd. simpl in Hd. unfold zlen in *. split; [f_equal; lia|lia].
Qed.

Lemma decode_records_safe fuel : ∀ acc msg off w,
  0 ≤ off ≤ zlen msg → zlen msg - off < Z.of_nat fuel →
  (decode_records fuel acc (mkResourceReader msg off)).1 ≠ Panic w.
Proof.
  induction fuel as [|fuel IH]; intros acc msg off w Ho Hf; [lia|]. cbn [decode_records].
  unfold mbind at 1, M_bind at 1, M_try. pose proof (read_type msg off Ho) as Hr.
  destruct (on_rr ReadUint8 _) as [[t|e|?] r]; [|destruct Hr as [-> ->]; by rewrite decide_True|done].
  destruct Hr as [-> Hlt]. pose proof (rr_safe_record t msg (off + 1) ltac:(lia)) as Hs.
  unfold mbind, M_bind. destruct (Record_Decode t _) as [[rec|e|?] [b off1]]; [|done..].
  simpl in Hs. destruct Hs as [-> Hs]. apply IH; lia.
Qed.

(** ** Encodings that fit *)

(** An encoder that writes [n] bytes when there is room for them. *)
Definition fits (e : M ES unit) (n : Z) : Prop :=
  ∀ s, es_ok s → rw_off s.1 + n < 1024 →
    ∃ s', e s = (Ok tt, s') ∧ es_ok s' ∧ rw_off s'.1 = rw_off s.1 + n.

Lemma fits_write p : fits (write es_write p) (zlen p).
Proof.
  intros s Hok Hn. assert (0 ≤ zlen p) by (unfold zlen; lia). pose proof Hok as (Hl & Ho & _).
  destruct (write es_write p s) as [r s'] eqn:He. assert (r = Ok tt) as ->.
  { destruct s as [[b off] m]. simpl in *. unfold write, es_write, mbind, M_bind, M_zoom, ResourceWriter_Write in He.
    simpl in He. rewrite Hl, !decide_False in He by lia. by injection He as <-. }
  destruct (es_write_ok _ _ _ Hok He) as (Hx & _ & _ & Hmin). exists s'. split_and!; [done|apply Hx|lia].
Qed.

Lemma fits_seq e1 e2 n1 n2 : 0 ≤ n2 → fits e1 n1 → fits e2 n2 → fits (e1;; e2) (n1 + n2).
Proof.
  intros Hn2 F1 F2 s Hok Hn. destruct (F1 s Hok ltac:(lia)) as (s1 & E1 & Hok1 & O1).
  destruct (F2 s1 Hok1 ltac:(lia)) as (s2 & E2 & Hok2 & O2). exists s2.
  rewrite (M_bind_step _ _ _ _ _ E1). split_and!; [done|done|lia].
Qed.

Definition total {A} (size : A → Z) (l : list A) : Z := foldr (λ x n, size x + n) 0 l.

Lemma total_nonneg {A} (size : A → Z) l : Forall (λ x, 0 ≤ size x) l → 0 ≤ total size l.
Proof. induction 1; simpl; lia. Qed.

Lemma fits_each {A} (f : A → M ES unit) size l :
  Forall (λ x, 0 ≤ size x) l → Forall (λ x, fits (f x) (size x)) l → fits (each f l) (total size l).
Proof.
  induction 1 as [|x l Hx Hl IH]; intros Hf.
  - intros s Hok _. exists s. split_and!; [done|done|simpl; lia].
  - apply Forall_cons in Hf as [Hf Hfs]. simpl. apply fits_seq; [by apply total_nonneg|done|by apply IH].
Qed.

(** Records without names, and the bytes they take with their type. *)
Definition plain (r : Record_) : Prop :=
  match r with NSRecord _ | Glue4Record _ _ | Glue6Record _ _ => False | _ => record_ok r end.

Definition entry_size (e : bytes) : Z := 1 + zlen e.

Definition record_size (r : Record_) : Z :=
  match r with
  | DSRecord _ _ _ digest => 6 + zlen digest
  | Synth4Record _ => 5
  | Synth6Record _ => 17
  | TXTRecord entries => 2 + total entry_size entries
  | _ => 0
  end.

Lemma record_size_nonneg r : 0 ≤ record_size r.
Proof.
  assert (∀ l, 0 ≤ total entry_size l) by (intros l; apply total_nonneg, Forall_true; intros x; unfold entry_size, zlen; lia).
  destruct r as [? ? ? digest| | | | | |entries]; simpl; unfold zlen; try specialize (H1 entries); lia.
Qed.

Lemma plain_ok r : plain r → record_ok r.
Proof. by destruct r. Qed.

Lemma fits_entry e : zlen e ≤ 255 → fits (entry_Encode e) (entry_size e).
Proof.
  intros He. unfold entry_Encode. rewrite decide_False by lia.
  apply (fits_seq _ _ 1); [unfold zlen; lia|exact (fits_write [_])|apply fits_write].
Qed.

Lemma fits_record r : plain r → fits (encode_record r) (record_size r).
Proof.
  intros Hr. assert (∀ z, fits (WriteUint8 es_write z) 1) as H8 by (intros z; exact (fits_write [_])).
  pose proof (record_size_nonneg r) as Hn. unfold encode_record.
  destruct r as [tag alg typ digest|ns|ns addr|ns addr|addr|addr|entries]; simpl in *; [|done..| | |].
  - destruct Hr as (? & ? & ? & Hd). unfold DSRecord_Encode. rewrite decide_False by lia.
    assert (0 ≤ zlen digest) by (unfold zlen; lia).
    replace (6 + zlen digest) with (1 + (2 + (1 + (1 + (1 + zlen digest))))) by lia.
    repeat (apply fits_seq; [lia|done || exact (fits_write _)|]). apply fits_write.
  - unfold WriteIP4, To4. rewrite decide_True by done.
    apply (fits_seq _ _ 1 4); [lia|done|]. replace 4 with (zlen addr) by (unfold zlen; lia). apply fits_write.
  - unfold WriteIP6, To16. rewrite decide_False, decide_True by lia.
    apply (fits_seq _ _ 1 16); [lia|done|]. replace 16 with (zlen addr) by (unfold zlen; lia). apply fits_write.
  - destruct Hr as [Hl He]. unfold TXTRecord_Encode. rewrite decide_False by lia.
    assert (Forall (λ x, 0 ≤ entry_size x) entries) as Hp by (apply Forall_true; intros x; unfold entry_size, zlen; lia).
    pose proof (total_nonneg _ _ Hp) as Ht.
    replace (2 + total entry_size entries) with (1 + (1 + total entry_size entries)) by lia.
    apply fits_seq; [lia|done|]. apply fits_seq; [lia|done|]. apply fits_each; [done|].
    eapply Forall_impl; [exact He|]. apply fits_entry.
Qed.
End laws.

(** Encoding records without names succeeds when they fit. *)
Lemma plain_encodes `{MiekgDNSLaws} rs b :
  Forall plain (rs_Records rs) → 1 + total record_size (rs_Records rs) < 1024 →
  ∃ o, Resource_Encode Buffer_Write rs b = (Ok tt, b ++ o) ∧ zlen o = 1 + total record_size (rs_Records rs).
Proof.
  intros Hr Hn. assert (fits (WriteUint8 es_write 0;; each encode_record (rs_Records rs))
    (1 + total record_size (rs_Records rs))) as Hf.
  { assert (Forall (λ r, 0 ≤ record_size r) (rs_Records rs)) as Hp
      by (apply Forall_true; intros r; apply record_size_nonneg).
    apply fits_seq; [by apply total_nonneg|exact (fits_write [_])|]. apply fits_each; [done|].
    eapply Forall_impl; [exact Hr|]. apply fits_record. }
  destruct (Hf _ NewResourceWriter_ok Hn) as ([rw m] & He & (Hl & Ho & _) & Hoff). simpl in *.
  exists (ResourceWriter_Bytes rw). unfold Resource_Encode. rewrite He. split; [done|].
  unfold ResourceWriter_Bytes, zlen in *. rewrite length_take. lia.
Qed.

(** What an encoding leaves in the writer: the version, and the records after it. *)
Lemma encoded `{MiekgDNSLaws} rs b o :
  Forall record_ok (rs_Records rs) → Resource_Encode Buffer_Write rs b = (Ok tt, b ++ o) →
  ∃ s1 s', WriteUint8 es_write 0 (NewResourceWriter, ∅) = (Ok tt, s1) ∧ es_ext (NewResourceWriter, ∅) s1 ∧
    each encode_record (rs_Records rs) s1 = (Ok tt, s') ∧ es_ext s1 s' ∧ rw_off s1.1 = 1 ∧
    holds s' o ∧ zlen o = rw_off s'.1.
Proof.
  intros Hr He. unfold Resource_Encode in He.
  destruct ((WriteUint8 es_write 0;; each encode_record (rs_Records rs)) (NewResourceWriter, ∅))
    as [[[]| |] [rw m]] eqn:Hw; [|done..].
  injection He as He%app_inv_head. apply M_bind_Ok in Hw as ([] & s1 & E1 & E2).
  destruct (es_write_ok _ _ _ NewResourceWriter_ok E1) as (X1 & _ & _ & Hoff). pose proof X1 as (Hok1 & _).
  pose proof (each_records_ext _ _ _ Hr Hok1 E2) as X2. pose proof X2 as ((Hl & Hb & _) & Hle & _). simpl in *.
  unfold ResourceWriter_Bytes in He. assert (zlen o = rw_off rw) as Hz.
  { rewrite <- He. unfold zlen in *. rewrite length_take. lia. }
  exists s1, (rw, m). split_and!; try done. split; simpl; [lia|].
  unfold agree. rewrite <- He, take_take, Nat.min_id. done.
Qed.

Lemma encoding_nonempty `{MiekgDNSLaws} rs b o :
  Forall record_ok (rs_Records rs) → Resource_Encode Buffer_Write rs b = (Ok tt, b ++ o) → 0 < zlen o.
Proof. intros Hr He. destruct (encoded rs b o Hr He) as (s1 & s' & _ & _ & _ & (_ & ? & _) & ? & _ & ?). lia. Qed.

(** A resource is read back from an encoding that fits its writer. *)
Lemma resource_decodes `{MiekgDNSLaws} rs b o :
  Forall record_ok (rs_Records rs) → Resource_Encode Buffer_Write rs b = (Ok tt, b ++ o) → zlen o < 1024 →
  Resource_Decode o = Ok (mkResource 0 (rs_Records rs)).
Proof.
  intros Hr He Ho. destruct (encoded rs b o Hr He) as (s1 & s' & E1 & X1 & E2 & X2 & H1' & Hm & Hz).
  pose proof X1 as (Hok1 & _). pose proof X2 as (_ & Hle & _). unfold Resource_Decode.
  assert (on_rr ReadUint8 (NewResourceReader o) = (Ok 0, mkResourceReader o (rw_off s1.1))) as Hv.
  { eapply (rcodes_dcodes _ _ _ (dcodes_Uint8 0 ltac:(done)) (NewResourceWriter, ∅) s1); [apply NewResourceWriter_ok|done|lia|].
    by eapply es_ext_holds. }
  rewrite (M_bind_step _ _ _ _ _ Hv), decide_False by tauto.
  rewrite (decode_records_each (rs_Records rs) s1 s' [] _ o) by (done || unfold zlen in *; lia).
  done.
Qed.

(** ** Properties *)

(** C27: a resource is read back as it was encoded: its records of every type in
    their order, with compressed names, whenever the encoding is shorter than the
    1024 bytes of its writer.  The time to live is not part of the encoding. *)
Theorem resource_roundtrip `{MiekgDNSLaws} rs b o :
  Forall record_ok (rs_Records rs) → Resource_Encode Buffer_Write rs b = (Ok tt, b ++ o) → zlen o < 1024 →
  Resource_Decode o = Ok (mkResource 0 (rs_Records rs)).
Proof. apply resource_decodes. Qed.

(** C28: decoding a resource ends on any bytes, with the records or an error, and
    does not panic. *)
Theorem resource_decode_total `{MiekgDNSLaws} buf w : Resource_Decode buf ≠ Panic w.
Proof.
  unfold Resource_Decode, mbind at 1, M_bind at 1. pose proof (read_type buf 0 ltac:(unfold zlen; lia)) as Hr.
  unfold NewResourceReader. destruct (on_rr ReadUint8 _) as [[v|e|?] r]; [|done..]. destruct Hr as [-> Hlt].
  case_decide; [done|]. pose proof (decode_records_safe (S (length buf)) [] buf 1) as Hs.
  destruct (decode_records _ _ _).1 as [records|e|w']; [done..|]. simpl.
  destruct (Hs w'); [lia|unfold zlen; lia|done].
Qed.

(** The reader of a resource is a [bytes.Reader] of the bytes that are left. *)
Lemma ResourceReader_Read_bytes p msg off :
  0 ≤ off ≤ zlen msg →
  match ReadInto p (drop (Z.to_nat off) msg) with
  | Ok (p', rest) => ∃ n, ResourceReader_Read p (mkResourceReader msg off) =
      (Ok (p', n, None), mkResourceReader msg (zlen msg - zlen rest)) ∧ n = zlen msg - zlen rest - off
  | _ => ResourceReader_Read p (mkResourceReader msg off) = (Ok (p, 0, Some EOF), mkResourceReader msg off)
  end.
Proof.
  intros Ho. unfold ReadInto, ResourceReader_Read, zlen in *. simpl. case_decide as Hd.
  - apply (f_equal length) in Hd. rewrite length_drop in Hd. simpl in Hd. by rewrite decide_True by lia.
  - destruct (decide (off = Z.of_nat (length msg))) as [->|Hne]; [by rewrite Nat2Z.id, drop_all in Hd|].
    unfold go_copy. rewrite !length_drop, length_take, length_drop.
    assert (drop (Init.Nat.min (length p) (length msg - Z.to_nat off)) p = drop (length msg - Z.to_nat off) p) as ->.
    { destruct (decide (length p ≤ length msg - Z.to_nat off)%nat); [rewrite Nat.min_l, !drop_ge by lia; done|].
      by rewrite Nat.min_r by lia. }
    case_decide; eexists; (split; [reflexivity || (apply f_equal; f_equal; lia)|lia]).
Qed.

(** ** Names of one label, not compressed *)

#[global] Instance toy_dns : MiekgDNS := {
  UnpackDomainName msg off :=
    match drop (Z.to_nat off) msg with
    | n :: rest =>
        let n := Z_of_byte n in
        if decide (0 ≤ off ∧ 0 < n < 64 ∧ n ≤ zlen rest) then Ok (take (Z.to_nat n) rest, off + 1 + n)
        else Err (ENew "bad name")
    | [] => Err (ENew "bad name")
    end;
  PackDomainName name msg off m _ :=
    if decide (0 ≤ off ∧ 0 < zlen name < 64 ∧ off + 1 + zlen name ≤ zlen msg)
    then (Ok (off + 1 + zlen name), (copy_at msg off (byte_of_Z (zlen name) :: name), m))
    else (Err (ENew "bad name"), (msg, m));
}.

#[global] Program Instance toy_dns_laws : MiekgDNSLaws := { IsName name := 0 < zlen name < 64 }.
Next Obligation.
  intros msg off name off' Hu. simpl in Hu. destruct (drop _ msg) as [|n rest] eqn:Hd; [done|].
  case_decide as Hc; [|done]. injection Hu as _ <-. apply (f_equal length) in Hd. rewrite length_drop in Hd.
  simpl in Hd. unfold zlen in *. lia.
Qed.
Next Obligation. intros msg off w. simpl. destruct (drop _ msg); [done|]. by case_decide. Qed.
Next Obligation.
  intros name msg off m off' msg' m' Hn Ho Hp Hk. simpl in *. case_decide as Hc; [|done].
  injection Hk as <- <- <-. set (p := byte_of_Z (zlen name) :: name).
  assert (zlen p = 1 + zlen name) as Hz by (unfold zlen; simpl; lia).
  assert (agree off (copy_at msg off p) msg) as Ha by (by apply copy_at_agree).
  split_and!; [lia|rewrite zlen_copy_at; lia|by rewrite zlen_copy_at|done| |].
  - eapply points_into_ext; [|done|done]. lia.
  - intros msg2 Hl Hag. rewrite (copy_at_drop msg off p msg2) by (rewrite ?Hz, ?Z.add_assoc; done || lia).
    subst p. simpl. rewrite Z_of_byte_of_Z, Z.mod_small by lia. rewrite decide_True.
    + unfold zlen. rewrite Nat2Z.id, take_app_length. f_equal.
    + unfold zlen in *. rewrite length_app. lia.
Qed.

Definition demo_records : list Record_ :=
  [NSRecord (bs "ns1"); Glue4Record (bs "ns2") [x0a; x00; x00; x01]; DSRecord 257 8 2 (replicate 32 x05);
   TXTRecord [bs "hello"; []]; Synth6Record (replicate 16 x01)].

Definition demo_bytes : bytes := (Resource_Encode Buffer_Write (mkResource 0 demo_records) []).2.

Lemma resource_roundtrip_witness :
  zlen demo_bytes = 79 ∧ Resource_Decode demo_bytes = Ok (mkResource 0 demo_records).
Proof.
  split; [vm_compute; reflexivity|].
  apply (resource_roundtrip (mkResource 0 demo_records) [] demo_bytes).
  - repeat constructor; vm_compute; first [reflexivity|discriminate|split; [discriminate|reflexivity]].
  - vm_compute. reflexivity.
  - vm_compute. reflexivity.
Defined.

Lemma resource_decode_total_witness : Resource_Decode [x00; xff] ≠ Panic "out of fuel".
Proof. apply (resource_decode_total [x00; xff]). Defined.

(** What does not fit is dropped without an error: four entries of 255 bytes are
    encoded in 1024 bytes, which do not decode. *)
Definition long_text : Record_ := TXTRecord (replicate 4 (replicate 255 x61)).

Lemma long_text_cut :
  ∃ o, Resource_Encode Buffer_Write (mkResource 0 [long_text]) [] = (Ok tt, o) ∧ zlen o = 1024 ∧
    Resource_Decode o = Err ErrUnexpectedEOF.
Proof.
  destruct (Resource_Encode Buffer_Write (mkResource 0 [long_text]) []) as [r o] eqn:He.
  exists o. apply (f_equal (λ x, (x.1, x.2))) in He. vm_compute in He. injection He as <- <-.
  split_and!; vm_compute; reflexivity.
Qed.
