(* ===== verification/HnsPrimitives.v ===== *)
(** * The Handshake library: blocks, transactions and covenants

    [src/vendor/fnd.localhost/handshake/primitives] without [rules.go], which is in
    [Names.v]: the values the blocks of the chain are made of, with their
    encodings, the covenants of each type, and the hashes of blocks and
    transactions. *)

From S2P Require Import Prelude GoLib Crypto HnsEncoding HnsDns.
#[local] Open Scope Z_scope.

(** ** network.go *)

Inductive Network := NetworkMainnet | NetworkTestnet | NetworkRegtest | NetworkSimnet | OtherNetwork (s : bytes).

Definition Network_String (n : Network) : bytes :=
  match n with
  | NetworkMainnet => bs "main"
  | NetworkTestnet => bs "testnet"
  | NetworkRegtest => bs "regtest"
  | NetworkSimnet => bs "simnet"
  | OtherNetwork s => s
  end.

Definition RPCPort (n : Network) : result Z :=
  match n with
  | NetworkMainnet => Ok 12037
  | NetworkTestnet => Ok 13037
  | NetworkRegtest => Ok 14037
  | NetworkSimnet => Ok 15037
  | OtherNetwork _ => Panic "invalid network"
  end.

Definition AddressHRP (n : Network) : result bytes :=
  match n with
  | NetworkMainnet => Ok (bs "hs")
  | NetworkTestnet => Ok (bs "ts")
  | NetworkRegtest => Ok (bs "rs")
  | NetworkSimnet => Ok (bs "ss")
  | OtherNetwork _ => Panic "invalid network"
  end.

Definition NetworkFromString (n : bytes) : result Network :=
  if decide (n = bs "main") then Ok NetworkMainnet
  else if decide (n = bs "testnet") then Ok NetworkTestnet
  else if decide (n = bs "regtest") then Ok NetworkRegtest
  else if decide (n = bs "simnet") then Ok NetworkSimnet
  else Err (ENew "invalid network").

(** ** outpoint.go, input.go *)

Record Outpoint := mkOutpoint { op_Hash : bytes; op_Index : Z }.
Record Input := mkInput { in_Prevout : Outpoint; in_Sequence : Z }.

Definition Outpoint_Decode : dec Outpoint :=
  hash ← ReadFull 32;
  index ← ReadUint32;
  mret (mkOutpoint hash index).

Definition Input_Decode : dec Input :=
  prevout ← Outpoint_Decode;
  sequence ← ReadUint32;
  mret (mkInput prevout sequence).

(** ** address.go *)

Record Address := mkAddress { addr_Version : Z; addr_Hash : bytes }.

Definition Address_Decode : dec Address :=
  version ← ReadUint8;
  if decide (31 < version) then dec_fail (ENew "invalid address version")
  else
    size ← ReadUint8;
    if decide (size < 2 ∨ 40 < size) then dec_fail (ENew "invalid address length")
    else
      hash ← ReadFull (Z.to_nat size);
      mret (mkAddress version hash).

(** github.com/btcsuite/btcutil/bech32: [ConvertBits(data, from, to, pad)] and
    [Encode(hrp, data)]. *)
Class Bech32 := {
  ConvertBits : bytes → Z → Z → bool → result bytes;
  bech32_Encode : bytes → bytes → result bytes;
}.

(** The prefix that is passed is not looked at. *)
Definition ToBech32 `{Bech32} (a : Address) (hrp : bytes) : result bytes :=
  data ← ConvertBits (addr_Hash a) 8 5 true;
  prefix ← AddressHRP NetworkMainnet;
  bech32_Encode prefix (byte_of_Z (addr_Version a) :: data).

(** ** witness.go, covenant.go *)

Definition MaxScriptStack : Z := 1000.

Record Witness := mkWitness { wt_Items : list bytes }.

Definition Witness_Decode : dec Witness :=
  count ← ReadVarint;
  if decide (MaxScriptStack < count) then dec_fail (ENew "too many witness items")
  else
    items ← dec_times count ReadVarBytes;
    mret (mkWitness items).

Definition CovenantNone : Z := 0.
Definition CovenantClaim : Z := 1.
Definition CovenantOpen : Z := 2.
Definition CovenantBid : Z := 3.
Definition CovenantReveal : Z := 4.
Definition CovenantRedeem : Z := 5.
Definition CovenantRegister : Z := 6.
Definition CovenantUpdate : Z := 7.
Definition CovenantRenew : Z := 8.
Definition CovenantTransfer : Z := 9.
Definition CovenantFinalize : Z := 10.
Definition CovenantRevoke : Z := 11.

Record Covenant := mkCovenant { cov_Type : Z; cov_Items : list bytes }.

Definition Covenant_Decode : dec Covenant :=
  typ ← ReadUint8;
  if decide (CovenantRevoke < typ) then dec_fail (ENew "invalid covenant type")
  else
    count ← ReadVarint;
    if decide (MaxScriptStack < count) then dec_fail (ENew "too many covenant items")
    else
      items ← dec_times count ReadVarBytes;
      mret (mkCovenant typ items).

(** ** output.go, transaction.go, block.go *)

Record Output := mkOutput { out_Value : Z; out_Address : Address; out_Covenant : Covenant }.

Definition Output_Decode : dec Output :=
  value ← ReadUint64;
  address ← Address_Decode;
  covenant ← Covenant_Decode;
  mret (mkOutput value address covenant).

Record Transaction := mkTransaction {
  trx_Version : Z;
  trx_Inputs : list Input;
  trx_Outputs : list Output;
  trx_Locktime : Z;
  trx_Witnesses : list Witness;
}.

Definition Transaction_Decode : dec Transaction :=
  version ← ReadUint32;
  inCount ← ReadVarint;
  inputs ← dec_times inCount Input_Decode;
  outCount ← ReadVarint;
  outputs ← dec_times outCount Output_Decode;
  locktime ← ReadUint32;
  witnesses ← dec_times inCount Witness_Decode;
  mret (mkTransaction version inputs outputs locktime witnesses).

Record Block := mkBlock {
  blk_Nonce : Z;
  blk_Time : Z;
  blk_PrevHash : bytes;
  blk_TreeRoot : bytes;
  blk_ExtraNonce : bytes;
  blk_ReservedRoot : bytes;
  blk_WitnessRoot : bytes;
  blk_MerkleRoot : bytes;
  blk_Version : Z;
  blk_Bits : Z;
  blk_Mask : bytes;
  blk_Transactions : list Transaction;
}.

Definition NonceSize : nat := 24.
Definition MaskSize : nat := 32.

(** [r.Read] into a zeroed array: a short read is not an error. *)
Definition ReadArray (n : nat) : dec bytes := ReadInto (replicate n x00).

Definition Block_Decode : dec Block :=
  nonce ← ReadUint32;
  ts ← ReadUint64;
  hash ← ReadArray 32;
  treeRoot ← ReadArray 32;
  extraNonce ← ReadArray NonceSize;
  reservedRoot ← ReadArray 32;
  witnessRoot ← ReadArray 32;
  merkleRoot ← ReadArray 32;
  version ← ReadUint32;
  bits ← ReadUint32;
  mask ← ReadArray MaskSize;
  txCount ← ReadVarint;
  txs ← dec_times txCount Transaction_Decode;
  mret (mkBlock nonce ts hash treeRoot extraNonce reservedRoot witnessRoot merkleRoot version bits mask txs).

(** ** Encoders *)

Section encoders.
Context {S : Type} (w : Writer S).

Definition Outpoint_Encode (o : Outpoint) : M S unit :=
  write w (op_Hash o);; WriteUint32 w (op_Index o).

Definition Input_Encode (i : Input) : M S unit :=
  Outpoint_Encode (in_Prevout i);; WriteUint32 w (in_Sequence i).

Definition Address_Encode (a : Address) : M S unit :=
  WriteUint8 w (addr_Version a);; WriteUint8 w (u8 (zlen (addr_Hash a)));; write w (addr_Hash a).

Definition Witness_Encode (wt : Witness) : M S unit :=
  WriteVarint w (zlen (wt_Items wt));; each (WriteVarBytes w) (wt_Items wt).

Definition Covenant_Encode (c : Covenant) : M S unit :=
  WriteUint8 w (cov_Type c);; WriteVarint w (zlen (cov_Items c));; each (WriteVarBytes w) (cov_Items c).

Definition Output_Encode (o : Output) : M S unit :=
  WriteUint64 w (out_Value o);; Address_Encode (out_Address o);; Covenant_Encode (out_Covenant o).

Definition EncodeNoWitnesses (t : Transaction) : M S unit :=
  WriteUint32 w (trx_Version t);;
  WriteVarint w (zlen (trx_Inputs t));;
  each Input_Encode (trx_Inputs t);;
  WriteVarint w (zlen (trx_Outputs t));;
  each Output_Encode (trx_Outputs t);;
  WriteUint32 w (trx_Locktime t).

Definition Transaction_Encode (t : Transaction) : M S unit :=
  EncodeNoWitnesses t;;
  each Witness_Encode (trx_Witnesses t).

Definition Block_Encode (b : Block) : M S unit :=
  WriteUint32 w (blk_Nonce b);;
  WriteUint64 w (blk_Time b);;
  write w (blk_PrevHash b);;
  write w (blk_TreeRoot b);;
  write w (blk_ExtraNonce b);;
  write w (blk_ReservedRoot b);;
  write w (blk_WitnessRoot b);;
  write w (blk_MerkleRoot b);;
  WriteUint32 w (blk_Version b);;
  WriteUint32 w (blk_Bits b);;
  write w (blk_Mask b);;
  WriteVarint w (zlen (blk_Transactions b));;
  each Transaction_Encode (blk_Transactions b).
End encoders.

(** ** Hashes *)

(** golang.org/x/crypto: BLAKE2b of 512 bits and SHA3-256. *)
Class PowHashes := {
  blake2b512 : bytes → bytes;
  sha3_256 : bytes → bytes;
}.

(** What an encoder writes to a hash or a buffer; it panics on an error. *)
Definition written (e : M bytes unit) : result bytes :=
  match e [] with
  | (Ok _, o) => Ok o
  | _ => Panic "err"
  end.

Section hashes.
Context `{Blake2b, PowHashes}.

Definition Transaction_ID (t : Transaction) : result bytes :=
  blake2b256 <$> written (EncodeNoWitnesses Buffer_Write t).

Definition byte_xor (a b : byte) : byte := byte_of_Z (Z.lxor (Z_of_byte a) (Z_of_byte b)).

Definition padding (b : Block) (size : nat) : bytes :=
  (λ i, byte_xor (default x00 (blk_PrevHash b !! (i mod 32)%nat)) (default x00 (blk_TreeRoot b !! (i mod 32)%nat)))
    <$> seq 0 size.

Definition subHash (b : Block) : bytes :=
  blake2b256 (blk_ExtraNonce b ++ blk_ReservedRoot b ++ blk_WitnessRoot b ++ blk_MerkleRoot b ++
              le_put 4 (blk_Version b) ++ le_put 4 (blk_Bits b)).

Definition maskHash (b : Block) : bytes := blake2b256 (blk_PrevHash b ++ blk_Mask b).

Definition commitHash (b : Block) : bytes := blake2b256 (subHash b ++ maskHash b).

Definition Block_Hash (b : Block) : bytes :=
  let left := le_put 4 (blk_Nonce b) ++ le_put 8 (blk_Time b) ++ padding b 20 ++ blk_PrevHash b ++
              blk_TreeRoot b ++ commitHash b in
  blake2b256 (blake2b512 left ++ padding b 32 ++ sha3_256 (left ++ padding b 8)).
End hashes.

(** ** The covenants of each type *)

(** [cov.Items[i]], [binary.LittleEndian.Uint32(cov.Items[i])] and [cov.Items[i][0]]. *)
Definition item (cov : Covenant) (i : nat) : result bytes :=
  match cov_Items cov !! i with
  | Some b => Ok b
  | None => Panic "index out of range"
  end.

Definition item_u32 (cov : Covenant) (i : nat) : result Z :=
  b ← item cov i;
  if decide (zlen b < 4) then Panic "index out of range" else Ok (le_get (take 4 b)).

Definition item_byte (cov : Covenant) (i : nat) : result byte :=
  b ← item cov i;
  match b with
  | c :: _ => Ok c
  | [] => Panic "index out of range"
  end.

(** A constructor of the covenants of one type. *)
Definition of_type {A} (typ : Z) (msg : string) (cov : Covenant) (k : result A) : result A :=
  if decide (cov_Type cov ≠ typ) then Err (ENew msg) else k.

Record Open := mkOpen { open_NameHash : bytes; open_Reserved : Z; open_Name : bytes }.

Definition OpenFromCovenant (cov : Covenant) : result Open :=
  of_type CovenantOpen "covenant is not an open covenant" cov
    (reserved ← item_u32 cov 1;
     nh ← item cov 0;
     name ← item cov 2;
     Ok (mkOpen nh reserved name)).

Record Bid := mkBid { bid_NameHash : bytes; bid_Start : Z; bid_Name : bytes; bid_Blind : bytes }.

Definition BidFromCovenant (cov : Covenant) : result Bid :=
  of_type CovenantBid "covenant is not a bid covenant" cov
    (nh ← item cov 0;
     start ← item_u32 cov 1;
     name ← item cov 2;
     blind ← item cov 3;
     Ok (mkBid nh start name blind)).

Record Reveal := mkReveal { rev_NameHash : bytes; rev_Height : Z; rev_Nonce : bytes }.

Definition RevealFromCovenant (cov : Covenant) : result Reveal :=
  of_type CovenantReveal "covenant is not a reveal covenant" cov
    (nh ← item cov 0;
     height ← item_u32 cov 1;
     nonce ← item cov 2;
     Ok (mkReveal nh height nonce)).

Record Redeem := mkRedeem { red_NameHash : bytes; red_Height : Z }.

Definition RedeemFromCovenant (cov : Covenant) : result Redeem :=
  of_type CovenantRedeem "covenant is not a redeem covenant" cov
    (nh ← item cov 0;
     height ← item_u32 cov 1;
     Ok (mkRedeem nh height)).

Record Renewal := mkRenewal { ren_NameHash : bytes; ren_Height : Z; ren_RenewalBlockHash : bytes }.

Definition RenewalFromCovenant (cov : Covenant) : result Renewal :=
  of_type CovenantRenew "covenant is not a renewal covenant" cov
    (nh ← item cov 0;
     height ← item_u32 cov 1;
     hash ← item cov 2;
     Ok (mkRenewal nh height hash)).

Record Transfer := mkTransfer { tra_NameHash : bytes; tra_Height : Z; tra_Address : Address }.

Definition TransferFromCovenant (cov : Covenant) : result Transfer :=
  of_type CovenantTransfer "covenant is not a transfer covenant" cov
    (nh ← item cov 0;
     height ← item_u32 cov 1;
     version ← item_byte cov 2;
     hash ← item cov 3;
     Ok (mkTransfer nh height (mkAddress (Z_of_byte version) hash))).

Record Finalize := mkFinalize {
  fin_NameHash : bytes;
  fin_Height : Z;
  fin_Name : bytes;
  fin_Flags : byte;
  fin_Claimed : Z;
  fin_Renewals : Z;
  fin_RenewalBlockHash : bytes;
}.

Definition FinalizeFromCovenant (cov : Covenant) : result Finalize :=
  of_type CovenantFinalize "covenant is not a finalize covenant" cov
    (nh ← item cov 0;
     height ← item_u32 cov 1;
     name ← item cov 2;
     flags ← item_byte cov 3;
     claimed ← item_u32 cov 4;
     renewals ← item_u32 cov 5;
     hash ← item cov 6;
     Ok (mkFinalize nh height name flags claimed renewals hash)).

Definition MaxResourceSize : Z := 512.

Section resources.
Context `{MiekgDNS}.

(** The resource of an item; an empty item has none. *)
Definition resource_item (resourceB : bytes) : result (option Resource) :=
  if decide (MaxResourceSize < zlen resourceB) then Err (ENew "resource too large")
  else if decide (0 < zlen resourceB) then Some <$> Resource_Decode resourceB
  else Ok None.

Record Register := mkRegister {
  reg_NameHash : bytes;
  reg_Height : Z;
  reg_Resource : option Resource;
  reg_RenewalBlockHash : bytes;
}.

Definition RegisterFromCovenant (cov : Covenant) : result Register :=
  of_type CovenantRegister "covenant is not a register covenant" cov
    (resourceB ← item cov 2;
     resource ← resource_item resourceB;
     nh ← item cov 0;
     height ← item_u32 cov 1;
     hash ← item cov 3;
     Ok (mkRegister nh height resource hash)).

(** [Update] of primitives; the update of the wire is another type. *)
Record CovUpdate := mkCovUpdate { upd_NameHash : bytes; upd_Height : Z; upd_Resource : option Resource }.

Definition UpdateFromCovenant (cov : Covenant) : result CovUpdate :=
  of_type CovenantUpdate "covenant is not an update covenant" cov
    (resourceB ← item cov 2;
     resource ← resource_item resourceB;
     nh ← item cov 0;
     height ← item_u32 cov 1;
     Ok (mkCovUpdate nh height resource)).
End resources.
