(* ===== verification/HnsProofs.v ===== *)
(** * What encoding and decoding blocks guarantees

    Blocks and transactions are read back as they were written; what is read is
    well formed; and the errors the decoder of a block does not see. *)

From S2P Require Import Prelude GoLib Crypto Instances HnsEncoding HnsDns HnsPrimitives.
#[local] Open Scope Z_scope.

(** ** Well-formed values *)

Definition items_ok (items : list bytes) : Prop :=
  zlen items ≤ MaxScriptStack ∧ Forall (λ i, zlen i < 2 ^ 32) items.

Definition outpoint_ok (o : Outpoint) : Prop := length (op_Hash o) = 32%nat ∧ is_u32 (op_Index o).

Definition input_ok (i : Input) : Prop := outpoint_ok (in_Prevout i) ∧ is_u32 (in_Sequence i).

Definition address_ok (a : Address) : Prop := 0 ≤ addr_Version a ≤ 31 ∧ 2 ≤ zlen (addr_Hash a) ≤ 40.

Definition covenant_ok (c : Covenant) : Prop := 0 ≤ cov_Type c ≤ CovenantRevoke ∧ items_ok (cov_Items c).

Definition output_ok (o : Output) : Prop :=
  is_u64 (out_Value o) ∧ address_ok (out_Address o) ∧ covenant_ok (out_Covenant o).

(** A transaction has a witness for each input. *)
Definition transaction_ok (t : Transaction) : Prop :=
  is_u32 (trx_Version t) ∧ zlen (trx_Inputs t) < 2 ^ 32 ∧ Forall input_ok (trx_Inputs t) ∧
  zlen (trx_Outputs t) < 2 ^ 32 ∧ Forall output_ok (trx_Outputs t) ∧ is_u32 (trx_Locktime t) ∧
  length (trx_Witnesses t) = length (trx_Inputs t) ∧ Forall (λ w, items_ok (wt_Items w)) (trx_Witnesses t).

(** The fields of a block before its transactions. *)
Definition header_ok (b : Block) : Prop :=
  is_u32 (blk_Nonce b) ∧ is_u64 (blk_Time b) ∧ length (blk_PrevHash b) = 32%nat ∧
  length (blk_TreeRoot b) = 32%nat ∧ length (blk_ExtraNonce b) = NonceSize ∧
  length (blk_ReservedRoot b) = 32%nat ∧ length (blk_WitnessRoot b) = 32%nat ∧
  length (blk_MerkleRoot b) = 32%nat ∧ is_u32 (blk_Version b) ∧ is_u32 (blk_Bits b) ∧
  length (blk_Mask b) = MaskSize.

Definition block_ok (b : Block) : Prop :=
  header_ok b ∧ zlen (blk_Transactions b) < 2 ^ 32 ∧ Forall transaction_ok (blk_Transactions b).

(** ** Round trips *)

Lemma codes_items items : items_ok items →
  codes (each (WriteVarBytes Buffer_Write) items) (dec_times (zlen items) ReadVarBytes) items.
Proof.
  intros [Hn Hi]. apply codes_times; [done|unfold MaxScriptStack in Hn; lia|].
  eapply Forall_impl; [done|]. auto with hns.
Qed.

Lemma codes_count {A} (l : list A) : zlen l < 2 ^ 32 → codes (WriteVarint Buffer_Write (zlen l)) ReadVarint (zlen l).
Proof. intros Hl. apply codes_Varint. unfold zlen in *. lia. Qed.

Lemma codes_Outpoint o : outpoint_ok o → codes (Outpoint_Encode Buffer_Write o) Outpoint_Decode o.
Proof.
  intros [Hh Hi]. eapply codes_bind; [by apply codes_full|].
  eapply codes_last; [by apply codes_Uint32|by destruct o].
Qed.

Lemma codes_Input i : input_ok i → codes (Input_Encode Buffer_Write i) Input_Decode i.
Proof.
  intros [Hp Hs]. eapply codes_bind; [by apply codes_Outpoint|].
  eapply codes_last; [by apply codes_Uint32|by destruct i].
Qed.

Lemma codes_Address a : address_ok a → codes (Address_Encode Buffer_Write a) Address_Decode a.
Proof.
  intros [Hv Hl]. assert (is_u8 (zlen (addr_Hash a))) as H8 by (unfold is_u8; lia).
  unfold Address_Encode, Address_Decode. eapply codes_bind; [apply codes_Uint8; unfold is_u8; lia|].
  cbv beta. rewrite decide_False by lia. replace (u8 _) with (zlen (addr_Hash a)) by (symmetry; by apply Z.mod_small).
  eapply codes_bind; [by apply codes_Uint8|]. cbv beta. rewrite decide_False by lia.
  eapply codes_last; [apply codes_full; unfold zlen; lia|by destruct a].
Qed.

Lemma codes_Witness w : items_ok (wt_Items w) → codes (Witness_Encode Buffer_Write w) Witness_Decode w.
Proof.
  intros Hi. pose proof Hi as [Hn _]. unfold Witness_Encode, Witness_Decode.
  eapply codes_bind; [apply codes_count; unfold MaxScriptStack in Hn; lia|]. cbv beta. rewrite decide_False by lia.
  eapply codes_last; [by apply codes_items|by destruct w].
Qed.

Lemma codes_Covenant c : covenant_ok c → codes (Covenant_Encode Buffer_Write c) Covenant_Decode c.
Proof.
  intros [Ht Hi]. pose proof Hi as [Hn _]. unfold CovenantRevoke in *. unfold Covenant_Encode, Covenant_Decode.
  eapply codes_bind; [apply codes_Uint8; unfold is_u8; lia|]. cbv beta. rewrite decide_False by (unfold CovenantRevoke; lia).
  eapply codes_bind; [apply codes_count; unfold MaxScriptStack in Hn; lia|]. cbv beta. rewrite decide_False by lia.
  eapply codes_last; [by apply codes_items|by destruct c].
Qed.

Lemma codes_Output o : output_ok o → codes (Output_Encode Buffer_Write o) Output_Decode o.
Proof.
  intros (Hv & Ha & Hc). eapply codes_bind; [by apply codes_Uint64|]. eapply codes_bind; [by apply codes_Address|].
  eapply codes_last; [by apply codes_Covenant|by destruct o].
Qed.

Lemma codes_Transaction t : transaction_ok t → codes (Transaction_Encode Buffer_Write t) Transaction_Decode t.
Proof.
  intros (Hv & Hin & Hi & Hout & Ho & Hlock & Hw & Hws). unfold Transaction_Encode, EncodeNoWitnesses, Transaction_Decode.
  apply codes_assoc. eapply codes_bind; [by apply codes_Uint32|].
  apply codes_assoc. eapply codes_bind; [by apply codes_count|].
  apply codes_assoc. eapply codes_bind; [apply codes_times; [done|lia|eapply Forall_impl; [done|apply codes_Input]]|].
  apply codes_assoc. eapply codes_bind; [by apply codes_count|].
  apply codes_assoc. eapply codes_bind; [apply codes_times; [done|lia|eapply Forall_impl; [done|apply codes_Output]]|].
  eapply codes_bind; [by apply codes_Uint32|].
  apply (codes_last _ _ _ (trx_Witnesses t)); [|by destruct t]. apply codes_times; [unfold zlen; by rewrite Hw|lia|].
  eapply Forall_impl; [done|]. apply codes_Witness.
Qed.

Lemma codes_array n p : length p = S n → codes (write Buffer_Write p) (ReadArray (S n)) p.
Proof. intros Hp. apply (codes_read n); rewrite length_replicate; done. Qed.

Lemma codes_Block b : block_ok b → codes (Block_Encode Buffer_Write b) Block_Decode b.
Proof.
  intros ((Hn & Ht & Hp & Htr & Hx & Hr & Hw & Hm & Hv & Hb & Hmask) & Hl & Hts).
  unfold Block_Encode, Block_Decode.
  eapply codes_bind; [by apply codes_Uint32|]. eapply codes_bind; [by apply codes_Uint64|].
  do 6 (eapply codes_bind; [by apply codes_array|]). do 2 (eapply codes_bind; [by apply codes_Uint32|]).
  eapply codes_bind; [by apply codes_array|]. eapply codes_bind; [by apply codes_count|].
  apply (codes_last _ _ _ (blk_Transactions b)); [|by destruct b]. apply codes_times; [done|lia|].
  eapply Forall_impl; [done|]. apply codes_Transaction.
Qed.

(** ** What decoders give *)

(** A decoder that takes at least [k] bytes of an input of less than four GiB, and
    gives a value that has [P]. *)
Definition decodes {A} (d : dec A) (k : Z) (P : A → Prop) : Prop :=
  ∀ r a rest, zlen r < 2 ^ 32 → d r = Ok (a, rest) → zlen rest + k ≤ zlen r ∧ P a.

Lemma decodes_ret {A} (a : A) (P : A → Prop) : P a → decodes (mret a) 0 P.
Proof. intros Ha r ? rest _ [= <- <-]. split; [lia|done]. Qed.

Lemma decodes_fail {A} e k (P : A → Prop) : decodes (dec_fail e) k P.
Proof. done. Qed.

Lemma decodes_bind {A B} (d : dec A) (f : A → dec B) k1 k2 P Q :
  0 ≤ k1 → decodes d k1 P → (∀ a, P a → decodes (f a) k2 Q) → decodes (d ≫= f) (k1 + k2) Q.
Proof.
  intros Hk Hd Hf r b rest Hr (a & r1 & D1 & D2)%dec_bind_Ok.
  destruct (Hd r a r1 Hr D1) as [L1 Ha]. destruct (Hf a Ha r1 b rest ltac:(lia) D2) as [L2 Hb]. split; [lia|done].
Qed.

Lemma decodes_weaken {A} (d : dec A) k k' P (Q : A → Prop) :
  decodes d k P → k' ≤ k → (∀ a, P a → Q a) → decodes d k' Q.
Proof. intros Hd Hk HP r a rest Hr Ha. destruct (Hd r a rest Hr Ha). split; [lia|auto]. Qed.

Lemma decodes_full n : decodes (ReadFull n) (Z.of_nat n) (λ l, length l = n ∧ zlen l < 2 ^ 32).
Proof.
  intros r l rest Hr [-> Hl]%ReadFull_Ok. unfold zlen in *. rewrite length_app in Hr.
  rewrite length_app. split; [lia|]. split; [done|lia].
Qed.

Lemma decodes_word n (g : bytes → Z) : (∀ l, 0 ≤ g l < 2 ^ (8 * zlen l)) →
  decodes (buf ← ReadFull n; mret (g buf)) (Z.of_nat n) (λ z, 0 ≤ z < 2 ^ (8 * Z.of_nat n)).
Proof.
  intros Hg. replace (Z.of_nat n) with (Z.of_nat n + 0) at 1 by lia.
  eapply decodes_bind; [lia|apply decodes_full|]. intros l [Hl _]. apply decodes_ret.
  specialize (Hg l). unfold zlen in Hg. by rewrite Hl in Hg.
Qed.

Lemma decodes_Uint64 : decodes ReadUint64 8 is_u64.
Proof. exact (decodes_word 8 le_get le_get_bound). Qed.

Lemma decodes_Uint32 : decodes ReadUint32 4 is_u32.
Proof. exact (decodes_word 4 le_get le_get_bound). Qed.

Lemma decodes_Uint8 : decodes ReadUint8 1 is_u8.
Proof. exact (decodes_word 1 be_get be_get_bound). Qed.

(** At the end of the input a varint takes no bytes. *)
Lemma decodes_Varint : decodes ReadVarint 0 is_u64.
Proof.
  intros r z rest Hr Hz. destruct r as [|b r].
  { injection Hz as <- <-. done. }
  rewrite ReadVarint_sigil in Hz. pose proof (Z_of_byte_range b) as Hb.
  assert (zlen (b :: r) = 1 + zlen r) as Hl by (unfold zlen; simpl; lia). repeat case_decide.
  - injection Hz as <- <-. split; [lia|]. unfold is_u64. lia.
  - destruct (decodes_word 2 le_get le_get_bound r z rest ltac:(lia) Hz) as [? ?]. unfold is_u64. split; lia.
  - destruct (decodes_Uint32 r z rest ltac:(lia) Hz) as [? ?]. unfold is_u32, is_u64 in *. split; lia.
  - destruct (decodes_Uint64 r z rest ltac:(lia) Hz) as [? ?]. split; [lia|done].
Qed.

Lemma decodes_VarBytes : decodes ReadVarBytes 0 (λ b, zlen b < 2 ^ 32).
Proof.
  eapply (decodes_bind _ _ 0 0); [lia|apply decodes_Varint|]. intros l _. cbv beta. unfold ReadBytes.
  destruct (make_ok _); [|done]. eapply decodes_weaken; [apply decodes_full|lia|]. by intros b [_ Hb].
Qed.

Lemma decodes_repeat {A} (d : dec A) k (P : A → Prop) n : 0 ≤ k → decodes d k P →
  decodes (dec_repeat n d) (k * Z.of_nat n) (λ l, Forall P l ∧ length l = n).
Proof.
  intros Hk Hd. induction n as [|n IH]; [rewrite Z.mul_0_r; by apply decodes_ret|]. simpl dec_repeat.
  replace (k * Z.of_nat (S n)) with (k + (k * Z.of_nat n + 0)) by lia.
  eapply decodes_bind; [done|done|]. intros x Hx. eapply decodes_bind; [lia|done|]. intros l [Hl Hn].
  apply decodes_ret. split; [by constructor|]. simpl. by rewrite Hn.
Qed.

Lemma decodes_times {A} (d : dec A) k (P : A → Prop) n : 0 ≤ k → decodes d k P →
  decodes (dec_times n d) 0 (λ l, Forall P l ∧ length l = Z.to_nat (i64 n)).
Proof.
  intros Hk Hd. eapply decodes_weaken; [by apply decodes_repeat|lia|done].
Qed.

(** Values that take a byte each are fewer than the bytes. *)
Lemma decodes_many {A} (d : dec A) k (P : A → Prop) n : 1 ≤ k → decodes d k P →
  decodes (dec_times n d) 0 (λ l, Forall P l ∧ length l = Z.to_nat (i64 n) ∧ zlen l < 2 ^ 32).
Proof.
  intros Hk Hd r l rest Hr Hl.
  destruct (decodes_repeat d k P (Z.to_nat (i64 n)) ltac:(lia) Hd r l rest Hr Hl) as [Hz [HP Hn]].
  assert (0 ≤ zlen rest) by (unfold zlen; lia). split; [nia|]. split_and!; [done|done|]. unfold zlen in *. nia.
Qed.

Lemma decodes_items n : 0 ≤ n ≤ MaxScriptStack → decodes (dec_times n ReadVarBytes) 0 items_ok.
Proof.
  intros Hn. eapply decodes_weaken; [eapply decodes_times; [done|apply decodes_VarBytes]|done|].
  intros l [Hl Hlen]. split; [|done]. unfold zlen. rewrite Hlen. unfold MaxScriptStack in *.
  rewrite i64_small; lia.
Qed.

Lemma decodes_Outpoint : decodes Outpoint_Decode 36 outpoint_ok.
Proof.
  apply (decodes_bind _ _ 32 4 _ _ ltac:(lia) (decodes_full 32)). intros h [Hh _].
  apply (decodes_bind _ _ 4 0 _ _ ltac:(lia) decodes_Uint32). intros i Hi. by apply decodes_ret.
Qed.

Lemma decodes_Input : decodes Input_Decode 40 input_ok.
Proof.
  apply (decodes_bind _ _ 36 4 _ _ ltac:(lia) decodes_Outpoint). intros o Ho.
  apply (decodes_bind _ _ 4 0 _ _ ltac:(lia) decodes_Uint32). intros i Hi. by apply decodes_ret.
Qed.

Lemma decodes_Address : decodes Address_Decode 2 address_ok.
Proof.
  apply (decodes_bind _ _ 1 1 _ _ ltac:(lia) decodes_Uint8). intros v [Hv _]. case_decide; [done|].
  apply (decodes_bind _ _ 1 0 _ _ ltac:(lia) decodes_Uint8). intros n Hn. case_decide; [done|].
  eapply decodes_weaken; [apply (decodes_bind _ _ (Z.of_nat (Z.to_nat n)) 0 _ address_ok ltac:(lia) (decodes_full _))|lia|done].
  intros h [Hh _]. apply decodes_ret. split; simpl; [lia|]. unfold zlen. lia.
Qed.

Lemma decodes_Witness : decodes Witness_Decode 0 (λ w, items_ok (wt_Items w)).
Proof.
  apply (decodes_bind _ _ 0 0 _ _ ltac:(lia) decodes_Varint). intros n [Hn _]. case_decide; [done|].
  apply (decodes_bind _ _ 0 0 _ _ ltac:(lia) (decodes_items n ltac:(lia))). intros l Hl. by apply decodes_ret.
Qed.

Lemma decodes_Covenant : decodes Covenant_Decode 1 covenant_ok.
Proof.
  apply (decodes_bind _ _ 1 0 _ _ ltac:(lia) decodes_Uint8). intros t [Ht _]. case_decide; [done|].
  apply (decodes_bind _ _ 0 0 _ _ ltac:(lia) decodes_Varint). intros n [Hn _]. case_decide; [done|].
  apply (decodes_bind _ _ 0 0 _ _ ltac:(lia) (decodes_items n ltac:(lia))). intros l Hl. apply decodes_ret.
  split; [simpl; lia|done].
Qed.

Lemma decodes_Output : decodes Output_Decode 11 output_ok.
Proof.
  apply (decodes_bind _ _ 8 3 _ _ ltac:(lia) decodes_Uint64). intros v Hv.
  apply (decodes_bind _ _ 2 1 _ _ ltac:(lia) decodes_Address). intros a Ha.
  apply (decodes_bind _ _ 1 0 _ _ ltac:(lia) decodes_Covenant). intros c Hc. by apply decodes_ret.
Qed.

Lemma decodes_Transaction : decodes Transaction_Decode 8 transaction_ok.
Proof.
  apply (decodes_bind _ _ 4 4 _ _ ltac:(lia) decodes_Uint32). intros v Hv.
  apply (decodes_bind _ _ 0 4 _ _ ltac:(lia) decodes_Varint). intros n _.
  apply (decodes_bind _ _ 0 4 _ _ ltac:(lia) (decodes_many _ 40 _ n ltac:(lia) decodes_Input)). intros ins (Hi & Hn & Hin).
  apply (decodes_bind _ _ 0 4 _ _ ltac:(lia) decodes_Varint). intros m _.
  apply (decodes_bind _ _ 0 4 _ _ ltac:(lia) (decodes_many _ 11 _ m ltac:(lia) decodes_Output)). intros outs (Ho & _ & Hout).
  apply (decodes_bind _ _ 4 0 _ _ ltac:(lia) decodes_Uint32). intros lock Hlock.
  apply (decodes_bind _ _ 0 0 _ _ ltac:(lia) (decodes_times _ 0 _ n ltac:(lia) decodes_Witness)). intros ws [Hws Hw].
  apply decodes_ret. unfold transaction_ok. simpl. split_and!; try done. by rewrite Hw, Hn.
Qed.

Lemma decodes_array n : decodes (ReadArray n) 0 (λ l, length l = n).
Proof.
  intros r l rest _. unfold ReadArray, ReadInto. case_decide; [done|]. intros [= <- <-].
  unfold zlen. rewrite !length_drop, length_app, !length_drop, !length_take, !length_replicate. lia.
Qed.

Lemma decodes_Block : decodes Block_Decode 0 block_ok.
Proof.
  eapply decodes_weaken with (k := 20) (P := block_ok); [|done|done].
  apply (decodes_bind _ _ 4 16 _ _ ltac:(lia) decodes_Uint32). intros nonce H1.
  apply (decodes_bind _ _ 8 8 _ _ ltac:(lia) decodes_Uint64). intros ts H2.
  apply (decodes_bind _ _ 0 8 _ _ ltac:(lia) (decodes_array _)). intros prev H3.
  apply (decodes_bind _ _ 0 8 _ _ ltac:(lia) (decodes_array _)). intros tree H4.
  apply (decodes_bind _ _ 0 8 _ _ ltac:(lia) (decodes_array _)). intros extra H5.
  apply (decodes_bind _ _ 0 8 _ _ ltac:(lia) (decodes_array _)). intros reserved H6.
  apply (decodes_bind _ _ 0 8 _ _ ltac:(lia) (decodes_array _)). intros wit H7.
  apply (decodes_bind _ _ 0 8 _ _ ltac:(lia) (decodes_array _)). intros merkle H8.
  apply (decodes_bind _ _ 4 4 _ _ ltac:(lia) decodes_Uint32). intros version H9.
  apply (decodes_bind _ _ 4 0 _ _ ltac:(lia) decodes_Uint32). intros bits H10.
  apply (decodes_bind _ _ 0 0 _ _ ltac:(lia) (decodes_array _)). intros mask H11.
  apply (decodes_bind _ _ 0 0 _ _ ltac:(lia) decodes_Varint). intros n _.
  apply (decodes_bind _ _ 0 0 _ _ ltac:(lia) (decodes_many _ 8 _ n ltac:(lia) decodes_Transaction)). intros txs (Ht & _ & Hn).
  apply decodes_ret. by split_and!.
Qed.

(** ** Properties *)

(** C25: a well-formed block is encoded without an error, and is decoded from its
    encoding as it was, whatever follows: header, transactions, inputs, outputs
    with their addresses and covenants, and witnesses. *)
Theorem block_roundtrip b :
  block_ok b →
  ∃ o, Block_Encode Buffer_Write b [] = (Ok tt, o) ∧ ∀ rest, Block_Decode (o ++ rest) = Ok (b, rest).
Proof. intros (o & E & D)%codes_Block. exists o. split; [apply E|done]. Qed.

(** C26: whatever bytes a block is decoded from, it is well formed (the widths of
    words and arrays, versions of addresses, types of covenants, the number of
    items, a witness for each input), and its encoding decodes as the same block. *)
Theorem block_decode_sound r b rest :
  zlen r < 2 ^ 32 → Block_Decode r = Ok (b, rest) →
  block_ok b ∧ ∃ o, Block_Encode Buffer_Write b [] = (Ok tt, o) ∧ Block_Decode o = Ok (b, []).
Proof.
  intros Hr Hb. destruct (decodes_Block r b rest Hr Hb) as [_ Hok]. split; [done|].
  destruct (codes_Block b Hok) as (o & E & D). exists o. split; [apply E|].
  specialize (D []). by rewrite app_nil_r in D.
Qed.

(** The header of a block: what its encoding starts with, and how it is read. *)
Definition header_Encode (b : Block) : M bytes unit :=
  WriteUint32 Buffer_Write (blk_Nonce b);;
  WriteUint64 Buffer_Write (blk_Time b);;
  write Buffer_Write (blk_PrevHash b);;
  write Buffer_Write (blk_TreeRoot b);;
  write Buffer_Write (blk_ExtraNonce b);;
  write Buffer_Write (blk_ReservedRoot b);;
  write Buffer_Write (blk_WitnessRoot b);;
  write Buffer_Write (blk_MerkleRoot b);;
  WriteUint32 Buffer_Write (blk_Version b);;
  WriteUint32 Buffer_Write (blk_Bits b);;
  write Buffer_Write (blk_Mask b).

Definition header_Decode : dec (list Transaction → Block) :=
  nonce ← ReadUint32; ts ← ReadUint64; hash ← ReadArray 32; treeRoot ← ReadArray 32;
  extraNonce ← ReadArray NonceSize; reservedRoot ← ReadArray 32; witnessRoot ← ReadArray 32;
  merkleRoot ← ReadArray 32; version ← ReadUint32; bits ← ReadUint32; mask ← ReadArray MaskSize;
  mret (mkBlock nonce ts hash treeRoot extraNonce reservedRoot witnessRoot merkleRoot version bits mask).

(** The block with other transactions. *)
Definition with_transactions (b : Block) (txs : list Transaction) : Block :=
  mkBlock (blk_Nonce b) (blk_Time b) (blk_PrevHash b) (blk_TreeRoot b) (blk_ExtraNonce b)
    (blk_ReservedRoot b) (blk_WitnessRoot b) (blk_MerkleRoot b) (blk_Version b) (blk_Bits b) (blk_Mask b) txs.

Lemma codes_header b : header_ok b → codes (header_Encode b) header_Decode (with_transactions b).
Proof.
  intros (Hn & Ht & Hp & Htr & Hx & Hr & Hw & Hm & Hv & Hb & Hmask). unfold header_Encode, header_Decode.
  eapply codes_bind; [by apply codes_Uint32|]. eapply codes_bind; [by apply codes_Uint64|].
  do 6 (eapply codes_bind; [by apply codes_array|]). do 2 (eapply codes_bind; [by apply codes_Uint32|]).
  eapply codes_last; [by apply codes_array|done].
Qed.

Lemma Block_Decode_header r :
  Block_Decode r =
  (header_Decode ≫= λ k, txCount ← ReadVarint; txs ← dec_times txCount Transaction_Decode; mret (k txs)) r.
Proof.
  unfold Block_Decode, header_Decode, mbind, dec_bind.
  do 11 (match goal with |- match ?m with _ => _ end = _ => destruct m as [[]| |]; [|done..] end). done.
Qed.

Lemma Block_Encode_header b s :
  Block_Encode Buffer_Write b s =
  (header_Encode b;; (WriteVarint Buffer_Write (zlen (blk_Transactions b));;
   each (Transaction_Encode Buffer_Write) (blk_Transactions b))) s.
Proof. done. Qed.

(** What an encoder does to a buffer is to append to it. *)
Definition grows {A} (e : M bytes A) : Prop := ∀ b r b', e b = (r, b') → ∃ t, b' = b ++ t.

Lemma grows_ret {A} (a : A) : grows (mret a).
Proof. intros b r b' [= _ <-]. exists []. by rewrite app_nil_r. Qed.

Lemma grows_write p : grows (write Buffer_Write p).
Proof. intros b r b' [= _ <-]. by exists p. Qed.

Lemma grows_bind {A B} (e : M bytes A) (f : A → M bytes B) : grows e → (∀ a, grows (f a)) → grows (e ≫= f).
Proof.
  intros He Hf b r b'. unfold mbind, M_bind. destruct (e b) as [[a|x|x] b1] eqn:E; destruct (He b _ b1 E) as [t1 ->].
  - intros [t2 ->]%Hf. exists (t1 ++ t2). by rewrite app_assoc.
  - intros [= _ <-]. by exists t1.
  - intros [= _ <-]. by exists t1.
Qed.

Lemma grows_each {A} (f : A → M bytes unit) l : (∀ x, grows (f x)) → grows (each f l).
Proof. intros Hf. induction l as [|x l IH]; [apply grows_ret|]. simpl. by apply grows_bind. Qed.

Hint Resolve grows_ret grows_write grows_bind grows_each : hns.

Lemma grows_Transaction t : grows (Transaction_Encode Buffer_Write t).
Proof.
  assert (∀ b, grows (WriteVarBytes Buffer_Write b)) as Hb.
  { intros b. apply grows_bind; [apply grows_write|]. intros _. apply grows_write. }
  unfold Transaction_Encode, EncodeNoWitnesses, Input_Encode, Output_Encode, Outpoint_Encode, Address_Encode,
    Covenant_Encode, Witness_Encode, WriteUint64, WriteUint32, WriteUint8, WriteVarint.
  repeat first [apply grows_write|apply Hb|apply grows_each; intros ?|apply grows_bind; [|intros _]].
Qed.

Hint Resolve grows_Transaction : hns.

(** a block that is cut off after its header is not refused.  The varint
    that is missing is read as zero, and the block decodes as one without
    transactions, so the names it holds are skipped. *)
Theorem truncated_block_accepted b o :
  header_ok b → Block_Encode Buffer_Write b [] = (Ok tt, o) →
  Block_Decode (take 236 o) = Ok (with_transactions b [], []).
Proof.
  intros Hh He. destruct (codes_header b Hh) as (oh & E & D). specialize (E []).
  rewrite Block_Encode_header, (M_bind_step _ _ _ _ _ E) in He. simpl in He.
  assert (∃ tail, o = oh ++ tail) as [tail ->].
  { eapply (grows_bind (WriteVarint _ _) (λ _, each _ _)); [apply grows_write| |exact He]. intros _.
    apply grows_each. auto with hns. }
  assert (length oh = 236%nat) as Hl.
  { destruct Hh as (_ & _ & Hp & Htr & Hx & Hr & Hw & Hm & _ & _ & Hmask). apply (f_equal snd) in E.
    change (((((((((((le_put 4 (blk_Nonce b) ++ le_put 8 (blk_Time b)) ++ blk_PrevHash b) ++ blk_TreeRoot b) ++
      blk_ExtraNonce b) ++ blk_ReservedRoot b) ++ blk_WitnessRoot b) ++ blk_MerkleRoot b) ++ le_put 4 (blk_Version b)) ++
      le_put 4 (blk_Bits b)) ++ blk_Mask b) = oh) in E. rewrite <- E.
    rewrite !length_app, !length_le_put, Hp, Htr, Hx, Hr, Hw, Hm, Hmask. done. }
  rewrite (take_app_length' oh tail 236 (eq_sym Hl)), Block_Decode_header. specialize (D []). rewrite app_nil_r in D.
  by rewrite (dec_bind_step _ _ _ _ _ D).
Qed.

(** A block with one transaction. *)
Definition sample_transaction : Transaction :=
  mkTransaction 1 [mkInput (mkOutpoint (replicate 32 x01) 0) 4294967295]
    [mkOutput 1000 (mkAddress 0 (replicate 20 x02)) (mkCovenant CovenantRedeem [replicate 32 x03; replicate 4 x00])]
    0 [mkWitness [replicate 65 x04; []]].

Definition sample_block (txs : list Transaction) : Block :=
  mkBlock 7 1600000000 (replicate 32 x05) (replicate 32 x06) (replicate 24 x07) (replicate 32 x00)
    (replicate 32 x08) (replicate 32 x09) 0 419444735 (replicate 32 x00) txs.

Lemma sample_header txs : header_ok (sample_block txs).
Proof. split_and!; vm_compute; first [reflexivity|split; [discriminate|reflexivity]]. Qed.

Lemma sample_transaction_ok : transaction_ok sample_transaction.
Proof.
  unfold transaction_ok, input_ok, outpoint_ok, output_ok, address_ok, covenant_ok, items_ok, is_u32, is_u64.
  apply (bool_decide_unpack _). vm_compute. exact I.
Qed.

Lemma sample_block_ok : block_ok (sample_block [sample_transaction]).
Proof.
  split; [apply sample_header|]. split; [vm_compute; reflexivity|]. constructor; [apply sample_transaction_ok|constructor].
Qed.

Definition sample_bytes : bytes := (Block_Encode Buffer_Write (sample_block [sample_transaction]) []).2.

Lemma block_roundtrip_witness :
  ∃ o, Block_Encode Buffer_Write (sample_block [sample_transaction]) [] = (Ok tt, o) ∧
    ∀ rest, Block_Decode (o ++ rest) = Ok (sample_block [sample_transaction], rest).
Proof. exact (block_roundtrip (sample_block [sample_transaction]) sample_block_ok). Defined.

Lemma block_decode_sound_witness :
  Block_Decode sample_bytes = Ok (sample_block [sample_transaction], []) ∧ block_ok (sample_block [sample_transaction]).
Proof.
  assert (Block_Decode sample_bytes = Ok (sample_block [sample_transaction], [])) as Hd by (vm_compute; reflexivity).
  split; [exact Hd|].
  apply (block_decode_sound sample_bytes (sample_block [sample_transaction]) []); [vm_compute; reflexivity|exact Hd].
Defined.

Lemma truncated_block_accepted_witness : Block_Decode (take 236 sample_bytes) = Ok (sample_block [], []).
Proof.
  apply (truncated_block_accepted (sample_block [sample_transaction]) sample_bytes);
    [apply sample_header|vm_compute; reflexivity].
Defined.

(** The file of the library's own test, [testdata/tx_1d0f8de2...bin]: its
    transaction is encoded as it was, and a line feed follows it. *)
Definition golden_transaction : result bytes := hex_DecodeString (
   bs "000000000208c4e127b1712784fdd2a30b52e0f17e75f9ca2fff402a469767ae83a56d316a00000000ffffffff6c79dd35b5" ++
   bs "7bb574a610bf11cbd658bf404fff76b5f08bcc4e2caa33fcff0aae01000000ffffffff0280a4bf07000000000014d38ca18f" ++
   bs "5557c5bfb0edcaf90e778f28d2cc2cab0703202a89b8280a3f6e901b04c9fbed62d9f5e33d0e70479d5630f54f253f87c583" ++
   bs "d10453100000170002036e7331086c6966656c6f6e67002ce706b701c002f29f2008000000000014e1277bd361a48a7c8c53" ++
   bs "e53f0b05d871a1fee9c50000000000000241d06317c9b79fb64f714ae98c730117f2f15bc9ce446947196bfb8756e84a1354" ++
   bs "6bd2f26112cacc4a7b00164560e63d28414e50ba6bd5a81ae241d9679c5f00cc01210389fac66999c7825690463140b1003b" ++
   bs "58f2609063680ba702057d36f0a0a2ff340241f3a3630de11694d3e3d806ff01b7ad1ad77aa83b1e54c2394c31ee802b17e0" ++
   bs "23382c427afc29fb4cdda3039626bf41284531561ee60d4222ccd227baf891e52d012102b66d521d8c6afe49b1f3f1632561" ++
   bs "23ad55ce95925e92e887db8af5830f16c7340a").

Example golden_transaction_roundtrip :
  match golden_transaction with
  | Ok raw =>
      match Transaction_Decode raw with
      | Ok (t, rest) => (Transaction_Encode Buffer_Write t []).2 ++ rest = raw ∧ rest = [x0a]
      | _ => False
      end
  | _ => False
  end.
Proof. vm_compute. split; reflexivity. Qed.
