(* ===== verification/NameImporter.v ===== *)
(** * Package protocol: importing names

    [src/protocol/name_importer.go]: the names of the blocks of the Handshake chain
    and the keys their owners publish.  The node that is asked for blocks and names
    is a parameter; the blocks it sends are decoded by the library of
    [HnsPrimitives.v], and the resources of their covenants by that of [HnsDns.v]. *)

From Stdlib Require Import QArith.
From S2P Require Import Prelude GoLib Crypto Instances Sector StoreDB StoreInstances Store HnsEncoding HnsDns HnsPrimitives.
#[local] Open Scope Z_scope.

(** ** encoding/base64, the standard alphabet with padding *)

Definition b64_alphabet : bytes :=
  bs "ABCDEFGHIJKLMNOPQRSTUVWXYZabcdefghijklmnopqrstuvwxyz0123456789+/".

Definition b64_char (v : Z) : byte := default x00 (b64_alphabet !! Z.to_nat v).

Fixpoint b64_index (c : byte) (l : bytes) : option Z :=
  match l with
  | [] => None
  | x :: l => if decide (c = x) then Some 0 else Z.succ <$> b64_index c l
  end.

Definition b64_value (c : byte) : option Z := b64_index c b64_alphabet.

Definition b64_err : error := ENew "illegal base64 data".

(** Groups of four characters, padded only at the end. *)
Fixpoint b64_groups (s : bytes) : result bytes :=
  match s with
  | [] => Ok []
  | a :: b :: c :: d :: rest =>
      match b64_value a, b64_value b, b64_value c, b64_value d with
      | Some a, Some b, Some c, Some d =>
          out ← b64_groups rest;
          Ok (byte_of_Z (a * 4 + b / 16) :: byte_of_Z (b mod 16 * 16 + c / 4) ::
              byte_of_Z (c mod 4 * 64 + d) :: out)
      | Some a, Some b, Some c, None =>
          if decide (d = x3d ∧ rest = [])
          then Ok [byte_of_Z (a * 4 + b / 16); byte_of_Z (b mod 16 * 16 + c / 4)] else Err b64_err
      | Some a, Some b, None, None =>
          if decide (c = x3d ∧ d = x3d ∧ rest = []) then Ok [byte_of_Z (a * 4 + b / 16)] else Err b64_err
      | _, _, _, _ => Err b64_err
      end
  | _ => Err b64_err
  end.

(** Line breaks are skipped. *)
Definition base64_DecodeString (s : bytes) : result bytes :=
  b64_groups (filter (λ c, c ≠ x0a ∧ c ≠ x0d) s).

(** [EncodeToString] of bytes whose number is a multiple of three. *)
Fixpoint base64_Encode (b : bytes) : bytes :=
  match b with
  | x :: y :: z :: b =>
      let x := Z_of_byte x in let y := Z_of_byte y in let z := Z_of_byte z in
      b64_char (x / 4) :: b64_char (x mod 4 * 16 + y / 16) :: b64_char (y mod 16 * 4 + z / 64) ::
      b64_char (z mod 64) :: base64_Encode b
  | _ => []
  end.

Section importer.
Context `{LevelDB, JSON, Secp256k1, MiekgDNS}.

(** ** Records *)

Definition ParseFNRecord (record : bytes) : result PublicKey :=
  if decide (zlen record ≠ 45) then Err (ENew "mal-formed txt record")
  else
    let prefix := take 1 record in
    let pubkeyb64 := drop 1 record in
    if decide (prefix ≠ bs "f") then Err (ENew "mal-formed record sigil")
    else if decide (zlen pubkeyb64 ≠ 44) then Err (ENew "invalid public key length")
    else
      match base64_DecodeString pubkeyb64 with
      | Err _ => Err (ENew "mal-formed public key")
      | Panic w => Panic w
      | Ok keyBytes => wrapping "error parsing public key" (ParsePubKey keyBytes)
      end.

Record FNRecord := mkFNRecord { fr_NameHash : bytes; fr_PublicKey : PublicKey }.

(** The last entry of the text records that is a record of ours. *)
Definition last_key (entries : list bytes) (pub : option PublicKey) : result (option PublicKey) :=
  foldl (λ acc entry,
    pub ← acc;
    match ParseFNRecord entry with
    | Ok p => Ok (Some p)
    | Err _ => Ok pub
    | Panic w => Panic w
    end) (Ok pub) entries.

Definition records_key (records : list Record_) : result (option PublicKey) :=
  foldl (λ acc record,
    pub ← acc;
    match record with
    | TXTRecord entries => last_key entries pub
    | _ => Ok pub
    end) (Ok None) records.

(** The body of the loop over the outputs: a record, or [continue]. *)
Definition output_record (vOut : Output) : result (option FNRecord) :=
  let covenant := out_Covenant vOut in
  let cov : result (bytes * option Resource) :=
    if decide (cov_Type covenant = CovenantUpdate)
    then cov ← UpdateFromCovenant covenant; Ok (upd_NameHash cov, upd_Resource cov)
    else if decide (cov_Type covenant = CovenantRegister)
    then cov ← RegisterFromCovenant covenant; Ok (reg_NameHash cov, reg_Resource cov)
    else Err (ENew "continue") in
  match cov with
  | Err _ => Ok None
  | Panic w => Panic w
  | Ok (_, None) => Ok None
  | Ok (nh, Some resource) =>
      pub ← records_key (rs_Records resource);
      match pub with
      | None => Ok None
      | Some pub => Ok (Some (mkFNRecord (hex_EncodeToString nh) pub))
      end
  end.

Fixpoint ExtractTXTRecordsTx (outputs : list Output) : result (list FNRecord) :=
  match outputs with
  | [] => Ok []
  | vOut :: outputs =>
      r ← output_record vOut;
      out ← ExtractTXTRecordsTx outputs;
      Ok (match r with Some r => r :: out | None => out end)
  end.

(** The map of the records by name hash, and the hashes in the order they came. *)
Definition add_record (acc : gmap bytes FNRecord * list bytes) (rec : FNRecord)
    : gmap bytes FNRecord * list bytes :=
  (<[fr_NameHash rec := rec]> acc.1,
   if decide (is_Some (acc.1 !! fr_NameHash rec)) then acc.2 else acc.2 ++ [fr_NameHash rec]).

Fixpoint block_records (txs : list Transaction) (acc : gmap bytes FNRecord * list bytes)
    : result (gmap bytes FNRecord * list bytes) :=
  match txs with
  | [] => Ok acc
  | tx :: txs =>
      records ← ExtractTXTRecordsTx (trx_Outputs tx);
      block_records txs (foldl add_record acc records)
  end.

Definition ExtractTXTRecordsBlock (block : Block) : result (list FNRecord) :=
  match block_records (blk_Transactions block) (∅, []) with
  | Ok (uniqRecords, order) => Ok (omap (λ h, uniqRecords !! h) order)
  | Err e => Err e
  | Panic w => Panic w
  end.

(** ** The importer *)

(** The node of the chain, as the client sees it. *)
Record BlockchainInfo := mkBlockchainInfo { bi_VerificationProgress : Q; bi_Blocks : Z }.

Record Client := mkClient {
  RPCGetBlockchainInfo : result BlockchainInfo;
  RPCGetBlockHexByHeight : Z → result bytes;
  RPCGetNameByHash : bytes → result (option bytes);
}.

Record NameImporter := mkNameImporter {
  ConfirmationDepth : Z;
  Workers : Z;
  VerificationThreshold : Q;
}.

Context (client : Client) (n : NameImporter).

Definition fetch_block (height : Z) : result Block :=
  blockHex ← wrapping "error fetching HNS block" (RPCGetBlockHexByHeight client height);
  blockB ← wrapping "error parsing HNS block hex" (hex_DecodeString blockHex);
  wrapping "error decoding HNS block" (fst <$> Block_Decode blockB).

(** All workers run; an error of any of them is the error. *)
Fixpoint fetch_all (start : Z) (count : nat) : result (list Block) :=
  match count with
  | O => Ok []
  | S count =>
      block ← fetch_block start;
      blocks ← fetch_all (start + 1) count;
      Ok (block :: blocks)
  end.

Definition fetchBlocks (start count : Z) : result (list Block) :=
  if decide (count < 0) then Panic "makeslice: len out of range"
  else wrapping "error fetching blocks" (fetch_all start (Z.to_nat count)).

Fixpoint resolve_names (records : list FNRecord) : result (list (bytes * PublicKey)) :=
  match records with
  | [] => Ok []
  | update :: records =>
      match RPCGetNameByHash client (fr_NameHash update) with
      | Ok (Some name) => names ← resolve_names records; Ok ((name, fr_PublicKey update) :: names)
      | Ok None => Err (ENew "error resolving name hash")
      | Err e => Err e
      | Panic w => Panic w
      end
  end.

Fixpoint insert_names (names : list (bytes * PublicKey)) (height : Z) : M TX unit :=
  match names with
  | [] => mret tt
  | (name, key) :: names =>
      M_wrapping "error inserting name info" (SetNameInfoTx name key height);;
      insert_names names height
  end.

(** The transaction of a block. *)
Definition block_tx (confirmedHeight blockHeight : Z) (names : list (bytes * PublicKey)) : M TX unit :=
  insert_names names blockHeight;;
  M_wrapping "error setting last name import height" (SetLastNameImportHeightTx blockHeight);;
  if decide (blockHeight = confirmedHeight - 1)
  then M_wrapping "error setting initial import complete" SetInitialImportCompleteTx
  else mret tt.

(** What a block says of names. *)
Definition block_names (block : Block) : result (list (bytes * PublicKey)) :=
  records ← ExtractTXTRecordsBlock block;
  resolve_names records.

Fixpoint import_blocks (confirmedHeight height : Z) (blocks : list Block) : M DB unit :=
  match blocks with
  | [] => mret tt
  | block :: blocks =>
      names ← M_lift (block_names block);
      WithTx_only (block_tx confirmedHeight height names);;
      import_blocks confirmedHeight (height + 1) blocks
  end.

(** The loop over the heights; [fuel] bounds its rounds, and [false] says that it
    ran out. *)
Fixpoint import_loop (fuel : nat) (confirmedHeight height : Z) : M DB bool :=
  if decide (height < confirmedHeight) then
    match fuel with
    | O => mret false
    | S fuel =>
        let delta := confirmedHeight - height in
        let delta := if decide (Workers n < delta) then Workers n else delta in
        blocks ← M_lift (fetchBlocks height delta);
        import_blocks confirmedHeight height blocks;;
        import_loop fuel confirmedHeight (height + zlen blocks)
    end
  else mret true.

(** The range of heights to import, if there is one. *)
Definition sync_range (db : DB) : result (Z * Z) :=
  info ← RPCGetBlockchainInfo client;
  if Qlt_le_dec (bi_VerificationProgress info) (VerificationThreshold n)
  then Err (ENew "chain not synced")
  else
    let chainHeight := bi_Blocks info in
    if decide (chainHeight < 0) then Err (ENew "chain height is negative")
    else if decide (chainHeight < ConfirmationDepth n)
    then Err (ENew "chain height less than confirmation count")
    else
      syncedHeight ← GetLastNameImportHeight db;
      let confirmedHeight := chainHeight - ConfirmationDepth n in
      if decide (confirmedHeight = syncedHeight) then Err (ENew "fully synced")
      else if decide (confirmedHeight < syncedHeight)
      then Err (ENew "confirmed chain height behind synced height")
      else Ok (syncedHeight, confirmedHeight).

(** The errors are those that are logged. *)
Definition doSync (fuel : nat) : M DB bool :=
  λ db,
    match sync_range db with
    | Ok (syncedHeight, confirmedHeight) => import_loop fuel confirmedHeight (syncedHeight + 1) db
    | Err e => (Err e, db)
    | Panic w => (Panic w, db)
    end.
End importer.
