(* ===== verification/ImporterProofs.v ===== *)
(** * What importing names guarantees

    The text record of a key, the records of a block, and the heights that have
    been imported whatever goes wrong on the way. *)

From Stdlib Require Import QArith.
From S2P Require Import Prelude GoLib Crypto Instances Sector StoreDB StoreInstances Store HnsEncoding HnsDns HnsDnsProofs.
From S2P Require Import HnsPrimitives HnsProofs NameImporter.
#[local] Open Scope Z_scope.

(** ** Text records *)

Lemma b64_char_value v : 0 ≤ v < 64 → b64_value (b64_char v) = Some v ∧ b64_char v ≠ x0a ∧ b64_char v ≠ x0d.
Proof.
  intros Hv. assert (Forall (λ v, b64_value (b64_char v) = Some v ∧ b64_char v ≠ x0a ∧ b64_char v ≠ x0d)
    (seqZ 0 64)) as Hall by (by apply (bool_decide_unpack _); vm_compute).
  rewrite Forall_forall in Hall. apply Hall, elem_of_seqZ. lia.
Qed.

Lemma b64_group x y z :
  let a := Z_of_byte x in let b := Z_of_byte y in let c := Z_of_byte z in
  (0 ≤ a / 4 < 64 ∧ 0 ≤ a mod 4 * 16 + b / 16 < 64 ∧ 0 ≤ b mod 16 * 4 + c / 64 < 64 ∧ 0 ≤ c mod 64 < 64) ∧
  a / 4 * 4 + (a mod 4 * 16 + b / 16) / 16 = a ∧
  (a mod 4 * 16 + b / 16) mod 16 * 16 + (b mod 16 * 4 + c / 64) / 4 = b ∧
  (b mod 16 * 4 + c / 64) mod 4 * 64 + c mod 64 = c.
Proof.
  intros a b c. pose proof (Z_of_byte_range x) as Ha. pose proof (Z_of_byte_range y) as Hb.
  pose proof (Z_of_byte_range z) as Hc. fold a in Ha. fold b in Hb. fold c in Hc. clearbody a b c.
  Z.to_euclidean_division_equations. lia.
Qed.

Lemma list_ind3 {A} (P : list A → Prop) :
  P [] → (∀ x y z l, P l → P (x :: y :: z :: l)) → ∀ n l, length l = (3 * n)%nat → P l.
Proof.
  intros H0 H3 n. induction n as [|n IH]; intros l Hl; [by apply nil_length_inv in Hl as ->|].
  destruct l as [|x [|y [|z l]]]; simpl in Hl; [lia..|]. apply H3, IH. lia.
Qed.

Lemma base64_roundtrip n b :
  length b = (3 * n)%nat → base64_DecodeString (base64_Encode b) = Ok b ∧ length (base64_Encode b) = (4 * n)%nat.
Proof.
  intros Hn. split.
  - unfold base64_DecodeString. revert n b Hn. apply list_ind3; [done|].
    intros x y z b IH. destruct (b64_group x y z) as ((R1 & R2 & R3 & R4) & E1 & E2 & E3). simpl.
    destruct (b64_char_value _ R1) as (V1 & ? & ?), (b64_char_value _ R2) as (V2 & ? & ?),
      (b64_char_value _ R3) as (V3 & ? & ?), (b64_char_value _ R4) as (V4 & ? & ?).
    rewrite !filter_cons_True by done. cbn [b64_groups]. rewrite V1, V2, V3, V4, IH. simpl.
    by rewrite E1, E2, E3, !byte_of_Z_of_byte.
  - revert n Hn. assert (∀ n b, length b = (3 * n)%nat → length (base64_Encode b) = (4 * n)%nat) as Hl; [|eauto].
    intros n. induction n as [|n IH]; intros l Hl; [by apply nil_length_inv in Hl as ->|].
    destruct l as [|x [|y [|z l]]]; simpl in Hl; [lia..|]. simpl. rewrite IH by lia. lia.
Qed.

(** The text record of a key. *)
Definition fn_record `{Secp256k1} (key : PublicKey) : bytes :=
  bs "f" ++ base64_Encode (SerializeCompressed key).

(** The text record of a key parses as the key. *)
Theorem fn_record_roundtrip `{Secp256k1Laws} key : ParseFNRecord (fn_record key) = Ok key.
Proof.
  destruct (base64_roundtrip 11 (SerializeCompressed key)) as [Hd Hl];
    [by rewrite SerializeCompressed_length|].
  unfold ParseFNRecord, fn_record. rewrite decide_False by (unfold zlen; simpl; rewrite Hl; lia).
  change (take 1 (bs "f" ++ ?l)) with (bs "f"). rewrite decide_False by tauto.
  change (drop 1 (bs "f" ++ ?l)) with l. rewrite decide_False by (unfold zlen; rewrite Hl; lia).
  rewrite Hd. unfold wrapping. by rewrite ParsePubKey_Serialize.
Qed.

Lemma fn_record_roundtrip_witness : ParseFNRecord (fn_record (PubKey toy_key)) = Ok (PubKey toy_key).
Proof. apply fn_record_roundtrip. Defined.

(** ** The records of a block *)

Section records.
Context `{Secp256k1, MiekgDNS}.

(** The last record of a name hash in a list. *)
Definition latest (h : bytes) (recs : list FNRecord) : option FNRecord :=
  last (filter (λ r, fr_NameHash r = h) recs).

Lemma add_records_spec recs : ∀ acc : gmap bytes FNRecord * list bytes,
  NoDup acc.2 → (∀ h, h ∈ acc.2 ↔ is_Some (acc.1 !! h)) →
  let acc' := foldl add_record acc recs in
  NoDup acc'.2 ∧ (∀ h, h ∈ acc'.2 ↔ is_Some (acc'.1 !! h)) ∧
  ∀ h, acc'.1 !! h = match latest h recs with Some r => Some r | None => acc.1 !! h end.
Proof.
  induction recs as [|rec recs IH]; intros acc Hn Ho; [done|]. cbn [foldl].
  destruct (IH (add_record acc rec)) as (Hn' & Ho' & Hl).
  - unfold add_record. simpl. case_decide as Hs; [done|]. apply NoDup_app. split; [done|].
    split; [|apply NoDup_singleton]. intros x Hx ->%list_elem_of_singleton. by apply Hs, Ho.
  - intros h. unfold add_record. simpl. destruct (decide (h = fr_NameHash rec)) as [->|Hne].
    + rewrite lookup_insert_eq. split; [done|]. intros _. case_decide as Hs; [by apply Ho|]. set_solver.
    + rewrite lookup_insert_ne by done. case_decide; [apply Ho|]. rewrite elem_of_app, Ho. set_solver.
  - split; [done|]. split; [done|]. intros h. rewrite Hl. unfold latest. rewrite filter_cons.
    unfold add_record. simpl. case_decide as Hh.
    + subst h. rewrite lookup_insert_eq. rewrite last_cons. by destruct (last _).
    + by rewrite lookup_insert_ne.
Qed.

(** The records of the transactions of a block, in their order. *)
Fixpoint all_records (txs : list Transaction) : result (list FNRecord) :=
  match txs with
  | [] => Ok []
  | tx :: txs =>
      records ← ExtractTXTRecordsTx (trx_Outputs tx);
      rest ← all_records txs;
      Ok (records ++ rest)
  end.

Lemma block_records_all txs acc :
  block_records txs acc =
  match all_records txs with
  | Ok recs => Ok (foldl add_record acc recs)
  | Err e => Err e
  | Panic w => Panic w
  end.
Proof.
  revert acc. induction txs as [|tx txs IH]; intros acc; [done|]. simpl.
  destruct (ExtractTXTRecordsTx _) as [recs| |]; [|done..]. simpl. rewrite IH.
  destruct (all_records txs) as [rest| |]; [|done..]. simpl. by rewrite foldl_app.
Qed.
End records.

(** Of the records of a block for one name the last one counts: the block has
    one record for each name hash that occurs in it, the last of its transactions. *)
Theorem extract_latest `{Secp256k1, MiekgDNS} block out :
  ExtractTXTRecordsBlock block = Ok out →
  ∃ recs, all_records (blk_Transactions block) = Ok recs ∧
    NoDup (fr_NameHash <$> out) ∧
    ∀ h r, r ∈ out ∧ fr_NameHash r = h ↔ latest h recs = Some r.
Proof.
  unfold ExtractTXTRecordsBlock. rewrite block_records_all.
  destruct (all_records _) as [recs| |]; [|done..].
  destruct (add_records_spec recs (∅, [])) as (Hn & Ho & Hl);
    [apply NoDup_nil_2|intros h; simpl; rewrite lookup_empty; split; [by intros ?%not_elem_of_nil|by intros [? ?]]|].
  destruct (foldl add_record (∅, []) recs) as [uniq order]. simpl in *. intros [= <-].
  assert (∀ h r, uniq !! h = Some r → fr_NameHash r = h) as Hkey.
  { intros h r. rewrite Hl, lookup_empty. destruct (latest h recs) as [r'|] eqn:Hr; [|done]. intros [= <-].
    apply last_Some_elem_of, list_elem_of_filter in Hr as [? _]. done. }
  exists recs. split; [done|]. split.
  - clear Ho Hl. induction Hn as [|h order Hh Hn IH]; [constructor|]. simpl.
    destruct (uniq !! h) as [r|] eqn:Hr; [|done]. simpl. constructor; [|done].
    rewrite (Hkey _ _ Hr). intros (r' & Hr1 & Hr2)%list_elem_of_fmap.
    apply list_elem_of_omap in Hr2 as (h' & Hh' & Hr2). apply Hkey in Hr2. congruence.
  - intros h r. rewrite list_elem_of_omap. specialize (Hl h). rewrite lookup_empty in Hl. split.
    + intros [(h' & _ & Hr) <-]. pose proof (Hkey _ _ Hr) as Hk. rewrite Hk in Hl |- *.
      rewrite Hr in Hl. by destruct (latest h' recs).
    + intros Hr. rewrite Hr in Hl. split; [|by apply Hkey]. exists h. split; [|done]. apply Ho. eauto.
Qed.

(** A resource with the text record of a key, the output that publishes it for a
    name hash, and a block with two such outputs for one name, by two keys. *)
Definition key_resource `{Secp256k1, MiekgDNS} (key : PublicKey) : bytes :=
  (Resource_Encode Buffer_Write (mkResource 0 [TXTRecord [fn_record key]]) []).2.

Definition demo_covenant `{Secp256k1, MiekgDNS} (nh : bytes) (key : PublicKey) : Covenant :=
  mkCovenant CovenantUpdate [nh; replicate 4 x00; key_resource key].

Definition demo_update (key : PublicKey (Secp256k1 := toy_secp256k1)) : Transaction :=
  mkTransaction 0 [] [mkOutput 0 (mkAddress 0 (replicate 20 x01)) (demo_covenant (replicate 32 x07) key)] 0 [].

Definition demo_key2 : PublicKey (Secp256k1 := toy_secp256k1) := x05.

Definition demo_block : Block := sample_block [demo_update (PubKey toy_key); demo_update demo_key2].

Definition ok_or {A} (d : A) (r : result A) : A := match r with Ok a => a | _ => d end.

Lemma extract_latest_witness :
  ∃ out recs,
    ExtractTXTRecordsBlock demo_block = Ok out ∧
    all_records (blk_Transactions demo_block) = Ok recs ∧
    NoDup (fr_NameHash <$> out) ∧
    (length recs = 2%nat ∧ length out = 1%nat).
Proof.
  destruct (ExtractTXTRecordsBlock demo_block) as [out| |] eqn:Ho; 
    [|apply (f_equal is_ok) in Ho; vm_compute in Ho; discriminate Ho..].
  destruct (extract_latest demo_block out Ho) as (recs & Hr & Hn & _).
  exists out, recs. split; [reflexivity|]. split; [exact Hr|]. split; [exact Hn|].
  pose proof (f_equal (fmap length) Hr) as Lr. pose proof (f_equal (fmap length) Ho) as Lo.
  apply (f_equal (ok_or 0%nat)) in Lr, Lo. split; [refine (eq_trans (eq_sym Lr) _)|refine (eq_trans (eq_sym Lo) _)];
    vm_compute; reflexivity.
Defined.

(** ** Importing *)

Section importing.
Context `{HL : LevelDBLaws, JSON, Secp256k1, MiekgDNS}.
Context (client : Client) (n : NameImporter).

(** What the block of a height says of names. *)
Definition names_at (height : Z) : result (list (bytes * PublicKey)) :=
  block ← fetch_block client height;
  block_names client block.

Definition names_of (height : Z) : list (bytes * PublicKey) :=
  match names_at height with Ok names => names | _ => [] end.

(** The database after the block of a height. *)
Definition put_name (height : Z) (m : gmap bytes bytes) (nk : bytes * PublicKey) : gmap bytes bytes :=
  match NameInfo_MarshalJSON (mkNameInfo nk.1 nk.2 height) with
  | Ok data => <[nameDataPrefix [nk.1] := data]> m
  | _ => m
  end.

Definition put_block (confirmed height : Z) (names : list (bytes * PublicKey)) (m : gmap bytes bytes)
    : gmap bytes bytes :=
  let m := <[lastNameImportHeightKey := mustEncodeInt height]> (foldl (put_name height) m names) in
  if decide (height = confirmed - 1) then <[initialImportCompleteKey := [x01]]> m else m.

(** The database after the [k] blocks from a height on. *)
Fixpoint put_blocks (confirmed height : Z) (k : nat) (m : gmap bytes bytes) : gmap bytes bytes :=
  match k with
  | O => m
  | S k => put_blocks confirmed (height + 1) k (put_block confirmed height (names_of height) m)
  end.

Lemma put_blocks_add c h a b m :
  put_blocks c h (a + b) m = put_blocks c (h + Z.of_nat a) b (put_blocks c h a m).
Proof.
  revert h m. induction a as [|a IH]; intros h m; [by rewrite Z.add_0_r|]. simpl. rewrite IH.
  by replace (h + 1 + Z.of_nat a) with (h + Z.of_nat (S a)) by lia.
Qed.

(** Every name of the list can be stored. *)
Definition storable (height : Z) (names : list (bytes * PublicKey)) : Prop :=
  Forall (λ nk, is_ok (NameInfo_MarshalJSON (mkNameInfo nk.1 nk.2 height)) = true) names.

Lemma insert_names_spec names height tx :
  match insert_names names height tx with
  | (Ok _, tx') => tx_map tx' = foldl (put_name height) (tx_map tx) names
  | (Err _, _) => False
  | (Panic _, _) => ¬ storable height names
  end.
Proof.
  revert tx. induction names as [|[name key] names IH]; intros tx; [done|]. simpl.
  unfold SetNameInfoTx, mbind, M_bind, M_wrapping, M_lift.
  destruct (NameInfo_MarshalJSON (mkNameInfo name key height)) as [data|e|w] eqn:Hj; simpl.
  - destruct (tx_Put_law tx (nameDataPrefix [name]) data) as (tx1 & -> & Hm). simpl.
    specialize (IH tx1). unfold put_name at 2. simpl. rewrite Hj, <- Hm.
    destruct (insert_names names height tx1) as [[]]; [done..|].
    intros Hs. by apply Forall_cons in Hs as [_ Hs].
  - intros [Hs _]%Forall_cons. simpl in Hs. by rewrite Hj in Hs.
  - intros [Hs _]%Forall_cons. simpl in Hs. by rewrite Hj in Hs.
Qed.

Lemma block_tx_spec c height names tx :
  match block_tx c height names tx with
  | (Ok _, tx') => tx_map tx' = put_block c height names (tx_map tx)
  | (Err _, _) => False
  | (Panic _, _) => ¬ storable height names
  end.
Proof.
  unfold block_tx, mbind at 1, M_bind at 1. pose proof (insert_names_spec names height tx) as Hi.
  destruct (insert_names names height tx) as [[[]| |] tx1]; [|done..].
  unfold mbind, M_bind, M_wrapping, SetLastNameImportHeightTx, M_wrapping.
  destruct (tx_Put_law tx1 lastNameImportHeightKey (mustEncodeInt height)) as (tx2 & -> & Hm). simpl.
  unfold put_block. case_decide as Hc; [|simpl; by rewrite Hm, Hi].
  unfold SetInitialImportCompleteTx, M_wrapping.
  destruct (tx_Put_law tx2 initialImportCompleteKey [x01]) as (tx3 & -> & Hm3). by rewrite Hm3, Hm, Hi.
Qed.

(** A block is imported, or the database stays as it was. *)
Lemma block_commit c height names db :
  match WithTx_only (block_tx c height names) db with
  | (Ok _, db') => db_map db' = put_block c height names (db_map db)
  | (Err _, _) => False
  | (Panic _, db') => db_map db' = db_map db ∧ ¬ storable height names
  end.
Proof.
  unfold WithTx_only, WithTx. destruct (db_OpenTransaction_law db) as (tx & -> & Htx).
  unfold on_tx, M_zoom. simpl. pose proof (block_tx_spec c height names tx) as Hb.
  destruct (block_tx c height names tx) as [[[]| |] tx']; [|done..].
  destruct (tx_Commit_law tx' db) as (db' & -> & Hd). simpl. by rewrite Hd, Hb, Htx.
Qed.

(** The block of a height can be had, and its names stored. *)
Definition good (height : Z) : Prop := ∃ names, names_at height = Ok names ∧ storable height names.

(** [k] blocks have been imported, all of [count] or up to one that is not good. *)
Definition imported (c height : Z) (count k : nat) (db db' : DB) (ok : bool) : Prop :=
  (k ≤ count)%nat ∧ db_map db' = put_blocks c height k (db_map db) ∧
  (∀ i, (i < k)%nat → is_ok (names_at (height + Z.of_nat i)) = true) ∧
  if ok then k = count else ∃ i, (k ≤ i < count)%nat ∧ ¬ good (height + Z.of_nat i).

Lemma import_blocks_spec c blocks : ∀ height db,
  (∀ i b, blocks !! i = Some b → fetch_block client (height + Z.of_nat i) = Ok b) →
  let '(r, db') := import_blocks client c height blocks db in
  ∃ k, imported c height (length blocks) k db db' (is_ok r).
Proof.
  induction blocks as [|b blocks IH]; intros height db Hf.
  { exists 0%nat. split_and!; [lia|done|intros i ?; lia|done]. }
  cbn [import_blocks].
  assert (names_at height = block_names client b) as Hn.
  { unfold names_at. specialize (Hf 0%nat b eq_refl). rewrite Z.add_0_r in Hf. by rewrite Hf. }
  assert (∀ d, ¬ good height → imported c height (S (length blocks)) 0 d d false) as Hbad.
  { intros d Hg. split_and!; [lia|done|intros i ?; lia|]. exists 0%nat. rewrite Z.add_0_r. split; [lia|done]. }
  unfold mbind at 1, M_bind at 1, M_lift. destruct (block_names client b) as [names| |].
  2:{ exists 0%nat. apply Hbad. intros (? & ? & _). congruence. }
  2:{ exists 0%nat. apply Hbad. intros (? & ? & _). congruence. }
  unfold mbind at 1, M_bind at 1. pose proof (block_commit c height names db) as Hc.
  destruct (WithTx_only (block_tx c height names) db) as [[[]| |] db1]; [|done|].
  2:{ exists 0%nat. destruct Hc as [Hc Hs]. destruct (Hbad db) as (? & _ & ? & ?).
      { intros (ns & ? & ?). simplify_eq. congruence. }
      by split_and!. }
  specialize (IH (height + 1) db1). destruct (import_blocks _ c (height + 1) blocks db1) as [r db'].
  destruct IH as (k & Hk & Hm & Hnm & Hr).
  { intros i x Hi. rewrite <- (Hf (S i) x Hi). f_equal. lia. }
  exists (S k). split_and!; [simpl; lia| | |].
  - simpl. unfold names_of. by rewrite Hn, <- Hc.
  - intros [|i] Hi; [by rewrite Z.add_0_r, Hn|].
    replace (height + Z.of_nat (S i)) with (height + 1 + Z.of_nat i) by lia. apply Hnm. lia.
  - destruct (is_ok r); [simpl; lia|]. destruct Hr as (i & Hi & Hg). exists (S i). split; [simpl; lia|].
    by replace (height + Z.of_nat (S i)) with (height + 1 + Z.of_nat i) by lia.
Qed.

Lemma fetch_all_spec count : ∀ start,
  match fetch_all client start count with
  | Ok blocks => length blocks = count ∧
      ∀ i b, blocks !! i = Some b → fetch_block client (start + Z.of_nat i) = Ok b
  | _ => ∃ i, (i < count)%nat ∧ ¬ good (start + Z.of_nat i)
  end.
Proof.
  induction count as [|count IH]; intros start; [by split|]. simpl. specialize (IH (start + 1)).
  destruct (fetch_block client start) as [b| |] eqn:Hb; simpl.
  2-3: exists 0%nat; rewrite Z.add_0_r; split; [lia|]; intros (? & Hn & _); unfold names_at in Hn;
    by rewrite Hb in Hn.
  assert (∀ P : Z → Prop, (∃ i, (i < count)%nat ∧ P (start + 1 + Z.of_nat i)) →
    ∃ i, (i < S count)%nat ∧ P (start + Z.of_nat i)) as Hshift.
  { intros P (i & Hi & HP). exists (S i). split; [lia|].
    by replace (start + Z.of_nat (S i)) with (start + 1 + Z.of_nat i) by lia. }
  destruct (fetch_all _ _ count) as [blocks| |]; simpl; [|by apply (Hshift (λ h, ¬ good h))..].
  destruct IH as [Hl Hf]. split; [lia|]. intros [|i] x Hx; simpl in Hx; [simplify_eq; by rewrite Z.add_0_r|].
  rewrite <- (Hf i x Hx). f_equal. lia.
Qed.

(** Two stretches that follow each other are one. *)
Lemma imported_app c height a count k db db1 db' ok :
  imported c height a a db db1 true →
  imported c (height + Z.of_nat a) count k db1 db' ok →
  imported c height (a + count) (a + k) db db' ok.
Proof.
  intros (_ & Hm1 & Hn1 & _) (Hk & Hm & Hn & Hok). split_and!; [lia| | |].
  - by rewrite put_blocks_add, <- Hm1.
  - intros i Hi. destruct (decide (i < a)%nat); [by apply Hn1|].
    replace (height + Z.of_nat i) with (height + Z.of_nat a + Z.of_nat (i - a)) by lia. apply Hn. lia.
  - destruct ok; [lia|]. destruct Hok as (i & Hi & Hg). exists (a + i)%nat. split; [lia|].
    by replace (height + Z.of_nat (a + i)) with (height + Z.of_nat a + Z.of_nat i) by lia.
Qed.

(** What a stretch cut short says of a longer one. *)
Lemma imported_short c height a b k db db' :
  (a ≤ b)%nat → imported c height a k db db' false → imported c height b k db db' false.
Proof.
  intros Hab (? & ? & ? & i & Hi & Hg). split_and!; [lia|done|done|]. exists i. split; [lia|done].
Qed.

Lemma import_loop_spec fuel c : ∀ height db, 1 ≤ Workers n → c - height ≤ Z.of_nat fuel →
  let '(r, db') := import_loop client n fuel c height db in
  ∃ k, imported c height (Z.to_nat (c - height)) k db db' (is_ok r) ∧ (is_ok r = true → r = Ok true).
Proof.
  induction fuel as [|fuel IH]; intros height db Hw Hfuel; simpl; case_decide as Hh; try lia.
  1,3: exists 0%nat; split; [|done]; split_and!; [lia|done|intros i ?; lia|simpl; lia].
  set (delta := if decide _ then _ else _).
  assert (1 ≤ delta ≤ c - height) as Hd by (subst delta; case_decide; lia).
  unfold mbind at 1, M_bind at 1, M_lift, fetchBlocks. rewrite decide_False by lia.
  pose proof (fetch_all_spec (Z.to_nat delta) height) as Hf.
  destruct (fetch_all _ _ _) as [blocks| |]; simpl.
  2-3: exists 0%nat; split; [|done]; destruct Hf as (i & Hi & Hg); split_and!; [lia|done|intros j ?; lia|];
    exists i; split; [lia|done].
  destruct Hf as [Hl Hf]. unfold mbind at 1, M_bind at 1.
  pose proof (import_blocks_spec c blocks height db Hf) as Hb.
  destruct (import_blocks _ _ _ _ _) as [r db1]. destruct Hb as (k & Hk).
  destruct r as [[]| |]; [|exists k; split; [|done]; eapply imported_short; [|done]; lia..].
  assert (zlen blocks = delta) as Hz by (unfold zlen; lia).
  specialize (IH (height + zlen blocks) db1 Hw ltac:(lia)).
  destruct (import_loop _ _ _ _ _ _) as [r db']. destruct IH as (k' & Hk' & Hr).
  assert (k = length blocks) as -> by apply Hk.
  exists (length blocks + k')%nat. split; [|done].
  replace (Z.to_nat (c - height)) with (length blocks + Z.to_nat (c - (height + zlen blocks)))%nat
    by (unfold zlen in *; lia).
  by eapply imported_app.
Qed.

Lemma put_block_last c height names m :
  put_block c height names m !! lastNameImportHeightKey = Some (mustEncodeInt height).
Proof.
  unfold put_block. case_decide; [rewrite lookup_insert_ne by done|]; by rewrite lookup_insert_eq.
Qed.

Lemma put_blocks_last c height k m :
  put_blocks c height (S k) m !! lastNameImportHeightKey = Some (mustEncodeInt (height + Z.of_nat k)).
Proof.
  replace (S k) with (k + 1)%nat by lia. rewrite put_blocks_add. apply put_block_last.
Qed.

Lemma put_blocks_complete c height k m :
  c = height + Z.of_nat k + 1 →
  put_blocks c height (S k) m !! initialImportCompleteKey = Some [x01].
Proof.
  intros ->.
  replace (S k) with (k + 1)%nat by lia. rewrite put_blocks_add. simpl. unfold put_block.
  rewrite decide_True by lia. by rewrite lookup_insert_eq.
Qed.

Lemma GetLastNameImportHeight_range db s : GetLastNameImportHeight db = Ok s → 0 ≤ s ≤ MaxInt32.
Proof.
  unfold GetLastNameImportHeight, mustDecodeInt, Uint64, MaxInt32.
  destruct (db_Get db lastNameImportHeightKey) as [v|e|]; [|destruct (errors_Is e ErrNotFound)|done].
  2:{ intros [= <-]. lia. }
  2:done.
  case_decide; [intros [= <-]; lia|]. case_decide; [done|]. simpl. case_decide; [done|]. intros [= <-].
  pose proof (be_get_bound (take 8 v)). lia.
Qed.

Lemma sync_range_inv db s c :
  sync_range client n db = Ok (s, c) → GetLastNameImportHeight db = Ok s ∧ 0 ≤ s < c.
Proof.
  unfold sync_range. destruct (RPCGetBlockchainInfo client) as [info| |]; [|done..]. simpl.
  destruct (Qlt_le_dec _ _); [done|]. repeat (case_decide; [done|]).
  destruct (GetLastNameImportHeight db) as [s'| |] eqn:Hg; [|done..]. simpl.
  repeat (case_decide; [done|]). intros [= <- <-]. apply GetLastNameImportHeight_range in Hg. split; [done|lia].
Qed.

(** The height that is stored after a stretch of blocks. *)
Lemma imported_height c s count k db db' ok :
  GetLastNameImportHeight db = Ok s → s + Z.of_nat k ≤ MaxInt32 →
  imported c (s + 1) count k db db' ok → GetLastNameImportHeight db' = Ok (s + Z.of_nat k).
Proof.
  intros Hs Hk (_ & Hm & _). pose proof (GetLastNameImportHeight_range _ _ Hs) as Hr.
  unfold GetLastNameImportHeight in *. rewrite db_Get_law in *. rewrite Hm. destruct k as [|k].
  - simpl. by rewrite Z.add_0_r.
  - rewrite put_blocks_last. unfold MaxInt32 in *. rewrite mustDecodeInt_Encode by lia.
    unfold MaxInt32. rewrite decide_False by lia. f_equal. lia.
Qed.

Lemma doSync_imported fuel db s c :
  sync_range client n db = Ok (s, c) → 1 ≤ Workers n → c - s ≤ Z.of_nat fuel → c ≤ MaxInt32 →
  let '(r, db') := doSync client n fuel db in
  ∃ k, imported c (s + 1) (Z.to_nat (c - s - 1)) k db db' (is_ok r) ∧ (is_ok r = true → r = Ok true) ∧
    GetLastNameImportHeight db' = Ok (s + Z.of_nat k).
Proof.
  intros Hr Hw Hf Hc. unfold doSync. rewrite Hr. destruct (sync_range_inv _ _ _ Hr) as [Hg Hs].
  pose proof (import_loop_spec fuel c (s + 1) db Hw ltac:(lia)) as Hl.
  destruct (import_loop _ _ _ _ _ _) as [r db']. destruct Hl as (k & Hi & Hok).
  replace (Z.to_nat (c - (s + 1))) with (Z.to_nat (c - s - 1)) in Hi by lia.
  exists k. split_and!; [done|done|]. eapply imported_height; [done| |done].
  destruct Hi as (Hk & _). lia.
Qed.

(** When every block can be used, all of them are imported. *)
Lemma doSync_all fuel db s c :
  sync_range client n db = Ok (s, c) → 1 ≤ Workers n → c - s ≤ Z.of_nat fuel → c ≤ MaxInt32 →
  (∀ h, s < h < c → good h) →
  ∃ db', doSync client n fuel db = (Ok true, db') ∧
    db_map db' = put_blocks c (s + 1) (Z.to_nat (c - s - 1)) (db_map db) ∧
    GetLastNameImportHeight db' = Ok (c - 1).
Proof.
  intros Hr Hw Hf Hc Hg. pose proof (sync_range_inv _ _ _ Hr) as [_ Hs].
  pose proof (doSync_imported _ _ _ _ Hr Hw Hf Hc) as Hd.
  destruct (doSync _ _ _ _) as [r db']. destruct Hd as (k & (Hk & Hm & _ & Hok) & Hr' & Hh).
  destruct (is_ok r); [|destruct Hok as (i & Hi & []); apply Hg; lia].
  rewrite Hr' by done. exists db'. subst k. split_and!; [done|done|rewrite Hh; f_equal; lia].
Qed.
End importing.

(** Whatever goes wrong while blocks are imported (a block that cannot be
    fetched or decoded, a hash with no name, a name that cannot be stored), the
    database is the one after a whole number of blocks, in their order from the one
    after the stored height on, and the height it stores is the height of the last
    of them, which is where the next import starts; an import that stops short
    stops because of a block it could not use. *)
Theorem do_sync_prefix `{LevelDBLaws, JSON, Secp256k1, MiekgDNS} client n fuel db s c :
  sync_range client n db = Ok (s, c) → 1 ≤ Workers n → c - s ≤ Z.of_nat fuel → c ≤ MaxInt32 →
  let '(r, db') := doSync client n fuel db in
  ∃ k, imported client c (s + 1) (Z.to_nat (c - s - 1)) k db db' (is_ok r) ∧
    GetLastNameImportHeight db' = Ok (s + Z.of_nat k).
Proof.
  intros Hr Hw Hf Hc. pose proof (doSync_imported _ _ _ _ _ _ Hr Hw Hf Hc) as Hd.
  destruct (doSync _ _ _ _) as [r db']. destruct Hd as (k & ? & _ & ?). by exists k.
Qed.

(** C23: an import of blocks that can all be used ends, and ends with all of them
    imported: those above the stored height and below the confirmed height. The
    block of the confirmed height itself is left to the next import. *)
Theorem do_sync_completes `{LevelDBLaws, JSON, Secp256k1, MiekgDNS} client n fuel db s c :
  sync_range client n db = Ok (s, c) → 1 ≤ Workers n → c - s ≤ Z.of_nat fuel → c ≤ MaxInt32 →
  (∀ h, s < h < c → good client h) →
  ∃ db', doSync client n fuel db = (Ok true, db') ∧
    db_map db' = put_blocks client c (s + 1) (Z.to_nat (c - s - 1)) (db_map db) ∧
    GetLastNameImportHeight db' = Ok (c - 1) ∧
    (s + 1 < c → GetInitialImportComplete db' = Ok true).
Proof.
  intros Hr Hw Hf Hc Hg. pose proof (sync_range_inv _ _ _ _ _ Hr) as [_ Hs].
  destruct (doSync_all client n fuel db s c Hr Hw Hf Hc Hg) as (db' & Hd & Hm & Hh).
  exists db'. split_and!; [done|done|done|]. intros Hlt. unfold GetInitialImportComplete. rewrite db_Has_law, Hm.
  replace (Z.to_nat (c - s - 1)) with (S (Z.to_nat (c - s - 2))) by lia.
  by rewrite put_blocks_complete by lia.
Qed.

Definition demo_hex : bytes := hex_EncodeToString (Block_Encode Buffer_Write demo_block []).2.

(** A chain of four blocks, and one whose third block cannot be fetched. *)
Definition demo_client (bad : Z) : Client := mkClient
  (Ok (mkBlockchainInfo 1 4))
  (λ h, if decide (h = bad) then Err (ENew "not found") else Ok demo_hex)
  (λ _, Ok (Some (bs "foo"))).

Definition demo_importer : NameImporter := mkNameImporter 1 2 1.

Lemma demo_range bad : sync_range (demo_client bad) demo_importer empty_db = Ok (0, 3).
Proof. vm_compute. reflexivity. Qed.

Lemma do_sync_prefix_witness :
  let '(r, db') := doSync (demo_client 2) demo_importer 3 empty_db in
  ∃ k, imported (demo_client 2) 3 1 2 k empty_db db' (is_ok r) ∧
    GetLastNameImportHeight db' = Ok (Z.of_nat k).
Proof.
  exact (do_sync_prefix (demo_client 2) demo_importer 3 empty_db 0 3
    (demo_range 2) ltac:(vm_compute; discriminate) ltac:(lia) ltac:(vm_compute; discriminate)).
Defined.

Lemma demo_good h :
  0 < h < 3 → good (demo_client 4) h.
Proof.
  intros Hh. exists [(bs "foo", demo_key2)]. split.
  - unfold names_at, fetch_block. simpl. rewrite decide_False by lia. vm_compute. reflexivity.
  - constructor; [|constructor]. assert (h = 1 ∨ h = 2) as [-> | ->] by lia; vm_compute; reflexivity.
Qed.

Lemma do_sync_completes_witness :
  ∃ db', doSync (demo_client 4) demo_importer 3 empty_db = (Ok true, db') ∧
    GetLastNameImportHeight db' = Ok 2 ∧ GetInitialImportComplete db' = Ok true.
Proof.
  destruct (do_sync_completes (demo_client 4) demo_importer 3 empty_db 0 3
    (demo_range 4) ltac:(vm_compute; discriminate) ltac:(lia) ltac:(vm_compute; discriminate) demo_good)
    as (db' & Hd & _ & Hh & Hc).
  exists db'. split; [exact Hd|]. split; [exact Hh|]. apply Hc. reflexivity.
Defined.
