(* ===== verification/ImporterLife.v ===== *)
(** * The life of the name importer

    [sync] of [src/protocol/name_importer.go]: an import at every tick, with
    whatever the Handshake node answers then.  Over all of them the names in the
    database are those of the chain up to the stored height. *)

From Stdlib Require Import QArith.
From S2P Require Import Prelude GoLib Crypto Instances Sector Wire Names StoreDB StoreInstances Store.
From S2P Require Import HnsEncoding HnsDns HnsDnsProofs HnsPrimitives HnsProofs NameImporter ImporterProofs.
Open Scope Z_scope.

Section life.
Context `{HL : LevelDBLaws, HJ : JSON, HS : Secp256k1, HD : MiekgDNS}.
Context (n : NameImporter).

(** An import has no more rounds than the chain has blocks. *)
Definition round_fuel (client : Client) : nat :=
  match RPCGetBlockchainInfo client with Ok info => Z.to_nat (bi_Blocks info) | _ => O end.

(** The rounds of the loop, each with what the node answers; the errors are
    logged, a panic ends the process. *)
Fixpoint NameImporter_sync (rounds : list Client) : M DB unit :=
  match rounds with
  | [] => mret tt
  | client :: rounds => M_try (doSync client n (round_fuel client));; NameImporter_sync rounds
  end.

(** ** What the chain says *)

(** The names of the block of a height, which the answers agree with. *)
Context (chain : Z → list (bytes * PublicKey)).

Definition follows (client : Client) : Prop := ∀ h names, names_at client h = Ok names → names = chain h.

(** The names after the [k] blocks from a height on. *)
Fixpoint chain_names (height : Z) (k : nat) (m : gmap bytes bytes) : gmap bytes bytes :=
  match k with
  | O => m
  | S k => chain_names (height + 1) k (foldl (put_name height) m (chain height))
  end.

Lemma chain_names_add h a b m : chain_names h (a + b) m = chain_names (h + Z.of_nat a) b (chain_names h a m).
Proof.
  revert h m. induction a as [|a IH]; intros h m; [by rewrite Z.add_0_r|]. simpl. rewrite IH.
  by replace (h + 1 + Z.of_nat a) with (h + Z.of_nat (S a)) by lia.
Qed.

(** The same infos of names. *)
Definition same_names (m m' : gmap bytes bytes) : Prop :=
  ∀ name, m !! nameDataPrefix [name] = m' !! nameDataPrefix [name].

#[local] Instance same_names_equiv : Equivalence same_names.
Proof. split; [done|intros m m' He name; by rewrite He|intros m1 m2 m3 H12 H23 name; by rewrite H12, H23]. Qed.

Lemma same_names_put h m m' names : same_names m m' → same_names (foldl (put_name h) m names) (foldl (put_name h) m' names).
Proof.
  revert m m'. induction names as [|nk names IH]; intros m m' Hm; [done|]. cbn [foldl]. apply IH. unfold put_name.
  destruct (NameInfo_MarshalJSON _) as [data| |]; [|done..]. intros name.
  destruct (decide (nameDataPrefix [nk.1] = nameDataPrefix [name])) as [->|Hne].
  - by rewrite !lookup_insert_eq.
  - rewrite !lookup_insert_ne by done. apply Hm.
Qed.

Lemma same_names_other k v m : (∀ name, nameDataPrefix [name] ≠ k) → same_names (<[k := v]> m) m.
Proof. intros Hk name. by rewrite lookup_insert_ne. Qed.

Lemma same_names_chain h k m m' : same_names m m' → same_names (chain_names h k m) (chain_names h k m').
Proof. revert h m m'. induction k as [|k IH]; intros h m m' Hm; [done|]. cbn [chain_names]. by apply IH, same_names_put. Qed.

Lemma put_block_names c h names m : same_names (put_block c h names m) (foldl (put_name h) m names).
Proof. unfold put_block. case_decide; by rewrite !same_names_other. Qed.

Lemma put_blocks_names client c h k m :
  (∀ i, (i < k)%nat → names_of client (h + Z.of_nat i) = chain (h + Z.of_nat i)) →
  same_names (put_blocks client c h k m) (chain_names h k m).
Proof.
  revert h m. induction k as [|k IH]; intros h m Hn; [done|]. cbn [put_blocks chain_names].
  rewrite IH.
  - apply same_names_chain. rewrite put_block_names. pose proof (Hn 0%nat ltac:(lia)) as H0. rewrite Z.add_0_r in H0. by rewrite H0.
  - intros i Hi. replace (h + 1 + Z.of_nat i) with (h + Z.of_nat (S i)) by lia. apply Hn. lia.
Qed.

(** ** The rounds *)

(** A round can fail, but not store what the chain does not say. *)
Definition usable (client : Client) : Prop :=
  follows client ∧ ∀ info, RPCGetBlockchainInfo client = Ok info → bi_Blocks info ≤ MaxInt32.

Lemma sync_range_fuel client db s c :
  0 ≤ ConfirmationDepth n → usable client → sync_range client n db = Ok (s, c) →
  c - s ≤ Z.of_nat (round_fuel client) ∧ c ≤ MaxInt32.
Proof.
  intros Hd [_ Hb] Hr. pose proof (sync_range_inv client n db s c Hr) as [_ Hs]. revert Hr. unfold sync_range, round_fuel.
  destruct (RPCGetBlockchainInfo client) as [info| |]; [|done..]. specialize (Hb info eq_refl). simpl.
  destruct (Qlt_le_dec _ _); [done|]. repeat (case_decide; [done|]).
  destruct (GetLastNameImportHeight db) as [s'| |]; [|done..]. simpl.
  repeat (case_decide; [done|]). intros [= <- <-]. lia.
Qed.

Lemma round_names client db s :
  0 ≤ ConfirmationDepth n → 1 ≤ Workers n → usable client → GetLastNameImportHeight db = Ok s →
  let db' := (doSync client n (round_fuel client) db).2 in
  ∃ k, GetLastNameImportHeight db' = Ok (s + Z.of_nat k) ∧ same_names (db_map db') (chain_names (s + 1) k (db_map db)).
Proof.
  intros Hd Hw Hu Hs db'. unfold db'. clear db'.
  destruct (sync_range client n db) as [[s' c]|e|w] eqn:Hr.
  2, 3: exists 0%nat; unfold doSync; rewrite Hr; by rewrite Z.add_0_r.
  destruct (sync_range_inv client n db s' c Hr) as [Hs' _]. rewrite Hs in Hs'. injection Hs' as <-.
  destruct (sync_range_fuel client db s c Hd Hu Hr) as [Hf Hc].
  pose proof (doSync_imported client n _ db s c Hr Hw Hf Hc) as Hi.
  destruct (doSync client n (round_fuel client) db) as [r db']. destruct Hi as (k & (_ & Hm & Hn & _) & _ & Hh).
  exists k. split; [exact Hh|]. cbn [snd]. rewrite Hm. apply put_blocks_names. intros i Hik.
  specialize (Hn i Hik). unfold names_of. destruct (names_at client (s + 1 + Z.of_nat i)) as [names| |] eqn:Hna; [|done..].
  by apply (proj1 Hu) in Hna.
Qed.

(** C22: over all the rounds of its life, through failed imports, lagging nodes and
    a crash, the importer keeps the names of the database those of the chain:
    for some number of blocks, the stored height is that much higher, and the
    info of every name is the one the import of exactly these blocks gives. *)
Theorem importer_life rounds db s :
  0 ≤ ConfirmationDepth n → 1 ≤ Workers n → Forall usable rounds → GetLastNameImportHeight db = Ok s →
  let db' := (NameImporter_sync rounds db).2 in
  ∃ k, GetLastNameImportHeight db' = Ok (s + Z.of_nat k) ∧
    ∀ name, db_map db' !! nameDataPrefix [name] = chain_names (s + 1) k (db_map db) !! nameDataPrefix [name].
Proof.
  intros Hd Hw Hu. revert db s. induction Hu as [|client rounds Hc Hu IH]; intros db s Hs.
  { exists 0%nat. cbn. by rewrite Z.add_0_r. }
  destruct (round_names client db s Hd Hw Hc Hs) as (k & Hk & Hn). cbn [NameImporter_sync].
  unfold mbind, M_bind, M_try. destruct (doSync client n (round_fuel client) db) as [[b|e|w] db1]; cbn [snd] in *.
  3: by exists k.
  all: destruct (IH db1 _ Hk) as (j & Hj & Hm); exists (k + j)%nat; split; [rewrite Hj; f_equal; lia|];
    intros name; rewrite Hm, chain_names_add, (same_names_chain _ _ _ _ Hn);
    by replace (s + Z.of_nat k + 1) with (s + 1 + Z.of_nat k) by lia.
Qed.
End life.

(** A node whose second block cannot be fetched at first. *)
Lemma demo_usable bad : usable (λ _, [(bs "foo", demo_key2)]) (demo_client bad).
Proof.
  split.
  - intros h names. unfold names_at, fetch_block. simpl.
    case_decide; [done|]. intros Hn. apply eq_sym in Hn. apply (f_equal (ok_or [])) in Hn.
    refine (eq_trans Hn _). vm_compute. reflexivity.
  - intros info [= <-]. vm_compute. discriminate.
Qed.

Lemma importer_life_witness :
  let db' := (NameImporter_sync demo_importer [demo_client 2; demo_client 4] empty_db).2 in
  GetLastNameImportHeight db' = Ok 2 ∧ is_ok (GetNameInfo db' (bs "foo")) = true ∧
  ∃ k, GetLastNameImportHeight db' = Ok (0 + Z.of_nat k).
Proof.
  split; [by vm_compute|]. split; [by vm_compute|].
  destruct (importer_life demo_importer (λ _, [(bs "foo", demo_key2)]) [demo_client 2; demo_client 4] empty_db 0)
    as (k & Hk & _).
  - by vm_compute.
  - by vm_compute.
  - repeat constructor; apply demo_usable.
  - by vm_compute.
  - exists k. exact Hk.
Defined.
