(* ===== verification/ImportedKeys.v ===== *)
(** * The key on the chain is the key of the name

    From the bytes of a block to the info of a name: an owner who publishes the
    text record of a key in a covenant has that key stored for the name, which is
    the key updates of the blob are verified with. *)

From Stdlib Require Import QArith.
From S2P Require Import Prelude GoLib Crypto Instances Sector StoreDB StoreInstances Store HnsEncoding HnsDns HnsDnsProofs.
From S2P Require Import HnsPrimitives HnsProofs NameImporter ImporterProofs.
#[local] Open Scope Z_scope.

Section keys.
Context `{HL : LevelDBLaws, HJ : JSONLaws, HS : Secp256k1Laws, HM : MiekgDNSLaws}.

(** ** What is published *)

(** The text entries of records, in their order. *)
Definition texts (records : list Record_) : list bytes :=
  records ≫= λ r, match r with TXTRecord entries => entries | _ => [] end.

(** The records announce the key: it is in the last entry that is one of ours. *)
Definition announces (records : list Record_) (key : PublicKey) : Prop :=
  ∃ before after, texts records = before ++ fn_record key :: after ∧
    ∀ e k, e ∈ after → ParseFNRecord e ≠ Ok k.

(** A covenant that publishes the key for a name hash, as the owner of the name
    makes it: an update or a registration with the encoding of such records. *)
Definition publishes (c : Covenant) (nh : bytes) (key : PublicKey) : Prop :=
  ∃ height records resource more,
    cov_Items c = nh :: height :: resource :: more ∧ 4 ≤ zlen height ∧
    (cov_Type c = CovenantUpdate ∨ cov_Type c = CovenantRegister ∧ more ≠ []) ∧
    Forall record_ok records ∧ announces records key ∧
    Resource_Encode Buffer_Write (mkResource 0 records) [] = (Ok tt, resource) ∧ zlen resource ≤ MaxResourceSize.

Definition outputs (txs : list Transaction) : list Output := txs ≫= trx_Outputs.

(** The last output of the block that says something of the name hash publishes
    the key. *)
Definition published_in (b : Block) (nh : bytes) (key : PublicKey) : Prop :=
  ∃ before out after, outputs (blk_Transactions b) = before ++ out :: after ∧
    publishes (out_Covenant out) nh key ∧
    ∀ o r, o ∈ after → output_record o = Ok (Some r) → fr_NameHash r ≠ hex_EncodeToString nh.

(** ** The records of a block *)

Lemma last_key_app l1 l2 pub : last_key (l1 ++ l2) pub = (q ← last_key l1 pub; last_key l2 q).
Proof.
  unfold last_key. rewrite foldl_app. destruct (foldl _ (Ok pub) l1) as [q|e|w]; simpl; [done| |];
    induction l2 as [|x l2 IH]; done.
Qed.

Lemma last_key_cons e l pub :
  last_key (e :: l) pub =
  match ParseFNRecord e with
  | Ok p => last_key l (Some p)
  | Err _ => last_key l pub
  | Panic w => Panic w
  end.
Proof.
  change (e :: l) with ([e] ++ l). rewrite last_key_app.
  change (last_key [e] pub) with (match ParseFNRecord e with Ok p => Ok (Some p) | Err _ => Ok pub | Panic w => Panic w end).
  by destruct (ParseFNRecord e).
Qed.

(** Entries that are not ours leave the key. *)
Lemma last_key_keeps l pub r : (∀ e k, e ∈ l → ParseFNRecord e ≠ Ok k) → last_key l pub = Ok r → r = pub.
Proof.
  revert pub. induction l as [|e l IH]; intros pub Hl Hr; [by injection Hr as ->|].
  rewrite last_key_cons in Hr.
  destruct (ParseFNRecord e) as [k| |] eqn:He; [exfalso; apply (Hl e k); [left|done]| |done].
  apply IH in Hr; [done|]. intros x k Hx. apply Hl. by right.
Qed.

Lemma records_key_texts records : records_key records = last_key (texts records) None.
Proof.
  unfold records_key. generalize (@None PublicKey) as pub.
  induction records as [|r records IH]; intros pub; [done|]. unfold texts. cbn [foldl mbind list_bind].
  fold (texts records). rewrite last_key_app. destruct r as [| | | | | |entries]; try apply IH.
  simpl. destruct (last_key entries pub) as [q|e|w]; [apply IH| |]; simpl; clear; by induction records.
Qed.

Lemma announces_key records key r : announces records key → records_key records = Ok r → r = Some key.
Proof.
  intros (before & after & Ht & Ha) Hr. rewrite records_key_texts, Ht, last_key_app in Hr.
  destruct (last_key before None) as [q| |]; [|done..]. cbn [mbind result_bind] in Hr.
  rewrite last_key_cons, fn_record_roundtrip in Hr.
  by eapply last_key_keeps.
Qed.

(** The record an output gives, if it gives one. *)
Definition record_of (o : Output) : option FNRecord :=
  match output_record o with Ok (Some r) => Some r | _ => None end.

Lemma extract_outputs outs l : ExtractTXTRecordsTx outs = Ok l →
  l = omap record_of outs ∧ Forall (λ o, is_ok (output_record o) = true) outs.
Proof.
  revert l. induction outs as [|o outs IH]; intros l; simpl; [by intros [= <-]|]. unfold record_of at 1.
  destruct (output_record o) as [r| |] eqn:Ho; [|done..]. simpl.
  destruct (ExtractTXTRecordsTx outs) as [l'| |]; [|done..]. simpl. intros [= <-].
  destruct (IH l' eq_refl) as [-> Hok]. split; [by destruct r|]. constructor; [by rewrite Ho|done].
Qed.

Lemma all_records_outputs txs recs : all_records txs = Ok recs →
  recs = omap record_of (outputs txs) ∧ Forall (λ o, is_ok (output_record o) = true) (outputs txs).
Proof.
  revert recs. induction txs as [|tx txs IH]; intros recs; simpl; [by intros [= <-]|].
  destruct (ExtractTXTRecordsTx (trx_Outputs tx)) as [l| |] eqn:Hl; [|done..]. simpl.
  destruct (all_records txs) as [rest| |]; [|done..]. simpl. intros [= <-].
  destruct (IH rest eq_refl) as [-> Hok]. destruct (extract_outputs _ _ Hl) as [-> Hok']. unfold outputs. simpl.
  split; [by rewrite omap_app|]. by apply Forall_app.
Qed.

(** The output of a publishing covenant gives the record of the key. *)
Lemma publishes_record out nh key : publishes (out_Covenant out) nh key → is_ok (output_record out) = true →
  output_record out = Ok (Some (mkFNRecord (hex_EncodeToString nh) key)).
Proof.
  intros (height & records & resource & more & Hi & Hh & Ht & Hr & Ha & He & Hz) Hok.
  assert (resource_item resource = Ok (Some (mkResource 0 records))) as Hres.
  { unfold resource_item, MaxResourceSize in *. rewrite decide_False by lia.
    rewrite (resource_decodes (mkResource 0 records) [] resource) by (done || lia).
    rewrite decide_True; [done|]. by apply (encoding_nonempty (mkResource 0 records) [] resource). }
  assert (item_u32 (out_Covenant out) 1 = Ok (le_get (take 4 height))) as Hu.
  { unfold item_u32, item. rewrite Hi. simpl. by rewrite decide_False by lia. }
  unfold output_record in *.
  destruct Ht as [Ht|[Ht Hm]]; rewrite Ht in *; simpl in *;
    unfold UpdateFromCovenant, RegisterFromCovenant, of_type in *; rewrite Ht, decide_False in * by tauto;
    unfold item in *; rewrite Hi in *; simpl in *; rewrite Hres, Hu in *; simpl in *.
  - destruct (records_key records) as [r| |] eqn:Hk; [|done..]. by rewrite (announces_key _ _ _ Ha Hk).
  - destruct more as [|x more]; [done|]. simpl in *.
    destruct (records_key records) as [r| |] eqn:Hk; [|done..]. by rewrite (announces_key _ _ _ Ha Hk).
Qed.

Lemma filter_none {A} (P : A → Prop) `{!∀ x, Decision (P x)} l : (∀ x, x ∈ l → ¬ P x) → filter P l = [].
Proof.
  induction l as [|x l IH]; intros Hl; [done|]. rewrite filter_cons_False by (apply Hl; by left).
  apply IH. intros y Hy. apply Hl. by right.
Qed.

Lemma latest_published b nh key recs : published_in b nh key → all_records (blk_Transactions b) = Ok recs →
  latest (hex_EncodeToString nh) recs = Some (mkFNRecord (hex_EncodeToString nh) key).
Proof.
  intros (before & out & after & Ho & Hp & Ha) Hr. destruct (all_records_outputs _ _ Hr) as [-> Hok].
  rewrite Ho in *. apply Forall_app in Hok as [_ [Hok _]%Forall_cons].
  unfold latest. rewrite omap_app.
  change (omap record_of (out :: after)) with
    (match record_of out with Some r => r :: omap record_of after | None => omap record_of after end).
  unfold record_of at 2. rewrite (publishes_record _ _ _ Hp Hok).
  rewrite filter_app, filter_cons_True by done. rewrite (filter_none _ (omap record_of after)), last_snoc; [done|].
  intros r (o & Hoa & Hrec)%list_elem_of_omap. unfold record_of in Hrec.
  destruct (output_record o) as [[r'|]| |] eqn:E; try done. injection Hrec as <-. by eapply Ha.
Qed.

(** ** What is stored *)

Lemma resolve_spec client recs names : resolve_names client recs = Ok names →
  ∀ name key, (name, key) ∈ names ↔
    ∃ r, r ∈ recs ∧ RPCGetNameByHash client (fr_NameHash r) = Ok (Some name) ∧ fr_PublicKey r = key.
Proof.
  revert names. induction recs as [|r recs IH]; intros names; simpl.
  { intros [= <-] name key. split; [by intros ?%not_elem_of_nil|]. by intros (r & ?%not_elem_of_nil & _). }
  destruct (RPCGetNameByHash client (fr_NameHash r)) as [[nm|]| |] eqn:Hn; [|done..].
  destruct (resolve_names client recs) as [ns| |]; [|done..]. simpl. intros [= <-] name key.
  rewrite elem_of_cons, (IH ns eq_refl). split.
  - intros [[= -> ->]|(r' & Hr & Hx)]; [exists r; split; [left|done]|exists r'; split; [by right|done]].
  - intros (r' & [->|Hr]%elem_of_cons & Hx & <-); [left; congruence|right; eauto].
Qed.

(** The block says exactly the key of the name. *)
Lemma published_names client b nh key name names :
  published_in b nh key → block_names client b = Ok names →
  RPCGetNameByHash client (hex_EncodeToString nh) = Ok (Some name) →
  (∀ x, RPCGetNameByHash client x = Ok (Some name) → x = hex_EncodeToString nh) →
  ∀ k, (name, k) ∈ names ↔ k = key.
Proof.
  intros Hp Hn Hname Hinj k. unfold block_names in Hn.
  destruct (ExtractTXTRecordsBlock b) as [out| |] eqn:Ho; [|done..]. simpl in Hn.
  destruct (extract_latest _ _ Ho) as (recs & Hr & _ & Hl). pose proof (latest_published _ _ _ _ Hp Hr) as Hlast.
  rewrite (resolve_spec _ _ _ Hn). split.
  - intros (r & Hin & Hx & <-). apply Hinj in Hx. destruct (Hl (hex_EncodeToString nh) r) as [Hl1 _].
    rewrite Hlast in Hl1. by specialize (Hl1 (conj Hin Hx)) as [= <-].
  - intros ->. exists (mkFNRecord (hex_EncodeToString nh) key). split; [|done].
    by apply (Hl (hex_EncodeToString nh)).
Qed.

Lemma name_key_ne name : nameDataPrefix [name] ≠ lastNameImportHeightKey ∧ nameDataPrefix [name] ≠ initialImportCompleteKey.
Proof. unfold nameDataPrefix. rewrite Prefixer_one. done. Qed.

Lemma put_name_other height name names m : (∀ k, (name, k) ∉ names) →
  foldl (put_name height) m names !! nameDataPrefix [name] = m !! nameDataPrefix [name].
Proof.
  revert m. induction names as [|[nm k] names IH]; intros m Hn; [done|]. simpl. rewrite IH.
  2:{ intros k' Hk. apply (Hn k'). by right. }
  unfold put_name. simpl. destruct (NameInfo_MarshalJSON _); [|done..]. apply lookup_insert_ne.
  intros He. apply Prefixer_inj in He as ->. apply (Hn k). left.
Qed.

Lemma put_block_other c height name names m : (∀ k, (name, k) ∉ names) →
  put_block c height names m !! nameDataPrefix [name] = m !! nameDataPrefix [name].
Proof.
  intros Hn. destruct (name_key_ne name) as [? ?]. unfold put_block.
  case_decide; [rewrite lookup_insert_ne by done|]; rewrite lookup_insert_ne by done; by apply put_name_other.
Qed.

Lemma put_block_key c height name key names m data :
  (∀ k, (name, k) ∈ names ↔ k = key) → NameInfo_MarshalJSON (mkNameInfo name key height) = Ok data →
  put_block c height names m !! nameDataPrefix [name] = Some data.
Proof.
  intros Hn Hd. destruct (name_key_ne name) as [? ?]. unfold put_block.
  assert (foldl (put_name height) m names !! nameDataPrefix [name] = Some data) as Hf.
  { assert ((name, key) ∈ names) as Hin by (by apply Hn).
    assert (∀ k, (name, k) ∈ names → k = key) as Hu by (intros k; apply Hn). clear Hn. revert m.
    induction names as [|[nm k] names IH] using rev_ind; intros m; [by apply not_elem_of_nil in Hin|].
    rewrite foldl_app. simpl. destruct (decide (nm = name)) as [->|Hne].
    - assert (k = key) as -> by (apply Hu, elem_of_app; right; left). unfold put_name. simpl. rewrite Hd.
      apply lookup_insert_eq.
    - assert (foldl (put_name height) m names !! nameDataPrefix [name] = Some data) as IH'.
      { apply IH; [apply elem_of_app in Hin as [?|Hin%list_elem_of_singleton]; [done|congruence]|].
        intros k' Hk. apply Hu, elem_of_app. by left. }
      generalize dependent (foldl (put_name height) m names). intros m' Hm'. unfold put_name. simpl.
      destruct (NameInfo_MarshalJSON (mkNameInfo nm k height)); [|done..]. rewrite lookup_insert_ne; [done|].
      by intros ?%Prefixer_inj. }
  case_decide; [rewrite lookup_insert_ne by done|]; by rewrite lookup_insert_ne by done.
Qed.

Lemma put_blocks_other client c height k name m :
  (∀ h key, height ≤ h < height + Z.of_nat k → (name, key) ∉ names_of client h) →
  put_blocks client c height k m !! nameDataPrefix [name] = m !! nameDataPrefix [name].
Proof.
  revert height m. induction k as [|k IH]; intros height m Hn; [done|]. simpl. rewrite IH.
  - apply put_block_other. intros key. apply Hn. lia.
  - intros h key Hh. apply Hn. lia.
Qed.

(** A block the node serves is the block that is decoded. *)
Lemma served_block client h b o :
  block_ok b → Block_Encode Buffer_Write b [] = (Ok tt, o) →
  RPCGetBlockHexByHeight client h = Ok (hex_EncodeToString o) → fetch_block client h = Ok b.
Proof.
  intros Hb He Hc. destruct (codes_Block b Hb) as (o' & E & D). rewrite E in He. injection He as <-.
  unfold fetch_block. rewrite Hc. simpl. rewrite hex_roundtrip. simpl.
  specialize (D []). rewrite app_nil_r in D. by rewrite D.
Qed.
End keys.

(** C24: what the owner of a name publishes on the chain is what the node stores.
    When the node of the chain serves the encoding of a block whose last output
    for a name hash is a covenant with the text record of a key, and no later
    block of the import names it, then after the import the info of the name has
    that key and the height of the block. *)
Theorem imported_key `{LevelDBLaws, JSONLaws, Secp256k1Laws, MiekgDNSLaws} client n fuel db s c h b o nh name key :
  sync_range client n db = Ok (s, c) → 1 ≤ Workers n → c - s ≤ Z.of_nat fuel → c ≤ MaxInt32 →
  (∀ h, s < h < c → good client h) →
  s < h < c → block_ok b → Block_Encode Buffer_Write b [] = (Ok tt, o) →
  RPCGetBlockHexByHeight client h = Ok (hex_EncodeToString o) → published_in b nh key →
  RPCGetNameByHash client (hex_EncodeToString nh) = Ok (Some name) →
  (∀ x, RPCGetNameByHash client x = Ok (Some name) → x = hex_EncodeToString nh) →
  Forall (λ c, Z_of_byte c < 128) name → (∀ h' k, h < h' < c → (name, k) ∉ names_of client h') →
  ∃ db', doSync client n fuel db = (Ok true, db') ∧ GetNameInfo db' name = Ok (mkNameInfo name key h).
Proof.
  intros Hr Hw Hf Hc Hg Hh Hb He Hx Hp Hn Hinj Hascii Hlater.
  destruct (doSync_all client n fuel db s c Hr Hw Hf Hc Hg) as (db' & Hd & Hm & _). exists db'. split; [done|].
  destruct (sync_range_inv _ _ _ _ _ Hr) as [_ Hs]. unfold MaxInt32 in Hc.
  destruct (NameInfo_json name key h Hascii ltac:(lia)) as (data & Hj & Hu).
  destruct (Hg h Hh) as (names & Hnames & _). pose proof Hnames as Hbn. unfold names_at in Hbn.
  rewrite (served_block client h b o Hb He Hx) in Hbn. simpl in Hbn.
  unfold GetNameInfo. rewrite db_Get_law, Hm.
  replace (Z.to_nat (c - s - 1)) with (Z.to_nat (h - s - 1) + S (Z.to_nat (c - h - 1)))%nat by lia.
  rewrite put_blocks_add. replace (s + 1 + Z.of_nat (Z.to_nat (h - s - 1))) with h by lia. cbn [put_blocks].
  rewrite put_blocks_other by (intros h' k Hh'; apply Hlater; lia).
  rewrite (put_block_key c h name key _ _ data); [simpl; by rewrite Hu| |done].
  unfold names_of. rewrite Hnames. by eapply published_names.
Qed.

(** The chain of the importer, with one name. *)
Definition demo_nh : bytes := replicate 32 x07.

Definition key_client : Client := mkClient
  (Ok (mkBlockchainInfo 1 4)) (λ _, Ok demo_hex)
  (λ x, if decide (x = hex_EncodeToString demo_nh) then Ok (Some (bs "foo")) else Ok None).

Lemma key_good h : 0 < h < 3 → good key_client h.
Proof.
  intros Hh. exists [(bs "foo", demo_key2)]. split.
  - vm_compute. reflexivity.
  - constructor; [|constructor]. assert (h = 1 ∨ h = 2) as [-> | ->] by lia; vm_compute; reflexivity.
Qed.

Lemma demo_block_ok : block_ok demo_block.
Proof.
  split; [apply sample_header|]. split; [vm_compute; reflexivity|].
  unfold transaction_ok, input_ok, outpoint_ok, output_ok, address_ok, covenant_ok, items_ok, is_u32, is_u64.
  apply (bool_decide_unpack _). vm_compute. exact I.
Qed.

Lemma demo_published : published_in demo_block demo_nh demo_key2.
Proof.
  exists (trx_Outputs (demo_update (PubKey toy_key))), (mkOutput 0 (mkAddress 0 (replicate 20 x01)) (demo_covenant demo_nh demo_key2)), [].
  split; [reflexivity|]. split; [|intros o r Ho; by apply not_elem_of_nil in Ho].
  exists (replicate 4 x00), [TXTRecord [fn_record demo_key2]], (key_resource demo_key2), [].
  split; [reflexivity|]. split; [vm_compute; discriminate|]. split; [by left|].
  split; [constructor; [split; [vm_compute; discriminate|]|constructor]|].
  { constructor; [vm_compute; discriminate|constructor]. }
  split; [exists [], []; split; [reflexivity|]; intros e k He; by apply not_elem_of_nil in He|].
  split; vm_compute; [reflexivity|discriminate].
Qed.

Lemma imported_key_witness :
  ∃ db', doSync key_client demo_importer 3 empty_db = (Ok true, db') ∧
    GetNameInfo db' (bs "foo") = Ok (mkNameInfo (bs "foo") demo_key2 2).
Proof.
  apply (imported_key key_client demo_importer 3 empty_db 0 3 2 demo_block
    (Block_Encode Buffer_Write demo_block []).2 demo_nh (bs "foo") demo_key2).
  - vm_compute. reflexivity.
  - vm_compute. discriminate.
  - lia.
  - vm_compute. discriminate.
  - exact key_good.
  - lia.
  - exact demo_block_ok.
  - apply run_eta. vm_compute. reflexivity.
  - reflexivity.
  - exact demo_published.
  - vm_compute. reflexivity.
  - intros x. unfold key_client. cbn [RPCGetNameByHash]. case_decide; [done|discriminate].
  - by apply (bool_decide_unpack (Forall (λ c, Z_of_byte c < 128) (bs "foo"))).
  - intros h' k Hh. lia.
Defined.
