(* ===== verification/Rpc.v ===== *)
(** * Package rpc: the server

    [src/rpc/server.go]: the calls clients edit and read blobs with, and those that
    show and change the peers.  A checked out transaction is an object the table of
    the server points to, so its writes are seen by every call that gets it.  The
    transport (gRPC) is not part of the model: a call is the handler applied to the
    request, and the requests and responses are those of [rpc/v1/api.proto]. *)

From S2P Require Import Prelude GoLib Crypto Instances Sector Wire OsFile BlobIO BlobTx Names BlobStore.
From S2P Require Import Util StoreDB StoreInstances Store StorePeers Queue Syncer Updater Peer Mux PeerManager NetIP.

Definition TransactionExpiry : Z := 15000.

(** [strconv.FormatUint(n, 32)] of a [uint32]: at most seven digits. *)
Definition digit32 (d : Z) : byte :=
  if decide (d < 10) then byte_of_Z (48 + d) else byte_of_Z (87 + d).

Fixpoint format_loop (fuel : nat) (n : Z) (acc : bytes) : bytes :=
  match fuel with
  | O => acc
  | S fuel =>
      let acc := digit32 (n mod 32) :: acc in
      if decide (n < 32) then acc else format_loop fuel (n / 32) acc
  end.

Definition FormatUint32 (n : Z) : bytes := format_loop 7 n [].

Record CheckoutReq := mkCheckoutReq { cq_Name : bytes; cq_ResetEpoch : bool }.

Record CheckoutRes := mkCheckoutRes {
  cs_TxID : Z;
  cs_EpochHeight : Z;
  cs_SectorSize : Z;
  cs_SectorTipHash : bytes;
}.

Record WriteSectorReq := mkWriteSectorReq { wq_TxID : Z; wq_Data : bytes }.

(** [WriteErr] is the message of an error, empty when there is none. *)
Record WriteSectorRes := mkWriteSectorRes { ws_WriteErr : option error }.

(** The field [Timestamp] is not read. *)
Record CommitReq := mkCommitReq {
  mq_TxID : Z;
  mq_Signature : bytes;
  mq_Broadcast : bool;
  mq_EpochHeight : Z;
  mq_SectorSize : Z;
  mq_SectorTipHash : bytes;
}.

Record ReadAtReq := mkReadAtReq { rq_Name : bytes; rq_Offset : Z; rq_Len : Z }.

Record BlobInfoRes := mkBlobInfoRes {
  br_Name : bytes;
  br_PublicKey : bytes;
  br_ImportHeight : Z;
  br_EpochHeight : Z;
  br_SectorSize : Z;
  br_SectorTipHash : bytes;
  br_ReservedRoot : bytes;
  br_Signature : bytes;
  br_ReceivedAt : Z;
  br_BannedAt : Z;
}.

(** ** Blobs *)

Record awaitingTx := mkAwaitingTx { aw_blob : Blob; aw_tx : Tx }.

Section server.
Context `{LevelDB, JSON, Secp256k1, Blake2b}.
Context (now : Time) (blobsPath : bytes).

(** What the calls on blobs share; [sv_heap] holds the objects that [sv_txStore]
    points to. *)
Record Server := mkServer {
  sv_world : World;
  sv_txStore : Cache (V := nat);
  sv_heap : list awaitingTx;
  sv_lastTxID : Z;
}.

Definition NewServer (w : World) : Server := mkServer w NewCache [] 0.

Definition of_node {A} (m : M World A) : M Server A :=
  M_zoom sv_world (λ w s, mkServer w (sv_txStore s) (sv_heap s) (sv_lastTxID s)) m.

Definition on_txStore {A} (m : M (Cache (V := nat)) A) : M Server A :=
  M_zoom sv_txStore (λ c s, mkServer (sv_world s) c (sv_heap s) (sv_lastTxID s)) m.

(** Work on the transaction an object has. *)
Definition on_awaiting {A} (p : nat) (m : M WT A) : M Server A :=
  λ s, match sv_heap s !! p with
       | None => (Panic "nil pointer dereference", s)
       | Some a =>
           let '(r, (w, t)) := m (sv_world s, aw_tx a) in
           (r, mkServer w (sv_txStore s) (<[p := mkAwaitingTx (aw_blob a) t]> (sv_heap s)) (sv_lastTxID s))
       end.

Definition get_awaiting (p : nat) : M Server awaitingTx :=
  λ s, match sv_heap s !! p with
       | None => (Panic "nil pointer dereference", s)
       | Some a => (Ok a, s)
       end.

(** The [ReaperFunc] of the table; its errors are logged. *)
Definition reap_awaiting (p : nat) : M Server unit :=
  M_try (on_awaiting p (of_tx Tx_Rollback));;
  a ← get_awaiting p;
  M_try (of_node (on_blobs (wrappedBlob_Close (aw_blob a))));; mret tt.

(** [s.txStore.Get(id)] with its type assertion: the assertion fails on the nil of an id that
    is not there. *)
Definition find_tx (txID : Z) : M Server nat :=
  '(val, reaped) ← on_txStore (Cache_Get now (FormatUint32 txID));
  match reaped with Some (_, p) => reap_awaiting p | None => mret tt end;;
  match val with
  | Some p => mret p
  | None => M_panic "interface conversion: interface is nil"
  end.

(** A transaction of the blob, and what is done with it before it is stored. *)
Definition begin_tx {A} (bl : Blob) (m : M WT A) : M Server (A * nat) :=
  λ s, let '(r, (w, t)) := m (sv_world s, Blob_Transaction bl) in
       match r with
       | Ok a => (Ok (a, length (sv_heap s)),
                  mkServer w (sv_txStore s) (sv_heap s ++ [mkAwaitingTx bl t]) (sv_lastTxID s))
       | Err e => (Err e, mkServer w (sv_txStore s) (sv_heap s) (sv_lastTxID s))
       | Panic x => (Panic x, mkServer w (sv_txStore s) (sv_heap s) (sv_lastTxID s))
       end.

(** Where the client starts: the epoch, the sectors and their tip. *)
Definition checkout_start (name : bytes) (db : DB) : result (Z * Z * Hash) :=
  match GetHeader db name with
  | Ok header => Ok (h_EpochHeight header, h_SectorSize header, h_SectorTipHash header)
  | Err _ => Ok (CurrentEpoch now name, 0, ZeroHash)
  | Panic w => Panic w
  end.

Definition checkout_tx (name : bytes) (resetEpoch : bool) (start : Z * Z * Hash) : M WT (Z * Z * Hash) :=
  let '(epochHeight, sectorSize, sectorTipHash) := start in
  '(epochHeight, sectorSize, sectorTipHash) ←
    (if resetEpoch then
       if decide (CurrentEpoch now name < epochHeight)
       then M_fail (ENew "cannot reset epoch ahead of schedule")
       else of_tx Tx_Truncate;; mret (u16 (epochHeight + 1), 0, ZeroHash)
     else mret (epochHeight, sectorSize, sectorTipHash));
  of_tx (Tx_Seek (sectorSize * SectorBytes) io_SeekStart);;
  mret (epochHeight, sectorSize, sectorTipHash).

Definition Checkout (req : CheckoutReq) : M Server CheckoutRes :=
  let name := cq_Name req in
  M_modify (λ s, mkServer (sv_world s) (sv_txStore s) (sv_heap s) (u32 (sv_lastTxID s + 1)));;
  s ← M_get;
  let txID := sv_lastTxID s in
  bl ← of_node (on_blobs (Store_Open blobsPath name));
  start ← of_node (read_db (checkout_start name));
  '(final, p) ← begin_tx bl (checkout_tx name (cq_ResetEpoch req) start);
  let '(epochHeight, sectorSize, sectorTipHash) := final in
  on_txStore (Cache_Set now (FormatUint32 txID) p TransactionExpiry);;
  mret (mkCheckoutRes txID epochHeight sectorSize sectorTipHash).

Definition Rpc_WriteSector (req : WriteSectorReq) : M Server WriteSectorRes :=
  p ← find_tx (wq_TxID req);
  r ← M_try (on_awaiting p (of_tx (Tx_WriteSector (go_copy ZeroSector (wq_Data req)))));
  match r with
  | Ok _ => mret (mkWriteSectorRes None)
  | Err e => mret (mkWriteSectorRes (Some e))
  | Panic w => M_panic w
  end.

(** The checks of [Commit], up to the lock. *)
Definition check_commit (p : nat) (name : bytes) (req : CommitReq) : M Server (SectorHashes * Hash * Signature) :=
  info ← of_node (M_wrapping "error getting name info" (read_db (λ db, GetNameInfo db name)));
  let epochHeight := u16 (mq_EpochHeight req) in
  let sectorSize := u16 (mq_SectorSize req) in
  sectorTipHash ← M_lift (wrapping "error parsing sector tip hash" (NewHashFromBytes (mq_SectorTipHash req)));
  hashes ← M_wrapping "error getting sector hashes" (on_awaiting p (hash_tx sectorSize));
  if decide (Tip hashes ≠ sectorTipHash) then M_fail (ENew "sector tip hash mismatch")
  else
    let sig := go_copy (replicate 65 x00) (mq_Signature req) in
    let h := SealHash name epochHeight sectorSize sectorTipHash ZeroHash in
    ok ← M_lift (VerifySigPub (ni_PublicKey info) sig h);
    if negb ok then M_fail (ENew "signature verification failed")
    else mret (hashes, sectorTipHash, sig).

(** [Commit] while it holds the lock. *)
Definition commit_locked (p : nat) (name : bytes) (req : CommitReq) (hashes : SectorHashes)
    (sectorTipHash : Hash) (sig : Signature) : M Server unit :=
  let epochHeight := u16 (mq_EpochHeight req) in
  let sectorSize := u16 (mq_SectorSize req) in
  of_node (M_wrapping "error storing header" (on_db (WithTx_only
    (SetHeaderTx (mkHeader name epochHeight sectorSize sectorTipHash sig ZeroHash now) hashes))));;
  M_wrapping "error committing blob" (on_awaiting p (of_tx Tx_Commit));;
  a ← get_awaiting p;
  of_node (M_wrapping "error closing blob" (on_blobs (wrappedBlob_Close (aw_blob a))));;
  on_txStore (Cache_Del (FormatUint32 (mq_TxID req)));;
  if mq_Broadcast req then of_node (GossipAll (MUpdate (mkUpdate name epochHeight sectorSize)))
  else mret tt.

Definition Rpc_Commit (req : CommitReq) : M Server unit :=
  p ← find_tx (mq_TxID req);
  a ← get_awaiting p;
  let name := blob_name (tx_blob (aw_tx a)) in
  '(hashes, sectorTipHash, sig) ← check_commit p name req;
  locked ← of_node (on_locks (TryLock name));
  if negb locked then M_fail (ENew "name is busy")
  else
    M_defer (of_node (on_locks (Unlock name)))
      (commit_locked p name req hashes sectorTipHash sig).

(** The sum of the offset and the length is one of [uint32]s. *)
Definition Rpc_ReadAt (req : ReadAtReq) : M World bytes :=
  let name := rq_Name req in
  if decide (Size < rq_Offset req) then M_fail (ENew "offset is beyond blob bounds")
  else if decide (Size < u32 (rq_Offset req + rq_Len req)) then M_fail (ENew "read is beyond blob bounds")
  else if decide (rq_Len req = 0) then mret []
  else
    ok ← on_locks (TryRLock name);
    if negb ok then M_fail (ENew "name is busy")
    else
      M_defer (on_locks (RUnlock name))
        (bl ← M_wrapping "error opening blob for reading" (on_blobs (Store_Open blobsPath name));
         M_defer (M_try (on_blobs (wrappedBlob_Close bl));; mret tt)
           ('(buf, _, err) ← on_blobs (pool_fs (Blob_ReadAt bl (replicate (Z.to_nat (rq_Len req)) x00)
                                                  (rq_Offset req)));
            match err with
            | Some e => M_fail (EWrap e "error reading blob")
            | None => mret buf
            end)).

(** [header.Signature[:]] and the like are the bytes; the times are [uint64] seconds. *)
Definition GetBlobInfo (db : DB) (name : bytes) : result BlobInfoRes :=
  header ← GetHeader db name;
  info ← GetNameInfo db name;
  Ok (mkBlobInfoRes name (SerializeCompressed (ni_PublicKey info)) (u32 (ni_ImportHeight info))
        (h_EpochHeight header) (h_SectorSize header) (h_SectorTipHash header) (h_ReservedRoot header)
        (h_Signature header) (u64 (Unix (h_EpochStartAt header))) 0).

Definition info_res (info : BlobInfo) : BlobInfoRes :=
  mkBlobInfoRes (bi_Name info) (SerializeCompressed (bi_PublicKey info)) (u32 (bi_ImportHeight info))
    (bi_EpochHeight info) (bi_SectorSize info) (bi_SectorTipHash info) (bi_ReservedRoot info)
    (bi_Signature info) (u64 (Unix (bi_ReceivedAt info))) (u64 (Unix (bi_BannedAt info))).

(** The responses of the stream, and how it ends; [send] is the error of sending
    one. *)
Fixpoint list_infos (fuel : nat) (db : DB) (send : BlobInfoRes → option error) (it : iterator)
    : list BlobInfoRes * result unit :=
  match fuel with
  | O => ([], Ok tt)
  | S fuel =>
      match BlobInfoStream_Next db it with
      | (Ok None, _) => ([], Ok tt)
      | (Err e, _) => ([], Err (EWrap e "error reading info"))
      | (Panic w, _) => ([], Panic w)
      | (Ok (Some info), it) =>
          match send (info_res info) with
          | Some e => ([], Err (EWrap e "error sending info"))
          | None => let '(l, r) := list_infos fuel db send it in (info_res info :: l, r)
          end
      end
  end.

Definition ListBlobInfo (db : DB) (start : bytes) (send : BlobInfoRes → option error)
    : list BlobInfoRes * result unit :=
  let it := StreamBlobInfo db start in
  list_infos (S (length it)) db send it.

(** [recips] are the peers the muxer gossips the update to. *)
Definition SendUpdate (recips : list Hash) (name : bytes) : M World Z :=
  header ← read_db (λ db, GetHeader db name);
  GossipAll (MUpdate (mkUpdate name (h_EpochHeight header) (h_SectorSize header)));;
  mret (u32 (zlen recips)).
End server.

(** ** Peers *)

Section peers.
Context `{LevelDB, JSON, Secp256k1, Blake2b}.
Context (opts : PeerManagerOpts) (now : Time).

Record GetStatusRes := mkGetStatusRes {
  gs_PeerID : bytes;
  gs_PeerCount : Z;
  gs_HeaderCount : Z;
  gs_TxBytes : Z;
  gs_RxBytes : Z;
}.

(** The connected peers are those of the manager's muxer, and its database is the
    one of the server. *)
Definition GetStatus (pm : peerManager) : result GetStatusRes :=
  let '(in_, out) := PeerCount (pm_mux pm) in
  hc ← GetHeaderCount (pm_db pm);
  Ok (mkGetStatusRes (po_peerID opts) (u32 (in_ + out)) (u32 hc) (mx_bytesTx (pm_mux pm))
        (mx_bytesRx (pm_mux pm))).

Definition Rpc_AddPeer (peerID ip addr : bytes) (verifyPeerID : bool) (o : dial_outcome) : M peerManager unit :=
  if verifyPeerID && negb (bool_decide (zlen peerID = 32)) then M_fail (ENew "peer id must be 32 bytes")
  else DialPeer opts now (go_copy ZeroHash peerID) ip addr verifyPeerID o.

(** [net.ParseIP(s).To4()], in the form it is stored in. *)
Definition parse_ip4 (s : bytes) : option bytes :=
  ip ← ParseIP s; ip4 ← To4 ip; Some (IP_String ip4).

Fixpoint close_all (peers : list PeerRef) : M peerManager unit :=
  match peers with
  | [] => mret tt
  | peer :: peers => close_peer peer;; close_all peers
  end.

Definition BanPeer (reqIp : bytes) (durationMS : Z) : M peerManager unit :=
  match parse_ip4 reqIp with
  | None => M_fail (ENew "invalid IP")
  | Some ip =>
      let dur := i64 (durationMS * Millisecond) in
      M_wrapping "error storing peer data" (on_pm_db (WithTx_only
        (BanInboundPeerTx now ip dur;; BanOutboundPeerTx now ip dur)));;
      pm ← M_get;
      close_all (PeersByIP ip (pm_mux pm))
  end.

Definition UnbanPeer (reqIp : bytes) : M peerManager unit :=
  match parse_ip4 reqIp with
  | None => M_fail (ENew "invalid IP")
  | Some ip =>
      M_wrapping "error storing peer data" (on_pm_db (WithTx_only
        (UnbanInboundPeerTx ip;; UnbanOutboundPeerTx ip)))
  end.

Record ListPeersRes := mkListPeersRes {
  lp_PeerID : bytes;
  lp_Ip : bytes;
  lp_Banned : bool;
  lp_Whitelisted : bool;
  lp_Connected : bool;
  lp_TxBytes : Z;
  lp_RxBytes : Z;
}.

(** [usage] is what [BandwidthUsage] of a peer returns. *)
Definition peer_res (usage : PeerRef → Z * Z) (mux : PeerMuxer) (peer : StorePeers.Peer) : ListPeersRes :=
  let live := mx_peers mux !! p_ID peer in
  let '(tx, rx) := match live with Some p => usage p | None => (0, 0) end in
  mkListPeersRes (p_ID peer) (p_IP peer) (Peer_IsBanned now peer) (p_Whitelisted peer)
    (bool_decide (is_Some live)) tx rx.

Fixpoint list_peers (fuel : nat) (usage : PeerRef → Z * Z) (mux : PeerMuxer) (db : DB)
    (send : ListPeersRes → option error) (it : list (bytes * bytes)) : list ListPeersRes * result unit :=
  match fuel with
  | O => ([], Ok tt)
  | S fuel =>
      match PeerStream_Next now db true it with
      | (Ok None, _) => ([], Ok tt)
      | (Err e, _) => ([], Err (EWrap e "error streaming peer data"))
      | (Panic w, _) => ([], Panic w)
      | (Ok (Some peer), it) =>
          let res := peer_res usage mux peer in
          match send res with
          | Some e => ([], Err e)
          | None => let '(l, r) := list_peers fuel usage mux db send it in (res :: l, r)
          end
      end
  end.

Definition ListPeers (usage : PeerRef → Z * Z) (send : ListPeersRes → option error) (pm : peerManager)
    : list ListPeersRes * result unit :=
  let it := StreamPeers (pm_db pm) in
  list_peers (S (length it)) usage (pm_mux pm) (pm_db pm) send it.
End peers.
