(* ===== verification/RpcClient.v ===== *)
(** * Package rpc: the clients

    [src/rpc/blob_writer.go], [blob_reader.go], [blob.go] and [net.go]: what programs
    that use a node call.  They work against the operations of the gRPC client, a
    record of functions on the state behind it; [server_client] is the one that
    reaches the server of [Rpc.v]. *)

From S2P Require Import Prelude GoLib Crypto Instances Sector Wire OsFile BlobIO BlobTx Names BlobStore.
From S2P Require Import Util StoreDB StoreInstances Store StorePeers Queue Syncer Updater Peer Mux PeerManager NetIP.
From S2P Require Import Rpc.

(** [apiv1.Footnotev1Client], the calls on blobs. *)
Record Footnotev1Client (S : Type) := mkClient {
  c_Checkout : CheckoutReq → M S CheckoutRes;
  c_WriteSector : WriteSectorReq → M S WriteSectorRes;
  c_Commit : CommitReq → M S unit;
  c_ReadAt : ReadAtReq → M S bytes;
}.
Arguments mkClient {S} _ _ _ _.
Arguments c_Checkout {S} _.
Arguments c_WriteSector {S} _.
Arguments c_Commit {S} _.
Arguments c_ReadAt {S} _.

Definition server_client `{LevelDB, JSON, Secp256k1, Blake2b} (now : Time) (blobsPath : bytes)
    : Footnotev1Client Server :=
  mkClient (Checkout now blobsPath) (Rpc_WriteSector now) (Rpc_Commit now)
    (λ req, of_node (Rpc_ReadAt blobsPath req)).

(** ** blob_writer.go *)

Section writer.
Context `{Secp256k1, Blake2b}.
Context {S : Type} (client : Footnotev1Client S).

Record BlobWriter := mkBlobWriter {
  bw_signer : Signer;
  bw_name : bytes;
  bw_epochHeight : Z;
  bw_sectorSize : Z;
  bw_sectorTipHash : Hash;
  bw_txID : Z;
  bw_opened : bool;
  bw_committed : bool;
  bw_resetEpoch : bool;
}.

Definition NewBlobWriter (signer : Signer) (name : bytes) (resetEpoch : bool) : BlobWriter :=
  mkBlobWriter signer name 0 0 ZeroHash 0 false false resetEpoch.

Definition call {A} (m : M S A) : M (S * BlobWriter) A := M_zoom fst (λ s x, (s, x.2)) m.

Definition set_writer (f : BlobWriter → BlobWriter) : M (S * BlobWriter) unit :=
  M_modify (λ x, (x.1, f x.2)).

Definition get_writer : M (S * BlobWriter) BlobWriter := λ x, (Ok x.2, x).

Definition Writer_Open : M (S * BlobWriter) unit :=
  b ← get_writer;
  if bw_opened b then M_panic "writer already open"
  else if bw_committed b then M_panic "writer committed"
  else
    res ← M_wrapping "failed to check out blob" (call (c_Checkout client (mkCheckoutReq (bw_name b) (bw_resetEpoch b))));
    let epochHeight := u16 (cs_EpochHeight res) in
    let sectorSize := u16 (cs_SectorSize res) in
    set_writer (λ b, mkBlobWriter (bw_signer b) (bw_name b) epochHeight sectorSize (bw_sectorTipHash b)
      (cs_TxID res) (bw_opened b) (bw_committed b) (bw_resetEpoch b));;
    tip ← M_lift (wrapping "failed to check out blob" (NewHashFromBytes (cs_SectorTipHash res)));
    set_writer (λ b, mkBlobWriter (bw_signer b) (bw_name b) (bw_epochHeight b) (bw_sectorSize b) tip
      (bw_txID b) true (bw_committed b) (bw_resetEpoch b)).

(** The guards of a writer that must be open. *)
Definition when_open {A} (body : BlobWriter → M (S * BlobWriter) A) : M (S * BlobWriter) A :=
  b ← get_writer;
  if negb (bw_opened b) then M_panic "writer not open"
  else if bw_committed b then M_panic "writer committed"
  else body b.

Definition Writer_WriteSector (p : bytes) : M (S * BlobWriter) Hash :=
  when_open (λ b,
    let sector := go_copy ZeroSector p in
    res ← M_wrapping "error writing blob" (call (c_WriteSector client (mkWriteSectorReq (bw_txID b) p)));
    match ws_WriteErr res with
    | Some e => M_fail (EWrap e "error writing blob")
    | None =>
        let tip := SerialHashSector sector (bw_sectorTipHash b) in
        set_writer (λ b, mkBlobWriter (bw_signer b) (bw_name b) (bw_epochHeight b)
          (u16 (bw_sectorSize b + 1)) tip (bw_txID b) (bw_opened b) (bw_committed b) (bw_resetEpoch b));;
        mret tip
    end).

Definition Writer_Commit (broadcast : bool) : M (S * BlobWriter) Hash :=
  when_open (λ b,
    sig ← M_lift (wrapping "error sealing blob" (SignSeal (bw_signer b) (bw_name b) (bw_epochHeight b)
      (bw_sectorSize b) (bw_sectorTipHash b) ZeroHash));
    M_wrapping "error sending commit" (call (c_Commit client (mkCommitReq (bw_txID b) sig broadcast
      (bw_epochHeight b) (bw_sectorSize b) (bw_sectorTipHash b))));;
    set_writer (λ b, mkBlobWriter (bw_signer b) (bw_name b) (bw_epochHeight b) (bw_sectorSize b)
      (bw_sectorTipHash b) (bw_txID b) (bw_opened b) true (bw_resetEpoch b));;
    mret (bw_sectorTipHash b)).
End writer.

(** ** blob_reader.go *)

Section reader.
Context {S : Type} (client : Footnotev1Client S).

Record BlobReader := mkBlobReader { rd_name : bytes; rd_off : Z }.

Definition NewBlobReader (name : bytes) : BlobReader := mkBlobReader name 0.

(** The buffer after the call, the bytes read, and the error. *)
Definition Client_ReadAt (name p : bytes) (off : Z) : M S (bytes * Z * option error) :=
  r ← M_try (c_ReadAt client (mkReadAtReq name (u32 off) (u32 (zlen p))));
  match r with
  | Err e => mret (p, 0, Some e)
  | Panic w => M_panic w
  | Ok data =>
      let n := zlen data in
      mret (go_copy p data, n,
            if decide (n ≠ zlen p) then Some (ENew "unequal read - should not happen") else None)
  end.

(** A slice with a negative bound panics; one that is not longer than the buffer is
    in range. *)
Definition Client_Read (p : bytes) : M (S * BlobReader) (bytes * Z * option error) :=
  λ x, let '(s, b) := x in
    if decide (rd_off b = Size) then (Ok (p, 0, Some EOF), x)
    else
      let toRead := if decide (Size < rd_off b + zlen p) then Size - rd_off b else zlen p in
      if decide (toRead < 0) then (Panic "slice bounds out of range", x)
      else
        match Client_ReadAt (rd_name b) (take (Z.to_nat toRead) p) (rd_off b) s with
        | (Ok (buf, n, err), s) =>
            (Ok (buf ++ drop (Z.to_nat toRead) p, n, err), (s, mkBlobReader (rd_name b) (rd_off b + n)))
        | (Err e, s) => (Err e, (s, b))
        | (Panic w, s) => (Panic w, (s, b))
        end.

(** [SeekStart] looks at the old offset. *)
Definition Client_Seek (off whence : Z) (b : BlobReader) : result (Z * option error) * BlobReader :=
  let fail := (Ok (rd_off b, Some (ENew "seek beyond blob bounds")), b) in
  let go off := (Ok (off, None), mkBlobReader (rd_name b) off) in
  if decide (whence = io_SeekStart) then
    if decide (Size < rd_off b) then fail else go off
  else if decide (whence = io_SeekCurrent) then
    let next := i64 (rd_off b + off) in
    if decide (Size < next) then fail else go next
  else if decide (whence = io_SeekEnd) then
    let next := i64 (Size - off) in
    if decide (next < 0) then fail else go next
  else (Panic "invalid whence", b).
End reader.

(** ** blob.go *)

Section blob.
Context `{Secp256k1}.

Definition parseBlobInfoRes (res : BlobInfoRes) : result BlobInfo :=
  pub ← wrapping "error parsing public key" (ParsePubKey (br_PublicKey res));
  sectorTipHash ← wrapping "error parsing sector tip hash" (NewHashFromBytes (br_SectorTipHash res));
  reservedRoot ← wrapping "error parsing reserved root" (NewHashFromBytes (br_ReservedRoot res));
  sig ← wrapping "error parsing signature" (NewSignatureFromBytes (br_Signature res));
  Ok (mkBlobInfo (br_Name res) pub (br_ImportHeight res) (u16 (br_EpochHeight res))
        (u16 (br_SectorSize res)) sectorTipHash sig reservedRoot
        (time_Unix (i64 (br_ReceivedAt res))) (time_Unix (i64 (br_BannedAt res)))).

(** [ListBlobInfoContext]: the infos the callback is given until it returns false;
    the stream is the responses and how it ends. *)
Fixpoint list_infos_client (cb : BlobInfo → bool) (l : list BlobInfoRes) (end_ : result unit)
    : list BlobInfo * result unit :=
  match l with
  | [] => ([], end_)
  | res :: l =>
      match parseBlobInfoRes res with
      | Err e => ([], Err e)
      | Panic w => ([], Panic w)
      | Ok parsed =>
          if cb parsed then let '(infos, r) := list_infos_client cb l end_ in (parsed :: infos, r)
          else ([parsed], Ok tt)
      end
  end.
End blob.

(** ** net.go *)

Record NetPeer := mkNetPeer {
  np_ID : bytes;
  np_IP : bytes;
  np_Banned : bool;
  np_Whitelisted : bool;
  np_Connected : bool;
  np_TxBytes : Z;
  np_RxBytes : Z;
}.

Definition net_peer (res : ListPeersRes) : NetPeer :=
  mkNetPeer (hex_EncodeToString (lp_PeerID res)) (lp_Ip res) (lp_Banned res) (lp_Whitelisted res)
    (lp_Connected res) (lp_TxBytes res) (lp_RxBytes res).

(** [ListPeersContext]: the peers, unless the stream fails. *)
Definition ListPeersContext (stream : list ListPeersRes * result unit) : result (list NetPeer) :=
  match stream.2 with
  | Ok _ => Ok (net_peer <$> stream.1)
  | Err e => Err e
  | Panic w => Panic w
  end.

Record Status := mkStatus {
  st_PeerID : bytes;
  st_PeerCount : Z;
  st_HeaderCount : Z;
  st_TxBytes : Z;
  st_RxBytes : Z;
}.

Definition GetStatusContext (r : result GetStatusRes) : result Status :=
  res ← r;
  Ok (mkStatus (hex_EncodeToString (gs_PeerID res)) (gs_PeerCount res) (gs_HeaderCount res)
        (gs_TxBytes res) (gs_RxBytes res)).

(** [int] to [uint32], as [BanPeerContext] converts the duration. *)
Definition BanPeerContext {A} (ban : bytes → Z → A) (ip : bytes) (duration : Z) : A := ban ip (u32 duration).

Definition AddPeerContext {S} (add : bytes → bytes → bool → M S unit) (peerID ip : bytes) (verify : bool)
    : M S unit :=
  pIDBytes ← M_lift (hex_DecodeString peerID);
  add pIDBytes ip verify.
