(* ===== verification/RpcProofs.v ===== *)
(** * What the RPC server and its clients guarantee together

    A writer publishes what it wrote, and a commit is taken only with a signature of the
    name's owner over what the transaction shows. *)

From S2P Require Import Prelude GoLib Crypto Instances Sector Wire OsFile BlobIO BlobTx BlobSpec BlobSys BlobHash.
From S2P Require Import Names BlobStore Util StoreDB StoreInstances Store StorePeers Queue UpdateQueueProofs Syncer SyncerProofs.
From S2P Require Import Updater UpdaterProofs UpdaterComplete SectorServer ServerProofs Peer Handshake Mux PeerManager NetIP.
From S2P Require Import Rpc RpcClient.
#[local] Opaque Size.

(** ** The store *)

Lemma Sector_wf_copy data : Sector_wf (go_copy ZeroSector data).
Proof. apply Sector_wf_length. rewrite length_go_copy. apply Sector_wf_length, ZeroSector_wf. Qed.

Lemma Store_Open_entry `{Blake2b} blobsPath name s bl ps :
  Store_Open blobsPath name s = (Ok bl, ps) → ∃ r, ps.2 !! name = Some (mkPoolEntry bl r).
Proof.
  unfold Store_Open, Pool_Get, mbind, M_bind, M_get. destruct (s.2 !! name) as [e|].
  - intros [= <- <-]. eexists. simpl. by rewrite lookup_insert_eq.
  - unfold pool_fs, M_zoom. destruct (NewInStorePath blobsPath name s.1) as [[b| |] fs]; [|done..].
    intros [= <- <-]. eexists. simpl. by rewrite lookup_insert_eq.
Qed.

(** The blob of the name is the file [i] at [P], which holds [c]; if it is with the pool
    it is open. *)
Record name_blob (P name : bytes) (i : nat) (c : bytes) (ps : PS) : Prop := mkNameBlob {
  nb_name : fs_names ps.1 !! Path P = Some (File i);
  nb_inode : fs_inodes ps.1 !! i = Some c;
  nb_next : (i < fs_next ps.1)%nat;
  nb_pool : ∀ e, ps.2 !! name = Some e →
    blob_name (pe_blob e) = name ∧ 0 < pe_refs e ∧ blob_opened (pe_blob e) i P c ps.1;
}.

(** Closing a blob that is with the pool leaves what is stored. *)
Lemma close_Ok bl i P c r (ps : PS) :
  ps.2 !! blob_name bl = Some (mkPoolEntry bl r) → blob_opened bl i P c ps.1 →
  ∃ ps', wrappedBlob_Close bl ps = (Ok tt, ps') ∧ name_blob P (blob_name bl) i c ps'.
Proof.
  intros Hp Ho. pose proof Ho as ((off & Hf) & Hi & Hn & Hlt1 & Hlt2).
  unfold wrappedBlob_Close, Pool_Put, mbind, M_bind, M_get. rewrite Hp. simpl. case_decide.
  - eexists. split; [done|]. split; simpl; [done..|]. intros e He. rewrite lookup_insert_eq in He. by simplify_eq/=.
  - unfold pool_fs, M_zoom, Blob_Close, File_Close, open_file, mbind, M_bind. simpl. rewrite Hf.
    eexists. split; [done|]. split; simpl; [done..|]. intros e He. by rewrite lookup_delete_eq in He.
Qed.

(** ** Transactions of the server *)

(** The transaction [t] of the object [p] is checked out as [id] until [exp]; it is one
    of the blob [bl], which holds [c], shows [v] and has written up to sector [k]. *)
Record editing `{LevelDB, JSON, Secp256k1, Blake2b} (id : Z) (exp : Time) (bl : Blob) (i : nat) (P : bytes)
    (p : nat) (t : Tx) (c v : bytes) (k : Z) (s : Server) : Prop := mkEditing {
  ed_stored : (sv_txStore s : gmap bytes entry) !! FormatUint32 id = Some (mkEntry p exp);
  ed_object : sv_heap s !! p = Some (mkAwaitingTx bl t);
  ed_shows : shows_at bl i P c v k (sv_world s, t);
  ed_pool : ∃ r, (w_blobs (sv_world s)).2 !! blob_name bl = Some (mkPoolEntry bl r);
}.

(** Only the file system of the node may have changed. *)
Definition same_node `{LevelDB, Secp256k1} (w w' : World) : Prop := ∃ fs, w' = set_fs fs w.

Section editing.
Context `{LevelDB, JSON, Secp256k1, Blake2b}.

Lemma of_tx_node {A} (m : M TS A) w t r w' t' :
  of_tx m (w, t) = (r, (w', t')) → same_node w w'.
Proof.
  unfold of_tx, M_zoom. simpl. destruct (m _) as [r0 [fs t0]]. intros [= <- <- <-]. by exists fs.
Qed.

Lemma find_tx_Ok now id exp bl i P p t c v k s :
  editing id exp bl i P p t c v k s → now ≤ exp → find_tx now id s = (Ok p, s).
Proof.
  intros [Hs _ _ _] Hn. unfold find_tx, mbind, M_bind, on_txStore, M_zoom.
  unfold Cache_Get, mbind, M_bind, M_get. rewrite Hs. simpl. rewrite decide_False by lia.
  by destruct s.
Qed.

Lemma on_awaiting_step {A} p (m : M WT A) s a r w' t' :
  sv_heap s !! p = Some a → m (sv_world s, aw_tx a) = (r, (w', t')) →
  on_awaiting p m s =
  (r, mkServer w' (sv_txStore s) (<[p := mkAwaitingTx (aw_blob a) t']> (sv_heap s)) (sv_lastTxID s)).
Proof. intros Hp Hm. unfold on_awaiting. by rewrite Hp, Hm. Qed.

(** The state after a call on the transaction. *)
Definition after_tx (s : Server) (bl : Blob) (p : nat) (w' : World) (t' : Tx) : Server :=
  mkServer w' (sv_txStore s) (<[p := mkAwaitingTx bl t']> (sv_heap s)) (sv_lastTxID s).

Lemma editing_after id exp bl i P p t c v k s v' k' w' t' :
  editing id exp bl i P p t c v k s → same_node (sv_world s) w' → shows_at bl i P c v' k' (w', t') →
  editing id exp bl i P p t' c v' k' (after_tx s bl p w' t').
Proof.
  intros [Hs Ho _ Hp] [fs ->] Hv. split; [done| |done|done].
  simpl. apply list_lookup_insert_eq. by eapply lookup_lt_Some.
Qed.

Lemma write_sector_call now id exp bl i P p t c v k s data :
  editing id exp bl i P p t c v k s → now ≤ exp → 0 ≤ k → k + 1 ≤ MaxSectors →
  (Z.to_nat (k * SectorBytes) ≤ length v)%nat →
  ∃ t' s', Rpc_WriteSector now (mkWriteSectorReq id data) s = (Ok (mkWriteSectorRes None), s') ∧
    editing id exp bl i P p t' c (write_at v (Z.to_nat (k * SectorBytes)) (go_copy ZeroSector data)) (k + 1) s' ∧
    same_node (sv_world s) (sv_world s').
Proof.
  intros He Hn Hk Hm Hv. pose proof (ed_shows _ _ _ _ _ _ _ _ _ _ _ He) as Hs.
  destruct (write_sector_Ok bl i P c (go_copy ZeroSector data) v k (sv_world s) t Hs Hk Hm) as (fs' & t' & Hw & Hs').
  { apply Sector_wf_copy. }
  pose proof (of_tx_node _ _ _ _ _ _ Hw) as Hsame.
  exists t', (after_tx s bl p (set_fs fs' (sv_world s)) t').
  split_and!; [|by eapply editing_after|done].
  unfold Rpc_WriteSector. cbn [wq_TxID wq_Data]. rewrite (M_bind_step _ _ _ _ _ (find_tx_Ok _ _ _ _ _ _ _ _ _ _ _ _ He Hn)).
  rewrite (M_bind_step _ _ _ (Ok tt) (after_tx s bl p (set_fs fs' (sv_world s)) t')); [done|].
  apply M_try_Ok. by rewrite (on_awaiting_step _ _ _ _ _ _ _ (ed_object _ _ _ _ _ _ _ _ _ _ _ He) Hw).
Qed.

(** A checkout starts from the header, or anew in the next epoch. *)
Lemma checkout_call t0 blobsPath name (reset : bool) s bl ps i P c e k tip :
  let w := sv_world s in
  let id := u32 (sv_lastTxID s + 1) in
  let k' := if reset then 0 else k in
  Store_Open blobsPath name (w_blobs w) = (Ok bl, ps) → blob_name bl = name → blob_opened bl i P c ps.1 →
  checkout_start t0 name (w_db w) = Ok (e, k, tip) → 0 ≤ k ≤ MaxSectors →
  (reset = true → e ≤ CurrentEpoch t0 name) → 0 ≤ t0 → t0 + TransactionExpiry * Millisecond < 2 ^ 63 →
  ∃ p t s', Checkout t0 blobsPath (mkCheckoutReq name reset) s =
      (Ok (mkCheckoutRes id (if reset then u16 (e + 1) else e) k' (if reset then ZeroHash else tip)), s') ∧
    editing id (t0 + TransactionExpiry * Millisecond) bl i P p t c (if reset then zero_blob else c) k' s' ∧
    same_node (mkWorld (w_db w) ps (w_locks w) (w_sent w)) (sv_world s').
Proof.
  intros w id k' Ho Hn Hop Hst Hk He Ht Hlt. set (w1 := mkWorld (w_db w) ps (w_locks w) (w_sent w)).
  assert (0 ≤ k' ≤ MaxSectors) as Hk' by (unfold k'; unfold MaxSectors in *; destruct reset; lia).
  destruct (start_tx_Ok bl i P reset k' c w1 Hop Hk') as (fs1 & t1 & fs2 & t2 & Htr & Hsk & Hs).
  destruct (Store_Open_entry _ _ _ _ _ Ho) as [r Hr].
  exists (length (sv_heap s)), t2. eexists. split_and!.
  - unfold Checkout. cbn [cq_Name cq_ResetEpoch].
    rewrite (M_bind_step _ _ _ tt (mkServer w (sv_txStore s) (sv_heap s) id)) by done.
    rewrite (M_bind_step M_get _ _ _ _ eq_refl). cbn [sv_lastTxID].
    rewrite (M_bind_step _ _ _ bl (mkServer w1 (sv_txStore s) (sv_heap s) id))
      by (unfold of_node, on_blobs, M_zoom; simpl; by rewrite Ho).
    rewrite (M_bind_step _ _ _ (e, k, tip) (mkServer w1 (sv_txStore s) (sv_heap s) id))
      by (unfold of_node, M_zoom, read_db; simpl; by rewrite Hst).
    assert (checkout_tx t0 name reset (e, k, tip) (w1, Blob_Transaction bl) =
      (Ok (if reset then u16 (e + 1) else e, k', if reset then ZeroHash else tip), (set_fs fs2 w1, t2))) as Hc.
    { unfold checkout_tx. rewrite (M_bind_step _ _ _ (if reset then u16 (e + 1) else e, k',
        if reset then ZeroHash else tip) (set_fs fs1 w1, t1)).
      - by rewrite (M_bind_step _ _ _ _ _ Hsk).
      - destruct reset; [|apply (f_equal snd) in Htr; cbn [snd] in Htr; unfold mret, M_ret in *; by rewrite <- Htr].
        rewrite decide_False by (specialize (He eq_refl); lia). by rewrite (M_bind_step _ _ _ _ _ Htr). }
    rewrite (M_bind_step _ _ _ (if reset then u16 (e + 1) else e, k', if reset then ZeroHash else tip, length (sv_heap s))
      (mkServer (set_fs fs2 w1) (sv_txStore s) (sv_heap s ++ [mkAwaitingTx bl t2]) id))
      by (unfold begin_tx; cbn [sv_world]; by rewrite Hc).
    reflexivity.
  - split; simpl; [|by apply list_lookup_middle|done|by exists r; rewrite Hn].
    rewrite lookup_insert_eq. unfold TransactionExpiry, Millisecond in *.
    rewrite (i64_small (15000 * 1000000)) by lia. by rewrite i64_small by lia.
  - by exists fs2.
Qed.

Lemma same_node_refl w : same_node w w.
Proof. exists (w_blobs w).1. by destruct w as [db [fs pool] locks out]. Qed.

Lemma same_node_trans w1 w2 w3 : same_node w1 w2 → same_node w2 w3 → same_node w1 w3.
Proof. intros [fs1 ->] [fs2 ->]. by exists fs2. Qed.
End editing.

(** ** Commits *)

Section commits.
Context `{HL : LevelDBLaws, JSON, Secp256k1, Blake2b}.

(** The hashes of what the transaction shows. *)
Definition hashes_of (n : Z) (v : bytes) : SectorHashes :=
  go_copy ZeroSectorHashes (chain ZeroHash (sectors_of (Z.to_nat n) v)).

Lemma hash_call id exp bl i P p t c v k s n :
  editing id exp bl i P p t c v k s → Size ≤ zlen v → 0 ≤ n ≤ MaxSectors →
  ∃ w' t', on_awaiting p (hash_tx n) s = (Ok (hashes_of n v), after_tx s bl p w' t') ∧
    shows bl i P c v (w', t') ∧ same_node (sv_world s) w'.
Proof.
  intros He Hv Hn. destruct (hash_tx_shows bl i P c v n (sv_world s) t) as (w' & t' & Hh & Hs & _).
  - eapply shows_at_shows; [by apply He|done].
  - done.
  - exists w', t'. split_and!; [|done|by eapply of_tx_node].
    by rewrite (on_awaiting_step _ _ _ _ _ _ _ (ed_object _ _ _ _ _ _ _ _ _ _ _ He) Hh).
Qed.

(** The checks of a commit pass exactly for a signature, by the key of the name, of
    the tip of what the transaction shows. *)
Lemma check_commit_spec id exp bl i P p t c v k s req name :
  editing id exp bl i P p t c v k s → Size ≤ zlen v → 0 ≤ u16 (mq_SectorSize req) ≤ MaxSectors →
  let n := u16 (mq_SectorSize req) in
  let sig := go_copy (replicate 65 x00) (mq_Signature req) in
  let '(r, s') := check_commit p name req s in
  ((s' = s ∧ is_ok r = false) ∨ ∃ w' t', s' = after_tx s bl p w' t' ∧ shows bl i P c v (w', t') ∧ same_node (sv_world s) w') ∧
  ∀ x, r = Ok x ↔
    x = (hashes_of n v, Tip (hashes_of n v), sig) ∧ mq_SectorTipHash req = Tip (hashes_of n v) ∧
    length (mq_SectorTipHash req) = 32%nat ∧
    ∃ info, GetNameInfo (w_db (sv_world s)) name = Ok info ∧
      VerifySigPub (ni_PublicKey info) sig
        (SealHash name (u16 (mq_EpochHeight req)) n (Tip (hashes_of n v)) ZeroHash) = Ok true.
Proof.
  intros He Hv Hn n sig. unfold check_commit. fold n sig.
  destruct (hash_call _ _ _ _ _ _ _ _ _ _ _ _ He Hv Hn) as (w' & t' & Hh & Hs & Hw). fold n in Hh.
  destruct (GetNameInfo (w_db (sv_world s)) name) as [info|e|x] eqn:Hi.
  2-3: unfold mbind at 1, M_bind at 1, of_node, M_zoom, M_wrapping, read_db; rewrite Hi; simpl;
    (split; [left; by destruct s|]); intros x'; split; [done|]; intros (_ & _ & _ & ? & ? & _); done.
  rewrite (M_bind_step _ _ _ info s)
    by (unfold of_node, M_zoom, M_wrapping, read_db; rewrite Hi; by destruct s).
  unfold NewHashFromBytes. case_decide as Hlen.
  { split; [by left|]. intros x. split; [done|]. by intros (_ & _ & ? & _). }
  simpl. rewrite go_copy_full by done.
  rewrite (M_bind_step (M_lift _) _ s (mq_SectorTipHash req) s) by done.
  rewrite (M_bind_step _ _ _ (hashes_of n v) (after_tx s bl p w' t'))
    by (unfold M_wrapping; by rewrite Hh).
  case_decide as Htip.
  { split; [right; by eexists _, _|]. intros x. split; [done|]. intros (_ & ? & _). congruence. }
  unfold mbind, M_bind, M_lift. rewrite <- Htip.
  destruct (VerifySigPub _ _ _) as [[|]|e|x] eqn:Hver; simpl.
  - split; [right; by eexists _, _|]. intros x. split; [intros [= <-]|by intros (-> & _)].
    split_and!; [done|done|congruence|]. by exists info.
  - split; [right; by eexists _, _|]. intros x. split; [done|]. intros (_ & _ & _ & info' & [= <-] & ?). congruence.
  - split; [right; by eexists _, _|]. intros x. split; [done|]. intros (_ & _ & _ & info' & [= <-] & ?). congruence.
  - split; [right; by eexists _, _|]. intros y. split; [done|]. intros (_ & _ & _ & info' & [= <-] & ?). congruence.
Qed.

Definition committed_header (now : Time) (name : bytes) (req : CommitReq) (tip : Hash) (sig : Signature) : Header :=
  mkHeader name (u16 (mq_EpochHeight req)) (u16 (mq_SectorSize req)) tip sig ZeroHash now.

(** What a commit sends. *)
Definition announced (name : bytes) (req : CommitReq) : list sent :=
  if mq_Broadcast req
  then [ToAll (MUpdate (mkUpdate name (u16 (mq_EpochHeight req)) (u16 (mq_SectorSize req))))] else [].

Lemma commit_locked_spec now bl i P p c v req hashes tip sig s t r0 :
  sv_heap s !! p = Some (mkAwaitingTx bl t) → shows bl i P c v (sv_world s, t) → zlen c = zlen v →
  (w_blobs (sv_world s)).2 !! blob_name bl = Some (mkPoolEntry bl r0) →
  let w := sv_world s in
  let '(r, s') := commit_locked now p (blob_name bl) req hashes tip sig s in
  let w' := sv_world s' in
  w_locks w' = w_locks w ∧
  match WithTx_only (SetHeaderTx (committed_header now (blob_name bl) req tip sig) hashes) (w_db w) with
  | (Ok _, db') => r = Ok tt ∧ w_db w' = db' ∧ name_blob P (blob_name bl) i v (w_blobs w') ∧
                   w_sent w' = w_sent w ++ announced (blob_name bl) req
  | _ => r ≠ Ok tt ∧ w_db w' = w_db w ∧ w_blobs w' = w_blobs w
  end.
Proof.
  intros Hp Hs Hlen Hr w. unfold commit_locked. fold (committed_header now (blob_name bl) req tip sig).
  unfold mbind at 1, M_bind at 1, of_node at 1, M_zoom at 1, M_wrapping at 1, on_db, M_zoom at 1. fold w.
  destruct (WithTx_only _ (w_db w)) as [r1 db1] eqn:Hset.
  destruct (WithTx_only_SetHeader _ _ _ _ _ Hset) as [->|[[x ->] ->]]; [|done]. cbn [wrapping].
  set (w1 := mkWorld db1 (w_blobs w) (w_locks w) (w_sent w)).
  destruct (Commit_holds bl i P c v (w1, t) Hs) as ([w2 t2] & Hc & Hh).
  destruct (of_tx_node _ _ _ _ _ _ Hc) as [fs2 Hw2].
  rewrite (M_bind_step _ _ _ tt (after_tx (mkServer w1 (sv_txStore s) (sv_heap s) (sv_lastTxID s)) bl p w2 t2)).
  2:{ unfold M_wrapping. rewrite (on_awaiting_step p _ _ (mkAwaitingTx bl t) (Ok tt) w2 t2); done. }
  rewrite (M_bind_step _ _ _ (mkAwaitingTx bl t2) (after_tx (mkServer w1 (sv_txStore s) (sv_heap s) (sv_lastTxID s)) bl p w2 t2)).
  2:{ unfold get_awaiting. simpl. by rewrite list_lookup_insert_eq by (by eapply lookup_lt_Some). }
  cbn [aw_blob]. destruct Hh as (ab & a & HR & _ & ->). destruct HR as [Hf Hi Hn [Hlt1 Hlt2]]. simpl in Hf, Hi, Hn, Hlt1, Hlt2.
  rewrite drop_ge, app_nil_r in Hi by (unfold zlen in Hlen; lia).
  destruct (close_Ok bl i P v r0 (w_blobs w2)) as (ps' & Hcl & Hnb); [by rewrite Hw2|by split_and!|].
  rewrite (M_bind_step _ _ _ tt (after_tx (mkServer w1 (sv_txStore s) (sv_heap s) (sv_lastTxID s)) bl p
    (mkWorld (w_db w2) ps' (w_locks w2) (w_sent w2)) t2)).
  2:{ unfold of_node, M_zoom, M_wrapping, on_blobs, M_zoom. simpl. by rewrite Hcl. }
  unfold announced. destruct (mq_Broadcast req); simpl; rewrite Hw2; simpl; rewrite ?app_nil_r; done.
Qed.

(** The request of a commit is signed by the key of the name, for what the transaction
    shows. *)
Definition signed_commit (db : DB) (name : bytes) (req : CommitReq) (v : bytes) : Prop :=
  let n := u16 (mq_SectorSize req) in
  mq_SectorTipHash req = Tip (hashes_of n v) ∧
  ∃ info, GetNameInfo db name = Ok info ∧
    VerifySigPub (ni_PublicKey info) (go_copy (replicate 65 x00) (mq_Signature req))
      (SealHash name (u16 (mq_EpochHeight req)) n (Tip (hashes_of n v)) ZeroHash) = Ok true.

(** A commit, from the transaction on: it is the locked part, if the checks pass and
    the name is free, and else an error that leaves database and blob. *)
Lemma commit_cases now id exp bl i P p t c v k s req hh :
  editing id exp bl i P p t c v k s → now ≤ exp → mq_TxID req = id → zlen v = Size →
  0 ≤ u16 (mq_SectorSize req) ≤ MaxSectors → lock_inv (w_locks (sv_world s), hh) →
  let n := u16 (mq_SectorSize req) in
  let sig := go_copy (replicate 65 x00) (mq_Signature req) in
  let name := blob_name bl in
  let w := sv_world s in
  let '(r, s') := Rpc_Commit now req s in
  let w' := sv_world s' in
  (¬ (signed_commit (w_db w) name req v ∧ length (mq_SectorTipHash req) = 32%nat ∧
      held_r hh name = 0 ∧ held_w hh name = 0) ∧
   r ≠ Ok tt ∧ w_db w' = w_db w ∧ content (w_blobs w').1 i = c ∧ lock_inv (w_locks w', hh)) ∨
  (signed_commit (w_db w) name req v ∧ held_w hh name = 0 ∧
   ∃ w1 t1 l, same_node w w1 ∧ shows bl i P c v (w1, t1) ∧
    lock_inv (l, mkHeld (held_r hh) (upd (held_w hh) name 1)) ∧
    (r, s') = M_defer (of_node (on_locks (Unlock name)))
      (commit_locked now p name req (hashes_of n v) (Tip (hashes_of n v)) sig)
      (after_tx s bl p (mkWorld (w_db w1) (w_blobs w1) l (w_sent w1)) t1)).
Proof.
  intros He Hnow Hid Hv Hn Hinv n sig name w. unfold Rpc_Commit. rewrite Hid.
  rewrite (M_bind_step _ _ _ _ _ (find_tx_Ok _ _ _ _ _ _ _ _ _ _ _ _ He Hnow)).
  rewrite (M_bind_step _ _ _ (mkAwaitingTx bl t) s)
    by (unfold get_awaiting; by rewrite (ed_object _ _ _ _ _ _ _ _ _ _ _ He)).
  assert (tx_blob t = bl) as Htb.
  { destruct (ed_shows _ _ _ _ _ _ _ _ _ _ _ He) as (ab & a & _ & HT & _). apply (rt_blob _ _ _ _ _ HT). }
  cbn [aw_tx]. rewrite Htb. fold name. unfold mbind at 1, M_bind at 1.
  pose proof (check_commit_spec _ _ _ _ _ _ _ _ _ _ _ req (blob_name bl) He ltac:(lia) Hn) as Hck.
  fold n sig name in Hck. destruct (check_commit p name req s) as [rc s1]. destruct Hck as [Hst Hrc].
  assert (content (w_blobs (sv_world s1)).1 i = c ∧ w_db (sv_world s1) = w_db w ∧
    w_locks (sv_world s1) = w_locks w) as (Hc1 & Hd1 & Hl1).
  { destruct Hst as [[-> _]|(w' & t' & -> & Hs & [fs Hfs])].
    - destruct (ed_shows _ _ _ _ _ _ _ _ _ _ _ He) as (ab & a & HR & _ & -> & _).
      split; [apply content_Some, (rb_content _ _ _ _ _ HR)|done].
    - simpl. split; [|by rewrite Hfs].
      apply (blob_holds_content bl i P c (w', t')), in_progress_holds. by exists v. }
  destruct rc as [x|e|y]; [|left; split_and!; [|done|done|done|by rewrite Hl1]..].
  2-3: intros ([Htip (info & Hi & Hver)] & Hlen & _); discriminate (proj2 (Hrc _) (conj eq_refl (conj Htip
    (conj Hlen (ex_intro _ info (conj Hi Hver)))))).
  destruct (proj1 (Hrc x) eq_refl) as (-> & Htip & _ & Hinfo).
  destruct Hst as [[_ [=]]|(w1 & t1 & -> & Hs & [fs1 Hfs1])].
  assert (w_locks w1 = w_locks w) as Hlk by (by rewrite Hfs1).
  destruct (TryLock_spec (w_locks w) hh name Hinv) as (l & Hl & Hinv').
  rewrite (M_bind_step _ _ _ (bool_decide (held_r hh name = 0 ∧ held_w hh name = 0))
    (after_tx s bl p (mkWorld (w_db w1) (w_blobs w1) l (w_sent w1)) t1)).
  2:{ unfold of_node, M_zoom, on_locks, M_zoom. simpl. by rewrite Hlk, Hl. }
  case_bool_decide as Hfree; cbn [negb].
  2:{ left. split_and!; try done; [tauto|]. simpl.
      destruct hh as [hr hw]. eapply upd_ext; [..|exact Hinv']; [done|].
      intros k'. simpl. unfold upd. case_decide; lia. }
  destruct (M_defer _ _ _) as [r s'] eqn:Hd. right. split_and!; [done|apply Hfree|].
  exists w1, t1, l. split_and!; try done. by exists fs1.
Qed.

Lemma commit_unlocked {A} name (m : M Server A) s r s1 hh :
  m s = (r, s1) → lock_inv (w_locks (sv_world s1), mkHeld (held_r hh) (upd (held_w hh) name 1)) →
  held_w hh name = 0 →
  ∃ l, M_defer (of_node (on_locks (Unlock name))) m s =
      (r, mkServer (mkWorld (w_db (sv_world s1)) (w_blobs (sv_world s1)) l (w_sent (sv_world s1)))
            (sv_txStore s1) (sv_heap s1) (sv_lastTxID s1)) ∧
    lock_inv (l, hh).
Proof.
  intros Hm Hinv Hw. destruct (Unlock_spec _ _ name Hinv) as (l & Hu & Hl).
  { simpl. unfold upd. rewrite decide_True by done. lia. }
  exists l. split.
  - unfold M_defer. rewrite Hm. unfold of_node, M_zoom, on_locks, M_zoom. by rewrite Hu.
  - destruct hh as [hr hw]. eapply upd_ext; [..|exact Hl]; [done|]. intros k. simpl. unfold upd.
    case_decide; lia.
Qed.

(** How a commit ends. *)
Lemma commit_spec now id exp bl i P p t c v k s req hh :
  editing id exp bl i P p t c v k s → now ≤ exp → mq_TxID req = id → zlen c = Size → zlen v = Size →
  0 ≤ u16 (mq_SectorSize req) ≤ MaxSectors → lock_inv (w_locks (sv_world s), hh) →
  let n := u16 (mq_SectorSize req) in
  let sig := go_copy (replicate 65 x00) (mq_Signature req) in
  let name := blob_name bl in
  let w := sv_world s in
  let '(r, s') := Rpc_Commit now req s in
  let w' := sv_world s' in
  lock_inv (w_locks w', hh) ∧
  ((¬ (signed_commit (w_db w) name req v ∧ length (mq_SectorTipHash req) = 32%nat ∧
       held_r hh name = 0 ∧ held_w hh name = 0) ∧
    r ≠ Ok tt ∧ w_db w' = w_db w ∧ content (w_blobs w').1 i = c) ∨
   signed_commit (w_db w) name req v ∧
   match WithTx_only (SetHeaderTx (committed_header now name req (Tip (hashes_of n v)) sig) (hashes_of n v))
       (w_db w) with
   | (Ok _, db') => r = Ok tt ∧ w_db w' = db' ∧ name_blob P name i v (w_blobs w') ∧
                    w_sent w' = w_sent w ++ announced name req
   | _ => r ≠ Ok tt ∧ w_db w' = w_db w ∧ content (w_blobs w').1 i = c
   end).
Proof.
  intros He Hnow Hid Hc Hv Hn Hinv n sig name w.
  pose proof (commit_cases now _ _ _ _ _ _ _ _ _ _ _ req hh He Hnow Hid Hv Hn Hinv) as Hcc.
  fold n sig w name in Hcc. destruct (Rpc_Commit now req s) as [r s'].
  destruct Hcc as [(? & ? & ? & ? & ?)|(Hsg & Hw & w1 & t1 & l & [fs1 ->] & Hs & Hl & Hrun)].
  { split; [done|]. by left. }
  set (S1 := after_tx s bl p _ t1) in Hrun. destruct (ed_pool _ _ _ _ _ _ _ _ _ _ _ He) as [r0 Hr0].
  pose proof (commit_locked_spec now bl i P p c v req (hashes_of n v) (Tip (hashes_of n v)) sig S1 t1 r0) as Hcl.
  fold name in Hcl. destruct (commit_locked now p name req _ _ sig S1) as [r1 s1] eqn:Hrun1.
  destruct Hcl as [Hlk Hcl].
  { simpl. apply list_lookup_insert_eq. eapply lookup_lt_Some, He. }
  { done. } { congruence. } { done. }
  destruct (commit_unlocked name _ _ _ _ hh Hrun1) as (l2 & Hd & Hl2); [by rewrite Hlk|done|].
  rewrite Hd in Hrun. injection Hrun as -> ->. split; [exact Hl2|]. right. split; [done|].
  simpl in Hcl |- *. destruct (WithTx_only _ (w_db w)) as [[[]| |] db']; [done|..].
  all: destruct Hcl as (? & ? & Hb); split_and!; try done; rewrite Hb;
    apply (blob_holds_content bl i P c (set_fs fs1 w, t1)), in_progress_holds; by exists v.
Qed.
End commits.


(** ** Writers *)

Section writers.
Context `{HL : LevelDBLaws, HJ : JSONLaws, HS : Secp256k1Laws, Blake2b}.
Context (blobsPath : bytes).

(** The calls of a client that writes sectors, each with the time it is made at. *)
Fixpoint write_all (writes : list (Time * bytes)) : M (Server * BlobWriter) unit :=
  match writes with
  | [] => mret tt
  | (now, data) :: writes => Writer_WriteSector (server_client now blobsPath) data;; write_all writes
  end.

Definition publish (t0 : Time) (writes : list (Time * bytes)) (tc : Time) (broadcast : bool)
    : M (Server * BlobWriter) Hash :=
  Writer_Open (server_client t0 blobsPath);;
  write_all writes;;
  Writer_Commit (server_client tc blobsPath) broadcast.

(** The sectors that are written. *)
Definition written (writes : list (Time * bytes)) : list Sector := (λ x, go_copy ZeroSector x.2) <$> writes.

Lemma written_wf writes : Forall Sector_wf (written writes).
Proof. apply Forall_fmap, Forall_true. intros x. apply Sector_wf_copy. Qed.

Lemma write_all_Ok id exp bl i P p c sgn name e reset writes : ∀ t v k tip s,
  editing id exp bl i P p t c v k s → Forall (λ x, x.1 ≤ exp) writes → 0 ≤ k →
  k + zlen writes ≤ MaxSectors → (Z.to_nat (k * SectorBytes) ≤ length v)%nat →
  ∃ t' s', write_all writes (s, mkBlobWriter sgn name e k tip id true false reset) =
      (Ok tt, (s', mkBlobWriter sgn name e (k + zlen writes) (tip_from tip (written writes)) id true false reset)) ∧
    editing id exp bl i P p t' c (with_sectors v k (written writes)) (k + zlen writes) s' ∧
    same_node (sv_world s) (sv_world s').
Proof.
  induction writes as [|[now data] writes IH]; intros t v k tip s He Hexp Hk Hm Hv.
  - exists t, s. rewrite zlen_nil, Z.add_0_r. split_and!; [done| |apply same_node_refl].
    change (written []) with (@nil Sector). unfold with_sectors. rewrite zlen_nil, Z.add_0_r.
    change (mjoin (@nil Sector)) with (@nil byte). by rewrite app_nil_l, take_drop.
  - rewrite zlen_cons in Hm |- *. pose proof (zlen_nonneg writes) as Hz. apply Forall_cons in Hexp as [Hnow Hexp].
    destruct (write_sector_call now id exp bl i P p t c v k s data He Hnow Hk) as (t1 & s1 & Hw & He1 & Hn1); [lia|done|].
    destruct (IH t1 _ (k + 1) (SerialHashSector (go_copy ZeroSector data) tip) s1 He1 Hexp) as (t2 & s2 & Hall & He2 & Hn2);
      [lia|lia| |].
    { rewrite length_write_at. rewrite (proj1 (Sector_wf_length _) (Sector_wf_copy data)). unfold SectorBytes in *. lia. }
    exists t2, s2. split_and!.
    + cbn [write_all]. rewrite (M_bind_step _ _ _ (SerialHashSector (go_copy ZeroSector data) tip)
        (s1, mkBlobWriter sgn name e (k + 1) (SerialHashSector (go_copy ZeroSector data) tip) id true false reset)).
      * rewrite Hall. by replace (k + 1 + zlen writes) with (k + (1 + zlen writes)) by lia.
      * unfold Writer_WriteSector, when_open, get_writer, mbind, M_bind. cbn [snd bw_opened bw_committed negb].
        unfold M_wrapping, call, M_zoom. cbn [fst snd server_client c_WriteSector bw_txID]. rewrite Hw. cbn.
        unfold u16. rewrite Z.mod_small by (unfold MaxSectors in *; lia). done.
    + rewrite with_sectors_cons in He2; [|done|apply Sector_wf_copy|done].
      by replace (k + (1 + zlen writes)) with (k + 1 + zlen writes) by lia.
    + by eapply same_node_trans.
Qed.

(** What the writer starts from: the header of the name, or an empty blob of the next
    epoch. *)
Record session_ := mkSession {
  se_name : bytes;
  se_reset : bool;
  se_header : Z * Z * Hash;
  se_blob : Blob;
  se_content : bytes;
  se_writes : list (Time * bytes);
}.

Definition se_epoch (x : session_) : Z := if se_reset x then u16 ((se_header x).1.1 + 1) else (se_header x).1.1.
Definition se_start (x : session_) : Z := if se_reset x then 0 else (se_header x).1.2.
Definition se_base (x : session_) : bytes := if se_reset x then zero_blob else se_content x.
Definition se_size (x : session_) : Z := se_start x + zlen (se_writes x).
Definition se_result (x : session_) : bytes := with_sectors (se_base x) (se_start x) (written (se_writes x)).
Definition se_sectors (x : session_) : list Sector := sectors_of (Z.to_nat (se_size x)) (se_result x).
Definition se_tip (x : session_) : Hash := tip_from ZeroHash (se_sectors x).

(** The writer holds the key of the name, its calls come before the transaction
    expires, the sectors fit, nobody else uses the name, and the stored header is the
    one of the blob. *)
Record publishable (x : session_) (sk : PrivateKey) (sig : Signature) (t0 tc : Time) (s : Server) (ps : PS)
    (i : nat) (P : bytes) (hh : held) : Prop := mkPublishable {
  pb_open : Store_Open blobsPath (se_name x) (w_blobs (sv_world s)) = (Ok (se_blob x), ps);
  pb_name : blob_name (se_blob x) = se_name x;
  pb_blob : blob_opened (se_blob x) i P (se_content x) ps.1;
  pb_content : zlen (se_content x) = Size;
  pb_header : checkout_start t0 (se_name x) (w_db (sv_world s)) = Ok (se_header x);
  pb_range : 0 ≤ (se_header x).1.2 ≤ MaxSectors;
  pb_tip : se_reset x = false → (se_header x).2 = tip_from ZeroHash (sectors_of (Z.to_nat (se_header x).1.2) (se_content x));
  pb_reset : se_reset x = true → (se_header x).1.1 ≤ CurrentEpoch t0 (se_name x);
  pb_clock : 0 ≤ t0 ∧ t0 + TransactionExpiry * Millisecond < 2 ^ 63;
  pb_times : Forall (λ y, y.1 ≤ t0 + TransactionExpiry * Millisecond) (se_writes x) ∧
    tc ≤ t0 + TransactionExpiry * Millisecond;
  pb_max : se_size x ≤ MaxSectors;
  pb_key : ∃ info, GetNameInfo (w_db (sv_world s)) (se_name x) = Ok info ∧ ni_PublicKey info = PubKey sk;
  pb_sign : SignSeal (NewSECP256k1Signer sk) (se_name x) (se_epoch x) (se_size x) (se_tip x) ZeroHash = Ok sig;
  pb_free : lock_inv (w_locks (sv_world s), hh) ∧ held_r hh (se_name x) = 0 ∧ held_w hh (se_name x) = 0;
  pb_nonzero : Forall (λ h, h ≠ ZeroHash) (chain ZeroHash (se_sectors x));
  pb_wf : Header_wf (mkHeader (se_name x) (se_epoch x) (se_size x) (se_tip x) sig ZeroHash tc);
  pb_count : ∃ n, count_is (db_map (w_db (sv_world s))) n ∧ 0 ≤ n < MaxInt32;
}.

(** The sectors before the writes, and their tip. *)
Lemma session_parts x sk sig t0 tc s ps i P hh :
  publishable x sk sig t0 tc s ps i P hh →
  0 ≤ se_start x ≤ MaxSectors ∧ zlen (se_base x) = Size ∧ zlen (se_result x) = Size ∧
  (if se_reset x then ZeroHash else (se_header x).2) =
    tip_from ZeroHash (sectors_of (Z.to_nat (se_start x)) (se_base x)) ∧
  tip_from (if se_reset x then ZeroHash else (se_header x).2) (written (se_writes x)) = se_tip x ∧
  Tip (hashes_of (se_size x) (se_result x)) = se_tip x.
Proof.
  intros Hp. pose proof (pb_range _ _ _ _ _ _ _ _ _ _ Hp) as Hr. pose proof (zlen_nonneg (se_writes x)) as Hz.
  assert (0 ≤ se_start x ≤ MaxSectors) as Hst by (unfold se_start, MaxSectors in *; destruct (se_reset x); lia).
  assert (zlen (se_base x) = Size) as Hb
    by (unfold se_base; destruct (se_reset x); [apply zlen_zero_blob|apply Hp]).
  assert (zlen (written (se_writes x)) = zlen (se_writes x)) as Hl by (unfold zlen, written; by rewrite length_fmap).
  pose proof (pb_max _ _ _ _ _ _ _ _ _ _ Hp) as Hm. unfold se_size in Hm.
  assert (Z.to_nat (se_start x * SectorBytes) ≤ length (se_base x))%nat as Hle.
  { unfold zlen in Hb. rewrite Size_eq in Hb. unfold SectorBytes, MaxSectors in *. lia. }
  assert ((if se_reset x then ZeroHash else (se_header x).2) =
    tip_from ZeroHash (sectors_of (Z.to_nat (se_start x)) (se_base x))) as Ht.
  { unfold se_start, se_base. destruct (se_reset x) eqn:Hre; [done|by apply Hp]. }
  split_and!; [lia|lia|done| |done| |].
  - apply zlen_with_sectors; [lia|apply written_wf|lia|done].
  - rewrite Ht, <- tip_from_app. unfold se_tip, se_sectors, se_size. rewrite <- Hl at 1.
    unfold se_result. by rewrite sectors_of_with by (lia || apply written_wf || done).
  - unfold hashes_of. fold (se_sectors x). apply Tip_chain; [|apply Hp].
    unfold se_sectors, zlen. rewrite length_sectors_of. unfold se_size. lia.
Qed.

Lemma open_call x sk sig t0 tc s ps i P hh :
  publishable x sk sig t0 tc s ps i P hh →
  let id := u32 (sv_lastTxID s + 1) in
  let tip := if se_reset x then ZeroHash else (se_header x).2 in
  let w := sv_world s in
  ∃ p t s1, Writer_Open (server_client t0 blobsPath) (s, NewBlobWriter (NewSECP256k1Signer sk) (se_name x) (se_reset x)) =
      (Ok tt, (s1, mkBlobWriter (NewSECP256k1Signer sk) (se_name x) (se_epoch x) (se_start x) tip id true false (se_reset x))) ∧
    editing id (t0 + TransactionExpiry * Millisecond) (se_blob x) i P p t (se_content x) (se_base x) (se_start x) s1 ∧
    same_node (mkWorld (w_db w) ps (w_locks w) (w_sent w)) (sv_world s1).
Proof.
  intros Hp id tip w. destruct (session_parts _ _ _ _ _ _ _ _ _ _ Hp) as (Hst & _ & _ & Ht & _).
  destruct (checkout_call t0 blobsPath (se_name x) (se_reset x) s (se_blob x) ps i P (se_content x)
    (se_header x).1.1 (se_header x).1.2 (se_header x).2) as (p & t & s1 & Hc & He & Hn);
    [by apply Hp|by apply Hp|by apply Hp| |by apply Hp|by apply Hp|by apply Hp|by apply Hp|].
  { rewrite (pb_header _ _ _ _ _ _ _ _ _ _ Hp). by destruct (se_header x) as [[] ]. }
  exists p, t, s1. split_and!; [|done|done].
  destruct (pb_wf _ _ _ _ _ _ _ _ _ _ Hp) as (_ & Hep & _). cbn in Hep.
  fold tip in Ht. assert (length tip = 32%nat) as Hlen by (rewrite Ht; by apply tip_from_wf).
  assert (NewHashFromBytes tip = Ok tip) as Hnh.
  { unfold NewHashFromBytes. rewrite decide_False by tauto. by rewrite go_copy_full. }
  set (b0 := NewBlobWriter _ _ _). unfold Writer_Open. rewrite (M_bind_step get_writer _ (s, b0) b0 (s, b0)) by done.
  unfold b0 at 1 2 3 4. cbn [NewBlobWriter bw_opened bw_committed bw_name bw_resetEpoch].
  rewrite (M_bind_step _ _ _ (mkCheckoutRes id (se_epoch x) (se_start x) tip) (s1, b0))
    by (unfold M_wrapping, call, M_zoom; cbn [fst snd server_client c_Checkout]; by rewrite Hc).
  cbn [cs_EpochHeight cs_SectorSize cs_TxID cs_SectorTipHash].
  assert (u16 (se_epoch x) = se_epoch x) as -> by (by apply Z.mod_small).
  assert (u16 (se_start x) = se_start x) as -> by (apply Z.mod_small; unfold MaxSectors in *; lia).
  set (b1 := mkBlobWriter (NewSECP256k1Signer sk) (se_name x) (se_epoch x) (se_start x) ZeroHash id false false (se_reset x)).
  rewrite (M_bind_step _ _ _ tt (s1, b1)) by done.
  by rewrite (M_bind_step _ _ _ tip (s1, b1)) by (unfold M_lift; by rewrite Hnh).
Qed.

(** The commit of a writer whose call succeeds. *)
Lemma writer_commit_call tc broadcast sig s s' (b : BlobWriter) :
  bw_opened b = true → bw_committed b = false →
  SignSeal (bw_signer b) (bw_name b) (bw_epochHeight b) (bw_sectorSize b) (bw_sectorTipHash b) ZeroHash = Ok sig →
  Rpc_Commit tc (mkCommitReq (bw_txID b) sig broadcast (bw_epochHeight b) (bw_sectorSize b) (bw_sectorTipHash b)) s =
    (Ok tt, s') →
  Writer_Commit (server_client tc blobsPath) broadcast (s, b) =
  (Ok (bw_sectorTipHash b), (s', mkBlobWriter (bw_signer b) (bw_name b) (bw_epochHeight b) (bw_sectorSize b)
    (bw_sectorTipHash b) (bw_txID b) true true (bw_resetEpoch b))).
Proof.
  intros Ho Hc Hs Hr. unfold Writer_Commit, when_open. rewrite (M_bind_step get_writer _ (s, b) b (s, b)) by done.
  rewrite Ho, Hc. cbn [negb]. rewrite (M_bind_step (M_lift _) _ (s, b) sig (s, b)) by (unfold M_lift; by rewrite Hs).
  rewrite (M_bind_step _ _ _ tt (s', b)); [unfold mbind, M_bind, set_writer, M_modify; cbn [fst snd]; by rewrite Ho|].
  unfold M_wrapping, call, M_zoom. cbn [fst snd server_client c_Commit]. by rewrite Hr.
Qed.

(** The writer's request is signed for what it wrote. *)
Lemma session_signed x sk sig t0 tc s ps i P hh id broadcast :
  publishable x sk sig t0 tc s ps i P hh →
  let req := mkCommitReq id sig broadcast (se_epoch x) (se_size x) (se_tip x) in
  go_copy (replicate 65 x00) (mq_Signature req) = sig ∧
  signed_commit (w_db (sv_world s)) (se_name x) req (se_result x).
Proof.
  intros Hp req. destruct (session_parts _ _ _ _ _ _ _ _ _ _ Hp) as (_ & _ & _ & _ & _ & HTip).
  destruct (pb_wf _ _ _ _ _ _ _ _ _ _ Hp) as (_ & Hep & Hsz & _). cbn in Hep, Hsz.
  destruct (sign_seal_verifies _ _ _ _ _ _ _ (pb_sign _ _ _ _ _ _ _ _ _ _ Hp)) as (h & Hseal & Hsig & Hver).
  assert (go_copy (replicate 65 x00) (mq_Signature req) = sig) as Hcp by (by apply go_copy_full).
  split; [done|]. destruct (pb_key _ _ _ _ _ _ _ _ _ _ Hp) as (info & Hi & Hk). unfold signed_commit. rewrite Hcp.
  cbn [mq_SectorSize mq_SectorTipHash mq_EpochHeight req].
  assert (u16 (se_epoch x) = se_epoch x) as -> by (by apply Z.mod_small).
  assert (u16 (se_size x) = se_size x) as -> by (by apply Z.mod_small).
  rewrite HTip. split; [done|]. exists info. split; [done|]. rewrite Hk, Hseal. exact Hver.
Qed.

(** A writer runs to the end. *)
Lemma publish_run x sk sig t0 tc s ps i P hh broadcast :
  publishable x sk sig t0 tc s ps i P hh →
  ∃ s' b', publish t0 (se_writes x) tc broadcast (s, NewBlobWriter (NewSECP256k1Signer sk) (se_name x) (se_reset x)) =
      (Ok (se_tip x), (s', b')) ∧
    let w := sv_world s in
    let w' := sv_world s' in
    name_blob P (se_name x) i (se_result x) (w_blobs w') ∧
    GetHeader (w_db w') (se_name x) =
      Ok (mkHeader (se_name x) (se_epoch x) (se_size x) (se_tip x) sig ZeroHash tc) ∧
    GetSectorHashes (w_db w') (se_name x) = Ok (hashes_of (se_size x) (se_result x)) ∧
    lock_inv (w_locks w', hh) ∧
    w_sent w' = w_sent w ++ (if broadcast
      then [ToAll (MUpdate (mkUpdate (se_name x) (se_epoch x) (se_size x)))] else []).
Proof.
  intros Hp. destruct (session_parts _ _ _ _ _ _ _ _ _ _ Hp) as (Hst & Hb & Hres & Ht & Htip & HTip).
  destruct (pb_times _ _ _ _ _ _ _ _ _ _ Hp) as [Htimes Htc]. pose proof (pb_max _ _ _ _ _ _ _ _ _ _ Hp) as Hm.
  destruct (pb_free _ _ _ _ _ _ _ _ _ _ Hp) as (Hinv & Hr0 & Hw0). pose proof (zlen_nonneg (se_writes x)) as Hz.
  destruct (open_call _ _ _ _ _ _ _ _ _ _ Hp) as (p & t1 & s1 & Ho & He1 & [fs1 Hn1]).
  set (id := u32 _) in *. set (tip0 := if se_reset x then _ else _) in *.
  destruct (write_all_Ok id _ (se_blob x) i P p (se_content x) (NewSECP256k1Signer sk) (se_name x) (se_epoch x) (se_reset x)
    (se_writes x) t1 (se_base x) (se_start x) tip0 s1 He1 Htimes) as (t2 & s2 & Hwr & He2 & [fs2 Hn2]); [lia|done| |].
  { unfold zlen in Hb. rewrite Size_eq in Hb. unfold SectorBytes, MaxSectors in *. lia. }
  fold (se_size x) in Hwr, He2. fold (se_result x) in He2. rewrite Htip in Hwr.
  rewrite Hn1 in Hn2. pose proof (pb_name _ _ _ _ _ _ _ _ _ _ Hp) as Hname.
  destruct (pb_wf _ _ _ _ _ _ _ _ _ _ Hp) as (_ & Hep & Hsz & Htl & _). cbn in Hep, Hsz, Htl.
  assert (u16 (se_epoch x) = se_epoch x) as Eu1 by (by apply Z.mod_small).
  assert (u16 (se_size x) = se_size x) as Eu2 by (by apply Z.mod_small).
  set (req := mkCommitReq id sig broadcast (se_epoch x) (se_size x) (se_tip x)).
  destruct (session_signed _ _ _ _ _ _ _ _ _ _ id broadcast Hp) as [Hcp Hsg]. fold req in Hcp, Hsg.
  assert (w_db (sv_world s2) = w_db (sv_world s)) as Hdb by (by rewrite Hn2). rewrite <- Hdb in Hsg.
  pose proof (commit_spec tc id _ (se_blob x) i P p t2 _ _ _ s2 req hh He2 Htc eq_refl
    (pb_content _ _ _ _ _ _ _ _ _ _ Hp) Hres) as Hc. cbn [mq_SectorSize req] in Hc. rewrite Eu2, HTip, Hcp, Hname in Hc.
  specialize (Hc ltac:(unfold se_size in *; lia) ltac:(by rewrite Hn2)).
  destruct (pb_count _ _ _ _ _ _ _ _ _ _ Hp) as (n & Hcnt & Hn).
  destruct (SetHeader_stored (w_db (sv_world s2)) (mkHeader (se_name x) (se_epoch x) (se_size x) (se_tip x) sig ZeroHash tc)
    (hashes_of (se_size x) (se_result x)) n) as (db' & Hset & Hgh & Hgs & _).
  { apply Hp. }
  { apply go_copy_hashes_wf. unfold zlen. rewrite length_sectors_of. unfold se_size in *. lia. }
  { by rewrite Hn2. } { done. }
  unfold committed_header in Hc. cbn [mq_EpochHeight mq_SectorSize req] in Hc. rewrite Eu1, Eu2, Hset in Hc.
  destruct (Rpc_Commit tc req s2) as [r s'] eqn:Hrun. destruct Hc as [Hl [[[] _]|(_ & -> & Hd & Hct & Hsn)]].
  { split_and!; done. }
  eexists s', _. split.
  - unfold publish. rewrite (M_bind_step _ _ _ _ _ Ho), (M_bind_step _ _ _ _ _ Hwr).
    exact (writer_commit_call tc broadcast sig s2 s' (mkBlobWriter (NewSECP256k1Signer sk) (se_name x) (se_epoch x)
      (se_size x) (se_tip x) id true false (se_reset x)) eq_refl eq_refl (pb_sign _ _ _ _ _ _ _ _ _ _ Hp) Hrun).
  - cbv zeta. rewrite Hd. split_and!; try done. rewrite Hsn, Hn2. unfold announced. cbn. by rewrite Eu1, Eu2.
Qed.

(** C6: what a client writes is published.  A writer that opens a name, writes sectors
    and commits before the transaction expires gets the tip of what it wrote: the blob
    then holds the sectors after those that were there (or alone, in a new epoch),
    the header with the writer's signature and the hashes are stored, the locks are as
    before, and the update is gossiped if the writer asks for it. *)
Theorem writer_publishes x sk sig t0 tc s ps i P hh broadcast :
  publishable x sk sig t0 tc s ps i P hh →
  ∃ s' b', publish t0 (se_writes x) tc broadcast (s, NewBlobWriter (NewSECP256k1Signer sk) (se_name x) (se_reset x)) =
      (Ok (se_tip x), (s', b')) ∧
    let w := sv_world s in
    let w' := sv_world s' in
    name_blob P (se_name x) i (se_result x) (w_blobs w') ∧
    GetHeader (w_db w') (se_name x) =
      Ok (mkHeader (se_name x) (se_epoch x) (se_size x) (se_tip x) sig ZeroHash tc) ∧
    GetSectorHashes (w_db w') (se_name x) = Ok (hashes_of (se_size x) (se_result x)) ∧
    lock_inv (w_locks w', hh) ∧
    w_sent w' = w_sent w ++ (if broadcast
      then [ToAll (MUpdate (mkUpdate (se_name x) (se_epoch x) (se_size x)))] else []).
Proof. apply publish_run. Qed.
End writers.

(** A first blob of a name, of one sector. *)
Definition demo_session : session_ :=
  mkSession (bs "foo") false (CurrentEpoch 0 (bs "foo"), 0, ZeroHash) demo_blob zero_blob [(0, [])].

Definition demo_wsig : Signature :=
  match SignSeal (NewSECP256k1Signer toy_key) (bs "foo") (CurrentEpoch 0 (bs "foo")) 1
    (tip_from ZeroHash [ZeroSector]) ZeroHash with Ok sig => sig | _ => [] end.

Definition demo_server : Server :=
  NewServer (mkWorld demo_db (served_fs, {[bs "foo" := mkPoolEntry demo_blob 1]}) NewMultiLocker []).

Lemma demo_session_sectors : se_sectors demo_session = [ZeroSector].
Proof.
  unfold se_sectors, se_result, se_size. change (zlen (se_writes demo_session)) with (zlen (written (se_writes demo_session))).
  rewrite sectors_of_with; [done|done|apply written_wf|]. unfold se_start. simpl. lia.
Qed.

Lemma demo_publishable :
  publishable (bs "blobs") demo_session toy_key demo_wsig 0 1 demo_server
    (served_fs, {[bs "foo" := mkPoolEntry demo_blob 2]}) 0 (bs "blob") (mkHeld (λ _, 0) (λ _, 0)).
Proof.
  assert (se_tip demo_session = tip_from ZeroHash [ZeroSector]) as Ht
    by (unfold se_tip; by rewrite demo_session_sectors).
  apply mkPublishable.
  - reflexivity.
  - reflexivity.
  - apply zero_blob_opened.
  - apply zlen_zero_blob.
  - vm_compute. reflexivity.
  - done.
  - done.
  - done.
  - done.
  - split; [by repeat constructor|done].
  - done.
  - exists demo_info. split; [vm_compute; reflexivity|done].
  - rewrite Ht. vm_compute. reflexivity.
  - split; [|done]. intros k. split_and!; [done..|by left].
  - rewrite demo_session_sectors. repeat constructor. by vm_compute.
  - rewrite Ht. split; [by apply (bool_decide_unpack (Forall (λ c, Z_of_byte c < 128) (bs "foo")))|].
    split_and!; vm_compute; first [reflexivity|discriminate|split; [discriminate|reflexivity]].
  - exists 0. split; [vm_compute; reflexivity|done].
Qed.

Lemma writer_publishes_witness :
  ∃ s' b', publish (bs "blobs") 0 [(0, [])] 1 true
      (demo_server, NewBlobWriter (NewSECP256k1Signer toy_key) (bs "foo") false) =
      (Ok (tip_from ZeroHash [ZeroSector]), (s', b')) ∧
    w_sent (sv_world s') = [ToAll (MUpdate (mkUpdate (bs "foo") (CurrentEpoch 0 (bs "foo")) 1))].
Proof.
  destruct (writer_publishes (bs "blobs") demo_session toy_key demo_wsig 0 1 demo_server _ _ _ _ true demo_publishable)
    as (s' & b' & Hp & _ & _ & _ & _ & Hs).
  exists s', b'. split; [|exact Hs]. unfold se_tip in Hp. rewrite demo_session_sectors in Hp. exact Hp.
Defined.

(** A commit without a signature. *)
Definition unsigned_req : CommitReq := mkCommitReq 1 [] true 3 0 ZeroHash.

