(* ===== verification/RpcReads.v ===== *)
(** * Readers of the RPC server, and its calls on names and peers

    A reader of [rpc/blob_reader.go] reads the bytes of the blob, a transaction that
    is not there crashes the server, an info is what was stored, and a banned peer
    stays out. *)

From S2P Require Import Prelude GoLib Crypto Instances Sector Wire OsFile BlobIO BlobTx BlobSpec BlobSys BlobHash.
From S2P Require Import Names BlobStore Util StoreDB StoreInstances Store StorePeers Queue UpdateQueueProofs Syncer SyncerProofs.
From S2P Require Import Updater UpdaterProofs UpdaterComplete SectorServer ServerProofs Peer Handshake Mux PeerManager ManagerProofs NetIP.
From S2P Require Import Rpc RpcClient RpcProofs.
#[local] Opaque Size.

(** ** The file of a name *)

Definition blob_path `{Blake2b} (blobsPath name : bytes) : bytes :=
  match PathifyName name with Ok sub => path_Join [blobsPath; sub] | _ => [] end.

Section files.
Context `{Blake2b}.
Context (blobsPath name : bytes) (i : nat) (c : bytes).
Hypothesis Hsize : zlen c = Size.

Lemma new_in_store fs :
  fs_names fs !! Path (blob_path blobsPath name) = Some (File i) →
  fs_inodes fs !! i = Some c → (i < fs_next fs)%nat →
  ∃ bl fs', NewInStorePath blobsPath name fs = (Ok bl, fs') ∧ blob_name bl = name ∧
    blob_opened bl i (blob_path blobsPath name) c fs'.
Proof.
  assert (∃ sub, PathifyName name = Ok sub) as [sub Hp]
    by (destruct (PathifyName_Ok name) as (segs & -> & _); eauto).
  unfold blob_path. intros Hn Hi Hlt. rewrite Hp in Hn |- *.
  set (p := path_Join _) in *. unfold NewInStorePath. rewrite Hp.
  set (fs1 := fs_bump (fs_set_file (fs_next fs) (mkFile i (Path p) 0 true) fs)).
  assert (fs_set_inode i (resize (Z.to_nat Size) x00 (content fs1 i)) fs1 = fs1) as Hres.
  { rewrite (content_Some fs1 i c) by done. rewrite resize_all_alt by (rewrite <- Hsize; unfold zlen; lia).
    by apply fs_set_inode_id. }
  exists (newFromFile name (fs_next fs)), fs1. split_and!; [|done|].
  - rewrite (M_bind_step (M_lift (Ok _)) _ fs _ fs eq_refl). cbv zeta. fold p.
    rewrite (M_bind_step _ _ fs true fs) by (unfold fileExists, M_try, os_Stat, mbind, M_bind; by rewrite Hn).
    rewrite (M_bind_step _ _ fs (fs_next fs) fs1) by (unfold OpenFile; by rewrite Hn).
    rewrite (M_bind_step _ _ fs1 tt fs1); [done|].
    unfold File_Truncate. rewrite (M_bind_step _ _ fs1 (mkFile i (Path p) 0 true) fs1).
    + unfold M_modify. cbn [file_ino]. by rewrite Hres.
    + apply open_file_Ok; [|done]. simpl. apply lookup_insert_eq.
  - split_and!; simpl; [exists 0%nat; apply lookup_insert_eq|done|done|lia|lia].
Qed.

(** A blob that is opened, and closed again with the files as they are. *)
Lemma open_close ps :
  name_blob (blob_path blobsPath name) name i c ps →
  ∃ bl ps1 ps2, Store_Open blobsPath name ps = (Ok bl, ps1) ∧ blob_name bl = name ∧
    blob_opened bl i (blob_path blobsPath name) c ps1.1 ∧
    wrappedBlob_Close bl ps1 = (Ok tt, ps2) ∧ name_blob (blob_path blobsPath name) name i c ps2.
Proof.
  intros [Hn Hi Hlt Hp]. unfold Store_Open, Pool_Get. destruct ps as [fs pool]. simpl in *.
  unfold mbind at 1, M_bind at 1, M_get. simpl. destruct (pool !! name) as [e|] eqn:He.
  - destruct (Hp e eq_refl) as (Hnm & Hr & Ho). eexists _, _, _. split_and!; [done|done|done|..].
    + unfold wrappedBlob_Close, Pool_Put, mbind, M_bind, M_get. simpl. rewrite Hnm, lookup_insert_eq. simpl.
      rewrite decide_True by lia. done.
    + split; simpl; [done..|]. intros e' Hl. rewrite lookup_insert_eq in Hl. simplify_eq/=.
      split_and!; [done|lia|done].
  - destruct (new_in_store fs Hn Hi Hlt) as (bl & fs1 & Hnew & Hbn & Ho).
    destruct Ho as ((off & Hf) & Hi1 & Hn1 & Hlt1 & Hlt2).
    eexists bl, _, _. split_and!; [unfold mbind, M_bind, pool_fs, M_zoom; simpl; by rewrite Hnew|done| | |].
    + split_and!; simpl; eauto.
    + unfold wrappedBlob_Close, Pool_Put, mbind, M_bind, M_get. simpl. rewrite Hbn, lookup_insert_eq. simpl.
      unfold pool_fs, M_zoom, Blob_Close, File_Close, open_file, mbind, M_bind. simpl. by rewrite Hf.
    + split; simpl; [done..|]. intros e' Hl. by rewrite lookup_delete_eq in Hl.
Qed.

(** Reading a range of the blob that is not empty. *)
Lemma blob_read_at bl P off len fs :
  blob_opened bl i P c fs → 0 ≤ off → 0 < len → off + len ≤ Size →
  Blob_ReadAt bl (replicate (Z.to_nat len) x00) off fs =
    (Ok (take (Z.to_nat len) (drop (Z.to_nat off) c), len, None), fs).
Proof.
  intros ((o & Hf) & Hi & _) Ho Hl Hs. unfold Blob_ReadAt, ReadBlobAt.
  assert (zlen (replicate (Z.to_nat len) x00) = len) as Hz by (unfold zlen; rewrite length_replicate; lia).
  rewrite decide_False by lia. rewrite decide_False by lia. unfold File_ReadAt.
  rewrite decide_False by lia. rewrite decide_False by (intros E; rewrite E in Hz; unfold zlen in Hz; simpl in Hz; lia).
  rewrite (M_bind_step _ _ fs (Ok (mkFile i (Path P) o true)) fs)
    by (apply M_try_Ok; by apply open_file_Ok).
  rewrite (M_bind_step M_get _ _ _ _ eq_refl), length_replicate. cbn [file_ino]. rewrite (content_Some _ _ _ Hi).
  assert (length (take (Z.to_nat len) (drop (Z.to_nat off) c)) = Z.to_nat len) as Hlen.
  { rewrite length_take, length_drop. unfold zlen in Hsize. lia. }
  rewrite go_copy_full by (by rewrite length_replicate). rewrite decide_False by lia.
  unfold zlen at 1. rewrite Hlen, Z2Nat.id by lia. done.
Qed.
End files.

(** ** Reading *)

Section reading.
Context `{LevelDB, JSON, Secp256k1, Blake2b}.
Context (blobsPath name : bytes) (i : nat) (c : bytes) (hh : held (K := bytes)).
Hypothesis Hsize : zlen c = Size.
Hypothesis Hfree : held_w hh name = 0 ∧ 0 ≤ held_r hh name.

(** A node that has the blob, with no writer of it. *)
Definition has_blob (w : World) : Prop :=
  name_blob (blob_path blobsPath name) name i c (w_blobs w) ∧ lock_inv (w_locks w, hh).

Lemma read_call off len w :
  has_blob w → 0 ≤ off → 0 ≤ len → off + len ≤ Size →
  ∃ w', Rpc_ReadAt blobsPath (mkReadAtReq name off len) w =
      (Ok (take (Z.to_nat len) (drop (Z.to_nat off) c)), w') ∧
    has_blob w' ∧ w_db w' = w_db w ∧ w_sent w' = w_sent w.
Proof.
  intros [Hb Hinv] Ho Hl Hs. destruct Hfree as [Hw Hr]. unfold Rpc_ReadAt. cbn [rq_Name rq_Offset rq_Len].
  rewrite decide_False by lia. rewrite Size_eq in *. unfold u32. rewrite Z.mod_small by lia.
  rewrite decide_False by lia. case_decide as Hz; [subst; by exists w|].
  destruct (TryRLock_free _ _ _ Hinv Hw) as (l1 & Hl1 & Hinv1).
  destruct (RUnlock_taken _ _ _ Hinv1 Hr) as (l2 & Hl2 & Hinv2).
  destruct (open_close _ _ _ _ Hsize _ Hb) as (bl & ps1 & ps2 & Hop & _ & Hbo & Hcl & Hb2).
  rewrite (M_bind_step _ _ _ _ _ (on_locks_step _ _ _ _ Hl1)). cbn [negb].
  set (data := take (Z.to_nat len) (drop (Z.to_nat off) c)).
  exists (mkWorld (w_db w) ps2 l2 (w_sent w)). split_and!; [|by split|done|done].
  unfold M_defer at 1.
  match goal with |- context [(?m (mkWorld _ _ _ _))] => 
    assert (m (mkWorld (w_db w) (w_blobs w) l1 (w_sent w)) = (Ok data, mkWorld (w_db w) ps2 l1 (w_sent w))) as -> end.
  2:{ rewrite (on_locks_step _ (mkWorld (w_db w) ps2 l1 (w_sent w)) _ _ Hl2). done. }
  rewrite (M_bind_step _ _ _ bl (mkWorld (w_db w) ps1 l1 (w_sent w)))
    by (unfold M_wrapping, on_blobs, M_zoom; simpl; by rewrite Hop).
  unfold M_defer. destruct ps1 as [fs1 pool1]. simpl in Hbo.
  rewrite (M_bind_step _ _ _ (data, len, None) (mkWorld (w_db w) (fs1, pool1) l1 (w_sent w))).
  - unfold M_try, mbind, M_bind, on_blobs, M_zoom. simpl. by rewrite Hcl.
  - unfold on_blobs, pool_fs, M_zoom. simpl.
    rewrite (blob_read_at i c Hsize bl _ off len fs1 Hbo) by (rewrite ?Size_eq; lia). done.
Qed.

(** A reader that asks for buffers of these lengths in turn, until there is an error: the
    bytes it got. *)
Fixpoint read_all (now : Time) (ps : list bytes) : M (Server * BlobReader) (bytes * option error) :=
  match ps with
  | [] => mret ([], None)
  | p :: ps =>
      '(buf, n, err) ← Client_Read (server_client now blobsPath) p;
      match err with
      | Some e => mret (take (Z.to_nat n) buf, Some e)
      | None =>
          '(rest, e) ← read_all now ps;
          mret (take (Z.to_nat n) buf ++ rest, e)
      end
  end.

Lemma client_read_call now p off s :
  has_blob (sv_world s) → 0 ≤ off < Size →
  let n := Z.min (zlen p) (Size - off) in
  let data := take (Z.to_nat n) (drop (Z.to_nat off) c) in
  ∃ s', Client_Read (server_client now blobsPath) p (s, mkBlobReader name off) =
      (Ok (data ++ drop (Z.to_nat n) p, n, None), (s', mkBlobReader name (off + n))) ∧
    zlen data = n ∧ has_blob (sv_world s') ∧ w_db (sv_world s') = w_db (sv_world s).
Proof.
  intros Hb Ho n data. pose proof (zlen_nonneg p) as Hp. pose proof Size_eq. unfold Client_Read. cbn [rd_off rd_name].
  rewrite decide_False by lia.
  set (toRead := if decide (Size < off + zlen p) then _ else _).
  assert (toRead = n) as -> by (unfold toRead, n; case_decide; lia).
  rewrite decide_False by lia. unfold Client_ReadAt.
  assert (zlen (take (Z.to_nat n) p) = n) as Hn by (unfold zlen in *; rewrite length_take; lia).
  assert (zlen data = n) as Hd by (unfold data, zlen in *; rewrite length_take, length_drop; lia).
  rewrite Hn. unfold u32. rewrite !Z.mod_small by lia.
  destruct (read_call off n (sv_world s) Hb) as (w' & Hrd & Hb' & Hdb & _); [lia..|].
  fold data in Hrd.
  exists (mkServer w' (sv_txStore s) (sv_heap s) (sv_lastTxID s)). split_and!; [|done|done|done].
  rewrite (M_bind_step _ _ s (Ok data) (mkServer w' (sv_txStore s) (sv_heap s) (sv_lastTxID s))).
  2:{ apply M_try_Ok. cbn [c_ReadAt server_client]. unfold of_node, M_zoom. by rewrite Hrd. }
  cbv zeta. rewrite Hd, decide_False by lia.
  rewrite go_copy_full by (unfold zlen in *; lia). done.
Qed.

Lemma read_step (p q : bytes) off :
  0 ≤ off ≤ Size →
  let n := Z.min (zlen p) (Size - off) in
  take (Z.to_nat n) (drop (Z.to_nat off) c) ++ take (length q) (drop (Z.to_nat (off + n)) c) =
  take (length (p ++ q)) (drop (Z.to_nat off) c).
Proof.
  intros Ho n. pose proof Hsize as Hc. rewrite length_app. unfold zlen in *. destruct (decide (Z.of_nat (length p) ≤ Size - off)).
  - assert (n = Z.of_nat (length p)) as -> by (unfold n; lia).
    replace (Z.to_nat (off + Z.of_nat (length p))) with (Z.to_nat off + length p)%nat by lia.
    by rewrite Nat2Z.id, <- drop_drop, take_take_drop.
  - assert (n = Size - off) as -> by (unfold n; lia). rewrite (drop_ge c (Z.to_nat (off + (Size - off)))) by lia.
    by rewrite take_nil, app_nil_r, !take_ge by (rewrite length_drop; lia).
Qed.

Lemma read_all_spec now ps off s :
  has_blob (sv_world s) → 0 ≤ off ≤ Size →
  ∃ s' b' err, read_all now ps (s, mkBlobReader name off) =
      (Ok (take (length (mjoin ps)) (drop (Z.to_nat off) c), err), (s', b')) ∧
    (err = None ∨ err = Some EOF ∧ Size - off ≤ zlen (mjoin ps)) ∧
    has_blob (sv_world s') ∧ w_db (sv_world s') = w_db (sv_world s).
Proof.
  revert off s. induction ps as [|p ps IH]; intros off s Hb Ho; [exists s, (mkBlobReader name off), None; eauto|].
  destruct (decide (off = Size)) as [->|Hne].
  - exists s, (mkBlobReader name Size), (Some EOF). split_and!; [|right|done|done].
    + cbn [read_all]. rewrite (M_bind_step _ _ _ (p, 0, Some EOF) (s, mkBlobReader name Size))
        by (unfold Client_Read; cbn [rd_off]; by rewrite decide_True).
      rewrite drop_ge by (unfold zlen in Hsize; lia). by rewrite take_nil.
    + split; [done|]. pose proof (zlen_nonneg (mjoin (p :: ps))). lia.
  - destruct (client_read_call now p off s Hb) as (s1 & Hc & Hd & Hb1 & Hdb1); [lia|].
    set (n := Z.min _ _) in *. set (data := take _ (drop _ c)) in *. pose proof (zlen_nonneg p).
    destruct (IH (off + n) s1 Hb1) as (s2 & b2 & err & Hr & He & Hb2 & Hdb2); [lia|].
    exists s2, b2, err. split_and!; [|destruct He as [?|[? He]]; [by left|right]|done|by rewrite Hdb2].
    + cbn [read_all]. rewrite (M_bind_step _ _ _ _ _ Hc). cbv beta iota zeta.
      rewrite (M_bind_step _ _ _ _ _ Hr). cbv beta iota zeta. rewrite take_app_length' by (unfold zlen in Hd; lia).
      change (mjoin (p :: ps)) with (p ++ mjoin ps). unfold data. by rewrite (read_step p (mjoin ps) off) by lia.
    + split; [done|]. change (mjoin (p :: ps)) with (p ++ mjoin ps). rewrite zlen_app. lia.
Qed.

End reading.

(** A node with the blob on disk, not open. *)
Definition stored_fs : FS :=
  mkFS {[0%nat := zero_blob]} {[Path (blob_path (bs "blobs") (bs "foo")) := File 0]} ∅ 1.

Definition stored_world : World := mkWorld empty_db (stored_fs, NewPool) NewMultiLocker [].


(** ** Transactions that are gone *)

(** The reaper logs its errors. *)
Lemma reap_no_Err `{LevelDB, JSON, Secp256k1, Blake2b} p s e s' : reap_awaiting p s ≠ (Err e, s').
Proof.
  unfold reap_awaiting, mbind, M_bind, M_try, get_awaiting. intros Hr.
  repeat match type of Hr with
  | context [match ?x with _ => _ end] =>
      lazymatch x with context [match _ with _ => _ end] => fail | _ => destruct x; simplify_eq/= end
  end.
Qed.

(** a transaction that is not there crashes the server.  A write or a commit with an id
    that was never given out, or whose transaction has been committed or has expired,
    panics in the handler, where a check for it was meant to return an error. *)
Theorem dead_tx_panics `{LevelDB, JSON, Secp256k1, Blake2b} now id s :
  ¬ (∃ e, (sv_txStore s : gmap bytes entry) !! FormatUint32 id = Some e ∧ now ≤ entry_expiry e) →
  (∀ data, ∃ x s', Rpc_WriteSector now (mkWriteSectorReq id data) s = (Panic x, s')) ∧
  (∀ req, mq_TxID req = id → ∃ x s', Rpc_Commit now req s = (Panic x, s')).
Proof.
  intros Hd. assert (∃ x s', find_tx now id s = (Panic x, s')) as (x & s' & Hf).
  { unfold find_tx. unfold mbind at 1, M_bind at 1, on_txStore, M_zoom, Cache_Get.
    rewrite (M_bind_step M_get _ _ _ _ eq_refl).
    destruct ((sv_txStore s : gmap bytes entry) !! FormatUint32 id) as [e|] eqn:He; [|simpl; by eexists _, _].
    rewrite decide_True by (apply Znot_ge_lt; intros ?; apply Hd; exists e; split; [done|lia]).
    simpl. unfold mbind at 1, M_bind at 1.
    match goal with |- context [reap_awaiting ?p ?st] => destruct (reap_awaiting p st) as [[[]|e'|x] s'] eqn:Hr end;
      [by eexists _, _| |by eexists _, _].
    by apply reap_no_Err in Hr. }
  split.
  - intros data. exists x, s'. unfold Rpc_WriteSector. unfold mbind at 1, M_bind at 1. cbn [wq_TxID]. by rewrite Hf.
  - intros req <-. exists x, s'. unfold Rpc_Commit. unfold mbind at 1, M_bind at 1. by rewrite Hf.
Qed.

Lemma dead_tx_panics_witness :
  ∃ x s', Rpc_Commit 0 unsigned_req demo_server = (Panic x, s').
Proof.
  apply (dead_tx_panics 0 1 demo_server); [|done]. intros (e & He & _). revert He. vm_compute. discriminate.
Defined.

(** ** Infos of blobs *)

(** The values of [store.BlobInfo]: the height of an import is an [int] that is not
    negative. *)
Definition BlobInfo_wf `{Secp256k1} (info : BlobInfo) : Prop :=
  is_u32 (bi_ImportHeight info) ∧ is_u16 (bi_EpochHeight info) ∧ is_u16 (bi_SectorSize info) ∧
  Hash_wf (bi_SectorTipHash info) ∧ Hash_wf (bi_ReservedRoot info) ∧ Signature_wf (bi_Signature info) ∧
  ZeroTime ≤ bi_ReceivedAt info < MaxTime ∧ ZeroTime ≤ bi_BannedAt info < MaxTime.

(** The info with its times in whole seconds. *)
Definition seconds_info `{Secp256k1} (info : BlobInfo) : BlobInfo :=
  mkBlobInfo (bi_Name info) (bi_PublicKey info) (bi_ImportHeight info) (bi_EpochHeight info)
    (bi_SectorSize info) (bi_SectorTipHash info) (bi_Signature info) (bi_ReservedRoot info)
    (time_Unix (Unix (bi_ReceivedAt info))) (time_Unix (Unix (bi_BannedAt info))).

(** The seconds of a time survive the conversion to [uint64] and back, before 1970 too. *)
Lemma i64_u64_Unix t : ZeroTime ≤ t < MaxTime → i64 (u64 (Unix t)) = Unix t.
Proof.
  intros Ht. assert (-62135596800 ≤ Unix t ≤ 253402300800) as Hu.
  { unfold Unix, ZeroTime, MaxTime in *. unfold Second in *. split.
    - apply Z.div_le_lower_bound; lia.
    - apply Z.lt_le_incl, Z.div_lt_upper_bound; lia. }
  unfold i64, u64. rewrite Zplus_mod_idemp_l. rewrite Z.mod_small; lia.
Qed.

Lemma parse_info_res `{Secp256k1Laws} info :
  BlobInfo_wf info → parseBlobInfoRes (info_res info) = Ok (seconds_info info).
Proof.
  intros (Hi & He & Hs & Ht & Hr & Hg & Hra & Hba). unfold parseBlobInfoRes, info_res. cbn.
  rewrite ParsePubKey_Serialize. cbn [wrapping mbind result_bind].
  assert (∀ h msg, Hash_wf h → wrapping msg (NewHashFromBytes h) = Ok h) as Hh.
  { intros h msg Hw. unfold wrapping. by rewrite (proj2 (NewHashFromBytes_Ok h h)). }
  assert (NewSignatureFromBytes (bi_Signature info) = Ok (bi_Signature info)) as Hsg
    by (by apply NewSignatureFromBytes_Ok).
  rewrite (Hh _ _ Ht), (Hh _ _ Hr), Hsg. cbn. rewrite !i64_u64_Unix by done.
  unfold u16, u32. unfold is_u16, is_u32 in *. by rewrite !Z.mod_small by lia.
Qed.

(** What the node says of a header it has. *)
Definition described `{LevelDB, JSON, Secp256k1} (db : DB) (h : Header) (info : BlobInfo) : Prop :=
  ∃ ni ban, GetNameInfo db (h_Name h) = Ok ni ∧ GetHeaderBan db (h_Name h) = Ok ban ∧
    info = mkBlobInfo (h_Name h) (ni_PublicKey ni) (ni_ImportHeight ni) (h_EpochHeight h) (h_SectorSize h)
      (h_SectorTipHash h) (h_Signature h) (h_ReservedRoot h) (h_EpochStartAt h) ban.

(** The headers are stored under their names, and their names are known. *)
Definition listable `{LevelDB, JSON, Secp256k1} (db : DB) : Prop :=
  ∀ k v, db_map db !! k = Some v → headerDataPrefix [] `prefix_of` k →
  ∃ h info, k = headerDataPrefix [h_Name h] ∧ Header_UnmarshalJSON v = Ok h ∧ described db h info ∧ BlobInfo_wf info.

Lemma must_Ok {A} (r : result A) a : must r = Ok a → r = Ok a.
Proof. by destruct r. Qed.

Section listing.
Context `{HL : LevelDBLaws, HJ : JSON, HS : Secp256k1Laws}.

(** The infos of the entries, sent and parsed. *)
Lemma list_infos_all db it :
  Forall (λ kv, ∃ h info, Header_UnmarshalJSON kv.2 = Ok h ∧ described db h info ∧ BlobInfo_wf info) it →
  ∀ fuel, (length it < fuel)%nat →
  ∃ infos, (let '(l, r) := list_infos fuel db (λ _, None) it in list_infos_client (λ _, true) l r) = (infos, Ok tt) ∧
    Forall2 (λ kv x, ∃ h info, Header_UnmarshalJSON kv.2 = Ok h ∧ described db h info ∧ x = seconds_info info) it infos.
Proof.
  induction 1 as [|[k v] it (h & info & Hu & Hd & Hw) _ IH]; intros [|fuel] Hf; simpl in Hf; try lia.
  { exists []. split; [done|constructor]. }
  destruct (IH fuel) as (infos & Hl & Hall); [lia|].
  exists (seconds_info info :: infos). split; [|constructor; [by exists h, info|done]].
  cbn [list_infos]. unfold BlobInfoStream_Next. simpl in Hu. rewrite Hu.
  pose proof Hd as (ni & ban & Hni & Hb & Hinfo). cbn [must mbind result_bind]. rewrite Hni, Hb. cbn. rewrite <- Hinfo.
  destruct (list_infos fuel db (λ _, None) it) as [l r]. cbn [list_infos_client].
  rewrite parse_info_res, Hl by done. done.
Qed.

End listing.

(** The database with one header lists it. *)
Lemma served_listable : listable served_db.
Proof.
  assert ((filter (λ kv : bytes * bytes, headerDataPrefix [] `prefix_of` kv.1) (map_to_list (db_map served_db))).*1 =
    [headerDataPrefix [bs "foo"]]) as Hkeys by (vm_compute; reflexivity).
  intros k v Hk Hp. exists demo_header1.
  assert (k = headerDataPrefix [bs "foo"]) as ->.
  { apply list_elem_of_singleton. rewrite <- Hkeys. apply list_elem_of_fmap. exists (k, v). split; [done|].
    apply list_elem_of_filter. split; [done|]. by apply elem_of_map_to_list. }
  pose proof (co_header _ _ _ _ _ _ _ served_consistent) as Hg. unfold GetHeader in Hg. rewrite db_Get_law in Hg.
  change (h_Name demo_header1) with (bs "foo") in Hg. rewrite Hk in Hg. cbn [wrapping mbind result_bind] in Hg.
  eexists. split_and!.
  - done.
  - apply must_Ok. exact Hg.
  - exists demo_info, ZeroTime. split_and!; [vm_compute; reflexivity|vm_compute; reflexivity|reflexivity].
  - unfold BlobInfo_wf. cbn [bi_ImportHeight bi_EpochHeight bi_SectorSize bi_SectorTipHash bi_ReservedRoot
      bi_Signature bi_ReceivedAt bi_BannedAt].
    split_and!; clear; vm_compute; first [reflexivity|discriminate|split; [discriminate|reflexivity]].
Qed.


(** ** Bans of peers *)

Section bans.
Context `{HL : LevelDBLaws, HJ : JSON, HS : Secp256k1, HB : Blake2b}.
Context (opts : PeerManagerOpts).

Lemma parse_ip4_dotted a b c d : parse_ip4 (dotted [a; b; c; d]) = Some (dotted [a; b; c; d]).
Proof. unfold parse_ip4. rewrite ParseIP_dotted. done. Qed.

Lemma close_all_spec peers pm :
  ∃ pm', close_all peers pm = (Ok tt, pm') ∧ pm_db pm' = pm_db pm ∧
    (∀ p, p ∈ peers → pr_ref p ∈ mx_closed (pm_mux pm')) ∧ mx_closed (pm_mux pm) ⊆ mx_closed (pm_mux pm').
Proof.
  revert pm. induction peers as [|q peers IH]; intros pm; [exists pm; set_solver|].
  destruct (IH (close_peer q pm).2) as (pm' & Hc & Hdb & Hin & Hsub). exists pm'.
  assert (pr_ref q ∈ mx_closed (pm_mux (close_peer q pm).2)) as Hq by (simpl; set_solver).
  assert (mx_closed (pm_mux pm) ⊆ mx_closed (pm_mux (close_peer q pm).2)) as Hs by (simpl; set_solver).
  split_and!; [exact Hc|exact Hdb|set_solver|set_solver].
Qed.

(** Both bans of an address are put. *)
Lemma put_bans now ip dur db :
  ∃ db', WithTx_only (BanInboundPeerTx now ip dur;; BanOutboundPeerTx now ip dur) db = (Ok tt, db') ∧
    db_map db' = <[peerOutBanPrefix [ip] := encodeTime (now + dur)]>
      (<[peerInBanPrefix [ip] := encodeTime (now + dur)]> (db_map db)).
Proof.
  apply WithTx_only_returns; [done|]. intros tx Htx. unfold BanInboundPeerTx, BanOutboundPeerTx.
  destruct (tx_Put_law tx (peerInBanPrefix [ip]) (encodeTime (now + dur))) as (tx1 & Hp1 & Hm1).
  destruct (tx_Put_law tx1 (peerOutBanPrefix [ip]) (encodeTime (now + dur))) as (tx2 & Hp2 & Hm2).
  exists tx2. split; [|by rewrite Hm2, Hm1, Htx].
  rewrite (M_bind_step _ _ _ tt tx1) by (unfold M_wrapping; by rewrite Hp1).
  unfold M_wrapping. by rewrite Hp2.
Qed.

Lemma delete_if_has_step k m1 m2 tx :
  ∃ tx', delete_if_has k m1 m2 tx = (Ok tt, tx') ∧ tx_map tx' = delete k (tx_map tx).
Proof.
  unfold delete_if_has. rewrite (M_bind_step M_get _ _ _ _ eq_refl), tx_Has_law.
  rewrite (M_bind_step (M_lift _) _ tx (bool_decide (is_Some (tx_map tx !! k))) tx) by done.
  case_bool_decide as Hk; simpl.
  - destruct (tx_Delete_law tx k) as (tx' & Hd & Hm). exists tx'. split; [|done]. unfold M_wrapping. by rewrite Hd.
  - exists tx. split; [done|]. symmetry. apply delete_id. by apply eq_None_not_Some.
Qed.

Lemma delete_bans ip db :
  ∃ db', WithTx_only (UnbanInboundPeerTx ip;; UnbanOutboundPeerTx ip) db = (Ok tt, db') ∧
    db_map db' = delete (peerOutBanPrefix [ip]) (delete (peerInBanPrefix [ip]) (db_map db)).
Proof.
  apply WithTx_only_returns; [done|]. intros tx Htx. unfold UnbanInboundPeerTx, UnbanOutboundPeerTx.
  edestruct (delete_if_has_step (peerInBanPrefix [ip])) as (tx1 & Hp1 & Hm1).
  edestruct (delete_if_has_step (peerOutBanPrefix [ip])) as (tx2 & Hp2 & Hm2).
  exists tx2. split; [|by rewrite Hm2, Hm1, Htx]. rewrite (M_bind_step _ _ _ _ _ Hp1). exact Hp2.
Qed.

Lemma gates_banned now ip pm :
  IsBanned now (pm_db pm) ip = Ok (true, true) →
  (∀ addr, ∃ e, gateInboundPeer opts now ip addr pm = (Err e, pm)) ∧
  (∀ id, ∃ e, gateOutboundPeer opts now id ip pm = (Err e, pm)).
Proof.
  intros Hb. unfold gateInboundPeer, gateOutboundPeer. rewrite Hb.
  split; intros x; repeat case_decide; repeat case_match; eauto; simplify_eq.
Qed.

End bans.

