(* ===== verification/Strconv.v ===== *)
(** * Decimal numbers

    What the commands and the configuration use of package strconv: [Itoa],
    [ParseInt] and [Atoi] in base 10, and that they are inverse. *)

From S2P Require Import Prelude GoLib Crypto Instances Sector Names OsFile BanList.

(** An error of a parser, whose kind nothing looks at. *)
Definition NumError : error := ENew "strconv: parsing".

Definition digit (n : Z) : byte := byte_of_Z (48 + n).

(** The digits of [n], the last ones first; twenty are enough for 64 bits. *)
Fixpoint format_digits (fuel : nat) (n : Z) (acc : bytes) : bytes :=
  match fuel with
  | O => acc
  | S fuel =>
      let acc := digit (n mod 10) :: acc in
      if decide (n / 10 = 0) then acc else format_digits fuel (n / 10) acc
  end.

Definition strconv_Itoa (n : Z) : bytes :=
  if decide (n < 0) then x2d :: format_digits 20 (- n) [] else format_digits 20 n [].

Definition ParseUint10 (s : bytes) : result Z :=
  if decide (s ≠ [] ∧ forallb is_digit s = true) then Ok (digits_value s) else Err NumError.

(** [strconv.ParseInt(s, 10, bits)]. *)
Definition ParseInt10 (bits : Z) (s : bytes) : result Z :=
  let bounded (neg : bool) (s : bytes) :=
    n ← ParseUint10 s;
    if neg then if decide (2 ^ (bits - 1) < n) then Err NumError else Ok (- n)
    else if decide (2 ^ (bits - 1) ≤ n) then Err NumError else Ok n in
  match s with
  | c :: s' =>
      if decide (c = x2b) then bounded false s'
      else if decide (c = x2d) then bounded true s'
      else bounded false s
  | [] => Err NumError
  end.

Definition Atoi : bytes → result Z := ParseInt10 64.

(** ** Lemmas *)

Lemma Z_of_digit d : 0 ≤ d < 10 → Z_of_byte (digit d) = 48 + d.
Proof. intros Hd. unfold digit. rewrite Z_of_byte_of_Z. rewrite Z.mod_small; lia. Qed.

Lemma is_digit_digit d : 0 ≤ d < 10 → is_digit (digit d) = true.
Proof. intros Hd. apply bool_decide_eq_true. rewrite Z_of_digit by done. lia. Qed.

Definition digits (s : bytes) : Prop := s ≠ [] ∧ forallb is_digit s = true.

Lemma digits_value_cons c s :
  digits_value (c :: s) = (Z_of_byte c - 48) * 10 ^ zlen s + digits_value s.
Proof.
  unfold digits_value. simpl. generalize (Z_of_byte c - 48) as a. revert c.
  assert (Hg : ∀ s n, foldl (λ n c, 10 * n + (Z_of_byte c - 48)) n s
    = n * 10 ^ zlen s + foldl (λ n c, 10 * n + (Z_of_byte c - 48)) 0 s).
  { clear. unfold zlen. induction s as [|c s IH]; intros n; [simpl; lia|].
    cbn [foldl length]. rewrite IH, (IH (10 * 0 + _)). rewrite Nat2Z.inj_succ, Z.pow_succ_r by lia. ring. }
  intros c a. rewrite Hg. done.
Qed.

Lemma format_digits_spec fuel n acc :
  0 ≤ n < 10 ^ Z.of_nat fuel → (0 < fuel)%nat → forallb is_digit acc = true →
  digits (format_digits fuel n acc) ∧ digits_value (format_digits fuel n acc) = n * 10 ^ zlen acc + digits_value acc.
Proof.
  revert n acc. induction fuel as [|fuel IH]; intros n acc Hn Hf Ha; [lia|].
  pose proof (Z.mod_pos_bound n 10 ltac:(lia)) as Hm. pose proof (Z_div_mod_eq_full n 10) as Hq.
  cbn [format_digits].
  assert (Hacc : forallb is_digit (digit (n mod 10) :: acc) = true).
  { simpl. by rewrite is_digit_digit, Ha by lia. }
  assert (Hv : digits_value (digit (n mod 10) :: acc) = n mod 10 * 10 ^ zlen acc + digits_value acc).
  { rewrite digits_value_cons, Z_of_digit by lia. f_equal. f_equal. lia. }
  case_decide as Hz.
  - split; [split; [done|exact Hacc]|]. rewrite Hv. f_equal. f_equal. lia.
  - rewrite Nat2Z.inj_succ, Z.pow_succ_r in Hn by lia.
    destruct (IH (n / 10) (digit (n mod 10) :: acc)) as [Hd Hval]; [|destruct fuel; [simpl in Hn|]; lia|done|].
    { split; [apply Z.div_pos; lia|]. apply Z.div_lt_upper_bound; lia. }
    split; [done|]. rewrite Hval, Hv. unfold zlen. cbn [length].
    rewrite Nat2Z.inj_succ, Z.pow_succ_r by lia.
    rewrite Hq at 3. ring.
Qed.

Lemma format_digits_ok n :
  0 ≤ n < 10 ^ 20 → digits (format_digits 20 n []) ∧ digits_value (format_digits 20 n []) = n.
Proof.
  intros Hn. destruct (format_digits_spec 20 n [] Hn ltac:(lia) eq_refl) as [Hd Hv].
  split; [done|]. rewrite Hv. change (digits_value []) with 0. change (zlen []) with 0. lia.
Qed.

Lemma ParseUint10_digits s : digits s → ParseUint10 s = Ok (digits_value s).
Proof. intros Hd. unfold ParseUint10. by rewrite decide_True. Qed.

Lemma digits_head s : digits s → ∃ c s', s = c :: s' ∧ c ≠ x2b ∧ c ≠ x2d.
Proof.
  intros [Hne Ha]. destruct s as [|c s]; [done|]. exists c, s. split; [done|].
  simpl in Ha. apply andb_prop in Ha as [Ha _]. split; by intros ->.
Qed.

(** A number that fits is read back as it was printed. *)
Lemma ParseInt10_Itoa bits n :
  1 ≤ bits ≤ 64 → - 2 ^ (bits - 1) ≤ n < 2 ^ (bits - 1) → ParseInt10 bits (strconv_Itoa n) = Ok n.
Proof.
  intros Hb Hn. assert (2 ^ (bits - 1) ≤ 2 ^ 63) by (apply Z.pow_le_mono_r; lia).
  unfold strconv_Itoa, ParseInt10. case_decide as Hneg.
  - rewrite decide_False by done. rewrite decide_True by done.
    destruct (format_digits_ok (- n)) as [Hd Hv]; [lia|].
    rewrite ParseUint10_digits by done. cbn [mbind result_bind]. rewrite Hv, decide_False by lia. f_equal. lia.
  - destruct (format_digits_ok n) as [Hd Hv]; [lia|].
    destruct (digits_head _ Hd) as (c & s & He & Hp & Hm). rewrite He in *.
    rewrite !decide_False by done. rewrite ParseUint10_digits by done. cbn [mbind result_bind].
    by rewrite Hv, decide_False by lia.
Qed.

Lemma Itoa_bytes n :
  - 10 ^ 20 < n < 10 ^ 20 → strconv_Itoa n ≠ [] ∧ Forall (λ c, c = x2d ∨ is_digit c = true) (strconv_Itoa n).
Proof.
  intros Hn. unfold strconv_Itoa.
  assert (Ha : ∀ s, digits s → Forall (λ c, c = x2d ∨ is_digit c = true) s).
  { intros s [_ Hs]. induction s as [|c s IH]; [done|]. simpl in Hs. apply andb_prop in Hs as [? ?].
    constructor; [by right|by apply IH]. }
  case_decide.
  - destruct (format_digits_ok (- n)) as [Hd _]; [lia|]. split; [done|]. constructor; [by left|]. by apply Ha.
  - destruct (format_digits_ok n) as [Hd _]; [lia|]. split; [apply Hd|]. by apply Ha.
Qed.
