(* ===== verification/Config.v ===== *)
(** * Packages config and log: the configuration of a node

    The structs of [src/config/config.go] and the values of [default.go], and
    the levels of [src/log/logger.go]. *)

From S2P Require Import Prelude GoLib.

(** ** config.go *)

Record HeartbeatConfig := mkHeartbeatConfig { hb_Moniker : bytes; hb_URL : bytes }.

Record P2PConfig := mkP2PConfig {
  p2_Host : bytes;
  p2_DNSSeeds : list bytes;
  p2_FixedSeeds : list bytes;
  p2_MaxInboundPeers : Z;
  p2_MaxOutboundPeers : Z;
  p2_ConnectionTimeoutMS : Z;
}.

Record RPCConfig := mkRPCConfig { rc_Host : bytes; rc_Port : Z }.

Record HNSResolverConfig := mkHNSResolverConfig {
  hr_Host : bytes;
  hr_Port : Z;
  hr_BasePath : bytes;
  hr_APIKey : bytes;
}.

Record UpdateQueueConfig := mkUpdateQueueConfig { uq_MaxLen : Z; uq_ReapIntervalMS : Z }.

Record UpdaterConfig := mkUpdaterConfig { up_PollIntervalMS : Z; up_Workers : Z }.

Record SyncerConfig := mkSyncerConfig { sy_TreeBaseResponseTimeoutMS : Z; sy_SectorResponseTimeoutMS : Z }.

Record SectorServerConfig := mkSectorServerConfig { ss_CacheExpiryMS : Z }.

Record PeerExchangerConfig := mkPeerExchangerConfig {
  pe_SampleSize : Z;
  pe_ResponseTimeoutMS : Z;
  pe_RequestIntervalMS : Z;
  pe_MaxSentPeers : Z;
  pe_MaxReceivedPeers : Z;
  pe_MaxConcurrentDials : Z;
}.

(** The threshold is in hundredths. *)
Record NameImporterConfig := mkNameImporterConfig {
  nc_ConfirmationDepth : Z;
  nc_CheckIntervalMS : Z;
  nc_Workers : Z;
  nc_VerificationThreshold : Z;
}.

Record HeartbeaterConfig := mkHeartbeaterConfig { hc_IntervalMS : Z; hc_TimeoutMS : Z }.

Record NameSyncerConfig := mkNameSyncerConfig {
  nsc_Workers : Z;
  nsc_SampleSize : Z;
  nsc_UpdateResponseTimeoutMS : Z;
  nsc_IntervalMS : Z;
  nsc_SyncResponseTimeoutMS : Z;
}.

Record TuningConfig := mkTuningConfig {
  tu_UpdateQueue : UpdateQueueConfig;
  tu_Updater : UpdaterConfig;
  tu_Syncer : SyncerConfig;
  tu_SectorServer : SectorServerConfig;
  tu_PeerExchanger : PeerExchangerConfig;
  tu_NameImporter : NameImporterConfig;
  tu_Heartbeat : HeartbeaterConfig;
  tu_NameSyncer : NameSyncerConfig;
}.

Record Config := mkConfig {
  cf_LogLevel : bytes;
  cf_EnableProfiler : bool;
  cf_Heartbeat : HeartbeatConfig;
  cf_P2P : P2PConfig;
  cf_RPC : RPCConfig;
  cf_HNSResolver : HNSResolverConfig;
  cf_BanLists : list bytes;
  cf_Tuning : TuningConfig;
}.

(** [time.Duration(base) * unit], on 64 bits. *)
Definition ConvertDuration (base unit_ : Z) : Z := i64 (base * unit_).

(** ** logger.go *)

Inductive Level := LevelTrace | LevelDebug | LevelInfo | LevelWarn | LevelError | LevelFatal.

#[global] Instance Level_eq_decision : EqDecision Level.
Proof. solve_decision. Defined.

Definition Level_String (l : Level) : bytes :=
  match l with
  | LevelTrace => bs "trace"
  | LevelDebug => bs "debug"
  | LevelInfo => bs "info"
  | LevelWarn => bs "warn"
  | LevelError => bs "error"
  | LevelFatal => bs "fatal"
  end.

Definition NewLevel (l : bytes) : result Level :=
  if decide (l = Level_String LevelTrace) then Ok LevelTrace
  else if decide (l = Level_String LevelDebug) then Ok LevelDebug
  else if decide (l = Level_String LevelInfo) then Ok LevelInfo
  else if decide (l = Level_String LevelWarn) then Ok LevelWarn
  else if decide (l = Level_String LevelError) then Ok LevelError
  else if decide (l = Level_String LevelFatal) then Ok LevelFatal
  else Err (ENew "invalid log level").

(** ** default.go *)

(** [ResponseTimeoutMS] of the exchanger is not set: it is zero. *)
Definition DefaultConfig : Config :=
  mkConfig (Level_String LevelInfo) false
    (mkHeartbeatConfig [] [])
    (mkP2PConfig (bs "0.0.0.0") [bs "seeds-test.merkleblock.com"] [] 117 8 5000)
    (mkRPCConfig (bs "127.0.0.1") 9098)
    (mkHNSResolverConfig (bs "http://127.0.0.1") 15037 [] [])
    []
    (mkTuningConfig
      (mkUpdateQueueConfig 1000 5000)
      (mkUpdaterConfig 100 2)
      (mkSyncerConfig 10000 15000)
      (mkSectorServerConfig 5000)
      (mkPeerExchangerConfig 12 0 (60 * 60 * 1000) 255 255 2)
      (mkNameImporterConfig 24 60000 5 90)
      (mkHeartbeaterConfig 30000 10000)
      (mkNameSyncerConfig 2 7 5000 (60 * 60 * 1000) 60000)).

(** ** Lemmas *)

Lemma NewLevel_String l : NewLevel (Level_String l) = Ok l.
Proof. by destruct l. Qed.

Lemma NewLevel_Ok s l : NewLevel s = Ok l → s = Level_String l.
Proof. unfold NewLevel. repeat case_decide; by intros [= <-]. Qed.
