(* ===== verification/Log.v ===== *)
(** * Package log

    [src/log/logger.go] and [logrus.go].  logrus is third-party: a backend
    has a level, writes the entries that are at least as severe as it, and ends
    the process after a fatal one.  The state is the two levels, the entries
    written and whether the process has ended. *)

From S2P Require Import Prelude GoLib Config.

(** ** logrus *)

(** The levels of logrus, the most severe first. *)
Inductive logrus_Level := PanicLevel | FatalLevel | ErrorLevel | WarnLevel | InfoLevel | DebugLevel | TraceLevel.

#[global] Instance logrus_Level_eq_decision : EqDecision logrus_Level.
Proof. solve_decision. Defined.

Definition severity (l : logrus_Level) : Z :=
  match l with
  | PanicLevel => 0 | FatalLevel => 1 | ErrorLevel => 2 | WarnLevel => 3 | InfoLevel => 4 | DebugLevel => 5
  | TraceLevel => 6
  end.

(** An argument of a call: a string, or a value of another type by how it prints. *)
Inductive arg := AStr (s : bytes) | AOther (printed : bytes).

Abbreviation Fields := (gmap bytes arg).

Record log_entry := mkEntry { en_level : logrus_Level; en_fields : Fields; en_msg : bytes }.

Record LogState := mkLogState {
  lg_currLevel : Level;
  lg_backend : logrus_Level;
  lg_entries : list log_entry;
  lg_exited : bool;
}.

(** A backend with these fields logs a message. *)
Definition logrus_Log (level : logrus_Level) (fields : Fields) (msg : bytes) : M LogState unit :=
  M_modify (λ s,
    mkLogState (lg_currLevel s) (lg_backend s)
      (if decide (severity level ≤ severity (lg_backend s)) then lg_entries s ++ [mkEntry level fields msg]
       else lg_entries s)
      (lg_exited s || bool_decide (level = FatalLevel))).

(** ** logger.go *)

(** The constants are numbered in their order. *)
Definition Level_number (l : Level) : Z :=
  match l with
  | LevelTrace => 0 | LevelDebug => 1 | LevelInfo => 2 | LevelWarn => 3 | LevelError => 4 | LevelFatal => 5
  end.

Definition SetLevel (level : Level) : M LogState unit :=
  let logrusLevel :=
    match level with
    | LevelTrace => TraceLevel
    | LevelDebug => DebugLevel
    | LevelInfo => InfoLevel
    | LevelWarn => WarnLevel
    | LevelError => ErrorLevel
    | LevelFatal => PanicLevel
    end in
  M_modify (λ s, mkLogState level logrusLevel (lg_entries s) (lg_exited s)).

(** ** logrus.go *)

(** A [logrusLogger] is the fields of its backend. *)
Record logrusLogger := mkLogrusLogger { ll_backend : Fields }.

Definition isEnabled (level : Level) : M LogState bool :=
  λ s, (Ok (bool_decide (Level_number (lg_currLevel s) ≤ Level_number level)), s).

(** The fields of a call, the later of two with one key. *)
Fixpoint parse_pairs (fields : list arg) (acc : Fields) : result Fields :=
  match fields with
  | k :: v :: fields =>
      match k with
      | AStr kStr => parse_pairs fields (<[kStr := v]> acc)
      | AOther _ => Panic "argument keys must be strings"
      end
  | _ => Ok acc
  end.

Definition parseFields (l : logrusLogger) (fields : list arg) : result Fields :=
  if decide (length fields = 0)%nat then Ok (ll_backend l)
  else if decide (length fields mod 2 ≠ 0)%nat then Panic "must specify arguments as tuples"
  else lFields ← parse_pairs fields ∅; Ok (lFields ∪ ll_backend l).

(** The six methods differ in the level they test and the one they log at. *)
Definition log_at (level : Level) (at_ : logrus_Level) (l : logrusLogger) (msg : bytes) (fields : list arg)
    : M LogState unit :=
  enabled ← isEnabled level;
  if enabled : bool then
    fs ← M_lift (parseFields l fields);
    logrus_Log at_ fs msg
  else mret tt.

(** [Trace] logs at the level of [Debug]. *)
Definition Log_Trace : logrusLogger → bytes → list arg → M LogState unit := log_at LevelTrace DebugLevel.
Definition Log_Debug : logrusLogger → bytes → list arg → M LogState unit := log_at LevelDebug DebugLevel.
Definition Log_Info : logrusLogger → bytes → list arg → M LogState unit := log_at LevelInfo InfoLevel.
Definition Log_Warn : logrusLogger → bytes → list arg → M LogState unit := log_at LevelWarn WarnLevel.
Definition Log_Error : logrusLogger → bytes → list arg → M LogState unit := log_at LevelError ErrorLevel.
Definition Log_Fatal : logrusLogger → bytes → list arg → M LogState unit := log_at LevelFatal FatalLevel.

Definition Sub (l : logrusLogger) (fields : list arg) : result logrusLogger :=
  mkLogrusLogger <$> parseFields l fields.

Definition rootLogger : logrusLogger := mkLogrusLogger ∅.

Definition WithModule (name : bytes) : result logrusLogger := Sub rootLogger [AStr (bs "module"); AStr name].

(** ** Properties *)

Definition method (l : Level) : logrusLogger → bytes → list arg → M LogState unit :=
  match l with
  | LevelTrace => Log_Trace | LevelDebug => Log_Debug | LevelInfo => Log_Info
  | LevelWarn => Log_Warn | LevelError => Log_Error | LevelFatal => Log_Fatal
  end.

(** The level of the log_entry a method writes. *)
Definition entry_level (l : Level) : logrus_Level :=
  match l with
  | LevelTrace | LevelDebug => DebugLevel
  | LevelInfo => InfoLevel
  | LevelWarn => WarnLevel
  | LevelError => ErrorLevel
  | LevelFatal => FatalLevel
  end.

Lemma method_spec l logger msg fields fs s :
  parseFields logger fields = Ok fs →
  method l logger msg fields s =
    if decide (Level_number (lg_currLevel s) ≤ Level_number l) then logrus_Log (entry_level l) fs msg s else (Ok tt, s).
Proof.
  intros Hf. assert (Ha : ∀ at_, log_at l at_ logger msg fields s =
    if decide (Level_number (lg_currLevel s) ≤ Level_number l) then logrus_Log at_ fs msg s else (Ok tt, s));
    [|by destruct l; apply Ha].
  intros at_. unfold log_at, isEnabled, mbind, M_bind, M_lift.
  case_decide; [rewrite bool_decide_true by done|by rewrite bool_decide_false by done]. by rewrite Hf.
Qed.

(** Once a level is set, what is logged below it is dropped and the rest is
    written, with the fields of the logger and those of the call, unless the
    level is fatal: then nothing is written, and the process ends without a
    line. *)
Theorem level_filters level l logger msg fields fs s :
  parseFields logger fields = Ok fs →
  ∃ s1 s2, SetLevel level s = (Ok tt, s1) ∧ method l logger msg fields s1 = (Ok tt, s2) ∧
    lg_entries s2 =
      lg_entries s ++ (if decide (Level_number level ≤ Level_number l ∧ level ≠ LevelFatal)
                       then [mkEntry (entry_level l) fs msg] else []) ∧
    lg_exited s2 = (lg_exited s || bool_decide (l = LevelFatal)).
Proof.
  intros Hf. destruct s as [c b entries exited].
  destruct level, l; eexists; eexists; (split; [reflexivity|]); rewrite (method_spec _ _ _ _ fs) by done;
    (split; [vm_compute; reflexivity|]); cbn [lg_entries lg_exited];
    (split; [first [reflexivity|exact (eq_sym (app_nil_r entries))]|by destruct exited]).
Qed.

(** The keys of the arguments of a call. *)
Fixpoint arg_keys (fields : list arg) : list arg :=
  match fields with
  | k :: _ :: fields => k :: arg_keys fields
  | _ => []
  end.

Lemma parse_pairs_other key fields acc m :
  AStr key ∉ arg_keys fields → parse_pairs fields acc = Ok m → m !! key = acc !! key.
Proof.
  assert (Hg : ∀ n fields acc, (length fields ≤ n)%nat → AStr key ∉ arg_keys fields →
    parse_pairs fields acc = Ok m → m !! key = acc !! key).
  { clear fields acc. intros n. induction n as [|n IH]; intros [|k [|v fields]] acc Hl Hk Hp; cbn in Hl, Hp;
      try (by injection Hp as ->); [lia|].
    destruct k as [k|?]; [|done]. rewrite (IH fields _ ltac:(lia) ltac:(set_solver) Hp).
    apply lookup_insert_ne. intros ->. set_solver. }
  intros Hk Hp. by eapply Hg.
Qed.

(** The lines of a module carry its name, whatever else a call adds. *)
Theorem WithModule_field name logger fields fs :
  WithModule name = Ok logger → AStr (bs "module") ∉ arg_keys fields → parseFields logger fields = Ok fs →
  fs !! bs "module" = Some (AStr name).
Proof.
  intros [= <-] Hk. assert (Hl : (<[bs "module" := AStr name]> ∅ ∪ ∅ : Fields) !! bs "module" = Some (AStr name)).
  { by rewrite (right_id_L ∅ (∪)), lookup_insert_eq. }
  unfold parseFields. case_decide; [by intros [= <-]|]. case_decide; [done|].
  destruct (parse_pairs fields ∅) as [m| |] eqn:Hp; [|done..]. intros [= <-].
  apply (parse_pairs_other _ _ _ _ Hk) in Hp. rewrite lookup_empty in Hp.
  by rewrite lookup_union_r.
Qed.
