(* ===== verification/ConfigFile.v ===== *)
(** * Package config: the file of the configuration

    The template of [src/config/default.go] and how it is filled in, and
    [ReadConfig] of [config.go].  The pieces of text/template the template uses
    are modelled; go-toml is the class [TOML], whose law is the part of the
    TOML specification the file is written in. *)

From S2P Require Import Prelude GoLib Crypto Instances Sector Names OsFile StoreDB BanList Strconv Config.

(** ** text/template *)

(** What a template is applied to, by the names of its fields.  The only float
    is a threshold in hundredths. *)
Inductive tvalue :=
| VStr (s : bytes)
| VInt (n : Z)
| VBool (b : bool)
| VFloat (hundredths : Z)
| VList (l : list bytes)
| VStruct (fields : list (bytes * tvalue)).

Definition print_float (h : Z) : bytes :=
  strconv_Itoa (h / 100) ++
  (if decide (h mod 100 = 0) then []
   else x2e :: digit (h mod 100 / 10) :: if decide (h mod 10 = 0) then [] else [digit (h mod 10)]).

Definition print_bool (b : bool) : bytes := if b then bs "true" else bs "false".

(** The verb [%v]. *)
Fixpoint print_value (v : tvalue) : bytes :=
  match v with
  | VStr s => s
  | VInt n => strconv_Itoa n
  | VBool b => print_bool b
  | VFloat h => print_float h
  | VList l => bs "[" ++ strings_Join l (bs " ") ++ bs "]"
  | VStruct fs => bs "{" ++ strings_Join (List.map (λ '(_, v), print_value v) fs) (bs " ") ++ bs "}"
  end.

Fixpoint assoc {A} (k : bytes) (l : list (bytes * A)) : option A :=
  match l with
  | [] => None
  | (k', v) :: l => if decide (k = k') then Some v else assoc k l
  end.

Fixpoint chain (fields : list bytes) (v : tvalue) : result tvalue :=
  match fields with
  | [] => Ok v
  | f :: fields =>
      match v with
      | VStruct fs =>
          match assoc f fs with
          | Some v => chain fields v
          | None => Err (ENew "can't evaluate field")
          end
      | _ => Err (ENew "can't evaluate field")
      end
  end.

(** [.A.B] *)
Definition operand (w : bytes) (v : tvalue) : result tvalue :=
  match strings_Split x2e w with
  | [] :: fields => chain fields v
  | _ => Err (ENew "function not defined")
  end.

(** The two forms of action in the template: [.A.B], and [index .A.B 0]. *)
Definition eval_action (a : bytes) (v : tvalue) : result bytes :=
  match strings_Split x20 a with
  | [w] => print_value <$> operand w v
  | [f; w; i] =>
      if decide (f ≠ bs "index") then Err (ENew "function not defined") else
      l ← operand w v;
      n ← Atoi i;
      match l with
      | VList l =>
          if decide (n < 0) then Err (ENew "index out of range")
          else match l !! Z.to_nat n with
               | Some s => Ok s
               | None => Err (ENew "index out of range")
               end
      | _ => Err (ENew "can't index item")
      end
  | _ => Err (ENew "unexpected operand")
  end.

Inductive piece := Text (b : bytes) | Action (a : bytes).

(** The text up to the delimiters, which are two braces each. *)
Fixpoint template_scan (inside : bool) (acc s : bytes) : result (list piece) :=
  match s with
  | [] => if inside then Err (ENew "unclosed action") else Ok [Text (reverse acc)]
  | c :: s' =>
      match s' with
      | d :: s'' =>
          if decide (c = x7b ∧ d = x7b ∧ inside = false)
          then cons (Text (reverse acc)) <$> template_scan true [] s''
          else if decide (c = x7d ∧ d = x7d ∧ inside = true)
          then cons (Action (reverse acc)) <$> template_scan false [] s''
          else template_scan inside (c :: acc) s'
      | [] => template_scan inside (c :: acc) s'
      end
  end.

Definition template_Parse (text : bytes) : result (list piece) := template_scan false [] text.

Fixpoint template_Execute (t : list piece) (v : tvalue) : result bytes :=
  match t with
  | [] => Ok []
  | Text b :: t => rest ← template_Execute t v; Ok (b ++ rest)
  | Action a :: t => b ← eval_action a v; rest ← template_Execute t v; Ok (b ++ rest)
  end.

(** ** default.go: the template *)

(** A line of the raw string literal, in which a backquote cannot occur: here it
    stands for a quotation mark. *)
Definition raw (s : string) : bytes := (λ c, if decide (c = x60) then x22 else c) <$> bs s.

Definition template_lines : list bytes := [
  raw "# FootnoteD Config File";
  [];
  raw "# List of ban list URLs.";
  raw "ban_lists = []";
  [];
  raw "# Enables pprof profiling.";
  raw "enable_profiler = {{.EnableProfiler}}";
  [];
  raw "# Sets the log level. Can be one of the following values:";
  raw "# - error";
  raw "# - warn";
  raw "# - info";
  raw "# - debug";
  raw "# - trace";
  raw "log_level = `{{.LogLevel}}`";
  [];
  raw "# Configures heartbeating, which announces this";
  raw "# node's moniker and peer ID to the provided URL.";
  raw "[heartbeat]";
  raw "  # Sets the node's heartbeat moniker.";
  raw "  moniker = `{{.Heartbeat.Moniker}}`";
  raw "  # Sets the URL the node will heartbeat to.";
  raw "  url = `{{.Heartbeat.URL}}`";
  [];
  raw "# Configures the connection to the Handshake network. Footnote assumes";
  raw "# that HSD is hosted at a url with the following format:";
  raw "# <host>:<port>/<base_path>.";
  raw "[hns_resolver]";
  raw "  # Sets the HSD connection's API key.";
  raw "  api_key = `{{.HNSResolver.APIKey}}`";
  raw "  # Sets the HSD connection's base path.";
  raw "  base_path = `{{.HNSResolver.BasePath}}`";
  raw "  # Sets the HSD connection's host and protocol.";
  raw "  host = `{{.HNSResolver.Host}}`";
  raw "  # Sets the HSD connection's port.";
  raw "  port = {{.HNSResolver.Port}}";
  [];
  raw "# Configures the behavior of this node's peer-to-peer";
  raw "# connections.";
  raw "[p2p]";
  raw "  # Sets how long to wait for a remote peer to respond";
  raw "  # before disconnecting.";
  raw "  connection_timeout_ms = {{.P2P.ConnectionTimeoutMS}}";
  raw "  # Sets the set of domain names to query for seed nodes.";
  raw "  # A records belonging to nodes in this list will be";
  raw "  # connected to during node startup.";
  raw "  dns_seeds = [`{{index .P2P.DNSSeeds 0}}`]";
  raw "  # Sets the IP this node should listen on. Should be set to 0.0.0.0";
  raw "  # for all Internet-accessible nodes.";
  raw "  host = `{{.P2P.Host}}`";
  raw "  # Sets the maximum number of inbound peers this node will handle. All";
  raw "  # additional inbound peers will be rejected once this number is reached.";
  raw "  # The default of 117 was chosen to match Bitcoin.";
  raw "  max_inbound_peers = {{.P2P.MaxInboundPeers}}";
  raw "  # Sets the maximum number of outbound peers this node will handle. The node";
  raw "  # will not connect to any additional peers once this number is reached. The";
  raw "  # default of 8 was chosen to match Bitcoin.";
  raw "  max_outbound_peers = {{.P2P.MaxOutboundPeers}}";
  raw "  # Sets a list of fixed seed peers. Items should be formatted as <peer-id>@<ip>.";
  raw "  seed_peers = []";
  [];
  raw "# Configures the behavior of this node's RPC server.";
  raw "[rpc]";
  raw "  # Sets the IP this node should listen for RPC requests on.";
  raw "  # For the most part, this should be set to 127.0.0.1. Exposing";
  raw "  # fnd's RPC port to the public internet is not safe.";
  raw "  host = `{{.RPC.Host}}`";
  raw "  # Sets the port this node should listen for RPC requests on.";
  raw "  port = {{.RPC.Port}}";
  [];
  raw "# Configures various internal tuning parameters. Unless directed otherwise";
  raw "# or you know what you are doing, these values should be left as their";
  raw "# defaults.";
  raw "[tuning]";
  [];
  raw "  # Configures how often fnd will perform heartbeats and";
  raw "  # when to time out heartbeat requests.";
  raw "  [tuning.heartbeat]";
  raw "    interval_ms = {{.Tuning.Heartbeat.IntervalMS}}";
  raw "    timeout_ms = {{.Tuning.Heartbeat.TimeoutMS}}";
  [];
  raw "  # Configures how fnd scans the Handshake blockchain for";
  raw "  # new TXT records.";
  raw "  [tuning.name_importer]";
  raw "    # Sets how often fnd scans for new names.";
  raw "    check_interval_ms = {{.Tuning.NameImporter.CheckIntervalMS}}";
  raw "    # Sets how many blocks fnd will wait before considering";
  raw "    # a Handshake name record to be finalized. Changing this";
  raw "    # value to something lower than the default will lead to";
  raw "    # the network rejecting updates originating from this node.";
  raw "    confirmation_depth = {{.Tuning.NameImporter.ConfirmationDepth}}";
  raw "    # Sets how many blocks should be fetched from HSD concurrently.";
  raw "    workers = {{.Tuning.NameImporter.Workers}}";
  raw "    # Sets the minimum sync percentage fnd will accept from HSD before";
  raw "    # importing names.";
  raw "    verification_threshold = {{.Tuning.NameImporter.VerificationThreshold}}";
  [];
  raw "  # Configures how fnd scans for updates in the background.";
  raw "  [tuning.name_syncer]";
  raw "    # Sets how often updates will be scanned for.";
  raw "    interval_ms = {{.Tuning.NameSyncer.IntervalMS}}";
  raw "    # Sets how many peers will be queried for updates.";
  raw "    sample_size = {{.Tuning.NameSyncer.SampleSize}}";
  raw "    # Sets how long the name syncer will wait for syncs to complete before proceeding";
  raw "    # to the next name.";
  raw "    sync_response_timeout_ms = {{.Tuning.NameSyncer.SyncResponseTimeoutMS}}";
  raw "    # Sets how long the name syncer will wait for updates before proceeding to the";
  raw "    # next name.";
  raw "    update_response_timeout_ms = {{.Tuning.NameSyncer.UpdateResponseTimeoutMS}}";
  raw "    # Sets how many names will be synchronized concurrently.";
  raw "    workers = {{.Tuning.NameSyncer.Workers}}";
  [];
  raw "  # Configures how fnd exchanges peers with the rest of the network.";
  raw "  [tuning.peer_exchanger]";
  raw "    # Sets how many concurrent dials fnd will make when it";
  raw "    # receives exchanged peers.";
  raw "    max_concurrent_dials = {{.Tuning.PeerExchanger.MaxConcurrentDials}}";
  raw "    # Sets the maximum number of peers fnd will process after";
  raw "    # receiving exchanged peers.";
  raw "    max_received_peers = {{.Tuning.PeerExchanger.MaxReceivedPeers}}";
  raw "    # Sets the maximum number of peers fnd will send after receiving a";
  raw "    # request for peers.";
  raw "    max_sent_peers = {{.Tuning.PeerExchanger.MaxSentPeers}}";
  raw "    # Sets how often fnd will request new peers.";
  raw "    request_interval_ms = {{.Tuning.PeerExchanger.RequestIntervalMS}}";
  raw "    # Sets how many peers fnd will request new peers from during each";
  raw "    # peer exchange operation.";
  raw "    sample_size = {{.Tuning.PeerExchanger.SampleSize}}";
  [];
  raw "  # Configures how fnd serves sector data to peers that request it.";
  raw "  [tuning.sector_server]";
  raw "    # Sets how often fnd will reap in-memory cached sectors.";
  raw "    cache_expiry_ms = {{.Tuning.SectorServer.CacheExpiryMS}}";
  [];
  raw "  # Configures how fnd synchronizes sectors with remote peers.";
  raw "  [tuning.syncer]";
  raw "    # Sets how long fnd will wait for remote peers to return";
  raw "    # sector data before retrying.";
  raw "    sector_response_timeout_ms = {{.Tuning.Syncer.SectorResponseTimeoutMS}}";
  raw "    # Sets how long fnd will wait for a remote peers to return";
  raw "    # tree base data before trying another peer.";
  raw "    tree_base_response_timeout_ms = {{.Tuning.Syncer.TreeBaseResponseTimeoutMS}}";
  [];
  raw "  # Configures how fnd enqueues blob updates.";
  raw "  [tuning.update_queue]";
  raw "    # Sets the maximum length of the update queue.";
  raw "    max_len = {{.Tuning.UpdateQueue.MaxLen}}";
  raw "    # Sets how often fnd will reap disposed of queue entries.";
  raw "    reap_interval_ms = {{.Tuning.UpdateQueue.ReapIntervalMS}}";
  [];
  raw "  # Configures how fnd updates blobs.";
  raw "  [tuning.updater]";
  raw "    # Sets how often fnd will check the update queue for new updates.";
  raw "    poll_interval_ms = {{.Tuning.Updater.PollIntervalMS}}";
  raw "    # Sets how many updates fnd will process concurrently.";
  raw "    workers = {{.Tuning.Updater.Workers}}"
].

Definition unlines (ls : list bytes) : bytes := foldr (λ l rest, l ++ x0a :: rest) [] ls.

Definition defaultConfigTemplateText : bytes := unlines template_lines.

(** The configuration as the template sees it. *)
Definition Config_value (cfg : Config) : tvalue := VStruct [
  (bs "LogLevel", VStr (cf_LogLevel cfg));
  (bs "EnableProfiler", VBool (cf_EnableProfiler cfg));
  (bs "Heartbeat", VStruct [
    (bs "Moniker", VStr (hb_Moniker (cf_Heartbeat cfg)));
    (bs "URL", VStr (hb_URL (cf_Heartbeat cfg)))]);
  (bs "P2P", VStruct [
    (bs "Host", VStr (p2_Host (cf_P2P cfg)));
    (bs "DNSSeeds", VList (p2_DNSSeeds (cf_P2P cfg)));
    (bs "FixedSeeds", VList (p2_FixedSeeds (cf_P2P cfg)));
    (bs "MaxInboundPeers", VInt (p2_MaxInboundPeers (cf_P2P cfg)));
    (bs "MaxOutboundPeers", VInt (p2_MaxOutboundPeers (cf_P2P cfg)));
    (bs "ConnectionTimeoutMS", VInt (p2_ConnectionTimeoutMS (cf_P2P cfg)))]);
  (bs "RPC", VStruct [
    (bs "Host", VStr (rc_Host (cf_RPC cfg)));
    (bs "Port", VInt (rc_Port (cf_RPC cfg)))]);
  (bs "HNSResolver", VStruct [
    (bs "Host", VStr (hr_Host (cf_HNSResolver cfg)));
    (bs "Port", VInt (hr_Port (cf_HNSResolver cfg)));
    (bs "BasePath", VStr (hr_BasePath (cf_HNSResolver cfg)));
    (bs "APIKey", VStr (hr_APIKey (cf_HNSResolver cfg)))]);
  (bs "BanLists", VList (cf_BanLists cfg));
  (bs "Tuning", VStruct [
    (bs "UpdateQueue", VStruct [
      (bs "MaxLen", VInt (uq_MaxLen (tu_UpdateQueue (cf_Tuning cfg))));
      (bs "ReapIntervalMS", VInt (uq_ReapIntervalMS (tu_UpdateQueue (cf_Tuning cfg))))]);
    (bs "Updater", VStruct [
      (bs "PollIntervalMS", VInt (up_PollIntervalMS (tu_Updater (cf_Tuning cfg))));
      (bs "Workers", VInt (up_Workers (tu_Updater (cf_Tuning cfg))))]);
    (bs "Syncer", VStruct [
      (bs "TreeBaseResponseTimeoutMS", VInt (sy_TreeBaseResponseTimeoutMS (tu_Syncer (cf_Tuning cfg))));
      (bs "SectorResponseTimeoutMS", VInt (sy_SectorResponseTimeoutMS (tu_Syncer (cf_Tuning cfg))))]);
    (bs "SectorServer", VStruct [
      (bs "CacheExpiryMS", VInt (ss_CacheExpiryMS (tu_SectorServer (cf_Tuning cfg))))]);
    (bs "PeerExchanger", VStruct [
      (bs "SampleSize", VInt (pe_SampleSize (tu_PeerExchanger (cf_Tuning cfg))));
      (bs "ResponseTimeoutMS", VInt (pe_ResponseTimeoutMS (tu_PeerExchanger (cf_Tuning cfg))));
      (bs "RequestIntervalMS", VInt (pe_RequestIntervalMS (tu_PeerExchanger (cf_Tuning cfg))));
      (bs "MaxSentPeers", VInt (pe_MaxSentPeers (tu_PeerExchanger (cf_Tuning cfg))));
      (bs "MaxReceivedPeers", VInt (pe_MaxReceivedPeers (tu_PeerExchanger (cf_Tuning cfg))));
      (bs "MaxConcurrentDials", VInt (pe_MaxConcurrentDials (tu_PeerExchanger (cf_Tuning cfg))))]);
    (bs "NameImporter", VStruct [
      (bs "ConfirmationDepth", VInt (nc_ConfirmationDepth (tu_NameImporter (cf_Tuning cfg))));
      (bs "CheckIntervalMS", VInt (nc_CheckIntervalMS (tu_NameImporter (cf_Tuning cfg))));
      (bs "Workers", VInt (nc_Workers (tu_NameImporter (cf_Tuning cfg))));
      (bs "VerificationThreshold", VFloat (nc_VerificationThreshold (tu_NameImporter (cf_Tuning cfg))))]);
    (bs "Heartbeat", VStruct [
      (bs "IntervalMS", VInt (hc_IntervalMS (tu_Heartbeat (cf_Tuning cfg))));
      (bs "TimeoutMS", VInt (hc_TimeoutMS (tu_Heartbeat (cf_Tuning cfg))))]);
    (bs "NameSyncer", VStruct [
      (bs "Workers", VInt (nsc_Workers (tu_NameSyncer (cf_Tuning cfg))));
      (bs "SampleSize", VInt (nsc_SampleSize (tu_NameSyncer (cf_Tuning cfg))));
      (bs "UpdateResponseTimeoutMS", VInt (nsc_UpdateResponseTimeoutMS (tu_NameSyncer (cf_Tuning cfg))));
      (bs "IntervalMS", VInt (nsc_IntervalMS (tu_NameSyncer (cf_Tuning cfg))));
      (bs "SyncResponseTimeoutMS", VInt (nsc_SyncResponseTimeoutMS (tu_NameSyncer (cf_Tuning cfg))))])])
].

Definition execute_template (cfg : Config) : result bytes :=
  t ← template_Parse defaultConfigTemplateText;
  template_Execute t (Config_value cfg).

(** An error of the template panics, in [init] or here. *)
Definition GenerateDefaultConfigFile : result bytes := must (execute_template DefaultConfig).

(** ** go-toml *)

Inductive toml :=
| TString (s : bytes)
| TInt (n : Z)
| TBool (b : bool)
| TFloat (hundredths : Z)
| TStrings (l : list bytes).

Inductive tkind := TKString | TKInt | TKBool | TKFloat | TKStrings.

#[global] Instance tkind_eq_decision : EqDecision tkind.
Proof. solve_decision. Defined.

Definition tkind_of (v : toml) : tkind :=
  match v with
  | TString _ => TKString | TInt _ => TKInt | TBool _ => TKBool | TFloat _ => TKFloat | TStrings _ => TKStrings
  end.

(** The values of a document by their keys, with the tables they are in first. *)
Abbreviation tree := (gmap (list bytes) toml).

(** The lines of a document. *)
Inductive stmt :=
| SBlank
| SComment (indent : nat) (text : bytes)
| STable (indent : nat) (path : list bytes)
| SKey (indent : nat) (key : bytes) (v : toml).

Definition spaces (n : nat) : bytes := replicate n x20.

Fixpoint render_strings (l : list bytes) (rest : bytes) : bytes :=
  match l with
  | [] => rest
  | [s] => x22 :: s ++ x22 :: rest
  | s :: l => x22 :: s ++ x22 :: x2c :: x20 :: render_strings l rest
  end.

Definition render_toml (v : toml) (rest : bytes) : bytes :=
  match v with
  | TString s => x22 :: s ++ x22 :: rest
  | TInt n => strconv_Itoa n ++ rest
  | TBool b => print_bool b ++ rest
  | TFloat h => print_float h ++ rest
  | TStrings l => x5b :: render_strings l (x5d :: rest)
  end.

Definition render_stmt (s : stmt) (rest : bytes) : bytes :=
  match s with
  | SBlank => rest
  | SComment n t => spaces n ++ x23 :: t ++ rest
  | STable n p => spaces n ++ x5b :: strings_Join p (bs ".") ++ x5d :: rest
  | SKey n k v => spaces n ++ k ++ x20 :: x3d :: x20 :: render_toml v rest
  end.

Definition render (doc : list stmt) : bytes := foldr (λ s rest, render_stmt s (x0a :: rest)) [] doc.

(** The keys and values, in the table that is current, and the tables. *)
Fixpoint doc_values (cur : list bytes) (doc : list stmt) : list (list bytes * toml) :=
  match doc with
  | [] => []
  | SKey _ k v :: doc => (cur ++ [k], v) :: doc_values cur doc
  | STable _ p :: doc => doc_values p doc
  | _ :: doc => doc_values cur doc
  end.

Fixpoint doc_tables (doc : list stmt) : list (list bytes) :=
  match doc with
  | [] => []
  | STable _ p :: doc => p :: doc_tables doc
  | _ :: doc => doc_tables doc
  end.

Definition bare (c : byte) : bool :=
  bool_decide (97 ≤ Z_of_byte c ≤ 122) || is_digit c || bool_decide (c = x5f).

(** Printable ASCII without the quotation mark and the backslash. *)
Definition plain (c : byte) : bool :=
  bool_decide (32 ≤ Z_of_byte c ≤ 126) && bool_decide (c ≠ x22) && bool_decide (c ≠ x5c).

Definition bare_key (k : bytes) : Prop := k ≠ [] ∧ Forall (λ c, bare c = true) k.
Definition plain_text (s : bytes) : Prop := Forall (λ c, plain c = true) s.

Definition toml_ok (v : toml) : Prop :=
  match v with
  | TString s => plain_text s
  | TInt n => - 2 ^ 63 ≤ n < 2 ^ 63
  | TBool _ => True
  | TFloat h => 0 < h < 100
  | TStrings l => Forall plain_text l
  end.

Definition stmt_ok (s : stmt) : Prop :=
  match s with
  | SBlank => True
  | SComment _ t => Forall (λ c, bool_decide (32 ≤ Z_of_byte c ≤ 126) = true) t
  | STable _ p => p ≠ [] ∧ Forall bare_key p
  | SKey _ k v => bare_key k ∧ toml_ok v
  end.

#[global] Instance toml_ok_decision v : Decision (toml_ok v).
Proof. destruct v; cbn; unfold plain_text; apply _. Defined.

#[global] Instance stmt_ok_decision s : Decision (stmt_ok s).
Proof. destruct s; cbn; unfold bare_key; apply _. Defined.

(** No key and no table is given twice, and no value is also a table. *)
Definition doc_ok (doc : list stmt) : Prop :=
  Forall stmt_ok doc ∧ NoDup (doc_values [] doc).*1 ∧ NoDup (doc_tables doc) ∧
  Forall (λ k, Forall (λ t, ¬ k `prefix_of` t) (doc_tables doc)) (doc_values [] doc).*1.

Definition doc_tree (doc : list stmt) : tree := list_to_map (doc_values [] doc).

(** [decoder.Decode] into a struct whose fields have these tags and types: the
    fields that are set. *)
Class TOML := { toml_Decode : list (list bytes * tkind) → bytes → result tree }.

Class TOMLLaws `{TOML} : Prop := {
  toml_Decode_law : ∀ tags doc,
    doc_ok doc → (∀ p k v, (p, k) ∈ tags → doc_tree doc !! p = Some v → tkind_of v = k) →
    toml_Decode tags (render doc) = Ok (filter (λ '(p, _), p ∈ tags.*1) (doc_tree doc));
}.

(** ** config.go *)

Definition get_string (m : tree) (p : list bytes) : bytes :=
  match m !! p with Some (TString s) => s | _ => [] end.
Definition get_int (m : tree) (p : list bytes) : Z :=
  match m !! p with Some (TInt n) => n | _ => 0 end.
Definition get_bool (m : tree) (p : list bytes) : bool :=
  match m !! p with Some (TBool b) => b | _ => false end.
Definition get_float (m : tree) (p : list bytes) : Z :=
  match m !! p with Some (TFloat h) => h | _ => 0 end.
Definition get_strings (m : tree) (p : list bytes) : list bytes :=
  match m !! p with Some (TStrings l) => l | _ => [] end.

(** The tags of the structs. *)
Definition Config_tags : list (list bytes * tkind) := [
  ([bs "log_level"], TKString);
  ([bs "enable_profiler"], TKBool);
  ([bs "heartbeat"; bs "moniker"], TKString);
  ([bs "heartbeat"; bs "url"], TKString);
  ([bs "p2p"; bs "host"], TKString);
  ([bs "p2p"; bs "dns_seeds"], TKStrings);
  ([bs "p2p"; bs "seed_peers"], TKStrings);
  ([bs "p2p"; bs "max_inbound_peers"], TKInt);
  ([bs "p2p"; bs "max_outbound_peers"], TKInt);
  ([bs "p2p"; bs "connection_timeout_ms"], TKInt);
  ([bs "rpc"; bs "host"], TKString);
  ([bs "rpc"; bs "port"], TKInt);
  ([bs "hns_resolver"; bs "host"], TKString);
  ([bs "hns_resolver"; bs "port"], TKInt);
  ([bs "hns_resolver"; bs "base_path"], TKString);
  ([bs "hns_resolver"; bs "api_key"], TKString);
  ([bs "ban_lists"], TKStrings);
  ([bs "tuning"; bs "update_queue"; bs "max_len"], TKInt);
  ([bs "tuning"; bs "update_queue"; bs "reap_interval_ms"], TKInt);
  ([bs "tuning"; bs "updater"; bs "poll_interval_ms"], TKInt);
  ([bs "tuning"; bs "updater"; bs "workers"], TKInt);
  ([bs "tuning"; bs "syncer"; bs "tree_base_response_timeout_ms"], TKInt);
  ([bs "tuning"; bs "syncer"; bs "sector_response_timeout_ms"], TKInt);
  ([bs "tuning"; bs "sector_server"; bs "cache_expiry_ms"], TKInt);
  ([bs "tuning"; bs "peer_exchanger"; bs "sample_size"], TKInt);
  ([bs "tuning"; bs "peer_exchanger"; bs "response_timeout_ms"], TKInt);
  ([bs "tuning"; bs "peer_exchanger"; bs "request_interval_ms"], TKInt);
  ([bs "tuning"; bs "peer_exchanger"; bs "max_sent_peers"], TKInt);
  ([bs "tuning"; bs "peer_exchanger"; bs "max_received_peers"], TKInt);
  ([bs "tuning"; bs "peer_exchanger"; bs "max_concurrent_dials"], TKInt);
  ([bs "tuning"; bs "name_importer"; bs "confirmation_depth"], TKInt);
  ([bs "tuning"; bs "name_importer"; bs "check_interval_ms"], TKInt);
  ([bs "tuning"; bs "name_importer"; bs "workers"], TKInt);
  ([bs "tuning"; bs "name_importer"; bs "verification_threshold"], TKFloat);
  ([bs "tuning"; bs "heartbeat"; bs "interval_ms"], TKInt);
  ([bs "tuning"; bs "heartbeat"; bs "timeout_ms"], TKInt);
  ([bs "tuning"; bs "name_syncer"; bs "workers"], TKInt);
  ([bs "tuning"; bs "name_syncer"; bs "sample_size"], TKInt);
  ([bs "tuning"; bs "name_syncer"; bs "update_response_timeout_ms"], TKInt);
  ([bs "tuning"; bs "name_syncer"; bs "interval_ms"], TKInt);
  ([bs "tuning"; bs "name_syncer"; bs "sync_response_timeout_ms"], TKInt)
].

(** A field that is not set is zero. *)
Definition Config_of (m : tree) : Config :=
  mkConfig
    (get_string m [bs "log_level"])
    (get_bool m [bs "enable_profiler"])
    (mkHeartbeatConfig
      (get_string m [bs "heartbeat"; bs "moniker"])
      (get_string m [bs "heartbeat"; bs "url"]))
    (mkP2PConfig
      (get_string m [bs "p2p"; bs "host"])
      (get_strings m [bs "p2p"; bs "dns_seeds"])
      (get_strings m [bs "p2p"; bs "seed_peers"])
      (get_int m [bs "p2p"; bs "max_inbound_peers"])
      (get_int m [bs "p2p"; bs "max_outbound_peers"])
      (get_int m [bs "p2p"; bs "connection_timeout_ms"]))
    (mkRPCConfig
      (get_string m [bs "rpc"; bs "host"])
      (get_int m [bs "rpc"; bs "port"]))
    (mkHNSResolverConfig
      (get_string m [bs "hns_resolver"; bs "host"])
      (get_int m [bs "hns_resolver"; bs "port"])
      (get_string m [bs "hns_resolver"; bs "base_path"])
      (get_string m [bs "hns_resolver"; bs "api_key"]))
    (get_strings m [bs "ban_lists"])
    (mkTuningConfig
      (mkUpdateQueueConfig
        (get_int m [bs "tuning"; bs "update_queue"; bs "max_len"])
        (get_int m [bs "tuning"; bs "update_queue"; bs "reap_interval_ms"]))
      (mkUpdaterConfig
        (get_int m [bs "tuning"; bs "updater"; bs "poll_interval_ms"])
        (get_int m [bs "tuning"; bs "updater"; bs "workers"]))
      (mkSyncerConfig
        (get_int m [bs "tuning"; bs "syncer"; bs "tree_base_response_timeout_ms"])
        (get_int m [bs "tuning"; bs "syncer"; bs "sector_response_timeout_ms"]))
      (mkSectorServerConfig
        (get_int m [bs "tuning"; bs "sector_server"; bs "cache_expiry_ms"]))
      (mkPeerExchangerConfig
        (get_int m [bs "tuning"; bs "peer_exchanger"; bs "sample_size"])
        (get_int m [bs "tuning"; bs "peer_exchanger"; bs "response_timeout_ms"])
        (get_int m [bs "tuning"; bs "peer_exchanger"; bs "request_interval_ms"])
        (get_int m [bs "tuning"; bs "peer_exchanger"; bs "max_sent_peers"])
        (get_int m [bs "tuning"; bs "peer_exchanger"; bs "max_received_peers"])
        (get_int m [bs "tuning"; bs "peer_exchanger"; bs "max_concurrent_dials"]))
      (mkNameImporterConfig
        (get_int m [bs "tuning"; bs "name_importer"; bs "confirmation_depth"])
        (get_int m [bs "tuning"; bs "name_importer"; bs "check_interval_ms"])
        (get_int m [bs "tuning"; bs "name_importer"; bs "workers"])
        (get_float m [bs "tuning"; bs "name_importer"; bs "verification_threshold"]))
      (mkHeartbeaterConfig
        (get_int m [bs "tuning"; bs "heartbeat"; bs "interval_ms"])
        (get_int m [bs "tuning"; bs "heartbeat"; bs "timeout_ms"]))
      (mkNameSyncerConfig
        (get_int m [bs "tuning"; bs "name_syncer"; bs "workers"])
        (get_int m [bs "tuning"; bs "name_syncer"; bs "sample_size"])
        (get_int m [bs "tuning"; bs "name_syncer"; bs "update_response_timeout_ms"])
        (get_int m [bs "tuning"; bs "name_syncer"; bs "interval_ms"])
        (get_int m [bs "tuning"; bs "name_syncer"; bs "sync_response_timeout_ms"]))).

Definition ReadConfig `{TOML} (r : bytes) : result Config :=
  match toml_Decode Config_tags r with
  | Ok m => Ok (Config_of m)
  | Err e => Err (EWrap e "error decoding config file")
  | Panic w => Panic w
  end.
