(* ===== verification/TomlInstance.v ===== *)
(** * A parser of the part of TOML the configuration is written in

    It satisfies the law of [TOML], so that the theorems on the configuration
    file apply to a concrete function. *)

From S2P Require Import Prelude GoLib Crypto Instances Sector Names OsFile StoreDB BanList NetIP Strconv Config ConfigFile.

(** ** The parser *)

Fixpoint take_until (c : byte) (s : bytes) : bytes :=
  match s with
  | [] => []
  | d :: s => if decide (d = c) then [] else d :: take_until c s
  end.

(** The texts between quotation marks. *)
Fixpoint every_other {A} (l : list A) : list A :=
  match l with
  | _ :: a :: l => a :: every_other l
  | _ => []
  end.

Definition toy_float (s : bytes) : Z :=
  match s with
  | [_; _; a] => 10 * (Z_of_byte a - 48)
  | [_; _; a; b] => 10 * (Z_of_byte a - 48) + (Z_of_byte b - 48)
  | _ => 0
  end.

Definition toy_toml (s : bytes) : result toml :=
  match s with
  | [] => Err NumError
  | c :: r =>
      if decide (c = x22) then Ok (TString (take_until x22 r))
      else if decide (c = x5b) then Ok (TStrings (every_other (strings_Split x22 r)))
      else if decide (c = x74) then Ok (TBool true)
      else if decide (c = x66) then Ok (TBool false)
      else if decide (x2e ∈ s) then Ok (TFloat (toy_float s))
      else TInt <$> Atoi s
  end.

Definition toy_line (l : bytes) : result stmt :=
  match trim_left (λ c, bool_decide (c = x20)) l with
  | [] => Ok SBlank
  | c :: r =>
      if decide (c = x23) then Ok SBlank
      else if decide (c = x5b) then Ok (STable 0 (strings_Split x2e (take_until x5d r)))
      else
        let k := take_until x20 (c :: r) in
        SKey 0 k <$> toy_toml (drop (length k + 3) (c :: r))
  end.

Fixpoint toy_lines (ls : list bytes) : result (list stmt) :=
  match ls with
  | [] => Ok []
  | l :: ls => s ← toy_line l; rest ← toy_lines ls; Ok (s :: rest)
  end.

#[export] Instance toy_TOML : TOML :=
  {| toml_Decode := λ tags b,
       doc ← toy_lines (strings_Split x0a b);
       Ok (filter (λ '(p, _), p ∈ tags.*1) (doc_tree doc)) |}.

(** What a line means. *)
Definition meaning (s : stmt) : stmt :=
  match s with
  | SBlank | SComment _ _ => SBlank
  | STable _ p => STable 0 p
  | SKey _ k v => SKey 0 k v
  end.

Lemma doc_values_meaning cur doc : doc_values cur (meaning <$> doc) = doc_values cur doc.
Proof. revert cur. induction doc as [|[] doc IH]; intros cur; cbn; by rewrite ?IH. Qed.

Lemma take_until_app c s rest : c ∉ s → take_until c (s ++ c :: rest) = s.
Proof.
  induction s as [|d s IH]; intros Hc; cbn; [by rewrite decide_True|].
  rewrite decide_False by set_solver. f_equal. apply IH. set_solver.
Qed.

Lemma render_strings_app l r1 r2 : render_strings l r1 ++ r2 = render_strings l (r1 ++ r2).
Proof.
  induction l as [|s l IH]; [done|]. destruct l as [|t l]; cbn [render_strings] in *.
  - by rewrite <-!app_comm_cons, <-app_assoc.
  - by rewrite <-!app_comm_cons, <-app_assoc, <-IH.
Qed.

Lemma render_stmt_app s rest : render_stmt s rest = render_stmt s [] ++ rest.
Proof.
  destruct s as [|n t|n p|n k v]; cbn [render_stmt]; rewrite <-?app_assoc; cbn; rewrite <-?app_assoc; try done.
  do 5 f_equal. destruct v; cbn; rewrite ?app_nil_r, <-?app_assoc; try done.
  f_equal. by rewrite render_strings_app.
Qed.

Lemma not_in_Forall (f : byte → bool) c s : Forall (λ c, f c = true) s → f c = false → c ∉ s.
Proof. rewrite Forall_forall. intros Hs Hf Hc. apply Hs in Hc. congruence. Qed.

Lemma Split_strings l rest :
  Forall plain_text l → every_other (strings_Split x22 (render_strings l (x5d :: rest))) = l ++ every_other (strings_Split x22 (x5d :: rest)).
Proof.
  intros Hl. induction Hl as [|s l Hs Hl IH]; [done|].
  pose proof (not_in_Forall plain x22 s Hs eq_refl) as Hq.
  destruct l as [|t l].
  - cbn [render_strings]. change (x22 :: s ++ x22 :: x5d :: rest) with ([] ++ x22 :: s ++ x22 :: x5d :: rest).
    rewrite !Split_line by (done || set_solver). done.
  - assert (Hr : ∃ r, render_strings (t :: l) (x5d :: rest) = [] ++ x22 :: r) by (destruct l; by eexists).
    destruct Hr as [r Hr]. rewrite Hr in IH.
    change (render_strings (s :: t :: l) (x5d :: rest))
      with ([] ++ x22 :: s ++ x22 :: [x2c; x20] ++ render_strings (t :: l) (x5d :: rest)).
    rewrite Hr. rewrite (Split_line x22 []) in IH by set_solver.
    rewrite !Split_line by (done || set_solver). change ([] ++ x22 :: r) with (x22 :: r).
    rewrite (Split_line x22 [x2c; x20]) by set_solver.
    exact (f_equal (cons s) IH).
Qed.

Lemma toy_float_print h : 0 < h < 100 → print_float h ≠ [] ∧ x2e ∈ print_float h ∧ head (print_float h) = Some x30 ∧ toy_float (print_float h) = h.
Proof.
  intros Hh. assert (Ha : Forall (λ h, print_float h ≠ [] ∧ x2e ∈ print_float h ∧ head (print_float h) = Some x30 ∧
    toy_float (print_float h) = h) (seqZ 1 99)).
  { apply (bool_decide_unpack _). vm_compute. exact I. }
  rewrite Forall_forall in Ha. apply Ha, elem_of_seqZ. lia.
Qed.

Lemma toy_toml_render v : toml_ok v → toy_toml (render_toml v []) = Ok v.
Proof.
  destruct v as [s|n|b|h|l]; cbn [toml_ok render_toml]; intros Hv.
  - cbn [toy_toml]. rewrite decide_True by done. do 2 f_equal. apply take_until_app.
    by apply (not_in_Forall plain x22 s).
  - rewrite app_nil_r. destruct (Itoa_bytes n) as [Hne Hb]; [lia|]. 
    assert (Hp : Atoi (strconv_Itoa n) = Ok n) by (apply ParseInt10_Itoa; lia). revert Hne Hb Hp.
    generalize (strconv_Itoa n) as s. intros [|c s] Hne Hb Hp; [done|]. unfold toy_toml.
    assert (Hx : ∀ x, x ∈ c :: s → x = x2d ∨ is_digit x = true) by (by apply Forall_forall).
    rewrite !decide_False; [by rewrite Hp|..].
    1: intros Hd; apply Hx in Hd; destruct Hd as [?|Hd]; [done|by vm_compute in Hd].
    all: intros ->; destruct (Hx _ (list_elem_of_here _ _)) as [?|Hd]; [done|by vm_compute in Hd].
  - by destruct b.
  - rewrite app_nil_r. destruct (toy_float_print h Hv) as (Hne & Hd & Hh & Hf). revert Hne Hd Hh Hf.
    generalize (print_float h) as s. intros [|c s] Hne Hd [= ->] Hf. unfold toy_toml.
    rewrite !decide_False by done. rewrite decide_True by done. by rewrite Hf.
  - cbn [toy_toml]. rewrite decide_False, decide_True by done. do 2 f_equal.
    rewrite (Split_strings l []) by done. cbn. by rewrite app_nil_r.
Qed.

Lemma trim_spaces n s : trim_left (λ c, bool_decide (c = x20)) (spaces n ++ s) = trim_left (λ c, bool_decide (c = x20)) s.
Proof. by induction n. Qed.

Lemma Split_join p : p ≠ [] → Forall bare_key p → strings_Split x2e (strings_Join p (bs ".")) = p ∧ x5d ∉ strings_Join p (bs ".").
Proof.
  intros Hne Hp. induction Hp as [|k p [_ Hk] Hp IH]; [done|].
  pose proof (not_in_Forall bare x2e k Hk eq_refl). pose proof (not_in_Forall bare x5d k Hk eq_refl).
  destruct p as [|q p].
  - by rewrite Split_last.
  - destruct IH as [IH1 IH2]; [done|]. 
    change (strings_Join (k :: q :: p) (bs ".")) with (k ++ x2e :: strings_Join (q :: p) (bs ".")).
    rewrite Split_line, IH1 by done. split; [done|]. set_solver.
Qed.

Lemma toy_line_render s : stmt_ok s → toy_line (render_stmt s []) = Ok (meaning s).
Proof.
  destruct s as [|n t|n p|n k v]; cbn [stmt_ok render_stmt meaning]; intros Hs; [done|..];
    unfold toy_line; rewrite trim_spaces.
  - done.
  - cbn [trim_left]. rewrite bool_decide_false by done. rewrite decide_False, decide_True by done.
    destruct (Split_join p) as [Hj Hn]; [apply Hs..|]. by rewrite take_until_app, Hj.
  - destruct Hs as ((Hne & Hk) & Hv).
    assert (Hx : x20 ∉ k) by (by apply (not_in_Forall bare)).
    assert (Hc : ∃ c k', k = c :: k' ∧ c ≠ x20 ∧ c ≠ x23 ∧ c ≠ x5b).
    { destruct Hk as [|c k' Hc Hk]; [done|]. exists c, k'. repeat split; by intros ->. }
    destruct Hc as (c & k' & -> & H20 & H23 & H5b). cbn [trim_left app].
    rewrite bool_decide_false by done. rewrite !decide_False by done.
    rewrite !app_comm_cons, take_until_app by done.
    replace (drop _ _) with (render_toml v []); [by rewrite toy_toml_render|].
    rewrite drop_app_ge by lia. by replace (_ - _)%nat with 3%nat by lia.
Qed.

(** No line has a line break. *)
Abbreviation one_line := (Forall (λ c, c ≠ x0a)).

Lemma one_line_of (f : byte → bool) s : Forall (λ c, f c = true) s → f x0a = false → one_line s.
Proof. intros Hs Hf. eapply Forall_impl; [exact Hs|]. intros c Hc ->. congruence. Qed.

Lemma one_line_join p : Forall bare_key p → one_line (strings_Join p (bs ".")).
Proof.
  intros Hp. induction Hp as [|k p [_ Hk] Hp IH]; [constructor|]. apply (one_line_of bare) in Hk; [|done].
  destruct p as [|q p]; [done|]. change (strings_Join (k :: q :: p) (bs ".")) with (k ++ x2e :: strings_Join (q :: p) (bs ".")).
  apply Forall_app. by repeat constructor.
Qed.

Lemma one_line_strings l rest : Forall plain_text l → one_line rest → one_line (render_strings l rest).
Proof.
  intros Hl Hr. induction Hl as [|s l Hs Hl IH]; [done|]. apply (one_line_of plain) in Hs; [|done].
  destruct l; cbn [render_strings] in *; constructor; try done; apply Forall_app; by repeat constructor.
Qed.

Lemma one_line_toml v : toml_ok v → one_line (render_toml v []).
Proof.
  destruct v as [s|n|b|h|l]; cbn [toml_ok render_toml]; intros Hv; rewrite ?app_nil_r.
  - constructor; [done|]. apply Forall_app. split; [by apply (one_line_of plain)|by repeat constructor].
  - destruct (Itoa_bytes n) as [_ Hb]; [lia|]. eapply Forall_impl; [exact Hb|]. intros c [->|Hc]; [done|]. intros ->. by vm_compute in Hc.
  - destruct b; by repeat constructor.
  - assert (Ha : Forall (λ h, one_line (print_float h)) (seqZ 1 99)).
    { apply (bool_decide_unpack _). vm_compute. exact I. }
    rewrite Forall_forall in Ha. apply Ha, elem_of_seqZ. lia.
  - constructor; [done|]. apply one_line_strings; [done|by repeat constructor].
Qed.

Lemma one_line_stmt s : stmt_ok s → x0a ∉ render_stmt s [].
Proof.
  intros Hs Hin. cut (one_line (render_stmt s [])); [rewrite Forall_forall; intros Hf; by apply Hf in Hin|]. clear Hin.
  assert (Hsp : ∀ n, one_line (spaces n)) by (intros n; by apply Forall_replicate).
  destruct s as [|n t|n p|n k v]; cbn [stmt_ok render_stmt] in *; [constructor|..]; apply Forall_app; split; try done.
  - constructor; [done|]. rewrite app_nil_r. by apply (one_line_of _ t Hs).
  - constructor; [done|]. apply Forall_app. split; [apply one_line_join; apply Hs|by repeat constructor].
  - destruct Hs as ((_ & Hk) & Hv). apply Forall_app. split; [by apply (one_line_of bare)|].
    repeat (constructor; [done|]). by apply one_line_toml.
Qed.

Lemma toy_lines_render doc :
  Forall stmt_ok doc → toy_lines (strings_Split x0a (render doc)) = Ok ((meaning <$> doc) ++ [SBlank]).
Proof.
  intros Hd. induction Hd as [|s doc Hs Hd IH]; [done|].
  change (render (s :: doc)) with (render_stmt s (x0a :: render doc)).
  rewrite render_stmt_app, Split_line by (by apply one_line_stmt). cbn [toy_lines].
  by rewrite toy_line_render, IH.
Qed.

Lemma doc_values_app_blank cur doc : doc_values cur (doc ++ [SBlank]) = doc_values cur doc.
Proof. revert cur. induction doc as [|[] doc IH]; intros cur; cbn; by rewrite ?IH. Qed.

#[export] Instance toy_TOML_laws : TOMLLaws.
Proof.
  split. intros tags doc (Hd & _) _. cbn [toml_Decode toy_TOML]. rewrite toy_lines_render by done.
  cbn [mbind result_bind]. unfold doc_tree. by rewrite doc_values_app_blank, doc_values_meaning.
Qed.
