(* ===== verification/ConfigFileProofs.v ===== *)
(** * The file of the configuration: what is written is what is read

    A configuration that is filled in the template is read back from the file,
    for any values of its fields; a small parser satisfies the law of [TOML]. *)

From S2P Require Import Prelude GoLib Crypto Instances Sector Names OsFile StoreDB BanList NetIP Strconv Config ConfigFile TomlInstance.

(** ** The document *)

(** The lines of the template that are neither blank nor comments. *)
Definition config_items (cfg : Config) : list stmt := [
  SKey 0 (bs "ban_lists") (TStrings []);
  SKey 0 (bs "enable_profiler") (TBool (cf_EnableProfiler cfg));
  SKey 0 (bs "log_level") (TString (cf_LogLevel cfg));
  STable 0 [bs "heartbeat"];
  SKey 2 (bs "moniker") (TString (hb_Moniker (cf_Heartbeat cfg)));
  SKey 2 (bs "url") (TString (hb_URL (cf_Heartbeat cfg)));
  STable 0 [bs "hns_resolver"];
  SKey 2 (bs "api_key") (TString (hr_APIKey (cf_HNSResolver cfg)));
  SKey 2 (bs "base_path") (TString (hr_BasePath (cf_HNSResolver cfg)));
  SKey 2 (bs "host") (TString (hr_Host (cf_HNSResolver cfg)));
  SKey 2 (bs "port") (TInt (hr_Port (cf_HNSResolver cfg)));
  STable 0 [bs "p2p"];
  SKey 2 (bs "connection_timeout_ms") (TInt (p2_ConnectionTimeoutMS (cf_P2P cfg)));
  SKey 2 (bs "dns_seeds") (TStrings (take 1 (p2_DNSSeeds (cf_P2P cfg))));
  SKey 2 (bs "host") (TString (p2_Host (cf_P2P cfg)));
  SKey 2 (bs "max_inbound_peers") (TInt (p2_MaxInboundPeers (cf_P2P cfg)));
  SKey 2 (bs "max_outbound_peers") (TInt (p2_MaxOutboundPeers (cf_P2P cfg)));
  SKey 2 (bs "seed_peers") (TStrings []);
  STable 0 [bs "rpc"];
  SKey 2 (bs "host") (TString (rc_Host (cf_RPC cfg)));
  SKey 2 (bs "port") (TInt (rc_Port (cf_RPC cfg)));
  STable 0 [bs "tuning"];
  STable 2 [bs "tuning"; bs "heartbeat"];
  SKey 4 (bs "interval_ms") (TInt (hc_IntervalMS (tu_Heartbeat (cf_Tuning cfg))));
  SKey 4 (bs "timeout_ms") (TInt (hc_TimeoutMS (tu_Heartbeat (cf_Tuning cfg))));
  STable 2 [bs "tuning"; bs "name_importer"];
  SKey 4 (bs "check_interval_ms") (TInt (nc_CheckIntervalMS (tu_NameImporter (cf_Tuning cfg))));
  SKey 4 (bs "confirmation_depth") (TInt (nc_ConfirmationDepth (tu_NameImporter (cf_Tuning cfg))));
  SKey 4 (bs "workers") (TInt (nc_Workers (tu_NameImporter (cf_Tuning cfg))));
  SKey 4 (bs "verification_threshold") (TFloat (nc_VerificationThreshold (tu_NameImporter (cf_Tuning cfg))));
  STable 2 [bs "tuning"; bs "name_syncer"];
  SKey 4 (bs "interval_ms") (TInt (nsc_IntervalMS (tu_NameSyncer (cf_Tuning cfg))));
  SKey 4 (bs "sample_size") (TInt (nsc_SampleSize (tu_NameSyncer (cf_Tuning cfg))));
  SKey 4 (bs "sync_response_timeout_ms") (TInt (nsc_SyncResponseTimeoutMS (tu_NameSyncer (cf_Tuning cfg))));
  SKey 4 (bs "update_response_timeout_ms") (TInt (nsc_UpdateResponseTimeoutMS (tu_NameSyncer (cf_Tuning cfg))));
  SKey 4 (bs "workers") (TInt (nsc_Workers (tu_NameSyncer (cf_Tuning cfg))));
  STable 2 [bs "tuning"; bs "peer_exchanger"];
  SKey 4 (bs "max_concurrent_dials") (TInt (pe_MaxConcurrentDials (tu_PeerExchanger (cf_Tuning cfg))));
  SKey 4 (bs "max_received_peers") (TInt (pe_MaxReceivedPeers (tu_PeerExchanger (cf_Tuning cfg))));
  SKey 4 (bs "max_sent_peers") (TInt (pe_MaxSentPeers (tu_PeerExchanger (cf_Tuning cfg))));
  SKey 4 (bs "request_interval_ms") (TInt (pe_RequestIntervalMS (tu_PeerExchanger (cf_Tuning cfg))));
  SKey 4 (bs "sample_size") (TInt (pe_SampleSize (tu_PeerExchanger (cf_Tuning cfg))));
  STable 2 [bs "tuning"; bs "sector_server"];
  SKey 4 (bs "cache_expiry_ms") (TInt (ss_CacheExpiryMS (tu_SectorServer (cf_Tuning cfg))));
  STable 2 [bs "tuning"; bs "syncer"];
  SKey 4 (bs "sector_response_timeout_ms") (TInt (sy_SectorResponseTimeoutMS (tu_Syncer (cf_Tuning cfg))));
  SKey 4 (bs "tree_base_response_timeout_ms") (TInt (sy_TreeBaseResponseTimeoutMS (tu_Syncer (cf_Tuning cfg))));
  STable 2 [bs "tuning"; bs "update_queue"];
  SKey 4 (bs "max_len") (TInt (uq_MaxLen (tu_UpdateQueue (cf_Tuning cfg))));
  SKey 4 (bs "reap_interval_ms") (TInt (uq_ReapIntervalMS (tu_UpdateQueue (cf_Tuning cfg))));
  STable 2 [bs "tuning"; bs "updater"];
  SKey 4 (bs "poll_interval_ms") (TInt (up_PollIntervalMS (tu_Updater (cf_Tuning cfg))));
  SKey 4 (bs "workers") (TInt (up_Workers (tu_Updater (cf_Tuning cfg))))
].

Definition comment_of (l : bytes) : option stmt :=
  match trim_left (λ c, bool_decide (c = x20)) l with
  | [] => Some SBlank
  | c :: t => if decide (c = x23) then Some (SComment (length l - S (length t)) t) else None
  end.

Fixpoint weave (lines : list bytes) (items : list stmt) : list stmt :=
  match lines with
  | [] => []
  | l :: lines =>
      match comment_of l, items with
      | Some s, _ => s :: weave lines items
      | None, s :: items => s :: weave lines items
      | None, [] => weave lines []
      end
  end.

Definition config_doc (cfg : Config) : list stmt := weave template_lines (config_items cfg).

(** What the template can express: one seed, lists that are empty, texts without
    quotation marks. *)
Definition config_ok (cfg : Config) : Prop :=
  Forall stmt_ok (config_items cfg) ∧
  length (p2_DNSSeeds (cf_P2P cfg)) = 1%nat ∧ p2_FixedSeeds (cf_P2P cfg) = [] ∧ cf_BanLists cfg = [].

(** The time-out of the exchanger is not in the template. *)
Definition without_timeout (cfg : Config) : Config :=
  let tu := cf_Tuning cfg in
  let pe := tu_PeerExchanger tu in
  mkConfig (cf_LogLevel cfg) (cf_EnableProfiler cfg) (cf_Heartbeat cfg) (cf_P2P cfg) (cf_RPC cfg)
    (cf_HNSResolver cfg) (cf_BanLists cfg)
    (mkTuningConfig (tu_UpdateQueue tu) (tu_Updater tu) (tu_Syncer tu) (tu_SectorServer tu)
      (mkPeerExchangerConfig (pe_SampleSize pe) 0 (pe_RequestIntervalMS pe) (pe_MaxSentPeers pe)
        (pe_MaxReceivedPeers pe) (pe_MaxConcurrentDials pe))
      (tu_NameImporter tu) (tu_Heartbeat tu) (tu_NameSyncer tu)).

Definition template_pieces : list piece := Eval vm_compute in
  match template_Parse defaultConfigTemplateText with Ok t => t | _ => [] end.

Lemma template_parsed : template_Parse defaultConfigTemplateText = Ok template_pieces.
Proof. by vm_compute. Qed.

Lemma template_executed cfg seed :
  p2_DNSSeeds (cf_P2P cfg) = [seed] → execute_template cfg = Ok (render (config_doc cfg)).
Proof.
  intros Hs. unfold execute_template. rewrite template_parsed. cbn [mbind result_bind].
  destruct cfg as [? ? [] [? seeds] [] [] ? [[] [] [] [] [] [] [] []]]. cbn in Hs. subst seeds.
  lazy -[strconv_Itoa print_float print_bool]. reflexivity.
Qed.

(** The comments of the template are comments. *)
Lemma comments_ok : Forall (λ l, match comment_of l with Some s => stmt_ok s | None => True end) template_lines.
Proof.
  assert (Hd : ∀ s, match s with SComment _ t => forallb (λ c, bool_decide (32 ≤ Z_of_byte c ≤ 126)) t | SBlank => true | _ => false end = true → stmt_ok s).
  { intros [] Hs; try done. cbn. apply Forall_forall. intros c Hc. rewrite forallb_forall in Hs.
    apply Hs. by apply list_elem_of_In. }
  apply (Forall_impl (λ l, match comment_of l with
    | Some (SComment _ t) => forallb (λ c, bool_decide (32 ≤ Z_of_byte c ≤ 126)) t
    | Some SBlank | None => true
    | _ => false
    end = true)).
  - apply (bool_decide_unpack _). vm_compute. exact I.
  - intros l. destruct (comment_of l) as [s|]; [|done]. apply Hd.
Qed.

Lemma weave_ok lines items :
  Forall (λ l, match comment_of l with Some s => stmt_ok s | None => True end) lines →
  Forall stmt_ok items → Forall stmt_ok (weave lines items).
Proof.
  intros Hl. revert items. induction Hl as [|l lines Hc Hl IH]; intros items Hi; [constructor|]. cbn [weave].
  destruct (comment_of l) as [s|]; [constructor; [done|by apply IH]|].
  destruct Hi; [by apply IH|]. constructor; [done|by apply IH].
Qed.

Lemma config_doc_ok cfg : config_ok cfg → doc_ok (config_doc cfg).
Proof.
  intros (Hi & _). split; [apply weave_ok; [apply comments_ok|done]|].
  repeat split; apply (bool_decide_unpack _); vm_compute; exact I.
Qed.

Section read.
Context `{TOMLLaws}.

Lemma ReadConfig_rendered cfg :
  config_ok cfg → ReadConfig (render (config_doc cfg)) = Ok (without_timeout cfg).
Proof.
  intros Hok. unfold ReadConfig. rewrite toml_Decode_law; [|by apply config_doc_ok|].
  - f_equal. destruct Hok as (_ & Hd & Hf & Hb).
    destruct cfg as [? ? [] [? [|seed [|]] seeds] [] [] lists [[] [] [] [] [] [] [] []]]; try done.
    cbn in Hf, Hb. subst. by vm_compute.
  - intros p k v Hp. revert v.
    set (q := λ pk : list bytes * tkind, ∀ v, doc_tree (config_doc cfg) !! pk.1 = Some v → tkind_of v = pk.2).
    change (q (p, k)). assert (Hq : Forall q Config_tags); [|by rewrite Forall_forall in Hq; apply Hq].
    clear p k Hp. unfold q. clear q.
    destruct cfg as [? ? [] [] [] [] ? [[] [] [] [] [] [] [] []]].
    repeat (apply Forall_cons; split; [intros v; vm_compute; by intros [= <-]|]). constructor.
Qed.

End read.

Lemma DefaultConfig_ok : config_ok DefaultConfig.
Proof. split; [|done]. apply (bool_decide_unpack _). vm_compute. exact I. Qed.

(** The file of the default configuration. *)
Lemma GenerateDefaultConfigFile_Ok : GenerateDefaultConfigFile = Ok (render (config_doc DefaultConfig)).
Proof. unfold GenerateDefaultConfigFile. by rewrite (template_executed _ (bs "seeds-test.merkleblock.com")). Qed.

