(* ===== verification/Home.v ===== *)
(** * The home directory of a node and of the command line

    [src/config/home.go], [paths.go], [node_identity.go] and the files of
    [default.go], [src/cli/homedir.go] and [signer.go], and the commands that
    work on the directory: [init] and [identity] of [src/cmd], and the three
    resets of [cmd/fnd-cli/cmd/unsafe].  The state is the file system, for
    the resets with the database; the errors of opening and closing the
    database are arguments.  A command returns what it prints. *)

From S2P Require Import Prelude GoLib Crypto Instances Sector OsFile BlobIO BlobTx Names BlobStore Util StoreDB.
From S2P Require Import StoreInstances Store StorePeers BanList NetIP HnsEncoding HnsDns HnsPrimitives NameImporter.
From S2P Require Import Strconv Config ConfigFile.

(** ** btcec: the bytes of a private key *)

Class PrivKeyBytes `{Secp256k1} := {
  priv_Serialize : PrivateKey → bytes;
  PrivKeyFromBytes : bytes → PrivateKey;
}.

Class PrivKeyBytesLaws `{PrivKeyBytes} : Prop := {
  priv_Serialize_length : ∀ k, length (priv_Serialize k) = 32%nat;
  PrivKeyFromBytes_Serialize : ∀ k, PrivKeyFromBytes (priv_Serialize k) = k;
}.

(** ** Whole files *)

(** [f.Write]: at the offset of the file, which advances. *)
Definition File_Write (fd : nat) (b : bytes) : M FS unit :=
  f ← open_file fd;
  if decide (b = []) then mret tt else
  M_modify (λ fs, fs_set_inode (file_ino f) (write_at (content fs (file_ino f)) (file_off f) b) fs);;
  M_modify (fs_set_file fd (mkFile (file_ino f) (file_name f) (file_off f + length b) (file_open f))).

(** The rest of a file, from its offset. *)
Definition File_ReadAll (fd : nat) : M FS bytes :=
  f ← open_file fd;
  fs ← M_get;
  let data := drop (file_off f) (content fs (file_ino f)) in
  M_modify (fs_set_file fd (mkFile (file_ino f) (file_name f) (file_off f + length data) (file_open f)));;
  mret data.

(** [os.OpenFile] with [os.O_CREATE|os.O_TRUNC]. *)
Definition open_truncated (p : path) : M FS nat :=
  fd ← OpenFile p true;
  File_Truncate fd 0;;
  mret fd.

Definition ioutil_WriteFile (p : path) (data : bytes) : M FS unit :=
  fd ← open_truncated p;
  r ← M_try (File_Write fd data);
  c ← M_try (File_Close fd);
  M_lift (match r with Ok _ => c | _ => r end).

Definition ioutil_ReadFile (p : path) : M FS bytes :=
  fd ← OpenFile p false;
  M_defer (File_Close fd) (File_ReadAll fd).

(** [os.RemoveAll]: the name and all names below it. *)
Definition below (p : bytes) (q : path) : bool :=
  match q with
  | Path b => bool_decide (b = p ∨ (p ++ bs "/") `prefix_of` b)
  | Temp _ => false
  end.

Definition os_RemoveAll (p : bytes) : M FS unit :=
  M_modify (λ fs, mkFS (fs_inodes fs) (filter (λ '(q, _), below p q = false) (fs_names fs))
                       (fs_files fs) (fs_next fs)).

(** ** paths.go *)

Definition BlobsPath : bytes := bs "blobs".
Definition DBPath : bytes := bs "db".

(** [homedir.Expand] is an argument. *)
Definition ExpandHomePath (expand : bytes → result bytes) (p : bytes) : result bytes := must (expand p).

Definition ExpandBlobsPath (homePath : bytes) : bytes := path_Join [homePath; BlobsPath].
Definition InitBlobsDir (homePath : bytes) : M FS unit := MkdirAll (Path (ExpandBlobsPath homePath)).
Definition ExpandDBPath (homePath : bytes) : bytes := path_Join [homePath; DBPath].
Definition InitDBDir (homePath : bytes) : M FS unit := MkdirAll (Path (ExpandDBPath homePath)).

(** ** default.go *)

Definition config_path (homeDir : bytes) : path := Path (path_Join [homeDir; bs "config.toml"]).

Definition ReadConfigFile `{TOML} (homeDir : bytes) : M FS Config :=
  fd ← M_wrapping "error opening config file for reading" (OpenFile (config_path homeDir) false);
  M_defer (File_Close fd)
    (r ← File_ReadAll fd; M_lift (wrapping "error reading config file" (ReadConfig r))).

Definition WriteDefaultConfigFile (homeDir : bytes) : M FS unit :=
  fd ← M_wrapping "error opening config file for writing" (open_truncated (config_path homeDir));
  M_defer (File_Close fd)
    (rd ← M_lift GenerateDefaultConfigFile; M_wrapping "error writing config file" (File_Write fd rd)).

(** ** home.go *)

Definition HomeDirExists (p : bytes) : M FS bool :=
  stat ← M_try (os_Stat (Path p));
  match stat with
  | Err e => if errors_Is e ErrNotExist then mret false else M_fail e
  | Ok isDir =>
      if isDir : bool then mret true else M_fail (ENew "home dir path exists, but is a file")
  | Panic w => M_panic w
  end.

Definition EnsureHomeDir (p : bytes) : M FS unit :=
  exists_ ← HomeDirExists p;
  if exists_ : bool then mret tt
  else M_fail (ENew "home directory does not exist - try running fnd init").

(** ** node_identity.go *)

Section identity.
Context `{PrivKeyBytes}.

Definition IdentityFilename : bytes := bs "identity".

Record Identity := mkIdentity { id_PrivateKey : PrivateKey }.

Definition Identity_MarshalBinary (n : Identity) : bytes := priv_Serialize (id_PrivateKey n).

Definition Identity_UnmarshalBinary (data : bytes) : result Identity :=
  if decide (length data ≠ 32%nat) then Err (ENew "invalid private key length")
  else Ok (mkIdentity (PrivKeyFromBytes data)).

Definition identity_path (homePath : bytes) : path := Path (path_Join [homePath; IdentityFilename]).

Definition WriteIdentity (homePath : bytes) (id : Identity) : M FS unit :=
  ioutil_WriteFile (identity_path homePath) (Identity_MarshalBinary id).

Definition ReadNodeIdentity (homePath : bytes) : M FS Identity :=
  data ← ioutil_ReadFile (identity_path homePath);
  M_lift (Identity_UnmarshalBinary data).

(** [NewIdentity]: the key the curve library draws, and panics if it cannot. *)
Definition NewIdentity (drawn : result PrivateKey) : result Identity := mkIdentity <$> must drawn.

Definition config_InitHomeDir (drawn : result PrivateKey) (homePath : bytes) : M FS unit :=
  MkdirAll (Path homePath);;
  identity ← M_lift (NewIdentity drawn);
  WriteIdentity homePath identity;;
  InitBlobsDir homePath;;
  InitDBDir homePath;;
  WriteDefaultConfigFile homePath.

(** ** cli *)

Definition GetSigner (homeDir : bytes) : M FS Signer :=
  identity ← ReadNodeIdentity homeDir;
  mret (NewSECP256k1Signer (id_PrivateKey identity)).

(** [GetHomeDir]: the flag, expanded. *)
Definition GetHomeDir (expand : bytes → result bytes) (flag : bytes) : result bytes := ExpandHomePath expand flag.

Definition cli_InitHomeDir (drawn : result PrivateKey) (expand : bytes → result bytes) (flag : bytes) : M FS bytes :=
  homeDir ← M_lift (GetHomeDir expand flag);
  exists_ ← HomeDirExists homeDir;
  if exists_ : bool then M_fail (ENew "home directory is already initialized") else
  config_InitHomeDir drawn homeDir;;
  mret homeDir.

(** ** Commands *)

(** [init] of both programs, whose names are [program]. *)
Definition initCmd (program : bytes) (drawn : result PrivateKey) (expand : bytes → result bytes) (flag : bytes)
    : M FS bytes :=
  dir ← cli_InitHomeDir drawn expand flag;
  mret (bs "Successfully initialized " ++ program ++ bs " in " ++ dir ++ bs "." ++ [x0a]).

(** What [fnd] does before every command but [init]. *)
Definition rootPreRun (calledAs : bytes) (expand : bytes → result bytes) (flag : bytes) : M FS (option bytes) :=
  if decide (calledAs = bs "init") then mret None else
  configuredHomeDir ← M_lift (GetHomeDir expand flag);
  M_wrapping "error ensuring home directory" (EnsureHomeDir configuredHomeDir);;
  mret (Some configuredHomeDir).

Definition identityCmd (expand : bytes → result bytes) (flag : bytes) : M FS bytes :=
  homeDir ← M_lift (GetHomeDir expand flag);
  EnsureHomeDir homeDir;;
  signer ← GetSigner homeDir;
  mret (base64_Encode (SerializeCompressed (Pub signer)) ++ [x0a]).
End identity.

(** ** The resets *)

Section resets.
Context `{LevelDB}.

(** What [store.Open] and [db.Close] return besides the database. *)
Context (open_err close_err : option error).

Abbreviation HomeState := (FS * DB)%type.

Definition on_fs {A} (m : M FS A) : M HomeState A := M_zoom fst (λ fs s, (fs, s.2)) m.
Definition on_db {A} (m : M DB A) : M HomeState A := M_zoom snd (λ db s, (s.1, db)) m.

Definition returned (e : option error) : M HomeState unit :=
  match e with None => mret tt | Some e => M_fail e end.

Definition resetBlobsCmd (expand : bytes → result bytes) (fndHome : bytes) : M HomeState bytes :=
  homePath ← M_lift (ExpandHomePath expand fndHome);
  M_wrapping "error opening store" (returned open_err);;
  M_wrapping "error erasing blob data" (on_fs (os_RemoveAll (ExpandBlobsPath homePath)));;
  M_wrapping "error recreating blobs directory" (on_fs (InitBlobsDir homePath));;
  M_wrapping "error truncating header store" (on_db TruncateHeaderStore);;
  M_wrapping "error closing DB" (returned close_err);;
  mret (bs "Blob data wiped." ++ [x0a]).

Definition resetNameStore (expand : bytes → result bytes) (fndHome : bytes) : M HomeState bytes :=
  homePath ← M_lift (ExpandHomePath expand fndHome);
  M_wrapping "failed to open store" (returned open_err);;
  M_wrapping "error truncating name store" (on_db TruncateNameStore);;
  M_wrapping "error closing DB" (returned close_err);;
  mret (bs "HNS name store wiped." ++ [x0a]).

Definition resetPeerStoreCmd (expand : bytes → result bytes) (fndHome : bytes) : M HomeState bytes :=
  homePath ← M_lift (ExpandHomePath expand fndHome);
  M_wrapping "error opening store" (returned open_err);;
  M_wrapping "error truncating peer store" (on_db TruncatePeerStore);;
  M_wrapping "error closing DB" (returned close_err);;
  mret (bs "Peer store wiped." ++ [x0a]).
End resets.
