(* ===== verification/HomeProofs.v ===== *)
(** * The home directory: what [init] makes, and what the resets leave

    A key is made once, and the node, the command line and the chain agree on
    it; the resets remove what they name. *)

From S2P Require Import Prelude GoLib Crypto Instances Sector OsFile BlobIO BlobTx Names BlobStore Util StoreDB.
From S2P Require Import StoreInstances Store StorePeers BanList NetIP HnsEncoding HnsDns HnsPrimitives NameImporter.
From S2P Require Import ImporterProofs Strconv Config ConfigFile TomlInstance ConfigFileProofs Home.

(** ** Files *)

(** The name holds these bytes. *)
Definition stores (fs : FS) (p : path) (b : bytes) : Prop :=
  ∃ ino, fs_names fs !! p = Some (File ino) ∧ fs_inodes fs !! ino = Some b ∧ (ino < fs_next fs)%nat.

(** Nothing changes but the name [p]. *)
Definition only_name (p : path) (fs fs' : FS) : Prop :=
  ∀ q, q ≠ p → fs_names fs' !! q = fs_names fs !! q ∧ ∀ b, stores fs q b → stores fs' q b.

(** The same names with the same bytes. *)
Definition same_files (fs fs' : FS) : Prop :=
  fs_names fs' = fs_names fs ∧ fs_inodes fs' = fs_inodes fs ∧ (fs_next fs ≤ fs_next fs')%nat.

Lemma same_files_stores fs fs' p b : same_files fs fs' → stores fs p b → stores fs' p b.
Proof. intros (Hn & Hi & Hle) (ino & Hp & Hb & Hlt). exists ino. rewrite Hn, Hi. split_and!; [done..|lia]. Qed.

Lemma same_files_trans fs1 fs2 fs3 : same_files fs1 fs2 → same_files fs2 fs3 → same_files fs1 fs3.
Proof. intros (? & ? & ?) (? & ? & ?). unfold same_files. split_and!; [congruence..|lia]. Qed.

Lemma MkdirAll_new p fs :
  fs_names fs !! p = None →
  ∃ fs', MkdirAll p fs = (Ok tt, fs') ∧ fs_names fs' !! p = Some Dir ∧ only_name p fs fs'.
Proof.
  intros Hp. exists (fs_set_name p Dir fs). unfold MkdirAll. rewrite Hp. split; [done|].
  cbn. split; [by rewrite lookup_insert_eq|]. intros q Hq. cbn. rewrite lookup_insert_ne by done.
  split; [done|]. intros b (ino & Hn & Hrest). exists ino. cbn. by rewrite lookup_insert_ne.
Qed.

(** A new file, written and closed. *)
Lemma write_new p b fs :
  fs_names fs !! p = None →
  ∃ fd fs1 fs2 fs3, open_truncated p fs = (Ok fd, fs1) ∧ File_Write fd b fs1 = (Ok tt, fs2) ∧
    File_Close fd fs2 = (Ok tt, fs3) ∧ stores fs3 p b ∧ only_name p fs fs3.
Proof.
  intros Hp. destruct (create_spec p fs) as (fs0 & Hc & Hf & Hi & Hn & Hx & _ & FI & FN & _).
  set (fd := S (fs_next fs)) in *. set (ino := fs_next fs) in *.
  set (g := mkFile ino p 0 true) in *.
  exists fd, (fs_set_inode ino [] fs0).
  assert (Hopen : ∀ fs', fs_files fs' !! fd = Some g → open_file fd fs' = (Ok g, fs')).
  { intros fs' Hg. by apply open_file_Ok. }
  set (fs2 := if decide (b = []) then fs_set_inode ino [] fs0
    else fs_set_file fd (mkFile ino p (0 + length b) true) (fs_set_inode ino b (fs_set_inode ino [] fs0))).
  exists fs2.
  assert (Hg2 : ∃ off, fs_files fs2 !! fd = Some (mkFile ino p off true)).
  { unfold fs2. case_decide; cbn; [by exists 0%nat|]. rewrite lookup_insert_eq. by eexists. }
  destruct Hg2 as [off Hg2]. exists (fs_set_file fd (mkFile ino p off false) fs2).
  assert (Hino : fs_inodes fs2 !! ino = Some b).
  { unfold fs2. case_decide; subst; cbn; by rewrite lookup_insert_eq. }
  assert (Hnames : fs_names fs2 = fs_names fs0) by (unfold fs2; by case_decide).
  assert (Hnext : fs_next fs2 = fs_next fs0) by (unfold fs2; by case_decide).
  assert (Hother : ∀ j, j ≠ ino → fs_inodes fs2 !! j = fs_inodes fs !! j).
  { intros j Hj. rewrite <-FI by set_solver. unfold fs2. case_decide; cbn; by rewrite ?lookup_insert_ne. }
  split_and!.
  - unfold open_truncated, OpenFile. unfold mbind at 1, M_bind at 1. rewrite Hp, Hc.
    unfold File_Truncate. rewrite (M_bind_step _ _ _ tt (fs_set_inode ino [] fs0)); [done|].
    rewrite (M_bind_step _ _ _ _ _ (Hopen fs0 Hf)). unfold M_modify. by rewrite resize_0.
  - unfold File_Write. rewrite (M_bind_step _ _ _ _ _ (Hopen (fs_set_inode ino [] fs0) Hf)). unfold fs2. case_decide; [done|].
    cbn [file_ino file_off file_name file_open g].
    rewrite (M_bind_step _ _ _ tt (fs_set_inode ino b (fs_set_inode ino [] fs0))); [done|].
    unfold M_modify, content. cbn [fs_inodes fs_set_inode]. rewrite lookup_insert_eq.
    change (default [] (Some ?x)) with x. by rewrite write_at_0, drop_nil, app_nil_r.
  - unfold File_Close. by rewrite (M_bind_step _ _ _ _ _ (open_file_Ok _ _ _ Hg2 eq_refl)).
  - exists ino. cbn. rewrite Hnames, Hnext, Hx. split_and!; [done..|]. unfold ino. lia.
  - intros q Hq. cbn. rewrite Hnames, FN by set_solver. split; [done|].
    intros c (j & Hj & Hc' & Hlt). exists j. cbn. rewrite Hnames, FN, Hnext, Hx by set_solver.
    split_and!; [done| |unfold ino in *; lia]. rewrite Hother; [done|]. unfold ino. lia.
Qed.

Lemma WriteFile_new p b fs :
  fs_names fs !! p = None →
  ∃ fs', ioutil_WriteFile p b fs = (Ok tt, fs') ∧ stores fs' p b ∧ only_name p fs fs'.
Proof.
  intros Hp. destruct (write_new p b fs Hp) as (fd & fs1 & fs2 & fs3 & Ho & Hw & Hc & Hs & Hk).
  exists fs3. split; [|done]. unfold ioutil_WriteFile. rewrite (M_bind_step _ _ _ _ _ Ho).
  rewrite (M_bind_step _ _ _ _ _ (M_try_Ok _ _ _ _ Hw)). by rewrite (M_bind_step _ _ _ _ _ (M_try_Ok _ _ _ _ Hc)).
Qed.

(** Opening a file that is there, reading all of it and closing it. *)
Lemma read_stored p b fs :
  stores fs p b →
  ∃ fd fs1 fs2 fs3, OpenFile p false fs = (Ok fd, fs1) ∧ File_ReadAll fd fs1 = (Ok b, fs2) ∧
    File_Close fd fs2 = (Ok tt, fs3) ∧ same_files fs fs3.
Proof.
  intros (ino & Hp & Hi & Hlt). set (fd := fs_next fs).
  set (fs1 := fs_bump (fs_set_file fd (mkFile ino p 0 true) fs)).
  set (fs2 := fs_set_file fd (mkFile ino p (0 + length b) true) fs1).
  exists fd, fs1, fs2, (fs_set_file fd (mkFile ino p (0 + length b) false) fs2).
  assert (Hf1 : fs_files fs1 !! fd = Some (mkFile ino p 0 true)) by (cbn; by rewrite lookup_insert_eq).
  assert (Hf2 : fs_files fs2 !! fd = Some (mkFile ino p (0 + length b) true)) by (cbn; by rewrite lookup_insert_eq).
  split_and!.
  - unfold OpenFile. by rewrite Hp.
  - unfold File_ReadAll. rewrite (M_bind_step _ _ _ _ _ (open_file_Ok _ _ _ Hf1 eq_refl)).
    rewrite (M_bind_step _ _ _ fs1 fs1) by done. cbn [file_ino file_off file_name file_open].
    assert (Hi1 : fs_inodes fs1 !! ino = Some b) by done. rewrite (content_Some _ _ _ Hi1), drop_0.
    by rewrite (M_bind_step _ _ _ tt fs2).
  - unfold File_Close. by rewrite (M_bind_step _ _ _ _ _ (open_file_Ok _ _ _ Hf2 eq_refl)).
  - unfold same_files. cbn. split_and!; [done..|lia].
Qed.

Lemma M_defer_Ok {S A} (d : M S unit) (m : M S A) s r s1 s2 :
  m s = (r, s1) → d s1 = (Ok tt, s2) → M_defer d m s = (r, s2).
Proof. intros Hm Hd. unfold M_defer. by rewrite Hm, Hd. Qed.

Lemma ReadFile_stored p b fs :
  stores fs p b → ∃ fs', ioutil_ReadFile p fs = (Ok b, fs') ∧ same_files fs fs'.
Proof.
  intros (fd & fs1 & fs2 & fs3 & Ho & Hr & Hc & Hs)%read_stored. exists fs3. split; [|done].
  unfold ioutil_ReadFile. rewrite (M_bind_step _ _ _ _ _ Ho). by eapply M_defer_Ok.
Qed.

(** ** The paths of a home *)

Definition nothing_below (home : bytes) (fs : FS) : Prop := ∀ q, below home q = true → fs_names fs !! q = None.

Lemma below_home home : below home (Path home) = true.
Proof. apply bool_decide_eq_true. by left. Qed.

Lemma below_join home x : below home (Path (path_Join [home; x])) = true.
Proof. apply bool_decide_eq_true. right. exists x. by rewrite <-app_assoc. Qed.

Lemma join_ne home x y : x ≠ y → Path (path_Join [home; x]) ≠ Path (path_Join [home; y]).
Proof. intros Hne [= He%app_inv_head]. by simplify_eq. Qed.

Lemma join_ne_home home x : Path (path_Join [home; x]) ≠ Path home.
Proof. intros [= He]. apply (f_equal length) in He. rewrite length_app in He. cbn in He. lia. Qed.

(** The next of the files of a home: it is not there yet, and those that are stay. *)
Lemma only_name_next home x y fs fs' :
  only_name (Path (path_Join [home; x])) fs fs' → x ≠ y →
  fs_names fs' !! Path (path_Join [home; y]) = fs_names fs !! Path (path_Join [home; y]).
Proof. intros Hk Hne. apply Hk. by apply join_ne. Qed.

Section home.
Context `{Secp256k1Laws, !PrivKeyBytes, !PrivKeyBytesLaws, TOMLLaws}.

(** What a home holds after [init]. *)
Definition home_of (home : bytes) (key : PrivateKey) (fs : FS) : Prop :=
  fs_names fs !! Path home = Some Dir ∧
  fs_names fs !! Path (ExpandBlobsPath home) = Some Dir ∧
  fs_names fs !! Path (ExpandDBPath home) = Some Dir ∧
  stores fs (identity_path home) (priv_Serialize key) ∧
  stores fs (config_path home) (render (config_doc DefaultConfig)).

Lemma WriteDefaultConfigFile_new home fs :
  fs_names fs !! config_path home = None →
  ∃ fs', WriteDefaultConfigFile home fs = (Ok tt, fs') ∧
    stores fs' (config_path home) (render (config_doc DefaultConfig)) ∧ only_name (config_path home) fs fs'.
Proof.
  intros Hp. destruct (write_new _ (render (config_doc DefaultConfig)) fs Hp) as (fd & fs1 & fs2 & fs3 & Ho & Hw & Hc & Hs & Hk).
  exists fs3. split; [|done]. unfold WriteDefaultConfigFile.
  rewrite (M_bind_step _ _ _ fd fs1) by (unfold M_wrapping; by rewrite Ho).
  eapply M_defer_Ok; [|exact Hc].
  rewrite (M_bind_step _ _ _ (render (config_doc DefaultConfig)) fs1)
    by (unfold M_lift; by rewrite GenerateDefaultConfigFile_Ok).
  unfold M_wrapping. by rewrite Hw.
Qed.

Lemma InitHomeDir_fresh home key fs :
  nothing_below home fs → ∃ fs', config_InitHomeDir (Ok key) home fs = (Ok tt, fs') ∧ home_of home key fs'.
Proof.
  unfold home_of, config_InitHomeDir, InitBlobsDir, InitDBDir, WriteIdentity, ExpandBlobsPath, ExpandDBPath, identity_path.
  intros Hn. pose proof (Hn _ (below_home home)) as Hh. pose proof (λ x, Hn _ (below_join home x)) as Hj.
  destruct (MkdirAll_new _ fs Hh) as (f1 & E1 & D1 & K1).
  assert (Hj1 : ∀ x, fs_names f1 !! Path (path_Join [home; x]) = None).
  { intros x. by rewrite (proj1 (K1 _ (join_ne_home home x))). }
  destruct (WriteFile_new (Path (path_Join [home; IdentityFilename])) (priv_Serialize key) f1 (Hj1 _)) as (f2 & E2 & S2 & K2).
  destruct (MkdirAll_new (Path (path_Join [home; BlobsPath])) f2) as (f3 & E3 & D3 & K3).
  { by rewrite (only_name_next _ _ _ _ _ K2). }
  destruct (MkdirAll_new (Path (path_Join [home; DBPath])) f3) as (f4 & E4 & D4 & K4).
  { by rewrite (only_name_next _ _ _ _ _ K3), (only_name_next _ _ _ _ _ K2). }
  destruct (WriteDefaultConfigFile_new home f4) as (f5 & E5 & S5 & K5).
  { unfold config_path. by rewrite (only_name_next _ _ _ _ _ K4), (only_name_next _ _ _ _ _ K3), (only_name_next _ _ _ _ _ K2). }
  exists f5. split.
  - rewrite (M_bind_step _ _ _ _ _ E1).
    rewrite (M_bind_step _ _ _ (mkIdentity key) f1) by done.
    rewrite (M_bind_step _ _ _ _ _ E2), (M_bind_step _ _ _ _ _ E3). by rewrite (M_bind_step _ _ _ _ _ E4).
  - split_and!; [| | | |done].
    + rewrite (proj1 (K5 _ (not_eq_sym (join_ne_home home _)))), (proj1 (K4 _ (not_eq_sym (join_ne_home home _)))),
        (proj1 (K3 _ (not_eq_sym (join_ne_home home _)))), (proj1 (K2 _ (not_eq_sym (join_ne_home home _)))). done.
    + by rewrite (only_name_next _ _ _ _ _ K5), (only_name_next _ _ _ _ _ K4).
    + by rewrite (only_name_next _ _ _ _ _ K5).
    + apply K5; [by apply join_ne|]. apply K4; [by apply join_ne|]. apply K3; [by apply join_ne|done].
Qed.

Lemma GetSigner_home home key fs :
  home_of home key fs → ∃ fs', GetSigner home fs = (Ok (NewSECP256k1Signer key), fs') ∧ same_files fs fs'.
Proof.
  intros (_ & _ & _ & (fs' & Hr & Hs)%ReadFile_stored & _). exists fs'. split; [|done].
  unfold GetSigner, ReadNodeIdentity. rewrite (M_bind_step _ _ _ (mkIdentity key) fs'); [done|].
  rewrite (M_bind_step _ _ _ _ _ Hr). unfold M_lift, Identity_UnmarshalBinary.
  by rewrite decide_False, PrivKeyFromBytes_Serialize by (rewrite priv_Serialize_length; tauto).
Qed.

Lemma ReadConfigFile_home home key fs :
  home_of home key fs → ∃ fs', ReadConfigFile home fs = (Ok DefaultConfig, fs') ∧ same_files fs fs'.
Proof.
  intros (_ & _ & _ & _ & (fd & fs1 & fs2 & fs3 & Ho & Hr & Hc & Hs)%read_stored). exists fs3. split; [|done].
  unfold ReadConfigFile. rewrite (M_bind_step _ _ _ fd fs1) by (unfold M_wrapping; by rewrite Ho).
  eapply M_defer_Ok; [|exact Hc]. rewrite (M_bind_step _ _ _ _ _ Hr). unfold M_lift.
  by rewrite (ReadConfig_rendered _ DefaultConfig_ok).
Qed.

Lemma HomeDirExists_home home key fs : home_of home key fs → HomeDirExists home fs = (Ok true, fs).
Proof. intros (Hh & _). unfold HomeDirExists, mbind, M_bind, M_try, os_Stat. by rewrite Hh. Qed.

End home.

(** ** The resets *)

Section resets.
Context `{LevelDBLaws}.

Lemma truncated msg msg' p db :
  ∃ db', M_wrapping msg (WithTx_only (delete_prefix msg' p)) db = (Ok tt, db') ∧
    ∀ k, db_map db' !! k = if decide (p `prefix_of` k) then None else db_map db !! k.
Proof.
  destruct (WithTx_only_returns (delete_prefix msg' p) db (Ok tt)
    (filter (λ '(k, _), ¬ p `prefix_of` k) (db_map db))) as (db' & Hw & Hm); [done|..].
  { intros tx Htx. destruct (delete_prefix_spec msg' p tx) as (tx' & Hd & Hm). exists tx'. split; [done|].
    apply map_eq. intros k. rewrite Hm, Htx, map_lookup_filter. destruct (db_map db !! k); cbn; by repeat case_decide || case_guard. }
  exists db'. unfold M_wrapping. rewrite Hw. split; [done|]. intros k. rewrite Hm, map_lookup_filter.
  destruct (db_map db !! k); cbn; by repeat case_decide || case_guard.
Qed.

Lemma on_db_step {A} msg (m : M DB A) fs db a db' :
  m db = (Ok a, db') → M_wrapping msg (on_db m) (fs, db) = (Ok a, (fs, db')).
Proof. intros Hm. unfold M_wrapping, on_db, M_zoom. cbn. by rewrite Hm. Qed.

Lemma ExpandHomePath_Ok {S} expand flag home (s : S) :
  expand flag = Ok home → M_lift (ExpandHomePath expand flag) s = (Ok home, s).
Proof. intros He. unfold M_lift, ExpandHomePath. by rewrite He. Qed.

(** A key that a reset removed, and one that it left. *)
Lemma truncated_Get p db db' k :
  (∀ k, db_map db' !! k = if decide (p `prefix_of` k) then None else db_map db !! k) →
  db_Get db' k = if decide (p `prefix_of` k) then Err ErrNotFound else db_Get db k.
Proof. intros Hm. rewrite !db_Get_law, Hm. by case_decide. Qed.

Lemma removed_and_made p fs :
  ∃ fs', (os_RemoveAll p;; MkdirAll (Path p)) fs = (Ok tt, fs') ∧
    (∀ q, below p q = true → q ≠ Path p → fs_names fs' !! q = None) ∧
    ∀ q, below p q = false → fs_names fs' !! q = fs_names fs !! q.
Proof.
  set (names := filter (λ '(q, _), below p q = false) (fs_names fs)).
  set (fs1 := mkFS (fs_inodes fs) names (fs_files fs) (fs_next fs)).
  exists (fs_set_name (Path p) Dir fs1).
  assert (Hnone : ∀ q, below p q = true → names !! q = None).
  { intros q Hq. apply map_lookup_filter_None. right. intros x _ Hx. congruence. }
  split_and!.
  - rewrite (M_bind_step _ _ _ tt fs1) by done. unfold MkdirAll. cbn. by rewrite Hnone by apply below_home.
  - intros q Hq Hne. cbn. rewrite lookup_insert_ne by done. by apply Hnone.
  - intros q Hq. cbn. rewrite lookup_insert_ne by (intros <-; by rewrite below_home in Hq).
    destruct (fs_names fs !! q) as [x|] eqn:Hx; [by apply map_lookup_filter_Some_2|].
    apply map_lookup_filter_None. by left.
Qed.

(** C35: [reset-blobs] leaves no blob and no header: no name below the directory
    of the blobs is left, every header is gone and their number is zero.  Files
    outside that directory and the other keys of the database stay. *)
Theorem reset_blobs_clears `{JSON, Blake2b} expand flag home fs db :
  expand flag = Ok home →
  ∃ fs' db', resetBlobsCmd None None expand flag (fs, db) = (Ok (bs "Blob data wiped." ++ [x0a]), (fs', db')) ∧
    (∀ name pool, Store_Exists (ExpandBlobsPath home) name (fs', pool) = (Ok false, (fs', pool))) ∧
    (∀ name, GetHeader db' name = Err (EWrap ErrNotFound "error getting header data")) ∧
    GetHeaderCount db' = Ok 0 ∧
    (∀ q, below (ExpandBlobsPath home) q = false → fs_names fs' !! q = fs_names fs !! q) ∧
    (∀ k, ¬ bs "headers" `prefix_of` k → db_map db' !! k = db_map db !! k).
Proof.
  intros He. destruct (removed_and_made (ExpandBlobsPath home) fs) as (fs' & Hr & Hnone & Hsame).
  destruct (truncated "error truncating header store" "error deleting header store key" (headersPrefix []) db) as (db' & Ht & Hm).
  exists fs', db'. split_and!.
  - unfold resetBlobsCmd. rewrite (M_bind_step _ _ _ _ _ (ExpandHomePath_Ok _ _ _ _ He)).
    rewrite (M_bind_step _ _ _ tt (fs, db)) by done. apply M_bind_Ok in Hr as ([] & fs1 & Hr1 & Hr2).
    rewrite (M_bind_step _ _ _ tt (fs1, db)) by (unfold M_wrapping, on_fs, M_zoom; cbn [fst]; by rewrite Hr1).
    rewrite (M_bind_step _ _ _ tt (fs', db)) by (unfold M_wrapping, on_fs, M_zoom, InitBlobsDir; cbn [fst]; by rewrite Hr2).
    by rewrite (M_bind_step _ _ _ _ _ (on_db_step _ _ _ _ _ _ Ht)).
  - intros name pool. unfold Store_Exists. destruct (PathifyName_Ok name) as (segs & -> & _).
    erewrite (M_bind_step (M_lift _)); [|reflexivity]. unfold pool_fs, M_zoom, fileExists. cbn [fst].
    unfold mbind, M_bind, M_try, os_Stat. by rewrite Hnone by (apply below_join || apply join_ne_home).
  - intros name. unfold GetHeader. rewrite (truncated_Get _ _ _ _ Hm), decide_True; [done|]. by eexists.
  - unfold GetHeaderCount. rewrite (truncated_Get _ _ _ _ Hm), decide_True; [done|]. by eexists.
  - exact Hsame.
  - intros k Hk. by rewrite Hm, decide_False.
Qed.

(** C38: [reset-name-store] forgets the names, but not the height they were
    imported up to: no name has a key any more, and the next import goes on where
    the last one ended, or, on a node that had caught up, does nothing.  The
    names of the blocks below are not imported again. *)
Theorem reset_names_lost `{JSON, Secp256k1, MiekgDNS} expand flag home fs db :
  expand flag = Ok home →
  ∃ db', resetNameStore None None expand flag (fs, db) = (Ok (bs "HNS name store wiped." ++ [x0a]), (fs, db')) ∧
    (∀ name, GetNameInfo db' name = Err (EWrap ErrNotFound "error getting name info")) ∧
    (∀ client n, sync_range client n db' = sync_range client n db) ∧
    ∀ client n fuel e, sync_range client n db = Err e → doSync client n fuel db' = (Err e, db').
Proof.
  intros He. destruct (truncated "error truncating name store" "error deleting name store key" (namesPrefix []) db) as (db' & Ht & Hm).
  assert (Hsr : ∀ client n, sync_range client n db' = sync_range client n db).
  { intros client n. unfold sync_range, GetLastNameImportHeight. rewrite (truncated_Get _ _ _ _ Hm).
    rewrite decide_False; [done|]. by intros [? ?]. }
  exists db'. split_and!.
  - unfold resetNameStore. rewrite (M_bind_step _ _ _ _ _ (ExpandHomePath_Ok _ _ _ _ He)).
    rewrite (M_bind_step _ _ _ tt (fs, db)) by done.
    by rewrite (M_bind_step _ _ _ _ _ (on_db_step _ _ _ _ _ _ Ht)).
  - intros name. unfold GetNameInfo. rewrite (truncated_Get _ _ _ _ Hm), decide_True; [done|]. by eexists.
  - exact Hsr.
  - intros client n fuel e Hs. unfold doSync. by rewrite Hsr, Hs.
Qed.

(** [reset-peer-store] leaves no peer, ban or whitelisted address, and no other
    key. *)
Lemma reset_peers_clears expand flag home fs db :
  expand flag = Ok home →
  ∃ db', resetPeerStoreCmd None None expand flag (fs, db) = (Ok (bs "Peer store wiped." ++ [x0a]), (fs, db')) ∧
    ∀ k, db_map db' !! k = if decide (bs "peers" `prefix_of` k) then None else db_map db !! k.
Proof.
  intros He. destruct (truncated "error truncating peer store" "error deleting peer store key" (peersPrefix []) db) as (db' & Ht & Hm).
  exists db'. split; [|done]. unfold resetPeerStoreCmd. rewrite (M_bind_step _ _ _ _ _ (ExpandHomePath_Ok _ _ _ _ He)).
  rewrite (M_bind_step _ _ _ tt (fs, db)) by done.
  by rewrite (M_bind_step _ _ _ _ _ (on_db_step _ _ _ _ _ _ Ht)).
Qed.
End resets.

(** ** Instances *)

#[export] Instance toy_privkey : PrivKeyBytes :=
  {| priv_Serialize := λ k, k :: replicate 31 x00;
     PrivKeyFromBytes := λ b, default x00 (head b) |}.

#[export] Instance toy_privkey_laws : PrivKeyBytesLaws.
Proof. by split. Qed.

Definition demo_home : bytes := bs "/root/.fnd".
Definition demo_expand (p : bytes) : result bytes :=
  if decide (p = bs "~/.fnd") then Ok demo_home else Ok p.


(** A node with a blob, its header, a name, and the height of the last import. *)
Definition demo_reset_fs : FS :=
  fs_set_name (Path (path_Join [ExpandBlobsPath demo_home; bs "blob"])) (File 0) empty_fs.

Definition demo_reset_db : DB (LevelDB := map_leveldb) :=
  <[headerDataPrefix [bs "name"] := [x00]]> (<[headerCountKey := mustEncodeInt 1]>
  (<[nameDataPrefix [bs "name"] := [x00]]> (<[lastNameImportHeightKey := mustEncodeInt 7]> ∅))).

Lemma reset_blobs_clears_witness :
  GetHeaderCount demo_reset_db = Ok 1 ∧
  GetHeaderCount (resetBlobsCmd None None demo_expand (bs "~/.fnd") (demo_reset_fs, demo_reset_db)).2.2 = Ok 0.
Proof.
  split; [by vm_compute|].
  destruct (reset_blobs_clears demo_expand (bs "~/.fnd") demo_home demo_reset_fs demo_reset_db)
    as (fs' & db' & Hr & _ & _ & Hc & _); [done|].
  by rewrite Hr.
Defined.

Lemma reset_names_lost_witness :
  GetLastNameImportHeight demo_reset_db = Ok 7 ∧
  ∃ db', (resetNameStore None None demo_expand (bs "~/.fnd") (demo_reset_fs, demo_reset_db)).2.2 = db' ∧
    GetNameInfo db' (bs "name") = Err (EWrap ErrNotFound "error getting name info") ∧
    GetLastNameImportHeight db' = Ok 7.
Proof.
  split; [by vm_compute|].
  destruct (reset_names_lost demo_expand (bs "~/.fnd") demo_home demo_reset_fs demo_reset_db)
    as (db' & Hr & Hn & _); [done|].
  eexists. split; [reflexivity|]. split; [rewrite Hr; apply Hn|]. by vm_compute.
Defined.
