(* ===== verification/PeerExchanger.v ===== *)
(** * Package protocol: the exchange of peers

    [src/protocol/peer_exchanger.go]: a node asks its peers for the peers they have
    stored, and dials those it is told of, once for each request.  The dialler and
    the muxer of the exchanger are those of the peer manager, and so is the database. *)

From S2P Require Import Prelude GoLib Crypto Instances Dwire Sector Wire Util StoreDB StoreInstances Store StorePeers.
From S2P Require Import Peer Mux PeerManager NetIP Config.

Definition MaxSentPeerCount : nat := 255.

Section exchanger.
Context `{LevelDB, JSON, Secp256k1, Blake2b}.
Context (opts : PeerManagerOpts).
(** [Send] of the muxer, with the node's signer. *)
Context (send : Hash → Message → M PeerMuxer unit).

Record PeerExchanger := mkPeerExchanger {
  px_manager : peerManager;
  px_cache : Cache (V := unit);
}.

Definition NewPeerExchanger (pm : peerManager) : PeerExchanger := mkPeerExchanger pm NewCache.

Definition on_manager {A} (m : M peerManager A) : M PeerExchanger A :=
  M_zoom px_manager (λ pm x, mkPeerExchanger pm (px_cache x)) m.

Definition on_requests {A} (m : M (Cache (V := unit)) A) : M PeerExchanger A :=
  M_zoom px_cache (λ c x, mkPeerExchanger (px_manager x) c) m.

Fixpoint mark_requests (now timeoutMS : Z) (recips : list Hash) : M PeerExchanger unit :=
  match recips with
  | [] => mret tt
  | recip :: recips =>
      on_requests (Cache_Set now (Hash_String recip) tt timeoutMS);;
      mark_requests now timeoutMS recips
  end.

(** [int64(pe.ResponseTimeout/time.Millisecond)], as [NewPeerExchanger] sets it. *)
Definition response_timeout (cfg : PeerExchangerConfig) : Z :=
  ConvertDuration (pe_ResponseTimeoutMS cfg) Millisecond `quot` Millisecond.

(** A tick of [Start]; the timeout is in milliseconds. *)
Definition request_peers (order : list bytes → list bytes) (now timeoutMS : Z) : M PeerExchanger unit :=
  '(recips, _) ← on_manager (on_mux (BroadcastAll order (λ id, send id MPeerReq)));
  mark_requests now timeoutMS recips.

(** The address of a peer that is sent; [net.ParseIP] is nil on what is not one. *)
Definition wire_peer (p : StorePeers.Peer) : Wire.Peer :=
  Wire.mkPeer (default [] (ParseIP (p_IP p))) (p_ID p).

(** The loop over the stream, while [n] more peers are taken. *)
Fixpoint stored_peers (n : nat) (now : Time) (db : DB) (iter : list (bytes * bytes)) : result (list Wire.Peer) :=
  match n with
  | O => Ok []
  | S n =>
      match PeerStream_Next now db false iter with
      | (Err e, _) => Err e
      | (Panic w, _) => Panic w
      | (Ok None, _) => Ok []
      | (Ok (Some peer), iter) => peers ← stored_peers n now db iter; Ok (wire_peer peer :: peers)
      end
  end.

(** [shuffle] is what the random source makes of the list. *)
Definition handlePeerReq (shuffle : list Wire.Peer → list Wire.Peer) (now : Time) (peerID : Hash)
    : M PeerExchanger unit :=
  x ← M_get;
  let db := pm_db (px_manager x) in
  match stored_peers MaxSentPeerCount now db (StreamPeers db) with
  | Err _ => mret tt
  | Panic w => M_panic w
  | Ok peers =>
      M_try (on_manager (on_mux (send peerID (MPeerRes (mkPeerRes (shuffle peers))))));; mret tt
  end.

(** The peer and the address that are dialled. *)
Definition dial_target (peer : Wire.Peer) : Hash * bytes := (Wire.Peer_ID peer, IP_String (Wire.Peer_IP peer)).

(** The errors of a dial are logged.  [dial] is how the network answers it, and
    [addrOf] the host and the port of an address. *)
Definition dialPeer (addrOf : bytes → bytes) (dial : Hash → bytes → dial_outcome) (now : Time) (target : Hash * bytes)
    : M peerManager unit :=
  let '(peerID, ipStr) := target in
  M_try (DialPeer opts now peerID ipStr (addrOf ipStr) false (dial peerID ipStr));; mret tt.

Fixpoint dial_peers (addrOf : bytes → bytes) (dial : Hash → bytes → dial_outcome) (now : Time)
    (targets : list (Hash * bytes)) : M peerManager unit :=
  match targets with
  | [] => mret tt
  | t :: targets => dialPeer addrOf dial now t;; dial_peers addrOf dial now targets
  end.

Definition handlePeerRes (addrOf : bytes → bytes) (dial : Hash → bytes → dial_outcome) (now : Time)
    (peerID : Hash) (msg : PeerRes) : M PeerExchanger unit :=
  has ← on_requests (Cache_Has now (Hash_String peerID));
  if negb has then mret tt
  else
    on_requests (Cache_Del (Hash_String peerID));;
    on_manager (dial_peers addrOf dial now (dial_target <$> PeerRes_Peers msg)).

(** ** Lemmas *)

(** The stored peers that are not banned. *)
Definition unbanned (now : Time) (peers : list StorePeers.Peer) : list StorePeers.Peer :=
  filter (λ p, Peer_IsBanned now p = false) peers.

Lemma stored_peers_Ok n now db iter peers :
  Forall2 (λ kv p, peer_state db kv.2 = Ok p) iter peers →
  stored_peers n now db iter = Ok (wire_peer <$> take n (unbanned now peers)).
Proof.
  intros Hp. revert n. induction Hp as [|[k v] p iter peers Hv _ IH]; intros [|n]; try done.
  unfold unbanned. rewrite filter_cons. destruct (Peer_IsBanned now p) eqn:Hb; simpl.
  - fold (unbanned now peers). rewrite <- (IH (S n)). cbn [stored_peers PeerStream_Next]. simpl in Hv. rewrite Hv, Hb. simpl. done.
  - cbn [stored_peers PeerStream_Next]. simpl in Hv. rewrite Hv, Hb. simpl. by rewrite IH.
Qed.

(** A stored IPv4 address. *)
Definition ipv4_peer (p : StorePeers.Peer) : Prop :=
  Hash_wf (p_ID p) ∧ ∃ a b c d, p_IP p = dotted [a; b; c; d].

Lemma wire_peer_v4 p :
  ipv4_peer p → Peer_wf (wire_peer p) ∧ dial_target (wire_peer p) = (p_ID p, p_IP p).
Proof.
  intros (Hid & a & b & c & d & Hip). unfold wire_peer, dial_target. rewrite Hip, ParseIP_dotted. cbn.
  split; [by split|]. done.
Qed.


Lemma Cache_Get_deleted (c : Cache (V := unit)) now k :
  (c : gmap bytes entry) !! k = None → Cache_Has now k c = (Ok false, c).
Proof.
  intros Hk. unfold Cache_Has, Cache_Get, mbind, M_bind, M_get. by rewrite Hk.
Qed.

(** A response is used once.  A response of a peer that was not asked, or that
    answers after the timeout, dials nobody; and once a response was used, no
    further one of that peer dials anybody until it is asked again. *)
Theorem responses_solicited addrOf dial now id msg x x' later msg2 :
  handlePeerRes addrOf dial now id msg x = (Ok tt, x') →
  (¬ (∃ e, (px_cache x : gmap bytes entry) !! Hash_String id = Some e ∧ now ≤ entry_expiry e) →
    px_manager x' = px_manager x) ∧
  handlePeerRes addrOf dial later id msg2 x' = (Ok tt, x').
Proof.
  unfold handlePeerRes at 1. unfold mbind at 1, M_bind at 1, on_requests at 1, M_zoom at 1.
  unfold Cache_Has, Cache_Get. unfold mbind at 1 2, M_bind at 1 2, M_get.
  assert (∀ y, (px_cache y : gmap bytes entry) !! Hash_String id = None →
    handlePeerRes addrOf dial later id msg2 y = (Ok tt, y)) as Hnone.
  { intros y Hy. unfold handlePeerRes, on_requests, mbind, M_bind, M_zoom.
    rewrite Cache_Get_deleted by done. by destruct y. }
  destruct ((px_cache x : gmap bytes entry) !! Hash_String id) as [e|] eqn:He; simpl.
  - case_decide as Hx; simpl.
    + intros [= <-]. split; [done|]. apply Hnone. simpl. apply lookup_delete_eq.
    + unfold mbind, M_bind, on_requests, on_manager, M_zoom, Cache_Del, M_modify. simpl.
      destruct (dial_peers _ _ _ _ _) as [[[]| |] pm']; [|done..]. intros [= <-]. split.
      * intros Hn. exfalso. apply Hn. exists e. split; [done|lia].
      * apply Hnone. simpl. apply lookup_delete_eq.
  - intros [= <-]. split; [done|]. apply Hnone. by destruct x.
Qed.

(** ** The default configuration *)

(** The exchanger while the node runs: requests, requests of others, responses, and what
    the rest of the node does to the manager. *)
Inductive exchange_step (cfg : PeerExchangerConfig) (x : PeerExchanger) : PeerExchanger → Prop :=
| ex_tick order now : exchange_step cfg x (request_peers order now (response_timeout cfg) x).2
| ex_req shuffle now id : exchange_step cfg x (handlePeerReq shuffle now id x).2
| ex_res addrOf dial now id msg : exchange_step cfg x (handlePeerRes addrOf dial now id msg x).2
| ex_other pm : exchange_step cfg x (mkPeerExchanger pm (px_cache x)).

(** Every request was over in 1970. *)
Definition all_expired (x : PeerExchanger) : Prop :=
  ∀ k e, (px_cache x : gmap bytes entry) !! k = Some e → entry_expiry e ≤ MaxInt16.

Lemma expired_on_manager {A} (m : M peerManager A) : preserves all_expired (on_manager m).
Proof. intros x Hx. unfold on_manager, M_zoom. by destruct (m (px_manager x)). Qed.

Lemma expired_Has now k : preserves all_expired (on_requests (Cache_Has now k)).
Proof.
  intros x Hx. unfold on_requests, M_zoom, Cache_Has, Cache_Get, mbind, M_bind, M_get.
  destruct ((px_cache x : gmap bytes entry) !! k) as [e|]; [|by destruct x].
  case_decide; [|by destruct x]. simpl. intros k' e'. cbn [px_cache].
  intros [_ Hk]%lookup_delete_Some. by eapply Hx.
Qed.

Lemma expired_Del k : preserves all_expired (on_requests (Cache_Del k)).
Proof. intros x Hx k' e'. cbn [on_requests M_zoom Cache_Del M_modify snd px_cache]. intros [_ Hk]%lookup_delete_Some. by eapply Hx. Qed.

Lemma expired_mark now recips : preserves all_expired (mark_requests now 0 recips).
Proof.
  induction recips as [|r recips IH]; [by intros x Hx|]. cbn [mark_requests].
  apply preserves_bind; [|done]. intros x Hx k e. unfold on_requests, M_zoom, Cache_Set, M_modify. cbn [snd px_cache].
  rewrite decide_True by done.
  intros [[_ <-]|[_ Hk]]%lookup_insert_Some; [done|by eapply Hx].
Qed.

Lemma exchange_step_expired cfg x x' :
  response_timeout cfg = 0 → all_expired x → exchange_step cfg x x' → all_expired x'.
Proof.
  intros Hc Hx Hs. destruct Hs as [order now|shuffle now id|addrOf dial now id msg|pm]; [..|exact Hx];
    revert x Hx; change (∀ x, all_expired x → all_expired (?m x).2) with (preserves all_expired m).
  - unfold request_peers. rewrite Hc. apply preserves_bind; [apply expired_on_manager|].
    intros [recips errs]. apply expired_mark.
  - unfold handlePeerReq. apply preserves_bind; [by intros y Hy|]. intros y.
    destruct (stored_peers _ _ _ _); [|by intros z Hz..].
    apply preserves_bind; [|by intros _ z Hz]. apply preserves_try, expired_on_manager.
  - unfold handlePeerRes. apply preserves_bind; [apply expired_Has|]. intros has.
    destruct (negb has); [by intros y Hy|]. apply preserves_bind; [apply expired_Del|].
    intros _. apply expired_on_manager.
Qed.

(** with the default configuration, peers are never exchanged.  The response timeout
    is not among the defaults; it is zero, which the cache takes for a time in 1970, so every
    response is held to be unsolicited: at any time since then, no response makes the node
    dial anybody. *)
Theorem default_exchange_ignored pm x addrOf dial now id msg :
  rtc (exchange_step (tu_PeerExchanger (cf_Tuning DefaultConfig))) (NewPeerExchanger pm) x → MaxInt16 < now →
  ∃ c, handlePeerRes addrOf dial now id msg x = (Ok tt, mkPeerExchanger (px_manager x) c).
Proof.
  intros Hr Hnow. assert (all_expired x) as Hx.
  { assert (all_expired (NewPeerExchanger pm)) as Hn by done. revert Hn.
    induction Hr as [|x y z Hs _ IH]; [done|]. intros Hx. apply IH.
    by apply (exchange_step_expired (tu_PeerExchanger (cf_Tuning DefaultConfig)) x). }
  assert (∃ c, Cache_Has now (Hash_String id) (px_cache x) = (Ok false, c)) as [c Hc].
  { destruct ((px_cache x : gmap bytes entry) !! Hash_String id) as [e|] eqn:He; [|by eexists; apply Cache_Get_deleted].
    unfold Cache_Has, Cache_Get, mbind, M_bind, M_get. rewrite He. apply Hx in He. rewrite decide_True by lia. by eexists. }
  exists c. unfold handlePeerRes, on_requests, mbind, M_bind, M_zoom. by rewrite Hc.
Qed.
End exchanger.

(** A node that has stored one peer, and asked it for others. *)
Definition exchange_id : Hash := replicate 32 x05.

Definition exchange_db : DB := (SetPeer 0 exchange_id (bs "10.0.0.7") false empty_db).2.

Definition exchange_peer : StorePeers.Peer :=
  StorePeers.mkPeer exchange_id (bs "10.0.0.7") 0 false ZeroTime ZeroTime false.

Definition demo_exchanger : PeerExchanger :=
  mkPeerExchanger (NewPeerManager NewPeerMuxer exchange_db)
    (Cache_Set 0 (Hash_String exchange_id) tt 1000 NewCache).2.

Lemma exchange_stored :
  Forall2 (λ kv p, peer_state exchange_db kv.2 = Ok p) (StreamPeers exchange_db) [exchange_peer].
Proof.
  assert ((λ kv, peer_state exchange_db kv.2) <$> StreamPeers exchange_db = [Ok exchange_peer]) as Hp
    by (vm_compute; reflexivity).
  destruct (StreamPeers exchange_db) as [|kv [|]]; simplify_eq. injection Hp as Hp.
  repeat constructor. exact Hp.
Qed.


(** The peer that is asked names another one, which does not answer. *)
Lemma responses_solicited_witness :
  let res := mkPeerRes [Wire.mkPeer (v4InV6Prefix ++ [x0a; x00; x00; x08]) (replicate 32 x06)] in
  let m := handlePeerRes (mkPeerManagerOpts 1 1 (bs "127.0.0.1") ZeroHash) id (λ _ _, NoConnection EOF) 5 exchange_id res in
  let x' := (m demo_exchanger).2 in
  m x' = (Ok tt, x') ∧ bool_decide (is_Some (db_map (pm_db (px_manager x')) !! peerOutBanPrefix [bs "10.0.0.8"])) = true.
Proof.
  intros res m x'. split; [|vm_compute; reflexivity].
  apply (responses_solicited _ _ _ 5 exchange_id res demo_exchanger x' 5 res).
  apply run_eta. vm_compute. reflexivity.
Defined.

Lemma default_exchange_ignored_witness :
  let x := (request_peers (λ _ _, mret tt) id 0 0
    (NewPeerExchanger (NewPeerManager (AddPeer exchange_id (mkPeerRef 1 Outbound (bs "10.0.0.7") (bs "10.0.0.7:9097")) NewPeerMuxer).2
      exchange_db))).2 in
  bool_decide (is_Some ((px_cache x : gmap bytes entry) !! Hash_String exchange_id)) = true ∧
  ∃ c, handlePeerRes (mkPeerManagerOpts 1 1 (bs "127.0.0.1") ZeroHash) id (λ _ _, NoConnection EOF) Second exchange_id
    (mkPeerRes [Wire.mkPeer (v4InV6Prefix ++ [x0a; x00; x00; x08]) (replicate 32 x06)]) x =
    (Ok tt, mkPeerExchanger (px_manager x) c).
Proof.
  intros x. split; [vm_compute; reflexivity|].
  apply (default_exchange_ignored (mkPeerManagerOpts 1 1 (bs "127.0.0.1") ZeroHash) (λ _ _, mret tt)
    (NewPeerManager (AddPeer exchange_id (mkPeerRef 1 Outbound (bs "10.0.0.7") (bs "10.0.0.7:9097")) NewPeerMuxer).2 exchange_db)).
  - apply rtc_once. apply (ex_tick _ _ (tu_PeerExchanger (cf_Tuning DefaultConfig)) _ id 0).
  - done.
Defined.
