(* ===== verification/Pinger.v ===== *)
(** * Package protocol: the pinger

    [src/protocol/pinger.go]: while a peer is connected it is sent a ping from time to
    time, and it is closed when nothing has been heard of it for the timeout.  The
    [select] of [PingPeer] is a step on each of its events, in the order they
    happen; the rest of the node may change the muxer between them. *)

From S2P Require Import Prelude GoLib Crypto Instances Dwire Sector Wire Util Peer Mux.

Definition ErrPingTimeout : error := ESentinel "ping timeout".
Definition ErrPingPeerClosed : error := ESentinel "peer closed".
Definition ErrCanceled : error := ESentinel "context canceled".

Definition DefaultPingerCheckInterval : Z := Second.
Definition DefaultPingerPingInterval : Z := 5 * Second.
Definition DefaultPingerTimeout : Z := 30 * Second.

Section pinger.
Context `{Secp256k1, Blake2b}.

(** What [PingConfig] fixes, with the node's way to send. *)
Record PingConfig := mkPingConfig {
  pc_Timeout : Z;
  pc_PeerID : Hash;
  pc_magic : Z;
  pc_signer : Signer;
  pc_send : PeerRef → Envelope → result Z;
}.

(** The state of [PingPeer]: the variable its message handler writes, and the muxer. *)
Record pinging := mkPinging { pg_lastPing : Time; pg_mux : PeerMuxer }.

Inductive ping_event :=
| Heard (now : Time) (from : Hash)
| CheckTick (now : Time)
| PingTick (now : Time)
| Cancelled
| Changed (m : PeerMuxer).

Definition on_pg_mux {A} (m : M PeerMuxer A) : M pinging A :=
  M_zoom pg_mux (λ x p, mkPinging (pg_lastPing p) x) m.

Context (cfg : PingConfig).

(** Some error when [PingPeer] returns it. *)
Definition ping_step (ev : ping_event) : M pinging (option error) :=
  match ev with
  | Heard now peerID =>
      if decide (pc_PeerID cfg ≠ peerID) then mret None
      else M_modify (λ p, mkPinging now (pg_mux p));; mret None
  | CheckTick now =>
      p ← M_get;
      if negb (HasPeerID (pc_PeerID cfg) (pg_mux p)) then mret (Some ErrPingPeerClosed)
      else if decide (pc_Timeout cfg < i64 (now - pg_lastPing p)) then
        M_try (on_pg_mux (ClosePeer (pc_PeerID cfg)));; mret (Some ErrPingTimeout)
      else mret None
  | PingTick now =>
      p ← M_get;
      if negb (HasPeerID (pc_PeerID cfg) (pg_mux p)) then mret (Some ErrPingPeerClosed)
      else
        M_try (on_pg_mux (Send now (pc_magic cfg) (pc_signer cfg) (pc_send cfg) (pc_PeerID cfg) MPing));;
        mret None
  | Cancelled => mret (Some ErrCanceled)
  | Changed m => M_modify (λ p, mkPinging (pg_lastPing p) m);; mret None
  end.

Fixpoint ping_loop (evs : list ping_event) : M pinging (option error) :=
  match evs with
  | [] => mret None
  | ev :: evs =>
      r ← ping_step ev;
      match r with
      | Some e => mret (Some e)
      | None => ping_loop evs
      end
  end.

(** [PingPeer] from its start: [None] while it goes on. *)
Definition PingPeer (start : Time) (evs : list ping_event) (mux : PeerMuxer) : result (option error) * pinging :=
  ping_loop evs (mkPinging start mux).

(** ** Properties *)

(** When the peer was last heard of. *)
Fixpoint last_heard (start : Time) (evs : list ping_event) : Time :=
  match evs with
  | [] => start
  | Heard now from :: evs => last_heard (if decide (pc_PeerID cfg = from) then now else start) evs
  | _ :: evs => last_heard start evs
  end.

(** The clock is one of 64-bit nanoseconds, the events are in a state of the muxer that can be
    reached, and messages can be made. *)
Definition event_ok (ev : ping_event) : Prop :=
  match ev with
  | Heard now _ | CheckTick now => 0 ≤ now < 2 ^ 63
  | PingTick now => ∀ peer, ∃ e, NewEnvelope now (pc_magic cfg) MPing (pc_signer cfg) = Ok e ∧
      ∀ w, pc_send cfg peer e ≠ Panic w
  | Cancelled => True
  | Changed m => mux_inv m
  end.

Lemma HasPeerID_Some id m : HasPeerID id m = true ↔ is_Some (mx_peers m !! id).
Proof. unfold HasPeerID. by rewrite bool_decide_eq_true. Qed.

Lemma close_gone id m :
  mux_inv m → ∃ m', ClosePeer id m = (Ok tt, m') ∧ mux_inv m' ∧ HasPeerID id m' = false.
Proof.
  intros Hm. destruct (handlePeerClose_inv id m Hm) as [Hr Hi].
  unfold ClosePeer. destruct (handlePeerClose id m) as [r m'] eqn:Hc. simpl in Hr, Hi. subst r.
  exists m'. split_and!; [done|done|]. revert Hc. unfold handlePeerClose, HasPeerID.
  destruct (mx_peers m !! id) as [peer|] eqn:Hp.
  - destruct (if _ : bool then _ else _); [|done..]. intros [= <-]. simpl. apply bool_decide_eq_false.
    rewrite lookup_delete_eq. by intros [].
  - intros [= <-]. apply bool_decide_eq_false. rewrite Hp. by intros [].
Qed.

(** A step that does not end the loop. *)
Lemma ping_step_spec ev p :
  mux_inv (pg_mux p) → event_ok ev → 0 ≤ pg_lastPing p < 2 ^ 63 →
  ∃ r p', ping_step ev p = (Ok r, p') ∧ mux_inv (pg_mux p') ∧
    pg_lastPing p' = last_heard (pg_lastPing p) [ev] ∧ 0 ≤ pg_lastPing p' < 2 ^ 63 ∧
    (r = Some ErrPingTimeout → HasPeerID (pc_PeerID cfg) (pg_mux p') = false ∧
      ∃ now, ev = CheckTick now ∧ pc_Timeout cfg < now - pg_lastPing p) ∧
    (∀ now, ev = CheckTick now → pc_Timeout cfg < now - pg_lastPing p →
      r ≠ None ∧ HasPeerID (pc_PeerID cfg) (pg_mux p') = false).
Proof.
  intros Hm Hev Hl. destruct ev as [now from|now|now| |m]; cbn [ping_step last_heard event_ok] in *.
  - case_decide as Hf.
    + rewrite decide_False by done. exists None, p. split_and!; (done || lia).
    + rewrite decide_True by done. eexists None, _. split; [done|]. simpl. split_and!; (done || lia).
  - rewrite (M_bind_step M_get _ _ _ _ eq_refl).
    destruct (HasPeerID (pc_PeerID cfg) (pg_mux p)) eqn:Hh; simpl;
      [|exists (Some ErrPingPeerClosed), p; split_and!; (done || lia || by intros [=])].
    assert (i64 (now - pg_lastPing p) = now - pg_lastPing p) as -> by (apply i64_small; lia).
    case_decide as Ht.
    + destruct (close_gone (pc_PeerID cfg) (pg_mux p) Hm) as (m' & Hc & Hi & Hg).
      exists (Some ErrPingTimeout), (mkPinging (pg_lastPing p) m').
      split; [unfold M_try, on_pg_mux, M_zoom, mbind, M_bind; by rewrite Hc|]. simpl.
      split_and!; try (done || lia). intros _. split; [done|by exists now].
    + exists None, p. split_and!; try (done || lia). intros now' [= <-]. lia.
  - rewrite (M_bind_step M_get _ _ _ _ eq_refl).
    destruct (HasPeerID (pc_PeerID cfg) (pg_mux p)) eqn:Hh; simpl;
      [|exists (Some ErrPingPeerClosed), p; split_and!; (done || lia || by intros [=])].
    set (snd_ := Send _ _ _ _ _ _). pose proof (preserves_Send now (pc_magic cfg) (pc_signer cfg) (pc_send cfg)
      (pc_PeerID cfg) MPing (pg_mux p) Hm) as Hi. fold snd_ in Hi.
    assert (∀ w, (snd_ (pg_mux p)).1 ≠ Panic w) as Hn.
    { unfold snd_, Send. rewrite (M_bind_step M_get _ _ _ _ eq_refl).
      destruct (mx_peers (pg_mux p) !! pc_PeerID cfg) as [peer|]; [|done].
      destruct (Hev peer) as (e & He & Hs). rewrite He. unfold mbind, M_bind, M_lift. simpl.
      destruct (pc_send cfg peer e) as [n| |w]; [done|done|by destruct (Hs w)]. }
    exists None, (mkPinging (pg_lastPing p) (snd_ (pg_mux p)).2). split_and!; simpl; try (done || lia).
    unfold M_try, on_pg_mux, M_zoom, mbind, M_bind. destruct (snd_ (pg_mux p)) as [[| |w] m']; [done|done|].
    by destruct (Hn w).
  - exists (Some ErrCanceled), p. split_and!; (done || lia || by intros [=]).
  - eexists None, _. split; [done|]. simpl. split_and!; (done || lia).
Qed.
Lemma last_heard_cons start ev evs : last_heard start (ev :: evs) = last_heard (last_heard start [ev]) evs.
Proof. by destruct ev. Qed.

(** C16: the pinger closes exactly the peers that are silent.  It ends with a timeout only at
    a check that comes later than the timeout after the last message of the peer, and the
    peer is then gone from the muxer; at the first such check at the latest it has
    ended.  So a peer heard of within the timeout before each check is never closed by
    it, and one that falls silent is closed at the first check after the timeout. *)
Theorem ping_closes_silent start evs mux :
  mux_inv mux → Forall event_ok evs → 0 ≤ start < 2 ^ 63 →
  ∃ r p', PingPeer start evs mux = (Ok r, p') ∧
    (r = Some ErrPingTimeout → HasPeerID (pc_PeerID cfg) (pg_mux p') = false ∧
      ∃ pre now post, evs = pre ++ CheckTick now :: post ∧ pc_Timeout cfg < now - last_heard start pre) ∧
    (∀ pre now post, evs = pre ++ CheckTick now :: post →
      pc_Timeout cfg < now - last_heard start pre → r ≠ None).
Proof.
  unfold PingPeer. intros Hm Hev. revert start mux Hm.
  induction Hev as [|ev evs He _ IH]; intros start mux Hm Hs.
  { exists None, (mkPinging start mux). split_and!; [done|done|]. intros [|? pre] now post; done. }
  destruct (ping_step_spec ev (mkPinging start mux)) as (r & [l' m'] & Hst & Hm' & Hl & Hb & Hto & Hck); [done..|].
  cbn [pg_lastPing pg_mux] in *. cbn [ping_loop]. rewrite (M_bind_step _ _ _ _ _ Hst). destruct r as [e|].
  - exists (Some e), (mkPinging l' m'). split_and!; [done| |done]. intros Ht.
    destruct (Hto Ht) as (Hg & now & -> & Hlt). split; [exact Hg|]. by exists [], now, evs.
  - destruct (IH l' m' Hm' Hb) as (r & p' & Hr & Hto' & Hck'). exists r, p'. split_and!; [exact Hr| |].
    + intros Ht. destruct (Hto' Ht) as (Hg & pre & now & post & -> & Hlt). split; [exact Hg|].
      exists (ev :: pre), now, post. split; [done|]. by rewrite last_heard_cons, <- Hl.
    + intros [|ev' pre] now post [= -> Heq] Hlt.
      * by destruct (Hck now eq_refl Hlt).
      * apply (Hck' pre now post Heq). by rewrite last_heard_cons, <- Hl in Hlt.
Qed.
End pinger.

(** A peer that is heard of once, and then no more. *)
Lemma ping_closes_silent_witness :
  let m := (AddPeer (demo_peer_id x01) (demo_inbound 1) NewPeerMuxer).2 in
  let cfg := mkPingConfig DefaultPingerTimeout (demo_peer_id x01) 0 (NewSECP256k1Signer toy_key) (λ _ _, Ok 0) in
  let evs := [Heard (20 * Second) (demo_peer_id x01); CheckTick (40 * Second); CheckTick (51 * Second)] in
  ∃ r p', PingPeer cfg 0 evs m = (Ok r, p') ∧ r ≠ None.
Proof.
  intros m cfg evs.
  destruct (ping_closes_silent cfg 0 evs m) as (r & p' & Hr & _ & Hck).
  - apply (mux_step_inv NewPeerMuxer); [apply new_mux_inv|]. apply step_add. by split; [set_solver|].
  - repeat constructor; done.
  - done.
  - exists r, p'. split; [exact Hr|]. by apply (Hck [Heard (20 * Second) (demo_peer_id x01); CheckTick (40 * Second)] (51 * Second) []).
Defined.
