(* ===== verification/NameSyncer.v ===== *)
(** * Package protocol: the name syncer

    [src/protocol/name_syncer.go]: a pass over the names asks a sample of the peers for an
    update of each, counts their answers until all have come or the time is over, and waits
    for the updater when there is an update.  What the rest of the node does during the
    sync of a name is its environment: the peers that are drawn, the messages that arrive
    before the timeout and the items the updater is done with before the second one.  The
    workers share the muxer only to send; the pass is modelled with the syncs of the
    names one after another. *)

From S2P Require Import Prelude GoLib Crypto Instances Dwire Sector Wire Util StoreDB StoreInstances Store.
From S2P Require Import Queue UpdateQueueProofs Peer Mux.

Definition ErrNameSyncerSyncResponseTimeout : error := ESentinel "sync timed out".

Section syncer.
Context `{LevelDB, JSON, Secp256k1, Blake2b}.
(** [Send] of the muxer, with the node's signer. *)
Context (send : Hash → Message → M PeerMuxer unit).

(** What the observable of the syncer emits. *)
Inductive sync_event :=
| NameComplete (name : bytes) (receiptCount : Z)
| SyncErr (name : bytes) (err : error)
| JobComplete (count : Z).

(** The last two fields are the trace: the requests with their recipients, and the
    events. *)
Record NameSyncer := mkNameSyncer {
  ns_mux : PeerMuxer;
  ns_db : DB;
  ns_asked : list (list Hash * UpdateReq);
  ns_emitted : list sync_event;
}.

Definition NewNameSyncer (mux : PeerMuxer) (db : DB) : NameSyncer := mkNameSyncer mux db [] [].

(** The environment of the sync of a name. *)
Record sync_env := mkSyncEnv {
  sn_order : list bytes → list bytes;
  sn_indices : list nat;
  sn_messages : list Message;
  sn_processed : list (bytes * option error);
}.

Definition on_ns_mux {A} (m : M PeerMuxer A) : M NameSyncer A :=
  M_zoom ns_mux (λ x s, mkNameSyncer x (ns_db s) (ns_asked s) (ns_emitted s)) m.

Definition ns_emit (e : sync_event) : M NameSyncer unit :=
  M_modify (λ s, mkNameSyncer (ns_mux s) (ns_db s) (ns_asked s) (ns_emitted s ++ [e])).

(** What [handleUpdate] with [onUpdate] of the name, and [handleNilUpdate] with
    [onNilUpdate], put on the channel for a message, whoever sent it. *)
Definition reply_to (name : bytes) (msg : Message) : option bool :=
  match msg with
  | MUpdate u => if decide (Update_Name u ≠ name) then None else Some true
  | MNilUpdate u => if decide (NilUpdate_Name u ≠ name) then None else Some false
  | _ => None
  end.

(** The goroutine of [syncName] until it fires; the timer does after the last reply. *)
Fixpoint count_replies (sampleSize recvCount envelopeCount : Z) (replies : list bool) : Z :=
  match replies with
  | [] => envelopeCount
  | isEnvelope :: replies =>
      let recvCount := recvCount + 1 in
      let envelopeCount := if isEnvelope : bool then envelopeCount + 1 else envelopeCount in
      if decide (recvCount = sampleSize) then envelopeCount
      else count_replies sampleSize recvCount envelopeCount replies
  end.

(** What the first item of the name that the updater is done with puts on the
    channel. *)
Fixpoint first_processed (name : bytes) (items : list (bytes * option error)) : option (option error) :=
  match items with
  | [] => None
  | (n, err) :: items => if decide (n ≠ name) then first_processed name items else Some err
  end.

Definition awaitSyncCompletion (name : bytes) (receiptCount : Z) (items : list (bytes * option error))
    : M NameSyncer unit :=
  if decide (receiptCount = 0) then ns_emit (NameComplete name receiptCount)
  else
    match first_processed name items with
    | None => ns_emit (SyncErr name ErrNameSyncerSyncResponseTimeout)
    | Some (Some err) => ns_emit (SyncErr name (EWrap err "failed to sync name"))
    | Some None => ns_emit (NameComplete name receiptCount)
    end.

(** The broadcast, and its trace. *)
Definition ask (env : sync_env) (req : UpdateReq) : M NameSyncer (list Hash) :=
  '(recips, _) ← on_ns_mux (BroadcastRandom (sn_order env) (sn_indices env) (λ id, send id (MUpdateReq req)));
  M_modify (λ s, mkNameSyncer (ns_mux s) (ns_db s) (ns_asked s ++ [(recips, req)]) (ns_emitted s));;
  mret recips.

Definition syncName (env : sync_env) (info : NameInfo) : M NameSyncer unit :=
  let name := ni_Name info in
  s ← M_get;
  let go epochHeight sectorSize :=
    recips ← ask env (mkUpdateReq name epochHeight sectorSize);
    let envelopeCount := count_replies (zlen recips) 0 0 (omap (reply_to name) (sn_messages env)) in
    awaitSyncCompletion name envelopeCount (sn_processed env) in
  match GetHeader (ns_db s) name with
  | Ok header => go (h_EpochHeight header) (h_SectorSize header)
  | Err e => if negb (errors_Is e ErrNotFound) then mret tt else go 0 0
  | Panic w => M_panic w
  end.

(** The loop over the stream; the result is [syncCount], or none when the stream
    fails. *)
Fixpoint sync_names (env : bytes → sync_env) (fuel : nat) (syncCount : Z) (it : iterator)
    : M NameSyncer (option Z) :=
  match fuel with
  | O => mret (Some syncCount)
  | S fuel =>
      match NameInfoStream_Next it with
      | (Err _, _) => mret None
      | (Panic w, _) => M_panic w
      | (Ok None, _) => mret (Some syncCount)
      | (Ok (Some info), it) =>
          syncName (env (ni_Name info)) info;;
          sync_names env fuel (syncCount + 1) it
      end
  end.

Definition NameSyncer_doSync (env : bytes → sync_env) : M NameSyncer unit :=
  s ← M_get;
  let it := StreamNameInfo (ns_db s) [] in
  n ← sync_names env (S (length it)) 0 it;
  match n with
  | Some syncCount => ns_emit (JobComplete syncCount)
  | None => mret tt
  end.

(** A round of the first loop of [Start]: whether it was the last. *)
Definition start_round (env : bytes → sync_env) : M NameSyncer bool :=
  s ← M_get;
  let '(in_, out) := PeerCount (ns_mux s) in
  if decide (in_ + out = 0) then mret false
  else
    match GetInitialImportComplete (ns_db s) with
    | Err _ => mret false
    | Panic w => M_panic w
    | Ok complete => if negb complete then mret false else NameSyncer_doSync env;; mret true
    end.

(** ** Properties *)

(** The updates among the replies: the first [n] of them, when [n] peers were asked, or all
    that came in time. *)
Definition updates_among (n : nat) (replies : list bool) : Z :=
  zlen (filter (λ b, b = true) (if decide (n = 0%nat) then replies else take n replies)).

Lemma count_replies_from n r e replies :
  (r < n)%nat →
  count_replies (Z.of_nat n) (Z.of_nat r) e replies =
  e + zlen (filter (λ b, b = true) (take (n - r) replies)).
Proof.
  revert r e. induction replies as [|b replies IH]; intros r e Hr.
  { rewrite take_nil. unfold zlen. simpl. lia. }
  cbn [count_replies]. destruct (n - r)%nat as [|k] eqn:Hk; [lia|]. cbn [take].
  replace (Z.of_nat r + 1) with (Z.of_nat (S r)) by lia.
  assert (∀ l : list bool, zlen (filter (λ b, b = true) (b :: l)) =
    (if b then 1 else 0) + zlen (filter (λ b, b = true) l)) as Hf.
  { intros l. rewrite filter_cons. unfold zlen. destruct b; simpl; lia. }
  rewrite Hf. case_decide as Hd.
  - assert (k = 0%nat) as -> by lia. unfold zlen. simpl. destruct b; lia.
  - rewrite IH by lia. replace (n - S r)%nat with k by lia. destruct b; lia.
Qed.

Lemma count_replies_none r e replies :
  0 ≤ r → count_replies 0 r e replies = e + zlen (filter (λ b, b = true) replies).
Proof.
  revert r e. induction replies as [|b replies IH]; intros r e Hr; [unfold zlen; simpl; lia|].
  cbn [count_replies]. rewrite decide_False by lia. rewrite IH by lia. rewrite filter_cons.
  unfold zlen. destruct b; simpl; lia.
Qed.

Lemma count_replies_spec n replies : count_replies (Z.of_nat n) 0 0 replies = updates_among n replies.
Proof.
  unfold updates_among. case_decide as Hn.
  - subst n. by rewrite count_replies_none.
  - change 0 with (Z.of_nat 0) at 1. rewrite count_replies_from by lia. by rewrite Nat.sub_0_r.
Qed.

(** The event a sync ends with, when [n] peers were asked. *)
Definition sync_outcome (env : sync_env) (name : bytes) (n : nat) : sync_event :=
  let updates := updates_among n (omap (reply_to name) (sn_messages env)) in
  if decide (updates = 0) then NameComplete name 0
  else
    match first_processed name (sn_processed env) with
    | Some None => NameComplete name updates
    | Some (Some err) => SyncErr name (EWrap err "failed to sync name")
    | None => SyncErr name ErrNameSyncerSyncResponseTimeout
    end.

Lemma await_outcome env name n s :
  awaitSyncCompletion name (count_replies (Z.of_nat n) 0 0 (omap (reply_to name) (sn_messages env)))
    (sn_processed env) s =
  (Ok tt, mkNameSyncer (ns_mux s) (ns_db s) (ns_asked s) (ns_emitted s ++ [sync_outcome env name n])).
Proof.
  rewrite count_replies_spec. unfold awaitSyncCompletion, sync_outcome. cbv zeta.
  case_decide as Hu; [by rewrite Hu|]. by destruct (first_processed name (sn_processed env)) as [[]|].
Qed.

(** Where the node is with a name: nowhere, if it has no header of it. *)
Definition start_of (db : DB) (name : bytes) : option (Z * Z) :=
  match GetHeader db name with
  | Ok h => Some (h_EpochHeight h, h_SectorSize h)
  | Err e => if errors_Is e ErrNotFound then Some (0, 0) else None
  | Panic _ => None
  end.

(** The peers that are drawn. *)
Definition recips_of (env : sync_env) (m : PeerMuxer) : option (list Hash) :=
  mapM (λ i, PeerIDs (sn_order env) m !! i) (sn_indices env).

(** The request for a name, and whom it goes to. *)
Definition asks (env : bytes → sync_env) (s : NameSyncer) (info : NameInfo) (a : list Hash * UpdateReq) : Prop :=
  recips_of (env (ni_Name info)) (ns_mux s) = Some a.1 ∧
  ∃ e k, start_of (ns_db s) (ni_Name info) = Some (e, k) ∧ a.2 = mkUpdateReq (ni_Name info) e k.

Hypothesis send_ok : ∀ id msg m, ∃ r m',
  send id msg m = (r, m') ∧ mx_peers m' = mx_peers m ∧ ∀ w, r ≠ Panic w.

Lemma send_each_ok msg ids m :
  ∃ errs m', send_each (λ id, send id msg) ids m = (Ok errs, m') ∧ mx_peers m' = mx_peers m.
Proof.
  revert m. induction ids as [|id ids IH]; intros m; [by eexists _, _|].
  destruct (send_ok id msg m) as (r & m1 & Hs & Hp & Hn). destruct (IH m1) as (errs & m2 & He & Hp2).
  exists (r :: errs), m2. split; [|by rewrite Hp2]. cbn [send_each].
  rewrite (M_bind_step _ _ _ r m1) by (unfold M_try; rewrite Hs; destruct r as [| |w]; [done..|by destruct (Hn w)]).
  by rewrite (M_bind_step _ _ _ _ _ He).
Qed.

Lemma syncName_ok env s info a :
  asks env s info a →
  ∃ m', syncName (env (ni_Name info)) info s = (Ok tt, mkNameSyncer m' (ns_db s) (ns_asked s ++ [a])
      (ns_emitted s ++ [sync_outcome (env (ni_Name info)) (ni_Name info) (length a.1)])) ∧
    mx_peers m' = mx_peers (ns_mux s).
Proof.
  destruct a as [recips req]. intros (Hr & e & k & Hst & Hreq). simpl in Hr, Hreq. subst req.
  set (name := ni_Name info) in *. set (req := mkUpdateReq name e k).
  destruct (send_each_ok (MUpdateReq req) recips (ns_mux s)) as (errs & m' & Hs & Hp).
  assert (ask (env name) req s = (Ok recips, mkNameSyncer m' (ns_db s) (ns_asked s ++ [(recips, req)]) (ns_emitted s))) as Ha.
  { unfold ask. rewrite (M_bind_step _ _ _ (recips, errs) (mkNameSyncer m' (ns_db s) (ns_asked s) (ns_emitted s))); [done|].
    unfold on_ns_mux, M_zoom, BroadcastRandom. rewrite (M_bind_step M_get _ _ _ _ eq_refl). cbv zeta.
    fold (recips_of (env name) (ns_mux s)). rewrite Hr.
    rewrite (M_bind_step (M_lift _) _ _ recips (ns_mux s)) by done. by rewrite (M_bind_step _ _ _ _ _ Hs). }
  exists m'. split; [|done]. unfold syncName. fold name. rewrite (M_bind_step M_get _ _ _ _ eq_refl). cbv zeta.
  unfold start_of in Hst. destruct (GetHeader (ns_db s) name) as [h|err|w]; [| |done].
  - injection Hst as <- <-. rewrite (M_bind_step _ _ _ _ _ Ha). unfold zlen. by rewrite await_outcome.
  - destruct (errors_Is err ErrNotFound); [|done]. injection Hst as <- <-. simpl.
    rewrite (M_bind_step _ _ _ _ _ Ha). unfold zlen. by rewrite await_outcome.
Qed.

Lemma asks_same env s s' info a :
  ns_db s' = ns_db s → mx_peers (ns_mux s') = mx_peers (ns_mux s) → asks env s info a → asks env s' info a.
Proof. intros Hd Hp. unfold asks, recips_of, PeerIDs. by rewrite Hd, Hp. Qed.

Lemma sync_names_ok env it infos asked :
  Forall2 (λ kv info, NameInfo_UnmarshalJSON kv.2 = Ok info) it infos →
  ∀ fuel n s, (length it < fuel)%nat → Forall2 (asks env s) infos asked →
  ∃ m', sync_names env fuel n it s = (Ok (Some (n + zlen infos)), mkNameSyncer m' (ns_db s) (ns_asked s ++ asked)
      (ns_emitted s ++ zip_with (λ info a, sync_outcome (env (ni_Name info)) (ni_Name info) (length a.1)) infos asked)) ∧
    mx_peers m' = mx_peers (ns_mux s).
Proof.
  intros Hit. revert asked. induction Hit as [|[k v] info it infos Hv _ IH]; intros asked [|fuel] n s Hf Ha;
    simpl in Hf; try lia.
  - inversion_clear Ha. exists (ns_mux s). split; [|done]. simpl. unfold zlen. simpl.
    rewrite Z.add_0_r, !app_nil_r. by destruct s.
  - inversion_clear Ha as [|? a ? asked' Ha1 Ha2]. destruct (syncName_ok env s info a Ha1) as (m1 & Hs & Hp1).
    set (s1 := mkNameSyncer m1 _ _ _) in Hs.
    destruct (IH asked' fuel (n + 1) s1) as (m2 & Hr & Hp2); [lia| |].
    { eapply Forall2_impl; [exact Ha2|]. intros. by apply (asks_same env s s1). }
    exists m2. split; [|by rewrite Hp2]. cbn [sync_names NameInfoStream_Next]. simpl in Hv. rewrite Hv. simpl.
    rewrite (M_bind_step _ _ _ _ _ Hs), Hr. unfold s1. cbn [ns_db ns_asked ns_emitted zip_with]. rewrite <- !app_assoc.
    f_equal. f_equal. f_equal. unfold zlen. simpl. lia.
Qed.

End syncer.

(** A node with one name and one peer, which has an update of it. *)
Definition sync_demo_env (name : bytes) : sync_env :=
  mkSyncEnv id [0%nat] [MNilUpdate (mkNilUpdate (bs "bar")); MUpdate (mkUpdate (bs "foo") 3 2)] [(bs "foo", None)].

