(* ===== verification/Start.v ===== *)
(** * Starting a node

    What [src/cmd/fnd/cmd/start.go] does besides making the services: the seeds that are
    looked up, whitelisted and dialled, and the wait for the Handshake node; and the
    loop of [src/p2p/listener.go].  The lookups, the attempts to reach the Handshake node and
    the outcomes of the dials are arguments. *)

From S2P Require Import Prelude GoLib Crypto Instances Dwire Sector Wire Util StoreDB StoreInstances.
From S2P Require Import Store StorePeers Peer Mux PeerManager Config.

(** ** Seeds *)

(** The inner loop: the seeds that were not seen before. *)
Fixpoint add_seeds (seen dnsSeeds seeds : list bytes) : list bytes * list bytes :=
  match seeds with
  | [] => (seen, dnsSeeds)
  | seed :: seeds =>
      if decide (seed ∈ seen) then add_seeds seen dnsSeeds seeds
      else add_seeds (seed :: seen) (dnsSeeds ++ [seed]) seeds
  end.

(** The loop over the domains; one that cannot be resolved is logged. *)
Fixpoint dns_loop (seen dnsSeeds : list bytes) (lookups : list (result (list bytes))) : result (list bytes) :=
  match lookups with
  | [] => Ok dnsSeeds
  | Err _ :: lookups => dns_loop seen dnsSeeds lookups
  | Panic w :: _ => Panic w
  | Ok seeds :: lookups =>
      let '(seen, dnsSeeds) := add_seeds seen dnsSeeds seeds in dns_loop seen dnsSeeds lookups
  end.

(** [lookup] is what [net.LookupIP] returns for a domain. *)
Definition dns_seeds (lookup : bytes → result (list (bytes * option bytes))) (domains : list bytes)
    : result (list bytes) :=
  dns_loop [] [] ((λ d, ResolveDNSSeeds (lookup d)) <$> domains).

Section start.
Context `{LevelDB, JSON, Secp256k1, Blake2b}.
Context (opts : PeerManagerOpts).

Fixpoint whitelist_all (ips : list bytes) : M TX unit :=
  match ips with
  | [] => mret tt
  | ip :: ips => WhitelistPeerTx ip;; whitelist_all ips
  end.

Definition whitelist_seeds (seeds : list SeedPeer) (dnsSeeds : list bytes) : M DB unit :=
  M_wrapping "error whitelisting seed peers"
    (WithTx_only (whitelist_all (sp_IP <$> seeds);; whitelist_all dnsSeeds)).

(** The identity, the address and whether the identity is checked. *)
Definition seed_dials (seeds : list SeedPeer) (dnsSeeds : list bytes) : list (Hash * bytes * bool) :=
  ((λ s, (sp_ID s, sp_IP s, true)) <$> seeds) ++ ((λ ip, (ZeroHash, ip, false)) <$> dnsSeeds).

(** The errors are logged. *)
Fixpoint dial_seeds (addrOf : bytes → bytes) (dial : Hash → bytes → dial_outcome) (now : Time)
    (dials : list (Hash * bytes * bool)) : M peerManager unit :=
  match dials with
  | [] => mret tt
  | (id, ip, verify) :: dials =>
      M_try (DialPeer opts now id ip (addrOf ip) verify (dial id ip));; dial_seeds addrOf dial now dials
  end.

(** What is done with the seeds once the services run. *)
Definition start_seeds (addrOf : bytes → bytes) (dial : Hash → bytes → dial_outcome) (now : Time)
    (seeds : list SeedPeer) (dnsSeeds : list bytes) : M peerManager unit :=
  on_pm_db (whitelist_seeds seeds dnsSeeds);;
  dial_seeds addrOf dial now (seed_dials seeds dnsSeeds).

(** A connection the listener accepts; a rejection is logged. *)
Definition listen_round (now : Time) (ip addr : bytes) (hs : result Hash) : M peerManager unit :=
  M_try (AcceptPeer opts now ip addr hs);; mret tt.
End start.

(** ** The Handshake node *)

(** The loop that waits for it: [maxHSDRetries] is incremented, and [i] stays zero.  Each of
    [attempts] says whether [GetInfo] succeeded; none while the loop goes on. *)
Fixpoint connect_loop (i maxHSDRetries : Z) (attempts : list bool) : option (result unit) :=
  if decide (i < maxHSDRetries) then
    match attempts with
    | [] => None
    | true :: _ => Some (Ok tt)
    | false :: attempts =>
        if decide (i = i64 (maxHSDRetries - 1)) then Some (Err (ENew "could not connect to HSD"))
        else connect_loop i (i64 (maxHSDRetries + 1)) attempts
    end
  else Some (Ok tt).

Definition connect_hsd (attempts : list bool) : option (result unit) := connect_loop 0 10 attempts.

(** ** Lemmas *)

Lemma add_seeds_spec seeds : ∀ seen dnsSeeds,
  NoDup dnsSeeds → (∀ x, x ∈ seen ↔ x ∈ dnsSeeds) →
  let '(seen', dnsSeeds') := add_seeds seen dnsSeeds seeds in
  NoDup dnsSeeds' ∧ (∀ x, x ∈ seen' ↔ x ∈ dnsSeeds') ∧ ∀ x, x ∈ dnsSeeds' ↔ x ∈ dnsSeeds ∨ x ∈ seeds.
Proof.
  induction seeds as [|s seeds IH]; intros seen dnsSeeds Hn Hs; [simpl; set_solver|].
  cbn [add_seeds]. case_decide as Hin.
  - specialize (IH seen dnsSeeds Hn Hs). destruct (add_seeds seen dnsSeeds seeds) as [seen' dns'].
    destruct IH as (? & ? & Hx). split_and!; [done|done|]. intros x. rewrite Hx. set_solver.
  - specialize (IH (s :: seen) (dnsSeeds ++ [s])).
    destruct (add_seeds (s :: seen) (dnsSeeds ++ [s]) seeds) as [seen' dns']. destruct IH as (? & ? & Hx).
    + apply NoDup_app. split_and!; [done|set_solver|apply NoDup_singleton].
    + set_solver.
    + split_and!; [done|done|]. intros x. rewrite Hx. set_solver.
Qed.

Lemma dns_loop_spec lookups : ∀ seen dnsSeeds,
  NoDup dnsSeeds → (∀ x, x ∈ seen ↔ x ∈ dnsSeeds) → (∀ w, Panic w ∉ lookups) →
  ∃ l, dns_loop seen dnsSeeds lookups = Ok l ∧ NoDup l ∧
    ∀ x, x ∈ l ↔ x ∈ dnsSeeds ∨ ∃ seeds, Ok seeds ∈ lookups ∧ x ∈ seeds.
Proof.
  induction lookups as [|r lookups IH]; intros seen dnsSeeds Hn Hs Hp.
  { exists dnsSeeds. split_and!; [done|done|]. set_solver. }
  assert (∀ w, Panic w ∉ lookups) as Hp' by (intros w; specialize (Hp w); set_solver).
  destruct r as [seeds|e|w]; cbn [dns_loop]; [| |by destruct (Hp w); left].
  - pose proof (add_seeds_spec seeds seen dnsSeeds Hn Hs) as Ha.
    destruct (add_seeds seen dnsSeeds seeds) as [seen' dns']. destruct Ha as (Hn' & Hs' & Hx).
    destruct (IH seen' dns' Hn' Hs' Hp') as (l & Hl & Hnl & Hxl). exists l. split_and!; [done|done|].
    intros x. rewrite Hxl, Hx. set_solver.
  - destruct (IH seen dnsSeeds Hn Hs Hp') as (l & Hl & Hnl & Hxl). exists l. split_and!; [done|done|].
    intros x. rewrite Hxl. set_solver.
Qed.

(** The DNS seeds are each address that a domain resolves to, once: a domain that does
    not resolve leaves out only its own. *)
Theorem dns_seeds_unique lookup domains :
  (∀ d w, lookup d ≠ Panic w) →
  ∃ l, dns_seeds lookup domains = Ok l ∧ NoDup l ∧
    ∀ x, x ∈ l ↔ ∃ d ips ip, d ∈ domains ∧ lookup d = Ok ips ∧ (ip, Some x) ∈ ips.
Proof.
  intros Hp. unfold dns_seeds.
  destruct (dns_loop_spec ((λ d, ResolveDNSSeeds (lookup d)) <$> domains) [] []) as (l & Hl & Hn & Hx).
  - constructor.
  - done.
  - intros w (d & Hd & _)%list_elem_of_fmap. unfold ResolveDNSSeeds in Hd. specialize (Hp d).
    destruct (lookup d) as [ips|e|w']; [done..|by destruct (Hp w')].
  - exists l. split_and!; [done|done|]. intros x. rewrite Hx. split.
    + intros [?%not_elem_of_nil|(seeds & (d & Hd & Hin)%list_elem_of_fmap & Hs)]; [done|].
      unfold ResolveDNSSeeds in Hd. destruct (lookup d) as [ips| |] eqn:Hlk; [|done..].
      injection Hd as ->. apply list_elem_of_omap in Hs as ([ip o] & Hip & Ho). simpl in Ho. subst o. eauto 10.
    + intros (d & ips & ip & Hd & Hlk & Hip). right. exists (omap (λ ip : bytes * option bytes, ip.2) ips). split.
      * apply list_elem_of_fmap. exists d. split; [|done]. unfold ResolveDNSSeeds. by rewrite Hlk.
      * apply list_elem_of_omap. by exists (ip, Some x).
Qed.

Lemma dns_seeds_unique_witness :
  let lookup d := if decide (d = bs "a") then Ok [(bs "1.2.3.4", Some (bs "1.2.3.4")); (bs "::1", None)]
                  else if decide (d = bs "b") then Err EOF else Ok [(bs "1.2.3.4", Some (bs "1.2.3.4"))] in
  ∃ l, dns_seeds lookup [bs "a"; bs "b"; bs "c"] = Ok l ∧ NoDup l ∧ bs "1.2.3.4" ∈ l.
Proof.
  intros lookup. destruct (dns_seeds_unique lookup [bs "a"; bs "b"; bs "c"]) as (l & Hl & Hn & Hx).
  - intros d w. unfold lookup. by repeat case_decide.
  - exists l. split_and!; [exact Hl|exact Hn|]. apply Hx.
    exists (bs "a"), [(bs "1.2.3.4", Some (bs "1.2.3.4")); (bs "::1", None)], (bs "1.2.3.4"). by repeat constructor.
Defined.

(** the node waits for the Handshake node forever.  However many attempts fail, as long as
    the counter does not overflow, the loop goes on: the error after ten retries is never
    returned, since the loop increments the bound and not the index. *)
Theorem hsd_retries_unbounded n :
  Z.of_nat n < 2 ^ 63 - 10 → connect_hsd (replicate n false) = None.
Proof.
  assert (∀ max, 10 ≤ max → max + Z.of_nat n < 2 ^ 63 → connect_loop 0 max (replicate n false) = None) as Hl.
  { induction n as [|n IH]; intros max Hm Hn; cbn [replicate connect_loop]; rewrite decide_True by lia; [done|].
    rewrite decide_False by (rewrite i64_small by lia; lia). rewrite i64_small by lia. apply IH; lia. }
  intros Hn. apply Hl; lia.
Qed.

Lemma hsd_retries_unbounded_witness : connect_hsd (replicate 11 false) = None.
Proof. by apply (hsd_retries_unbounded 11). Defined.

(** ** Bans of seeds *)

Section seeds.
Context `{HL : LevelDBLaws}.

(** The white list with these addresses on it. *)
Definition listed (ips : list bytes) (m : gmap bytes bytes) : gmap bytes bytes :=
  foldl (λ m ip, <[whitelistPrefix [ip] := [x01]]> m) m ips.

Lemma listed_has ips m ip :
  is_Some (m !! whitelistPrefix [ip]) ∨ ip ∈ ips → is_Some (listed ips m !! whitelistPrefix [ip]).
Proof.
  unfold listed. revert m. induction ips as [|i ips IH]; intros m Hip; [set_solver|]. simpl. apply IH.
  destruct (decide (whitelistPrefix [i] = whitelistPrefix [ip])) as [->|Hne].
  - left. by rewrite lookup_insert_eq.
  - rewrite lookup_insert_ne by done. destruct Hip as [|[->|]%elem_of_cons]; [by left|done|by right].
Qed.

Lemma whitelist_all_puts ips : ∀ tx,
  ∃ tx', whitelist_all ips tx = (Ok tt, tx') ∧ tx_map tx' = listed ips (tx_map tx).
Proof.
  induction ips as [|i ips IH]; intros tx; [by exists tx|].
  cbn [whitelist_all]. destruct (tx_Put_law tx (whitelistPrefix [i]) [x01]) as (tx1 & Hp & Hm).
  destruct (IH tx1) as (tx2 & Hw & Hin). exists tx2. split.
  - rewrite (M_bind_step _ _ _ tt tx1); [exact Hw|]. unfold WhitelistPeerTx, M_wrapping. by rewrite Hp.
  - by rewrite Hin, Hm.
Qed.

(** A ban of an address, inbound or outbound. *)
Definition ban (b : bool * bytes * Time * Z) : M DB unit :=
  let '(inbound, ip, now, duration) := b in
  if inbound : bool then BanInboundPeer now ip duration else BanOutboundPeer now ip duration.

Lemma whitelist_ne_bans ip ip' :
  whitelistPrefix [ip] ≠ peerInBanPrefix [ip'] ∧ whitelistPrefix [ip] ≠ peerOutBanPrefix [ip'].
Proof. by split; intros [=]. Qed.

Lemma ban_whitelisted b db ip :
  is_Some (db_map db !! whitelistPrefix [ip]) → is_Some (db_map (ban b db).2 !! whitelistPrefix [ip]).
Proof.
  destruct b as [[[inbound ip'] now] dur]. intros Hw. unfold ban, BanInboundPeer, BanOutboundPeer.
  destruct (whitelist_ne_bans ip ip') as [Hne1 Hne2].
  destruct inbound; [unfold BanInboundPeerTx|unfold BanOutboundPeerTx];
    match goal with |- context [WithTx_only (M_wrapping ?msg (tx_Put ?k ?v)) db] =>
      destruct (WithTx_only_Put msg k v db) as (db' & Hp & Hm) end; rewrite Hp; simpl; by rewrite Hm, lookup_insert_ne.
Qed.

(** Seeds are never banned.  Once the seeds are on the white list, no sequence of bans
    of any addresses makes the node hold one of them to be banned, so a seed that failed once
    is dialled again. *)
Theorem seeds_never_banned seeds dnsSeeds db :
  ∃ db', whitelist_seeds seeds dnsSeeds db = (Ok tt, db') ∧
    ∀ ip, ip ∈ (sp_IP <$> seeds) ++ dnsSeeds → ∀ bans later,
    IsBanned later (foldl (λ d b, (ban b d).2) db' bans) ip = Ok (false, false).
Proof.
  destruct (WithTx_only_returns (whitelist_all (sp_IP <$> seeds);; whitelist_all dnsSeeds) db (Ok tt)
    (listed dnsSeeds (listed (sp_IP <$> seeds) (db_map db)))) as (db' & Hw & Hm).
  { done. }
  { intros tx Htx. destruct (whitelist_all_puts (sp_IP <$> seeds) tx) as (tx1 & Hw1 & Hm1).
    destruct (whitelist_all_puts dnsSeeds tx1) as (tx2 & Hw2 & Hm2). exists tx2.
    rewrite (M_bind_step _ _ _ _ _ Hw1). by rewrite Hw2, Hm2, Hm1, Htx. }
  exists db'. split; [unfold whitelist_seeds, M_wrapping; by rewrite Hw|]. intros ip Hip bans later.
  assert (is_Some (db_map db' !! whitelistPrefix [ip])) as Hl.
  { rewrite Hm. apply listed_has. apply elem_of_app in Hip as [Hip|Hip]; [left; apply listed_has|]; by right. }
  assert (is_Some (db_map (foldl (λ d b, (ban b d).2) db' bans) !! whitelistPrefix [ip])) as Hb.
  { clear Hw Hm. revert db' Hl. induction bans as [|b bans IH]; intros d Hd; [done|]. simpl. apply IH.
    by apply ban_whitelisted. }
  unfold IsBanned. rewrite db_Has_law. simpl. by rewrite bool_decide_true.
Qed.
End seeds.

(** A seed that did not answer, and was banned for it. *)
Lemma seeds_never_banned_witness :
  ∃ db', whitelist_seeds [mkSeedPeer ZeroHash (bs "10.0.0.7")] [bs "10.0.0.8"] empty_db = (Ok tt, db') ∧
    IsBanned Second (BanOutboundPeer 0 (bs "10.0.0.8") Hour db').2 (bs "10.0.0.8") = Ok (false, false).
Proof.
  destruct (seeds_never_banned [mkSeedPeer ZeroHash (bs "10.0.0.7")] [bs "10.0.0.8"] empty_db) as (db' & Hw & Hb).
  exists db'. split; [exact Hw|].
  apply (Hb (bs "10.0.0.8") ltac:(right; left) [(false, bs "10.0.0.8", 0, Hour)] Second).
Defined.
