(* ===== verification/Services.v ===== *)
(** * The services of a node

    [src/protocol/heartbeater.go], and the part of [src/cmd/fnd/cmd/start.go]
    that opens the home directory and makes the services from the configuration.
    Posting a heartbeat is an argument, as an outcome for each tick. *)

From Stdlib Require Import QArith.
From S2P Require Import Prelude GoLib Crypto Instances Sector Wire OsFile BlobIO BlobTx Names BlobStore Util StoreDB.
From S2P Require Import StoreInstances Store StorePeers BanList NetIP HnsEncoding HnsDns HnsPrimitives NameImporter.
From S2P Require Import ImporterProofs Peer Handshake Mux PeerManager Strconv Config ConfigFile TomlInstance ConfigFileProofs.
From S2P Require Import Home HomeProofs Log PeerExchanger.
Open Scope Z_scope.

(** ** heartbeater.go *)

Definition DefaultInterval : Z := 30 * Second.
Definition DefaultTimeout : Z := 10 * Second.

Record Heartbeater := mkHeartbeater {
  hb_Interval : Z;
  hb_Timeout : Z;
  hb_url : bytes;
  hb_moniker : bytes;
  hb_peerID : Hash;
}.

Definition NewHeartbeater (url moniker : bytes) (peerID : Hash) : Heartbeater :=
  mkHeartbeater DefaultInterval DefaultTimeout url moniker peerID.

(** [json.Marshal(beat)]; a hash is its hexadecimal digits. *)
Definition Heartbeat_fields (UserAgent : bytes) (s : Heartbeater) : list (string * jleaf) :=
  [("moniker", JStr (hb_moniker s)); ("peer_id", JStr (hex_EncodeToString (hb_peerID s)));
   ("user_agent", JStr UserAgent)]%string.

(** What the loop waits for: a tick, with the outcome of the post (the status and
    the error of closing the body), or the end. *)
Inductive beat_event := BeatTick (res : result (Z * option error)) | BeatQuit.

(** A request, and a line of the log. *)
Inductive beat_action := Post (url contentType body : bytes) | BeatLog (level : Level) (msg : bytes).

Definition beat (url beatJSON : bytes) (res : result (Z * option error)) : list beat_action :=
  Post url (bs "application/json") beatJSON ::
  match res with
  | Err _ | Panic _ => [BeatLog LevelError (bs "failed to send heartbeat")]
  | Ok (status, closeErr) =>
      (if closeErr is Some _ then [BeatLog LevelError (bs "failed to close response body")] else []) ++
      (if decide (status ≠ 204) then [BeatLog LevelWarn (bs "heartbeat server sent non-204 status code")] else [])
  end.

(** The loop, while there are events. *)
Fixpoint beat_loop (url beatJSON : bytes) (events : list beat_event) : list beat_action :=
  match events with
  | BeatTick res :: events => beat url beatJSON res ++ beat_loop url beatJSON events
  | BeatQuit :: _ | [] => []
  end.

Definition Heartbeater_Start `{JSON} (UserAgent : bytes) (s : Heartbeater) (events : list beat_event)
    : result (list beat_action) :=
  beatJSON ← wrapping "failed to marshal heartbeat" (json_Marshal (Heartbeat_fields UserAgent s));
  Ok (beat_loop (hb_url s) beatJSON events).

(** ** start.go: opening the home directory *)

Section open.
Context `{Secp256k1, !PrivKeyBytes, !TOML}.

(** Up to the seeds, without the database: the configuration, the level of the
    log, the signer and the fixed seeds. *)
Definition open_home (home : bytes) : M FS (Config * Level * Signer * list SeedPeer) :=
  cfg ← M_wrapping "error reading config file" (ReadConfigFile home);
  logLevel ← M_lift (wrapping "error parsing log level" (NewLevel (cf_LogLevel cfg)));
  signer ← M_wrapping "error opening home directory" (GetSigner home);
  seeds ← M_lift (wrapping "error parsing seed peers" (ParseSeedPeers (p2_FixedSeeds (cf_P2P cfg))));
  mret (cfg, logLevel, signer, seeds).
End open.

(** ** start.go: the services *)

Inductive service :=
| SPeerManager (opts : PeerManagerOpts)
| SListener (host : bytes)
| SNameImporter (n : NameImporter) (CheckInterval : Z)
| SUpdateQueue (MaxLen : Z)
| SUpdater (PollInterval Workers : Z)
| SPinger
| SSectorServer (CacheExpiry : Z)
| SUpdateServer
| SPeerExchanger (SampleSize ResponseTimeout RequestInterval : Z)
| SNameSyncer (Workers SampleSize UpdateResponseTimeout Interval SyncResponseTimeout : Z)
| SServer (peerID : Hash) (host : bytes) (port : Z)
| SHeartbeater (hb : Heartbeater).

Definition ms (n : Z) : Z := ConvertDuration n Millisecond.

(** In the order they are started in. *)
Definition node_services (cfg : Config) (ownPeerID : Hash) : list service :=
  let tu := cf_Tuning cfg in
  let p2pHost := p2_Host (cf_P2P cfg) in
  [SPeerManager (mkPeerManagerOpts (p2_MaxInboundPeers (cf_P2P cfg)) (p2_MaxOutboundPeers (cf_P2P cfg)) p2pHost ownPeerID)] ++
  (if decide (p2pHost ≠ [] ∧ p2pHost ≠ bs "127.0.0.1") then [SListener p2pHost] else []) ++
  [SNameImporter (mkNameImporter (nc_ConfirmationDepth (tu_NameImporter tu)) (nc_Workers (tu_NameImporter tu))
                    (inject_Z (nc_VerificationThreshold (tu_NameImporter tu)) / 100))
                 (ms (nc_CheckIntervalMS (tu_NameImporter tu)));
   SUpdateQueue (i32 (uq_MaxLen (tu_UpdateQueue tu)));
   SUpdater (ms (up_PollIntervalMS (tu_Updater tu))) (up_Workers (tu_Updater tu));
   SPinger;
   SSectorServer (ms (ss_CacheExpiryMS (tu_SectorServer tu)));
   SUpdateServer;
   SPeerExchanger (pe_SampleSize (tu_PeerExchanger tu)) (ms (pe_ResponseTimeoutMS (tu_PeerExchanger tu)))
                  (ms (pe_RequestIntervalMS (tu_PeerExchanger tu)));
   SNameSyncer (nsc_Workers (tu_NameSyncer tu)) (nsc_SampleSize (tu_NameSyncer tu))
               (ms (nsc_UpdateResponseTimeoutMS (tu_NameSyncer tu))) (ms (nsc_IntervalMS (tu_NameSyncer tu)))
               (ms (nsc_SyncResponseTimeoutMS (tu_NameSyncer tu)));
   SServer ownPeerID (rc_Host (cf_RPC cfg)) (rc_Port (cf_RPC cfg))] ++
  (if decide (hb_URL (cf_Heartbeat cfg) ≠ [])
   then [SHeartbeater (NewHeartbeater (hb_URL (cf_Heartbeat cfg)) (hb_Moniker (cf_Heartbeat cfg)) ownPeerID)]
   else []).

(** ** Heartbeats *)

Definition is_post (a : beat_action) : bool := match a with Post _ _ _ => true | _ => false end.

Lemma posts_beat url doc res : List.filter is_post (beat url doc res) = [Post url (bs "application/json") doc].
Proof. destruct res as [[status [e|]]| |]; cbn; [case_decide..| |]; done. Qed.

(** Whatever the server answers, each tick posts one document until the end, and
    it says the moniker, the identity and the version of the node. *)
Theorem heartbeats_sent `{JSONLaws} UserAgent s results rest :
  Forall (λ f, jleaf_ok f.2) (Heartbeat_fields UserAgent s) →
  ∃ doc actions, Heartbeater_Start UserAgent s ((BeatTick <$> results) ++ BeatQuit :: rest) = Ok actions ∧
    List.filter is_post actions = replicate (length results) (Post (hb_url s) (bs "application/json") doc) ∧
    json_Unmarshal [("moniker", KStr); ("peer_id", KStr); ("user_agent", KStr)]%string doc
      = Ok [JStr (hb_moniker s); JStr (hex_EncodeToString (hb_peerID s)); JStr UserAgent].
Proof.
  intros Hok. destruct (json_roundtrip _ Hok) as (doc & Hm & Hu). exists doc.
  unfold Heartbeater_Start. rewrite Hm. eexists. split; [reflexivity|]. split; [|exact Hu].
  induction results as [|res results IH]; [done|]. cbn [fmap list_fmap app beat_loop length replicate].
  rewrite List.filter_app, posts_beat, IH. done.
Qed.

(** ** A node that was just made *)

Section fresh.
Context `{Secp256k1Laws, !PrivKeyBytes, !PrivKeyBytesLaws, TOMLLaws}.

(** After [init], a node starts with the key that was drawn, the default
    configuration and no fixed seeds. *)
Theorem fresh_node_opens program key expand flag home fs :
  expand flag = Ok home → nothing_below home fs →
  ∃ out fs1 fs2, initCmd program (Ok key) expand flag fs = (Ok out, fs1) ∧
    open_home home fs1 = (Ok (DefaultConfig, LevelInfo, NewSECP256k1Signer key, []), fs2) ∧
    same_files fs1 fs2.
Proof.
  intros He Hn. destruct (InitHomeDir_fresh home key fs Hn) as (fs1 & Hi & Hh).
  destruct (ReadConfigFile_home home key fs1 Hh) as (fs2 & Hc & Hs).
  assert (Hh2 : home_of home key fs2).
  { destruct Hh as (? & ? & ? & ? & ?). unfold home_of. rewrite (proj1 Hs). split_and!; [done..| |];
      by eapply same_files_stores. }
  destruct (GetSigner_home home key fs2 Hh2) as (fs3 & Hg & Hs').
  eexists _, fs1, fs3. split; [|split; [|by eapply same_files_trans]].
  - unfold initCmd. rewrite (M_bind_step _ _ _ home fs1); [reflexivity|]. unfold cli_InitHomeDir.
    rewrite (M_bind_step _ _ _ home fs) by (unfold M_lift, GetHomeDir, ExpandHomePath; by rewrite He).
    rewrite (M_bind_step _ _ _ false fs).
    + by rewrite (M_bind_step _ _ _ _ _ Hi).
    + unfold HomeDirExists, mbind, M_bind, M_try, os_Stat. by rewrite (Hn _ (below_home home)).
  - unfold open_home. rewrite (M_bind_step _ _ _ DefaultConfig fs2) by (unfold M_wrapping; by rewrite Hc).
    rewrite (M_bind_step _ _ _ LevelInfo fs2) by done.
    rewrite (M_bind_step _ _ _ (NewSECP256k1Signer key) fs3) by (unfold M_wrapping; by rewrite Hg). done.
Qed.
End fresh.

Lemma fresh_node_opens_witness :
  ∃ fs1, (initCmd (bs "fnd") (Ok toy_key) demo_expand (bs "~/.fnd") empty_fs).2 = fs1 ∧
    is_ok (open_home demo_home fs1).1 = true.
Proof.
  destruct (fresh_node_opens (bs "fnd") toy_key demo_expand (bs "~/.fnd") demo_home empty_fs)
    as (out & fs1 & fs2 & Hi & Ho & _); [done..|].
  exists fs1. rewrite Hi, Ho. split; reflexivity.
Defined.

(** Such a node accepts peers from everywhere and sends no heartbeats. *)
Lemma default_services id :
  SListener (bs "0.0.0.0") ∈ node_services DefaultConfig id ∧
  (∀ hb, SHeartbeater hb ∉ node_services DefaultConfig id) ∧
  SPeerExchanger 12 0 (3600 * Second) ∈ node_services DefaultConfig id.
Proof. split_and!; [cbn; set_solver|intros hb; cbn; set_solver|cbn; set_solver]. Qed.

(** The settings no service is given: the time-outs of connections, syncs and
    heartbeats, and the limits of the exchange of peers. *)
Definition retune (cfg : Config) (connection reap treeBase sector sent received dials interval timeout : Z) : Config :=
  let p := cf_P2P cfg in
  let tu := cf_Tuning cfg in
  let pe := tu_PeerExchanger tu in
  mkConfig (cf_LogLevel cfg) (cf_EnableProfiler cfg) (cf_Heartbeat cfg)
    (mkP2PConfig (p2_Host p) (p2_DNSSeeds p) (p2_FixedSeeds p) (p2_MaxInboundPeers p) (p2_MaxOutboundPeers p) connection)
    (cf_RPC cfg) (cf_HNSResolver cfg) (cf_BanLists cfg)
    (mkTuningConfig (mkUpdateQueueConfig (uq_MaxLen (tu_UpdateQueue tu)) reap) (tu_Updater tu)
      (mkSyncerConfig treeBase sector) (tu_SectorServer tu)
      (mkPeerExchangerConfig (pe_SampleSize pe) (pe_ResponseTimeoutMS pe) (pe_RequestIntervalMS pe) sent received dials)
      (tu_NameImporter tu) (mkHeartbeaterConfig interval timeout) (tu_NameSyncer tu)).

Lemma retune_ignored cfg id connection reap treeBase sector sent received dials interval timeout :
  node_services (retune cfg connection reap treeBase sector sent received dials interval timeout) id
  = node_services cfg id.
Proof. done. Qed.
