(* ===== verification/Cli.v ===== *)
(** * The commands that write and read blobs

    [src/cmd/fnd-cli/cmd/blob/write.go] and [read.go]: what the command line does with a
    [BlobWriter] and a [BlobReader] of a connection to the node.  The connection and the
    signer are arguments, and so is what each read of the input gives and when. *)

From S2P Require Import Prelude GoLib Crypto Instances Sector Wire OsFile BlobIO BlobTx BlobSpec BlobSys BlobHash.
From S2P Require Import Names BlobStore Util StoreDB StoreInstances Store StorePeers Queue UpdateQueueProofs Syncer SyncerProofs.
From S2P Require Import Updater UpdaterProofs UpdaterComplete SectorServer ServerProofs Peer Handshake Mux PeerManager NetIP.
From S2P Require Import Rpc RpcClient RpcProofs RpcReads.
#[local] Opaque Size.

Section commands.
Context `{LevelDB, JSON, Secp256k1, Blake2b}.
Context (blobsPath : bytes).

(** The loop of [writeCmd]: the array [sector] is filled again by each read, and the
    result of [WriteSector] is not looked at.  There is nothing more to read after the last
    of [reads]. *)
Fixpoint write_loop (n : nat) (sector : Sector) (reads : list (Time * result bytes)) : M (Server * BlobWriter) unit :=
  match n, reads with
  | O, _ | _, [] => mret tt
  | S n, (now, r) :: reads =>
      match r with
      | Err e => if decide (e = EOF) then mret tt else M_fail e
      | Panic w => M_panic w
      | Ok data =>
          let sector := go_copy sector data in
          M_try (Writer_WriteSector (server_client now blobsPath) sector);;
          write_loop n sector reads
      end
  end.

Definition writeCmd (t0 : Time) (reads : list (Time * result bytes)) (tc : Time) (broadcast : bool)
    : M (Server * BlobWriter) Hash :=
  Writer_Open (server_client t0 blobsPath);;
  write_loop (Z.to_nat MaxSectors) ZeroSector reads;;
  Writer_Commit (server_client tc blobsPath) broadcast.

(** [io.Copy] to the output: what is written, and the error. *)
Fixpoint io_Copy (fuel : nat) (now : Time) (buf : bytes) : M (Server * BlobReader) (bytes * option error) :=
  match fuel with
  | O => mret ([], None)
  | S fuel =>
      '(buf, n, err) ← Client_Read (server_client now blobsPath) buf;
      match err with
      | Some e => mret (take (Z.to_nat n) buf, if decide (e = EOF) then None else Some e)
      | None =>
          '(rest, e) ← io_Copy fuel now buf;
          mret (take (Z.to_nat n) buf ++ rest, e)
      end
  end.

(** The buffer of [io.Copy], and the reads of it that a blob can take. *)
Definition copy_buffer : bytes := replicate (Z.to_nat 32768) x00.
Definition copy_rounds : nat := 33.

Definition readCmd (now : Time) : M (Server * BlobReader) (bytes * option error) :=
  io_Copy copy_rounds now copy_buffer.
End commands.

(** ** What is written *)

(** The calls of [WriteSector] when every read gives some bytes. *)
Fixpoint write_calls (sector : Sector) (reads : list (Time * bytes)) : list (Time * bytes) :=
  match reads with
  | [] => []
  | (now, data) :: reads => (now, go_copy sector data) :: write_calls (go_copy sector data) reads
  end.

(** Reads that give bytes. *)
Definition all_read (reads : list (Time * bytes)) : list (Time * result bytes) := (λ r, (r.1, Ok r.2)) <$> reads.

Lemma zlen_write_calls sector reads : zlen (write_calls sector reads) = zlen reads.
Proof.
  revert sector. induction reads as [|[now data] reads IH]; intros sector; [done|].
  cbn [write_calls]. by rewrite !zlen_cons, IH.
Qed.

Lemma write_calls_sectors sector reads :
  Sector_wf sector → written (write_calls sector reads) = snd <$> write_calls sector reads.
Proof.
  revert sector. induction reads as [|[now data] reads IH]; intros sector Hs; [done|].
  assert (Sector_wf (go_copy sector data)) as Hw
    by (apply Sector_wf_length; rewrite length_go_copy; by apply Sector_wf_length).
  cbn [write_calls written fmap list_fmap]. unfold written in IH. rewrite (IH _ Hw). f_equal. simpl.
  apply go_copy_full. by rewrite (proj1 (Sector_wf_length _) Hw).
Qed.

(** Reads that fill the array. *)
Lemma write_calls_full sector reads :
  length sector = 256%nat → Forall (λ r, length r.2 = 256%nat) reads → write_calls sector reads = reads.
Proof.
  intros Hs Hr. revert sector Hs. induction Hr as [|[now data] reads Hd _ IH]; intros sector Hs; [done|].
  simpl in Hd. cbn [write_calls]. rewrite go_copy_full by lia. by rewrite IH.
Qed.

Lemma with_sectors_at base k ss :
  0 ≤ k → (Z.to_nat (k * SectorBytes) ≤ length base)%nat →
  take (length (mjoin ss)) (drop (Z.to_nat (k * SectorBytes)) (with_sectors base k ss)) = mjoin ss.
Proof.
  intros Hk Hb. unfold with_sectors. rewrite drop_app_length' by (rewrite length_take; lia).
  apply take_app_length.
Qed.

Section runs.
Context `{LevelDB, JSON, Secp256k1, Blake2b}.
Context (blobsPath : bytes).

Lemma write_loop_all n sector reads x x' :
  (length reads ≤ n)%nat → write_all blobsPath (write_calls sector reads) x = (Ok tt, x') →
  write_loop blobsPath n sector (all_read reads) x = (Ok tt, x').
Proof.
  revert n sector x. induction reads as [|[now data] reads IH]; intros [|n] sector x Hn Hw; simpl in Hn;
    try done; [lia|]. cbn [write_calls write_all] in Hw. unfold mbind, M_bind in Hw.
  destruct (Writer_WriteSector (server_client now blobsPath) (go_copy sector data) x) as [[h| |] x1] eqn:Hs; [|done..].
  cbn [write_loop all_read fmap list_fmap fst snd]. rewrite (M_bind_step _ _ _ _ _ (M_try_Ok _ _ _ _ Hs)).
  apply IH; [lia|exact Hw].
Qed.

Lemma io_Copy_all name i c hh now fuel : zlen c = Size → held_w hh name = 0 ∧ 0 ≤ held_r hh name →
  ∀ off buf s, zlen buf = 32768 → 0 ≤ off ≤ Size → Size - off ≤ 32768 * (Z.of_nat fuel - 1) →
  has_blob blobsPath name i c hh (sv_world s) →
  ∃ x', io_Copy blobsPath fuel now buf (s, mkBlobReader name off) = (Ok (drop (Z.to_nat off) c, None), x').
Proof.
  intros Hc Hf. induction fuel as [|fuel IH]; intros off buf s Hbuf Ho Hlt Hb; [lia|]. cbn [io_Copy].
  destruct (decide (off = Size)) as [->|Hne].
  - eexists. rewrite (M_bind_step _ _ _ (buf, 0, Some EOF) (s, mkBlobReader name Size))
      by (unfold Client_Read; cbn [rd_off]; by rewrite decide_True).
    rewrite drop_ge by (unfold zlen in Hc; lia). done.
  - destruct (client_read_call blobsPath name i c hh Hc Hf now buf off s Hb) as (s1 & Hr & Hd & Hb1 & _); [lia|].
    set (n := Z.min _ _) in *. set (data := take _ (drop _ c)) in *.
    destruct (IH (off + n) (data ++ drop (Z.to_nat n) buf) s1) as (x' & Hx); [|lia|lia|done|].
    { unfold zlen in *. rewrite length_app, length_drop. lia. }
    exists x'. rewrite (M_bind_step _ _ _ _ _ Hr). cbv beta iota zeta. rewrite (M_bind_step _ _ _ _ _ Hx). cbv beta iota zeta.
    rewrite take_app_length' by (unfold zlen in Hd; lia). unfold data.
    replace (Z.to_nat (off + n)) with (Z.to_nat off + Z.to_nat n)%nat by lia. by rewrite <- drop_drop, take_drop.
Qed.

(** The read command gives the whole blob. *)
Lemma readCmd_all name i c hh now s : zlen c = Size → held_w hh name = 0 ∧ 0 ≤ held_r hh name →
  has_blob blobsPath name i c hh (sv_world s) →
  ∃ x', readCmd blobsPath now (s, NewBlobReader name) = (Ok (c, None), x').
Proof.
  intros Hc Hf Hb. apply (io_Copy_all name i c hh now copy_rounds Hc Hf 0 copy_buffer s); [|rewrite Size_eq..|done].
  - unfold zlen, copy_buffer. rewrite length_replicate. lia.
  - lia.
  - unfold copy_rounds. lia.
Qed.
End runs.

Section together.
Context `{HL : LevelDBLaws, HJ : JSONLaws, HS : Secp256k1Laws, Blake2b}.
Context (blobsPath : bytes).

(** A write and then a read, whatever the input gives. *)
Lemma write_then_read x sk sig t0 tc s ps i hh broadcast reads now :
  publishable blobsPath x sk sig t0 tc s ps i (blob_path blobsPath (se_name x)) hh →
  se_writes x = write_calls ZeroSector reads →
  ∃ s' b' x', writeCmd blobsPath t0 (all_read reads) tc broadcast
      (s, NewBlobWriter (NewSECP256k1Signer sk) (se_name x) (se_reset x)) = (Ok (se_tip x), (s', b')) ∧
    readCmd blobsPath now (s', NewBlobReader (se_name x)) = (Ok (se_result x, None), x').
Proof.
  intros Hp Hw. destruct (publish_run _ _ _ _ _ _ _ _ _ _ _ broadcast Hp) as (s' & b' & Hrun & Hb & _ & _ & Hl & _).
  destruct (session_parts _ _ _ _ _ _ _ _ _ _ _ Hp) as (Hst & _ & Hres & _).
  destruct (pb_free _ _ _ _ _ _ _ _ _ _ _ Hp) as (_ & Hr0 & Hw0).
  destruct (readCmd_all blobsPath (se_name x) i (se_result x) hh now s' Hres ltac:(lia)) as (x' & Hx); [by split|].
  exists s', b', x'. split; [|exact Hx]. unfold publish, writeCmd in *. rewrite Hw in Hrun.
  apply M_bind_Ok in Hrun as ([] & y1 & Ho & Hrun). apply M_bind_Ok in Hrun as ([] & y2 & Hall & Hrun).
  rewrite (M_bind_step _ _ _ _ _ Ho), (M_bind_step _ _ _ tt y2); [exact Hrun|].
  apply write_loop_all; [|exact Hall].
  pose proof (pb_max _ _ _ _ _ _ _ _ _ _ _ Hp) as Hm. unfold se_size in Hm. rewrite Hw, zlen_write_calls in Hm.
  unfold zlen, MaxSectors in *. lia.
Qed.

(** Where the blob shows what was written. *)
Lemma result_at x sk sig t0 tc s ps i hh reads :
  publishable blobsPath x sk sig t0 tc s ps i (blob_path blobsPath (se_name x)) hh →
  se_writes x = write_calls ZeroSector reads →
  let data := mjoin (snd <$> write_calls ZeroSector reads) in
  take (length data) (drop (Z.to_nat (se_start x * SectorBytes)) (se_result x)) = data.
Proof.
  intros Hp Hw data. destruct (session_parts _ _ _ _ _ _ _ _ _ _ _ Hp) as (Hst & Hbase & _).
  unfold data. rewrite <- (write_calls_sectors ZeroSector) by apply ZeroSector_wf. rewrite <- Hw.
  apply with_sectors_at; [lia|]. unfold zlen in Hbase. rewrite Size_eq in Hbase. unfold SectorBytes, MaxSectors in *. lia.
Qed.

(** What the command line writes, it reads.  When the input comes in whole sectors, the
    write command succeeds, and a read of the name then gives a blob that has the input
    right after the sectors that were there before. *)
Theorem cli_roundtrip x sk sig t0 tc s ps i hh broadcast reads now :
  publishable blobsPath x sk sig t0 tc s ps i (blob_path blobsPath (se_name x)) hh →
  se_writes x = write_calls ZeroSector reads → Forall (λ r, length r.2 = 256%nat) reads →
  let input := mjoin (snd <$> reads) in
  ∃ s' b' x' out, writeCmd blobsPath t0 (all_read reads) tc broadcast
      (s, NewBlobWriter (NewSECP256k1Signer sk) (se_name x) (se_reset x)) = (Ok (se_tip x), (s', b')) ∧
    readCmd blobsPath now (s', NewBlobReader (se_name x)) = (Ok (out, None), x') ∧
    take (length input) (drop (Z.to_nat (se_start x * SectorBytes)) out) = input.
Proof.
  intros Hp Hw Hfull input.
  destruct (write_then_read _ _ _ _ _ _ _ _ _ broadcast _ now Hp Hw) as (s' & b' & x' & Hwr & Hrd).
  exists s', b', x', (se_result x). split_and!; [exact Hwr|exact Hrd|].
  pose proof (result_at _ _ _ _ _ _ _ _ _ _ Hp Hw) as Hr. by rewrite write_calls_full in Hr.
Qed.

(** C37: the last sector of an input that does not end at a sector boundary keeps bytes of the
    one before it: the array is not cleared between two reads.  A write of a sector [a] and
    a shorter rest [d] publishes, and signs, the rest followed by the end of [a]. *)
Theorem cli_stale_tail x sk sig t0 tc s ps i hh broadcast t1 a t2 d now :
  publishable blobsPath x sk sig t0 tc s ps i (blob_path blobsPath (se_name x)) hh →
  se_writes x = write_calls ZeroSector [(t1, a); (t2, d)] → length a = 256%nat → (length d < 256)%nat →
  ∃ s' b' x' out, writeCmd blobsPath t0 (all_read [(t1, a); (t2, d)]) tc broadcast
      (s, NewBlobWriter (NewSECP256k1Signer sk) (se_name x) (se_reset x)) = (Ok (se_tip x), (s', b')) ∧
    readCmd blobsPath now (s', NewBlobReader (se_name x)) = (Ok (out, None), x') ∧
    take 512 (drop (Z.to_nat (se_start x * SectorBytes)) out) = a ++ d ++ drop (length d) a.
Proof.
  intros Hp Hw Ha Hd.
  destruct (write_then_read _ _ _ _ _ _ _ _ _ broadcast _ now Hp Hw) as (s' & b' & x' & Hwr & Hrd).
  exists s', b', x', (se_result x). split_and!; [exact Hwr|exact Hrd|].
  pose proof (result_at _ _ _ _ _ _ _ _ _ _ Hp Hw) as Hr. cbn [write_calls fmap list_fmap snd] in Hr.
  assert (go_copy ZeroSector a = a) as Ea by (by apply go_copy_full). rewrite Ea in Hr.
  assert (go_copy a d = d ++ drop (length d) a) as Ed by (unfold go_copy; by rewrite take_ge by lia).
  rewrite Ed in Hr. change (mjoin [a; d ++ drop (length d) a]) with (a ++ (d ++ drop (length d) a) ++ []) in Hr.
  rewrite app_nil_r in Hr. etransitivity; [|exact Hr]. f_equal.
  rewrite !length_app, length_drop. lia.
Qed.
End together.

(** A first blob of a name, from the command line. *)
Definition cli_session (bl : Blob) (reads : list (Time * bytes)) : session_ :=
  mkSession (bs "foo") false (CurrentEpoch 0 (bs "foo"), 0, ZeroHash) bl zero_blob (write_calls ZeroSector reads).

Definition cli_tip (reads : list (Time * bytes)) : Hash :=
  tip_from ZeroHash (snd <$> write_calls ZeroSector reads).

Definition cli_sig (reads : list (Time * bytes)) : Signature :=
  match SignSeal (NewSECP256k1Signer toy_key) (bs "foo") (CurrentEpoch 0 (bs "foo")) (zlen reads)
    (cli_tip reads) ZeroHash with Ok sig => sig | _ => [] end.

Definition cli_server : Server := NewServer (mkWorld demo_db (stored_fs, NewPool) NewMultiLocker []).

Lemma cli_session_sectors bl reads :
  zlen reads ≤ MaxSectors → se_sectors (cli_session bl reads) = snd <$> write_calls ZeroSector reads.
Proof.
  intros Hl. unfold se_sectors, se_result, se_size, cli_session. cbn [se_writes se_reset se_header].
  rewrite <- (write_calls_sectors ZeroSector) by apply ZeroSector_wf.
  assert (zlen (write_calls ZeroSector reads) = zlen (written (write_calls ZeroSector reads))) as ->
    by (unfold zlen, written; by rewrite length_fmap).
  unfold se_start. cbn. rewrite (sectors_of_with _ 0); [done|done|apply written_wf|lia].
Qed.

Lemma stored_name_blob : name_blob (blob_path (bs "blobs") (bs "foo")) (bs "foo") 0 zero_blob (stored_fs, NewPool).
Proof.
  split; [apply lookup_singleton_eq|apply lookup_singleton_eq|simpl; lia|].
  intros e He. exfalso. revert He. vm_compute. discriminate.
Qed.

Lemma cli_publishable reads :
  zlen reads ≤ MaxSectors → Forall (λ x, x.1 ≤ 15000000000) (write_calls ZeroSector reads) →
  SignSeal (NewSECP256k1Signer toy_key) (bs "foo") (CurrentEpoch 0 (bs "foo")) (zlen reads) (cli_tip reads) ZeroHash =
    Ok (cli_sig reads) →
  Forall (λ h, h ≠ ZeroHash) (chain ZeroHash (snd <$> write_calls ZeroSector reads)) →
  Hash_wf (cli_tip reads) → Signature_wf (cli_sig reads) →
  ∃ bl ps, publishable (bs "blobs") (cli_session bl reads) toy_key (cli_sig reads) 0 1 cli_server ps 0
    (blob_path (bs "blobs") (bs "foo")) (mkHeld (λ _, 0) (λ _, 0)).
Proof.
  intros Hl Ht Hsig Hnz Hwt Hws.
  destruct (open_close (bs "blobs") (bs "foo") 0 zero_blob zlen_zero_blob _ stored_name_blob)
    as (bl & ps & _ & Ho & Hbn & Hbo & _).
  assert (se_size (cli_session bl reads) = zlen reads) as Hsz
    by (unfold se_size; cbn [cli_session se_writes]; by rewrite zlen_write_calls).
  assert (se_tip (cli_session bl reads) = cli_tip reads) as Htip
    by (unfold se_tip; by rewrite cli_session_sectors).
  exists bl, ps. apply mkPublishable; rewrite ?Hsz, ?Htip, ?cli_session_sectors by done.
  - exact Ho.
  - exact Hbn.
  - exact Hbo.
  - apply zlen_zero_blob.
  - vm_compute. reflexivity.
  - clear. done.
  - intros _. reflexivity.
  - clear. done.
  - clear. done.
  - split; [exact Ht|]. clear. done.
  - exact Hl.
  - exists demo_info. split; [vm_compute; reflexivity|reflexivity].
  - exact Hsig.
  - clear. split; [|done]. intros k. split_and!; [done..|by left].
  - exact Hnz.
  - split; [by apply (bool_decide_unpack (Forall (λ c, Z_of_byte c < 128) (bs "foo")))|].
    split; [clear; by vm_compute|]. split; [split; [apply zlen_nonneg|cbn; unfold MaxSectors in Hl; lia]|].
    split; [exact Hwt|]. split; [exact Hws|]. clear. by split_and!.
  - clear. exists 0. split; [vm_compute; reflexivity|done].
Qed.

Definition sector_a : bytes := replicate 256 x61.

Lemma sector_a_publishable :
  ∃ bl ps, publishable (bs "blobs") (cli_session bl [(0, sector_a)]) toy_key (cli_sig [(0, sector_a)]) 0 1 cli_server ps 0
    (blob_path (bs "blobs") (bs "foo")) (mkHeld (λ _, 0) (λ _, 0)).
Proof.
  apply cli_publishable.
  - by vm_compute.
  - by repeat constructor.
  - vm_compute. reflexivity.
  - repeat constructor. by vm_compute.
  - vm_compute. reflexivity.
  - vm_compute. reflexivity.
Qed.

Lemma cli_roundtrip_witness :
  ∃ h s' b' x' out, writeCmd (bs "blobs") 0 (all_read [(0, sector_a)]) 1 true
      (cli_server, NewBlobWriter (NewSECP256k1Signer toy_key) (bs "foo") false) = (Ok h, (s', b')) ∧
    readCmd (bs "blobs") 2 (s', NewBlobReader (bs "foo")) = (Ok (out, None), x') ∧ take 256 out = sector_a.
Proof.
  destruct sector_a_publishable as (bl & ps & Hp).
  destruct (cli_roundtrip (bs "blobs") (cli_session bl [(0, sector_a)]) toy_key (cli_sig [(0, sector_a)]) 0 1
    cli_server ps 0 _ true [(0, sector_a)] 2 Hp eq_refl) as (s' & b' & x' & out & Hw & Hr & Ho).
  - by repeat constructor.
  - exists (se_tip (cli_session bl [(0, sector_a)])), s', b', x', out. split_and!; [exact Hw|exact Hr|].
    exact Ho.
Defined.

(** A sector of the letter a, and then one letter b: the second sector ends with the letter a. *)
Lemma stale_publishable :
  ∃ bl ps, publishable (bs "blobs") (cli_session bl [(0, sector_a); (0, bs "b")]) toy_key
    (cli_sig [(0, sector_a); (0, bs "b")]) 0 1 cli_server ps 0
    (blob_path (bs "blobs") (bs "foo")) (mkHeld (λ _, 0) (λ _, 0)).
Proof.
  apply cli_publishable.
  - by vm_compute.
  - by repeat constructor.
  - vm_compute. reflexivity.
  - repeat constructor; by vm_compute.
  - vm_compute. reflexivity.
  - vm_compute. reflexivity.
Qed.

Lemma cli_stale_tail_witness :
  ∃ h s' b' x' out, writeCmd (bs "blobs") 0 (all_read [(0, sector_a); (0, bs "b")]) 1 true
      (cli_server, NewBlobWriter (NewSECP256k1Signer toy_key) (bs "foo") false) = (Ok h, (s', b')) ∧
    readCmd (bs "blobs") 2 (s', NewBlobReader (bs "foo")) = (Ok (out, None), x') ∧
    take 512 out = replicate 256 x61 ++ [x62] ++ replicate 255 x61.
Proof.
  destruct stale_publishable as (bl & ps & Hp).
  destruct (cli_stale_tail (bs "blobs") (cli_session bl [(0, sector_a); (0, bs "b")]) toy_key
    (cli_sig [(0, sector_a); (0, bs "b")]) 0 1 cli_server ps 0 _ true 0 sector_a 0 (bs "b") 2 Hp eq_refl)
    as (s' & b' & x' & out & Hw & Hr & Ho).
  - done.
  - simpl. lia.
  - exists (se_tip (cli_session bl [(0, sector_a); (0, bs "b")])), s', b', x', out. split_and!; [exact Hw|exact Hr|exact Ho].
Defined.
