(* ===== verification/WriteInput.v ===== *)
(** * The write command with its input

    The whole of [src/cmd/fnd-cli/cmd/blob/write.go]: the signer is that of
    the home directory, and the data is an argument, what is typed at a terminal,
    or the standard input. *)

From S2P Require Import Prelude GoLib Crypto Instances Sector Wire OsFile BlobIO BlobTx BlobSpec BlobSys BlobHash.
From S2P Require Import Names BlobStore Util StoreDB StoreInstances Store StorePeers Queue UpdateQueueProofs Syncer SyncerProofs.
From S2P Require Import Updater UpdaterProofs UpdaterComplete SectorServer ServerProofs BanList Peer Handshake Mux PeerManager NetIP.
From S2P Require Import Rpc RpcClient RpcProofs RpcReads HnsDns NameImporter ImporterProofs Config ConfigFile Home HomeProofs Cli.
#[local] Opaque Size.

(** ** bufio.Reader over bytes.Reader *)

(** What is buffered, and the rest of the bytes. *)
Record bufioReader := mkBufioReader { bf_buf : bytes; bf_src : bytes }.

Definition bufio_size : nat := Z.to_nat 4096.

Definition bufio_NewReader (data : bytes) : bufioReader := mkBufioReader [] data.

(** [Read] into [n] bytes: at most one read of the source, past the buffer when
    it is not larger. *)
Definition bufio_Read (n : nat) : M bufioReader bytes := λ r,
  let src := bf_src r in
  if decide (bf_buf r ≠ []) then (Ok (take n (bf_buf r)), mkBufioReader (drop n (bf_buf r)) src)
  else if decide (src = []) then (Err EOF, r)
  else if decide (bufio_size ≤ n)%nat then (Ok (take n src), mkBufioReader [] (drop n src))
  else let buf := take bufio_size src in
       (Ok (take n buf), mkBufioReader (drop n buf) (drop bufio_size src)).

(** What reads into an array of 256 bytes give, up to the first error. *)
Fixpoint sector_reads (fuel : nat) (r : bufioReader) : list (result bytes) :=
  match fuel with
  | O => []
  | S fuel =>
      match bufio_Read 256 r with
      | (Ok b, r) => Ok b :: sector_reads fuel r
      | (e, _) => [e]
      end
  end.

(** ** write.go *)

(** Each line, with a line break. *)
Definition readDataTTY (typed : bytes) : bytes := mjoin ((λ l, l ++ [x0a]) <$> Scanner_lines typed).

(** A terminal, or what each read of another input gives. *)
Inductive stdin := Terminal (typed : bytes) | Piped (reads : list (result bytes)).

Definition write_input (data : option bytes) (input : stdin) : list (result bytes) :=
  match data with
  | Some data => sector_reads (Z.to_nat MaxSectors) (bufio_NewReader data)
  | None =>
      match input with
      | Terminal typed => sector_reads (Z.to_nat MaxSectors) (bufio_NewReader (readDataTTY typed))
      | Piped reads => reads
      end
  end.

(** The times of the calls. *)
Definition timed {A} (clock : nat → Time) (l : list A) : list (Time * A) := imap (λ i a, (clock i, a)) l.

Section command.
Context `{LevelDB, JSON, Secp256k1, !PrivKeyBytes, Blake2b}.
Context (blobsPath : bytes).

Definition write_with (signer : Signer) (name : bytes) (resetEpoch : bool) (reads : list (result bytes))
    (t0 tc : Time) (clock : nat → Time) (broadcast : bool) : M (FS * Server) bytes := λ s,
  let '(r, (sv, _)) := writeCmd blobsPath t0 (timed clock reads) tc broadcast
                         (s.2, NewBlobWriter signer name resetEpoch) in
  ((λ h, bs "Success. Hash: " ++ Hash_String h ++ [x0a]) <$> r, (s.1, sv)).

Definition write_command (expand : bytes → result bytes) (flag name : bytes) (resetEpoch : bool)
    (data : option bytes) (input : stdin) (t0 tc : Time) (clock : nat → Time) (broadcast : bool)
    : M (FS * Server) bytes :=
  homeDir ← M_lift (GetHomeDir expand flag);
  signer ← M_zoom fst (λ fs s, (fs, s.2)) (GetSigner homeDir);
  write_with signer name resetEpoch (write_input data input) t0 tc clock broadcast.
End command.

(** ** Lemmas *)

(** The sectors of the data, the last one as long as the rest. *)
Fixpoint chunks (fuel : nat) (data : bytes) : list bytes :=
  match fuel, data with
  | S fuel, _ :: _ => take 256 data :: chunks fuel (drop 256 data)
  | _, _ => []
  end.

Lemma mjoin_chunks fuel data : (length data ≤ 256 * fuel)%nat → mjoin (chunks fuel data) = data.
Proof.
  revert data. induction fuel as [|fuel IH]; intros [|c data] Hl; try done; [simpl in Hl; lia|].
  cbn [chunks]. change (mjoin (?a :: ?l)) with (a ++ mjoin l). rewrite IH; [apply take_drop|].
  rewrite length_drop. lia.
Qed.

Lemma chunks_full fuel data k :
  (length data = 256 * k)%nat → Forall (λ c, length c = 256%nat) (chunks fuel data).
Proof.
  revert data k. induction fuel as [|fuel IH]; intros [|c data] k Hl; try (by constructor).
  cbn [chunks]. destruct k as [|k]; [simpl in Hl; lia|]. constructor.
  - rewrite length_take. lia.
  - apply (IH _ k). rewrite length_drop. lia.
Qed.

(** The buffer is a whole number of sectors, so no read ends at its end. *)
Lemma sector_reads_chunks fuel buf src :
  (src = [] ∨ ∃ k, length buf = (256 * k)%nat) → (length (buf ++ src) + 256 ≤ 256 * fuel)%nat →
  sector_reads fuel (mkBufioReader buf src) = (Ok <$> chunks fuel (buf ++ src)) ++ [Err EOF].
Proof.
  revert buf src. induction fuel as [|fuel IH]; intros buf src Hk Hl; [lia|].
  cbn [sector_reads]. unfold bufio_Read. cbn [bf_buf bf_src]. case_decide as Hb.
  - assert (Hcut : src = [] ∨ (256 ≤ length buf)%nat).
    { destruct Hk as [?|[[|k] Hk]]; [by left| |right; lia]. by apply nil_length_inv in Hk. }
    assert (Ht : take 256 buf = take 256 (buf ++ src)).
    { destruct Hcut as [->|Hge]; [by rewrite app_nil_r|]. by rewrite take_app_le. }
    assert (Hd : drop 256 buf ++ src = drop 256 (buf ++ src)).
    { destruct Hcut as [->|Hge]; [by rewrite !app_nil_r|]. by rewrite drop_app_le. }
    destruct (buf ++ src) as [|c rest] eqn:He; [by destruct buf|]. cbn [chunks]. rewrite <-Hd, Ht.
    rewrite IH; [by rewrite Hd| |].
    + destruct Hk as [?|[k Hk]]; [by left|right]. exists (k - 1)%nat. rewrite length_drop. lia.
    + rewrite Hd, length_drop. cbn [length] in *. lia.
  - assert (buf = []) as -> by (by destruct buf). cbn [app] in *. case_decide as Hs; [by subst src|].
    rewrite decide_False by (unfold bufio_size; lia). destruct src as [|c rest]; [done|].
    set (src := c :: rest) in *. cbn [chunks]. fold src.
    assert (Hn : bufio_size = (256 + Z.to_nat 3840)%nat) by (unfold bufio_size; lia).
    assert (Hd : drop 256 (take bufio_size src) ++ drop bufio_size src = drop 256 src).
    { rewrite Hn, <-take_drop_commute, <-drop_drop. apply take_drop. }
    rewrite IH; [|destruct (decide (length src ≤ bufio_size)%nat)|rewrite Hd, length_drop; unfold src in *; cbn [length] in *; lia].
    + rewrite Hd, take_take. by replace (256 `min` bufio_size)%nat with 256%nat by lia.
    + left. by apply drop_ge.
    + right. exists 15%nat. rewrite length_drop, length_take. unfold bufio_size in *. lia.
Qed.

Lemma timed_reads clock (l : list bytes) e :
  timed clock ((Ok <$> l) ++ [Err e]) = all_read (timed clock l) ++ [(clock (length l), Err e)].
Proof.
  unfold timed, all_read. rewrite imap_app, fmap_imap, imap_fmap, length_fmap. f_equal. cbn. by rewrite Nat.add_0_r.
Qed.

Lemma timed_snd {A} clock (l : list A) : snd <$> timed clock l = l.
Proof. unfold timed. rewrite fmap_imap. apply list_eq. intros i. rewrite list_lookup_imap. by destruct (l !! i). Qed.

(** Reads that end with the end of the input. *)
Lemma write_loop_EOF `{LevelDB, JSON, Secp256k1, Blake2b} blobsPath n sector reads t x :
  write_loop blobsPath n sector (all_read reads ++ [(t, Err EOF)]) x = write_loop blobsPath n sector (all_read reads) x.
Proof.
  revert n sector x. induction reads as [|[now data] reads IH]; intros [|n] sector x; try done.
  cbn [all_read fmap list_fmap app write_loop fst snd]. unfold mbind, M_bind.
  destruct (M_try _ x) as [[a| |] x1]; [|done..]. apply IH.
Qed.

Section published.
Context `{HL : LevelDBLaws, HJ : JSONLaws, HS : Secp256k1Laws, HP : !PrivKeyBytes, HPL : !PrivKeyBytesLaws, HB : Blake2b}.
Context (blobsPath : bytes).

(** What the command publishes of an argument, and what the blob shows of it. *)
Lemma write_argument x sk sig t0 tc s ps i hh expand flag home fs data clock broadcast now input :
  publishable blobsPath x sk sig t0 tc s ps i (blob_path blobsPath (se_name x)) hh →
  se_writes x = write_calls ZeroSector (timed clock (chunks (Z.to_nat MaxSectors) data)) →
  expand flag = Ok home → home_of home sk fs → zlen data + SectorBytes ≤ MaxSectors * SectorBytes →
  ∃ fs' s' x', write_command blobsPath expand flag (se_name x) (se_reset x) (Some data) input t0 tc clock broadcast (fs, s)
      = (Ok (bs "Success. Hash: " ++ Hash_String (se_tip x) ++ [x0a]), (fs', s')) ∧
    readCmd blobsPath now (s', NewBlobReader (se_name x)) = (Ok (se_result x, None), x').
Proof.
  intros Hp Hw He Hh Hd. destruct (GetSigner_home home sk fs Hh) as (fs' & Hg & _).
  destruct (write_then_read _ _ _ _ _ _ _ _ _ _ broadcast _ now Hp Hw) as (s' & b' & x' & Hwr & Hrd).
  exists fs', s', x'. split; [|exact Hrd]. unfold write_command.
  rewrite (M_bind_step _ _ _ home (fs, s)) by (unfold M_lift, GetHomeDir, ExpandHomePath; by rewrite He).
  rewrite (M_bind_step _ _ _ (NewSECP256k1Signer sk) (fs', s)) by (unfold M_zoom; cbn [fst snd]; by rewrite Hg).
  unfold write_with, write_input, bufio_NewReader. cbn [fst snd].
  rewrite (sector_reads_chunks (Z.to_nat MaxSectors) [] data)
    by ((right; by exists 0%nat) || (unfold zlen, SectorBytes, MaxSectors in *; cbn [app]; lia)).
  rewrite timed_reads. unfold writeCmd in *.
  apply M_bind_Ok in Hwr as ([] & y1 & Ho & Hwr). apply M_bind_Ok in Hwr as ([] & y2 & Hl & Hc).
  rewrite (M_bind_step _ _ _ _ _ Ho). rewrite (M_bind_step _ _ _ tt y2) by (by rewrite write_loop_EOF).
  by rewrite Hc.
Qed.

(** C8: what an owner gives to the write command is what a reader gets.  Run with
    the home directory the key of the name is in, the command publishes data of
    whole sectors, prints the tip it signed, and the read command of any user
    then gives a blob that has the data right after the sectors there were. *)
Theorem write_command_roundtrip x sk sig t0 tc s ps i hh expand flag home fs data k clock broadcast now input :
  publishable blobsPath x sk sig t0 tc s ps i (blob_path blobsPath (se_name x)) hh →
  se_writes x = write_calls ZeroSector (timed clock (chunks (Z.to_nat MaxSectors) data)) →
  expand flag = Ok home → home_of home sk fs →
  length data = (256 * k)%nat → zlen data + SectorBytes ≤ MaxSectors * SectorBytes →
  ∃ fs' s' x' out, write_command blobsPath expand flag (se_name x) (se_reset x) (Some data) input t0 tc clock broadcast (fs, s)
      = (Ok (bs "Success. Hash: " ++ Hash_String (se_tip x) ++ [x0a]), (fs', s')) ∧
    readCmd blobsPath now (s', NewBlobReader (se_name x)) = (Ok (out, None), x') ∧
    take (length data) (drop (Z.to_nat (se_start x * SectorBytes)) out) = data.
Proof.
  intros Hp Hw He Hh Hk Hd.
  destruct (write_argument _ _ _ _ _ _ _ _ _ _ _ _ _ _ clock broadcast now input Hp Hw He Hh Hd) as (fs' & s' & x' & Hc & Hr).
  exists fs', s', x', (se_result x). split_and!; [exact Hc|exact Hr|].
  pose proof (result_at _ _ _ _ _ _ _ _ _ _ _ Hp Hw) as Hres. cbv zeta in Hres.
  rewrite write_calls_full in Hres.
  - rewrite timed_snd, mjoin_chunks in Hres; [done|]. unfold zlen, SectorBytes, MaxSectors in *. lia.
  - done.
  - pose proof (chunks_full (Z.to_nat MaxSectors) data k Hk) as Hf.
    rewrite <-(timed_snd clock (chunks _ _)) in Hf. by apply Forall_fmap in Hf.
Qed.
End published.

Lemma demo_home_of : ∃ fs, home_of demo_home toy_key fs.
Proof. destruct (InitHomeDir_fresh demo_home toy_key empty_fs) as (fs & _ & Hh); [done|]. by exists fs. Qed.

Lemma write_command_roundtrip_witness :
  ∃ fs fs' msg s' x' out,
    write_command (bs "blobs") demo_expand (bs "~/.fnd") (bs "foo") false (Some sector_a) (Terminal []) 0 1 (λ _, 0) true
      (fs, cli_server) = (Ok msg, (fs', s')) ∧
    readCmd (bs "blobs") 2 (s', NewBlobReader (bs "foo")) = (Ok (out, None), x') ∧ take 256 out = sector_a.
Proof.
  destruct demo_home_of as (fs & Hh). destruct sector_a_publishable as (bl & ps & Hp).
  assert (Hc : timed (λ _, 0) (chunks (Z.to_nat MaxSectors) sector_a) = [(0, sector_a)]) by (by vm_compute).
  destruct (write_command_roundtrip (bs "blobs") (cli_session bl [(0, sector_a)]) toy_key (cli_sig [(0, sector_a)]) 0 1
    cli_server ps 0 _ demo_expand (bs "~/.fnd") demo_home fs sector_a 1 (λ _, 0) true 2 (Terminal []) Hp)
    as (fs' & s' & x' & out & Hw & Hr & Ho).
  - rewrite Hc. reflexivity.
  - done.
  - exact Hh.
  - done.
  - vm_compute. discriminate.
  - exists fs, fs', (bs "Success. Hash: " ++ Hash_String (se_tip (cli_session bl [(0, sector_a)])) ++ [x0a]), s', x', out.
    split_and!; [exact Hw|exact Hr|exact Ho].
Defined.
