(* ===== verification/Commands.v ===== *)
(** * The other commands of the command line

    [src/cmd/fnd-cli/cmd/net] and [info.go] and [list.go] of [cmd/blob]: what
    the commands ask the node for, and what they print of its answers.  The
    calls of the node are arguments; tables are given to the table writer by
    rows, which are what the commands return here. *)

From S2P Require Import Prelude GoLib Crypto Instances Sector Wire OsFile BlobIO BlobTx BlobSpec BlobSys BlobHash.
From S2P Require Import Names BlobStore Util StoreDB StoreInstances Store StorePeers Queue Syncer Updater SectorServer.
From S2P Require Import BanList NetIP Peer Handshake Mux PeerManager Rpc RpcClient Strconv.

(** ** net/add_peer.go, ban_peer.go and unban_peer.go *)

Definition addPeerCmd {S} (add : bytes → bytes → bool → M S unit) (verifyPeerID : bool) (arg : bytes) : M S unit :=
  let splits := strings_Split x40 arg in
  if verifyPeerID && bool_decide (length splits = 1%nat)
  then M_fail (ENew "must define a peer ID if the peer ID is to be verified")
  else match splits with
       | [ip] => AddPeerContext add [] ip verifyPeerID
       | [id; ip] => AddPeerContext add id ip verifyPeerID
       | _ => M_fail (ENew "must specify the peer as <peer-id?>@<ip>")
       end.

Definition banPeerCmd {S} (ban : bytes → Z → M S unit) (peerID arg : bytes) : M S unit :=
  duration ← M_lift (Atoi arg);
  BanPeerContext ban peerID duration.

Definition UnbanPeerContext {A} (unban : bytes → A) (ip : bytes) : A := unban ip.

Definition unbanPeerCmd {S} (unban : bytes → M S unit) (arg : bytes) : M S unit := UnbanPeerContext unban arg.

(** ** net/peer_info.go *)

(** float64: a positive rational rounded to 53 bits, to even on a tie, as a
    mantissa and an exponent. *)
Definition round_even (a b : Z) : Z :=
  let q := a / b in
  let r := a mod b in
  if decide (2 * r < b) then q
  else if decide (b < 2 * r) then q + 1
  else if Z.even q then q else q + 1.

Definition mantissa (a b e : Z) : Z :=
  if decide (0 ≤ e) then round_even a (b * 2 ^ e) else round_even (a * 2 ^ (- e)) b.

Definition float64_of (a b : Z) : Z * Z :=
  let e := Z.log2 a - Z.log2 b - 52 in
  let m := mantissa a b e in
  if decide (m < 2 ^ 52) then (mantissa a b (e - 1), e - 1) else (m, e).

(** The ratio a float stands for, and the quotient of two. *)
Definition ratio (f : Z * Z) : Z * Z :=
  let '(m, e) := f in if decide (0 ≤ e) then (m * 2 ^ e, 1) else (m, 2 ^ (- e)).

Definition float_div (f g : Z * Z) : Z * Z :=
  let '(a, b) := ratio f in
  let '(c, d) := ratio g in
  float64_of (a * d) (b * c).

(** The verb [%.1f]. *)
Definition print_tenths (f : Z * Z) : bytes :=
  let '(a, b) := ratio f in
  let t := round_even (10 * a) b in
  strconv_Itoa (t / 10) ++ bs "." ++ strconv_Itoa (t mod 10).

(** [for n := stat / unit; n >= unit; n /= unit], on [uint64]; seven rounds are
    enough, since a thousand to the seventh is more than 64 bits. *)
Fixpoint scale (fuel : nat) (n div exp : Z) : Z * Z :=
  match fuel with
  | O => (div, exp)
  | S fuel => if decide (1000 ≤ n) then scale fuel (n / 1000) (u64 (div * 1000)) (exp + 1) else (div, exp)
  end.

Definition bandwidthToStr (stat : Z) : result bytes :=
  if decide (stat = 0) then Ok (bs "-")
  else if decide (stat < 1000) then Ok (strconv_Itoa stat ++ bs " B")
  else
    let '(div, exp) := scale 7 (stat / 1000) 1000 0 in
    match bs "kMGTPE" !! Z.to_nat exp with
    | Some c => Ok (print_tenths (float_div (float64_of stat 1) (float64_of div 1)) ++ bs " " ++ [c] ++ bs "B")
    | None => Panic "index out of range"
    end.

Definition boolToStr (val : bool) : bytes := if val then bs "TRUE" else bs "FALSE".

Definition peer_header : list bytes :=
  [bs "Peer ID"; bs "IP"; bs "Banned"; bs "Whitelisted"; bs "Connected"; bs "Tx Bytes"; bs "Rx Bytes"].

Definition peer_row (res : NetPeer) : result (list bytes) :=
  tx ← bandwidthToStr (np_TxBytes res);
  rx ← bandwidthToStr (np_RxBytes res);
  Ok [np_ID res; np_IP res; boolToStr (np_Banned res); boolToStr (np_Whitelisted res);
      boolToStr (np_Connected res); tx; rx].

Fixpoint collect {A B} (f : A → result B) (l : list A) : result (list B) :=
  match l with
  | [] => Ok []
  | a :: l => b ← f a; bs ← collect f l; Ok (b :: bs)
  end.

(** The document of a peer. *)
Definition peerJSON (peer : NetPeer) : list (string * jleaf) :=
  [("id", JStr (np_ID peer)); ("ip", JStr (np_IP peer)); ("banned", JBool (np_Banned peer));
   ("whitelisted", JBool (np_Whitelisted peer)); ("connected", JBool (np_Connected peer));
   ("tx_bytes", JInt (i64 (np_TxBytes peer))); ("rx_bytes", JInt (i64 (np_RxBytes peer)))]%string.

(** [encoder.Encode]: the document and a line break. *)
Definition json_Encode `{JSON} (doc : list (string * jleaf)) : result bytes :=
  b ← json_Marshal doc; Ok (b ++ [x0a]).

(** What is printed: documents, or a table and the number of its rows. *)
Inductive output := Lines (l : list bytes) | Table (header : list bytes) (rows : list (list bytes)) (total : option Z).

Definition peerInfoCmd `{JSON} (stream : list ListPeersRes * result unit) (format : bytes) : result output :=
  peers ← ListPeersContext stream;
  if decide (format = bs "json") then Lines <$> collect (λ p, json_Encode (peerJSON p)) peers
  else
    rows ← collect peer_row peers;
    Ok (Table peer_header rows (Some (zlen peers))).

(** ** net/status.go *)

Definition statusCmd (r : result GetStatusRes) : result output :=
  res ← GetStatusContext r;
  tx ← bandwidthToStr (st_TxBytes res);
  rx ← bandwidthToStr (st_RxBytes res);
  Ok (Table [] [[bs "Peer ID"; st_PeerID res];
                [bs "Peer Count"; strconv_Itoa (st_PeerCount res)];
                [bs "Header Count"; strconv_Itoa (st_HeaderCount res)];
                [bs "Tx Bytes"; tx];
                [bs "Rx Bytes"; rx]] None).

(** ** blob/info.go *)

Section blob.
Context `{Secp256k1}.

(** [time.Time.String], in the zone of the machine. *)
Context (Time_String : Time → bytes).

Definition GetBlobInfoContext (get : bytes → result BlobInfoRes) (name : bytes) : result BlobInfo :=
  res ← get name;
  parseBlobInfoRes res.

Definition info_header : list bytes :=
  [bs "Name"; bs "Public Key"; bs "Epoch Height"; bs "Sector Size"; bs "Sector Tip Hash";
   bs "Reserved Root"; bs "Signature"; bs "Received At"; bs "Banned At"].

Definition info_row (res : BlobInfo) : list bytes :=
  [bi_Name res; hex_EncodeToString (SerializeCompressed (bi_PublicKey res));
   strconv_Itoa (bi_EpochHeight res); strconv_Itoa (bi_SectorSize res);
   Hash_String (bi_SectorTipHash res); Hash_String (bi_ReservedRoot res); Signature_String (bi_Signature res);
   Time_String (bi_ReceivedAt res); Time_String (bi_BannedAt res)].

(** All names are checked before the node is asked for the first. *)
Definition infoCmd (get : bytes → result BlobInfoRes) (arg : bytes) : result output :=
  let names := strings_Split x2c arg in
  collect (λ name, wrapping "invalid name" (ValidateName name)) names;;
  rows ← collect (λ name, info_row <$> GetBlobInfoContext get name) names;
  Ok (Table info_header rows None).

(** ** blob/list.go *)

(** [ListBlobInfoContext] with a callback that has a state of its own. *)
Fixpoint list_with {S} (cb : BlobInfo → M S bool) (l : list BlobInfoRes) (end_ : result unit) : M S unit :=
  match l with
  | [] => M_lift end_
  | res :: l =>
      parsed ← M_lift (parseBlobInfoRes res);
      more ← cb parsed;
      if more : bool then list_with cb l end_ else mret tt
  end.

Definition BlobInfo_JSON (b : BlobInfo) : list (string * jleaf) :=
  [("name", JStr (bi_Name b)); ("public_key", JStr (hex_EncodeToString (SerializeCompressed (bi_PublicKey b))));
   ("import_height", JInt (bi_ImportHeight b)); ("epoch_height", JUint16 (bi_EpochHeight b));
   ("sector_size", JUint16 (bi_SectorSize b)); ("sector_tip_hash", JStr (hex_EncodeToString (bi_SectorTipHash b)));
   ("signature", JStr (hex_EncodeToString (bi_Signature b)));
   ("reserved_root", JStr (hex_EncodeToString (bi_ReservedRoot b)));
   ("received_at", JTime (bi_ReceivedAt b)); ("banned_at", JTime (bi_BannedAt b))]%string.

(** What is printed so far, [count] and [innerErr]. *)
Record ListState := mkListState { ls_out : list bytes; ls_count : Z; ls_innerErr : option error }.

Definition list_cb `{JSON} (lim : Z) (info : BlobInfo) : M ListState bool := λ s,
  match json_Encode (BlobInfo_JSON info) with
  | Err e => (Ok false, mkListState (ls_out s) (ls_count s) (Some e))
  | Panic w => (Panic w, s)
  | Ok line =>
      let count := ls_count s + 1 in
      (Ok (bool_decide (count < lim)), mkListState (ls_out s ++ [line]) count (ls_innerErr s))
  end.

Definition MaxInt64 : Z := 2 ^ 63 - 1.

(** What is printed, and the error; [innerErr] is looked at, but [err], which is
    nil there, is what is returned. *)
Definition listCmd `{JSON} (list_ : bytes → list BlobInfoRes * result unit) (args : list bytes)
    : list bytes * result unit :=
  let start := default [] (args !! 0%nat) in
  match (match args with
         | [_; a] => ParseInt10 32 a
         | _ => Ok MaxInt64
         end) with
  | Err e => ([], Err e)
  | Panic w => ([], Panic w)
  | Ok lim =>
      let '(l, end_) := list_ start in
      let '(r, s) := list_with (list_cb lim) l end_ (mkListState [] 0 None) in
      (ls_out s, r)
  end.
End blob.

(** ** What is asked for *)

Lemma hex_no_at id : x40 ∉ hex_EncodeToString id.
Proof.
  induction id as [|c id IH]; [set_solver|].
  change (hex_EncodeToString (c :: id)) with
    ([hex_digit (Z_of_byte c / 16); hex_digit (Z_of_byte c mod 16)] ++ hex_EncodeToString id).
  rewrite not_elem_of_app. split; [|exact IH]. by destruct c; apply (bool_decide_unpack _).
Qed.

(** A peer that is given with its ID is added with that ID. *)
Lemma addPeerCmd_id {S} (add : bytes → bytes → bool → M S unit) verify id ip s :
  x40 ∉ ip → addPeerCmd add verify (hex_EncodeToString id ++ x40 :: ip) s = add id ip verify s.
Proof.
  intros Hip. unfold addPeerCmd. rewrite Split_line, (Split_last _ ip) by (done || apply hex_no_at).
  rewrite bool_decide_false by done. rewrite andb_false_r. unfold AddPeerContext.
  by rewrite (M_bind_step _ _ _ id s) by (unfold M_lift; by rewrite hex_roundtrip).
Qed.

(** Without an ID a peer can only be added unverified. *)
Lemma addPeerCmd_ip {S} (add : bytes → bytes → bool → M S unit) ip s :
  x40 ∉ ip → addPeerCmd add false ip s = add [] ip false s ∧ is_ok (addPeerCmd add true ip s).1 = false.
Proof. intros Hip. unfold addPeerCmd. by rewrite Split_last. Qed.

(** A ban is as long as the command says, modulo the 32 bits of the request. *)
Lemma banPeerCmd_duration {S} (ban : bytes → Z → M S unit) ip duration s :
  - 2 ^ 63 ≤ duration < 2 ^ 63 → banPeerCmd ban ip (strconv_Itoa duration) s = ban ip (duration mod 2 ^ 32) s.
Proof.
  intros Hd. unfold banPeerCmd. rewrite (M_bind_step _ _ _ duration s); [done|].
  unfold M_lift, Atoi. by rewrite ParseInt10_Itoa.
Qed.

(** ** What is printed *)

Lemma pow_1000_succ k : 0 ≤ k → 1000 ^ (k + 1) = 1000 * 1000 ^ k.
Proof. intros Hk. by rewrite Z.add_1_r, Z.pow_succ_r. Qed.

Lemma scale_spec fuel n e :
  0 ≤ e → 0 < n → n * 1000 ^ (e + 1) < 2 ^ 64 → n < 1000 ^ (Z.of_nat fuel + 1) →
  ∃ k, scale fuel n (1000 ^ (e + 1)) e = (1000 ^ (e + k + 1), e + k) ∧ 0 ≤ k ∧ 1000 ^ k ≤ n < 1000 ^ (k + 1).
Proof.
  revert n e. induction fuel as [|fuel IH]; intros n e He Hn Hlt Hf.
  - exists 0. cbn [scale]. rewrite Z.add_0_r. split_and!; [done|lia|simpl; lia|simpl in *; lia].
  - cbn [scale]. case_decide as Hge; [|exists 0; rewrite Z.add_0_r; split_and!; [done|lia|simpl; lia|simpl; lia]].
    pose proof (Z.pow_pos_nonneg 1000 (e + 1) ltac:(lia) ltac:(lia)) as Hp.
    pose proof (Z_div_mod_eq_full n 1000) as Hq. pose proof (Z.mod_pos_bound n 1000 ltac:(lia)) as Hr.
    assert (Hu : u64 (1000 ^ (e + 1) * 1000) = 1000 ^ (e + 1 + 1)).
    { unfold u64. rewrite (pow_1000_succ (e + 1)) by lia. rewrite Z.mod_small by nia. lia. }
    rewrite Hu. destruct (IH (n / 1000) (e + 1)) as (k & Hs & Hk & Hb); [lia|lia| |..].
    { rewrite pow_1000_succ by lia. nia. }
    { rewrite Nat2Z.inj_succ in Hf. replace (Z.succ (Z.of_nat fuel) + 1) with (Z.of_nat fuel + 1 + 1) in Hf by lia.
      rewrite (pow_1000_succ (_ + 1)) in Hf by lia. lia. }
    exists (k + 1). rewrite Hs. split_and!; [f_equal; [f_equal|]; lia|lia| |].
    + rewrite pow_1000_succ by lia. lia.
    + rewrite (pow_1000_succ (k + 1)) by lia. lia.
Qed.

(** Every amount of traffic is printed: the unit is the largest power of a
    thousand that is not more than it, and there is a letter for it. *)
Theorem bandwidth_printed stat :
  0 ≤ stat < 2 ^ 64 →
  is_ok (bandwidthToStr stat) = true ∧
  (1000 ≤ stat → ∃ e, 0 ≤ e < 6 ∧ scale 7 (stat / 1000) 1000 0 = (1000 ^ (e + 1), e) ∧
                      1000 ^ (e + 1) ≤ stat < 1000 ^ (e + 2)).
Proof.
  intros Hs. assert (Hbig : 1000 ≤ stat → ∃ e, 0 ≤ e < 6 ∧ scale 7 (stat / 1000) 1000 0 = (1000 ^ (e + 1), e) ∧
                      1000 ^ (e + 1) ≤ stat < 1000 ^ (e + 2)).
  { intros Hge. pose proof (Z_div_mod_eq_full stat 1000) as Hq. pose proof (Z.mod_pos_bound stat 1000 ltac:(lia)) as Hr.
    destruct (scale_spec 7 (stat / 1000) 0) as (e & Hsc & He & Hb); [lia|lia|simpl; lia|simpl; lia|].
    exists e. assert (Hu : 1000 ^ (e + 1) ≤ stat) by (rewrite pow_1000_succ by lia; lia).
    assert (e < 6) by (destruct (decide (e < 6)) as [|Hge6]; [done|];
      pose proof (Z.pow_le_mono_r 1000 7 (e + 1) ltac:(lia) ltac:(lia)); lia).
    split_and!; [done..|]. replace (e + 2) with (e + 1 + 1) by lia. rewrite (pow_1000_succ (e + 1)) by lia. lia. }
  split; [|exact Hbig]. unfold bandwidthToStr. repeat case_decide; [done..|].
  destruct Hbig as (e & He & -> & _); [lia|].
  destruct (lookup_lt_is_Some_2 (bs "kMGTPE") (Z.to_nat e)) as [c ->]; [simpl; lia|done].
Qed.

Lemma bandwidth_examples :
  bandwidthToStr 999 = Ok (bs "999 B") ∧ bandwidthToStr 1500 = Ok (bs "1.5 kB") ∧
  bandwidthToStr 999950 = Ok (bs "1000.0 kB") ∧ bandwidthToStr (2 ^ 64 - 1) = Ok (bs "18.4 EB").
Proof. by vm_compute. Qed.

Section list.
Context `{JSON, Secp256k1}.

Lemma list_cb_run lim l infos lines s :
  Forall2 (λ res info, parseBlobInfoRes res = Ok info) l infos →
  Forall2 (λ info line, json_Encode (BlobInfo_JSON info) = Ok line) infos lines →
  list_with (list_cb lim) l (Ok tt) s =
    (Ok tt, let n := Z.to_nat (Z.max 1 (lim - ls_count s)) in
            mkListState (ls_out s ++ take n lines) (ls_count s + zlen (take n lines)) (ls_innerErr s)).
Proof.
  intros Hl. revert lines s. induction Hl as [|res info l infos Hp Hl IH]; intros lines s Hi.
  { inversion Hi. destruct s. cbn. rewrite take_nil, app_nil_r. unfold zlen. cbn. by rewrite Z.add_0_r. }
  inversion Hi as [|? line ? lines' Hj Hi']; subst. cbn [list_with].
  rewrite (M_bind_step _ _ _ info s) by (unfold M_lift; by rewrite Hp).
  rewrite (M_bind_step _ _ _ (bool_decide (ls_count s + 1 < lim)) (mkListState (ls_out s ++ [line]) (ls_count s + 1) (ls_innerErr s)))
    by (unfold list_cb; by rewrite Hj).
  case_bool_decide as Hlt.
  - rewrite (IH lines' _ Hi'). cbn [ls_out ls_count ls_innerErr].
    replace (Z.to_nat (Z.max 1 (lim - ls_count s))) with (S (Z.to_nat (Z.max 1 (lim - (ls_count s + 1))))) by lia.
    cbn [take]. rewrite <-app_assoc, zlen_cons. by rewrite <-Z.add_assoc.
  - replace (Z.to_nat (Z.max 1 (lim - ls_count s))) with 1%nat by lia. cbn [take]. by rewrite take_0.
Qed.

(** [list] with a limit prints the documents of the blobs the node sends, in
    their order, up to the limit, and one blob when the limit is not positive. *)
Theorem list_prints_limit list_ start lim l infos lines :
  - 2 ^ 31 ≤ lim < 2 ^ 31 → list_ start = (l, Ok tt) →
  Forall2 (λ res info, parseBlobInfoRes res = Ok info) l infos →
  Forall2 (λ info line, json_Encode (BlobInfo_JSON info) = Ok line) infos lines →
  listCmd list_ [start; strconv_Itoa lim] = (take (Z.to_nat (Z.max 1 lim)) lines, Ok tt).
Proof.
  intros Hlim Hs Hl Hi. unfold listCmd. rewrite ParseInt10_Itoa by (simpl; lia). cbv zeta.
  change (list_ (default [] ([start; strconv_Itoa lim] !! 0%nat))) with (list_ start). rewrite Hs.
  rewrite (list_cb_run lim l infos lines _ Hl Hi). cbn. by rewrite Z.sub_0_r.
Qed.
End list.
