(* ===== verification/Propagation.v ===== *)
(** * A blob from its owner to another node

    The parts composed: an owner publishes through the RPC server of a node, the
    sector server of that node answers a request, and the updater of another node
    stores what it gets, where a reader finds it. *)

From S2P Require Import Prelude GoLib Crypto Instances Sector Wire OsFile BlobIO BlobTx BlobSpec BlobSys BlobHash.
From S2P Require Import Names BlobStore Util StoreDB StoreInstances Store StorePeers Queue UpdateQueueProofs Syncer SyncerProofs.
From S2P Require Import Updater UpdaterProofs UpdaterComplete SectorServer ServerProofs Peer Handshake Mux PeerManager NetIP.
From S2P Require Import Rpc RpcClient RpcProofs RpcReads Cli.
#[local] Opaque Size.

(** ** The whole of an update *)

Section update.
Context `{HL : LevelDBLaws, HJ : JSONLaws, Secp256k1, Blake2b}.
Context (now : Time) (send_err : Hash → option error) (blobsPath : bytes).

(** What the checks of an update make sure of. *)
Lemma check_update_plan db item p :
  check_update now db item = Ok p →
  plan_epochHeight p ≤ item_EpochHeight item ∧
  if epochUpdated p then
    plan_sectorSize p = 0 ∧ plan_prevHash p = ZeroHash ∧
    plan_epochHeight p ≤ u16 (CurrentEpoch now (item_Name item) + 1)
  else plan_sectorSize p < item_SectorSize item.
Proof.
  unfold check_update.
  destruct (match GetHeader db (item_Name item) with Ok h => _ | Err e => _ | Panic s => _ end)
    as [[h|]|e|s]; simpl; try done.
  - case_decide as Hs; [done|]. case_decide as He; [done|].
    destruct (GetHeaderBan db (item_Name item)) as [t| |]; simpl; try done. case_decide as Hr.
    + unfold check_rollover. destruct (negb _ && _); [done|]. destruct (negb _ && _); [done|].
      destruct (bool_decide _ && _); [done|]. case_decide as Hf; [done|]. intros [= <-]. simpl. split_and!; try done; lia.
    + intros [= <-]. simpl. lia.
  - case_decide; [done|]. destruct (GetHeaderBan db (item_Name item)); simpl; try done.
    intros [= <-]. simpl. split_and!; try done; [lia|]. by apply Z.mod_pos_bound.
Qed.

(** An update whose first response is honest, from the checks to the close of the blob. *)
Lemma UpdateBlob_honest item p peer msg rest i c hh w :
  let name := item_Name item in
  check_update now (w_db w) item = Ok p → has_blob blobsPath name i c hh w → zlen c = Size →
  held_r hh name = 0 → held_w hh name = 0 → honest now item p msg c (w_db w) →
  ∃ w', UpdateBlob now send_err blobsPath item ((peer, msg) :: rest) w = (Ok tt, w') ∧
    has_blob blobsPath name i (with_sectors (base p c) (plan_sectorSize p) (BlobRes_Payload msg)) hh w' ∧
    GetHeader (w_db w') name = Ok (header_of now item p c msg) ∧
    GetSectorHashes (w_db w') name = Ok (go_copy ZeroSectorHashes (chain ZeroHash (all_sectors p c msg))).
Proof.
  intros name Hp [Hb Hinv] Hc Hr0 Hw0 Hh. rewrite UpdateBlob_eq, Hp.
  destruct (TryLock_spec (w_locks w) hh name Hinv) as (l & Ht & Hl).
  rewrite bool_decide_true in Ht, Hl by done. fold name. rewrite Ht.
  destruct (open_close blobsPath name i c Hc _ Hb) as (bl & ps & _ & Hop & Hbn & Hbo & _).
  destruct (Store_Open_entry _ _ _ _ _ Hop) as (r & Hpool).
  set (w1 := mkWorld (w_db w) ps l (w_sent w)).
  destruct (honest_sync now send_err item p peer msg rest bl i (blob_path blobsPath name) c w1 Hbo Hc Hh)
    as (w2 & t2 & Hs & Ho2 & Hgh & Hgs).
  destruct (sync_blob_locks now send_err l ps.2 item p ((peer, msg) :: rest) (w1, Blob_Transaction bl))
    as [Hl2 Hp2]; [done|]. rewrite Hs in Hl2, Hp2. simpl in Hl2, Hp2.
  rewrite <- Hp2, <- Hbn in Hpool. destruct (close_Ok bl i _ _ r _ Hpool Ho2) as (ps' & Hcl & Hnb).
  destruct (Unlock_spec l _ name Hl) as (l' & Hu & Hl').
  { simpl. unfold upd. rewrite decide_True by done. lia. }
  exists (mkWorld (w_db w2) ps' l' (w_sent w2)). split_and!; [|split|done|done].
  - unfold M_defer at 1, locked_update. fold name.
    rewrite (M_bind_step _ _ _ bl w1) by (unfold M_wrapping, on_blobs, M_zoom; simpl; by rewrite Hop).
    unfold M_defer, with_transaction. rewrite Hs.
    unfold mbind, M_bind, M_try, on_blobs, M_zoom. rewrite Hcl. unfold on_locks, M_zoom. simpl.
    by rewrite Hl2, Hu.
  - by rewrite <- Hbn at 2.
  - destruct hh as [hr hw]. eapply upd_ext; [..|exact Hl']; [done|].
    intros k. simpl. unfold upd. case_decide; lia.
Qed.
End update.

(** ** From node to node *)

Lemma sectors_of_wf n c : (n * 256 ≤ length c)%nat → Forall Sector_wf (sectors_of n c).
Proof.
  revert c. induction n as [|n IH]; intros c Hc; simpl; constructor.
  - apply Sector_wf_length. rewrite length_take. lia.
  - apply IH. rewrite length_drop. lia.
Qed.

(** Another node that can take what the session publishes: it knows the key of the
    name, which is free and not banned, and what it has of the epoch it goes on with is a
    part of what was published. *)
Record follower `{LevelDB, JSON, Secp256k1, Blake2b} (now : Time) (blobsPath : bytes) (x : session_)
    (sk : PrivateKey) (item : UpdateQueueItem) (p : plan) (i : nat) (c : bytes) (hh : held) (w : World) : Prop := mkFollower {
  fo_name : item_Name item = se_name x;
  fo_epoch : item_EpochHeight item = se_epoch x;
  fo_size : item_SectorSize item = se_size x;
  fo_plan : check_update now (w_db w) item = Ok p;
  fo_prefix : epochUpdated p = false → 0 ≤ plan_sectorSize p ∧
    sectors_of (Z.to_nat (plan_sectorSize p)) c = take (Z.to_nat (plan_sectorSize p)) (se_sectors x) ∧
    plan_prevHash p = tip_from ZeroHash (sectors_of (Z.to_nat (plan_sectorSize p)) c);
  fo_blob : has_blob blobsPath (se_name x) i c hh w;
  fo_content : zlen c = Size;
  fo_free : held_r hh (se_name x) = 0 ∧ held_w hh (se_name x) = 0;
  fo_valid : ValidateName (se_name x) = Ok tt ∧ NameIsBanned (w_db w) (se_name x) = Ok false;
  fo_key : ∃ info, GetNameInfo (w_db w) (se_name x) = Ok info ∧ ni_PublicKey info = PubKey sk;
  fo_count : ∃ n, count_is (db_map (w_db w)) n ∧ 0 ≤ n < MaxInt32;
  fo_height : ∃ height, GetLastNameImportHeight (w_db w) = Ok height;
  fo_clock : ZeroTime ≤ now < MaxTime;
}.

Section propagation.
Context `{HL : LevelDBLaws, HJ : JSONLaws, HS : Secp256k1Laws, Blake2b}.
Context (pathA pathB : bytes).

(** The header that is published. *)
Definition se_published (x : session_) (sig : Signature) (tc : Time) : Header :=
  mkHeader (se_name x) (se_epoch x) (se_size x) (se_tip x) sig ZeroHash tc.

Lemma zlen_se_sectors x sk sig t0 tc s ps i P hh :
  publishable pathA x sk sig t0 tc s ps i P hh → 0 ≤ se_size x ∧ zlen (se_sectors x) = se_size x.
Proof.
  intros Hp. destruct (session_parts _ _ _ _ _ _ _ _ _ _ _ Hp) as (Hst & _).
  pose proof (zlen_nonneg (se_writes x)). unfold se_sectors, zlen at 1. rewrite length_sectors_of.
  unfold se_size in *. lia.
Qed.

(** Where a follower starts. *)
Lemma follower_start now x sk sig t0 tc s ps i P hh item p j c hh' w :
  publishable pathA x sk sig t0 tc s ps i P hh → follower now pathB x sk item p j c hh' w →
  let k := plan_sectorSize p in
  0 ≤ k ≤ se_size x ∧ k < MaxSectors ∧ plan_epochHeight p ≤ se_epoch x ∧
  old_sectors p c = take (Z.to_nat k) (se_sectors x) ∧ plan_prevHash p = tip_from ZeroHash (old_sectors p c).
Proof.
  intros Hp Hf k. destruct (zlen_se_sectors _ _ _ _ _ _ _ _ _ _ Hp) as [Hsz _].
  pose proof (pb_max _ _ _ _ _ _ _ _ _ _ _ Hp) as Hm.
  destruct (check_update_plan _ _ _ _ (fo_plan _ _ _ _ _ _ _ _ _ _ Hf)) as [He Hu].
  pose proof (fo_prefix _ _ _ _ _ _ _ _ _ _ Hf) as Hpre.
  rewrite (fo_epoch _ _ _ _ _ _ _ _ _ _ Hf) in He. rewrite (fo_size _ _ _ _ _ _ _ _ _ _ Hf) in Hu.
  unfold old_sectors, base. fold k in Hu, Hpre |- *. destruct (epochUpdated p).
  - destruct Hu as (-> & -> & _). unfold MaxSectors. split_and!; done || lia.
  - destruct (Hpre eq_refl) as (Hk & Hs & Ht). split_and!; done || lia.
Qed.

(** What the node of the owner answers is an honest response for the follower. *)
Lemma follower_honest now x sk sig t0 tc s ps i P hh item p j c hh' w :
  publishable pathA x sk sig t0 tc s ps i P hh → follower now pathB x sk item p j c hh' w →
  let msg := response_of (se_published x sig tc) (se_sectors x) (plan_sectorSize p) in
  honest now item p msg c (w_db w) ∧ all_sectors p c msg = se_sectors x.
Proof.
  intros Hp Hf msg. destruct (zlen_se_sectors _ _ _ _ _ _ _ _ _ _ Hp) as [Hsz Hl].
  destruct (follower_start _ _ _ _ _ _ _ _ _ _ _ _ _ _ _ _ _ Hp Hf) as (Hk & Hm & He & Hold & Hprev).
  assert (all_sectors p c msg = se_sectors x) as Hall by (unfold all_sectors; rewrite Hold; apply take_drop).
  split; [|done]. destruct Hf as [Hn Hep Hs Hpl _ _ _ _ [Hv Hban] (info & Hi & Hkey) Hcnt Hht Hclk].
  destruct (check_update_plan _ _ _ _ Hpl) as [_ Hu].
  pose proof (pb_wf _ _ _ _ _ _ _ _ _ _ _ Hp) as (Hw1 & Hw2 & Hw3 & Hw4 & Hw5 & Hw6 & _).
  apply mkHonest; rewrite ?Hall, ?Hn, ?Hs; try done.
  - lia.
  - simpl. unfold zlen in *. rewrite length_drop. lia.
  - apply Hp.
  - intros Hup. rewrite Hup in Hu. rewrite <- Hn. apply Hu.
  - simpl. by rewrite Hprev, Hold.
  - apply Forall_drop, sectors_of_wf.
    destruct (session_parts _ _ _ _ _ _ _ _ _ _ _ Hp) as (_ & _ & Hres & _).
    pose proof (pb_max _ _ _ _ _ _ _ _ _ _ _ Hp). rewrite Size_eq in Hres. unfold zlen, MaxSectors in *. lia.
  - unfold validateBlobUpdate, wrapping. rewrite Hv, Hban. simpl. rewrite Hi. simpl. rewrite Hkey.
    destruct (sign_seal_verifies _ _ _ _ _ _ _ (pb_sign _ _ _ _ _ _ _ _ _ _ _ Hp)) as (h & Hseal & _ & Hver).
    fold (se_tip x). rewrite Hseal. unfold Hash_Hash in Hver. by rewrite Hver.
  - apply Hp.
  - unfold header_of. rewrite Hall, Hn, Hep, Hs. unfold Header_wf. cbn in *. fold (se_tip x).
    split_and!; try done; destruct (epochUpdated p); done || apply Hclk.
Qed.

(** A reader at a node that took the response. *)
Lemma follower_reads now x sk sig t0 tc s ps i P hh item p j c hh' w t sB :
  publishable pathA x sk sig t0 tc s ps i P hh → follower now pathB x sk item p j c hh' w →
  let msg := response_of (se_published x sig tc) (se_sectors x) (plan_sectorSize p) in
  has_blob pathB (se_name x) j (with_sectors (base p c) (plan_sectorSize p) (BlobRes_Payload msg)) hh' (sv_world sB) →
  ∃ out y, readCmd pathB t (sB, NewBlobReader (se_name x)) = (Ok (out, None), y) ∧
    sectors_of (Z.to_nat (se_size x)) out = se_sectors x.
Proof.
  intros Hp Hf msg Hb. destruct (follower_honest _ _ _ _ _ _ _ _ _ _ _ _ _ _ _ _ _ Hp Hf) as [Hh Hall].
  destruct (follower_start _ _ _ _ _ _ _ _ _ _ _ _ _ _ _ _ _ Hp Hf) as (Hk & Hm & _).
  pose proof (pb_max _ _ _ _ _ _ _ _ _ _ _ Hp) as Hmax. pose proof (fo_free _ _ _ _ _ _ _ _ _ _ Hf) as [Hr Hw].
  destruct Hh as [_ Hsize _ _ _ _ _ _ _ Hss _ _ _ _ _]. rewrite (fo_size _ _ _ _ _ _ _ _ _ _ Hf) in Hsize.
  pose proof (base_size p c (fo_content _ _ _ _ _ _ _ _ _ _ Hf)) as Hbase.
  assert (Z.to_nat (plan_sectorSize p * SectorBytes) ≤ length (base p c))%nat as Hle.
  { unfold zlen in Hbase. rewrite Size_eq in Hbase. unfold SectorBytes, MaxSectors in *. lia. }
  edestruct (readCmd_all pathB (se_name x) j) as (y & Hy); [| |exact Hb|].
  - apply zlen_with_sectors; done || (fold msg in Hsize; lia).
  - lia.
  - eexists _, y. split; [exact Hy|]. fold msg in Hsize. rewrite Hsize, sectors_of_with by (lia || done). exact Hall.
Qed.

(** C0: what an owner publishes reaches another node.  A writer that holds the key of
    a name publishes through its node; a node that has nothing of the name, or an
    older epoch, or a part of the blob, asks for what it lacks and gets one response;
    with this response first its update succeeds, whatever comes after, it stores the
    header the owner signed, and a reader at the second node reads the sectors that
    were published. *)
Theorem published_reaches_peer x sk sig t0 tc s ps i hhA broadcast tr send_err ms peerB cache
    now send_errB item p j c hhB wB peerA rest :
  publishable pathA x sk sig t0 tc s ps i (blob_path pathA (se_name x)) hhA →
  follower now pathB x sk item p j c hhB wB →
  let req := mkBlobReq (se_name x) (plan_epochHeight p) (plan_sectorSize p) in
  Cache_Get tr (cache_key req) cache = (Ok (None, None), cache) → send_err peerB = None →
  ∃ s' b' res wB', publish pathA t0 (se_writes x) tc broadcast
      (s, NewBlobWriter (NewSECP256k1Signer sk) (se_name x) (se_reset x)) = (Ok (se_tip x), (s', b')) ∧
    w_sent (onBlobReq tr send_err pathA ms peerB req (sv_world s', cache)).2.1 =
      w_sent (sv_world s') ++ [ToPeer peerB (MBlobRes res)] ∧
    UpdateBlob now send_errB pathB item ((peerA, res) :: rest) wB = (Ok tt, wB') ∧
    GetHeader (w_db wB') (se_name x) = Ok (mkHeader (se_name x) (se_epoch x) (se_size x) (se_tip x) sig ZeroHash
      (if epochUpdated p then now else ZeroTime)) ∧
    ∀ sB t, sv_world sB = wB' → ∃ out y, readCmd pathB t (sB, NewBlobReader (se_name x)) = (Ok (out, None), y) ∧
      sectors_of (Z.to_nat (se_size x)) out = se_sectors x.
Proof.
  intros Hp Hf req Hcache Hse. destruct (zlen_se_sectors _ _ _ _ _ _ _ _ _ _ Hp) as [Hsz Hlen].
  destruct (follower_start _ _ _ _ _ _ _ _ _ _ _ _ _ _ _ _ _ Hp Hf) as (Hk & Hm & He & Hold & _).
  destruct (follower_honest _ _ _ _ _ _ _ _ _ _ _ _ _ _ _ _ _ Hp Hf) as [Hh Hall].
  destruct (publish_run _ _ _ _ _ _ _ _ _ _ _ broadcast Hp) as (s' & b' & Hrun & Hb & Hgh & Hgs & Hl & _).
  destruct (session_parts _ _ _ _ _ _ _ _ _ _ _ Hp) as (_ & _ & Hres & _).
  destruct (pb_free _ _ _ _ _ _ _ _ _ _ _ Hp) as (_ & Hr0 & Hw0).
  destruct (open_close pathA (se_name x) i (se_result x) Hres _ Hb) as (bl & ps1 & _ & Hop & _ & Hbo & _).
  set (h := se_published x sig tc) in *. set (msg := response_of h (se_sectors x) (plan_sectorSize p)) in *.
  pose proof (pb_max _ _ _ _ _ _ _ _ _ _ _ Hp) as Hmax.
  assert (consistent (w_db (sv_world s')) ps1.1 bl i (blob_path pathA (se_name x)) (se_result x) h) as Hcon
    by (by apply mkConsistent).
  pose proof (onBlobReq_responds tr send_err pathA ms peerB req h bl i _ _ ps1 (sv_world s') cache hhA
    Hcon Hop Hcache Hl Hw0 Hse eq_refl He Hk) as Hs. destruct (onBlobReq _ _ _ _ _ _ _) as [r [wA c']] eqn:Hreq.
  destruct Hs as (Hsent & _); [simpl; lia|].
  destruct (fo_free _ _ _ _ _ _ _ _ _ _ Hf) as [Hr1 Hw1].
  pose proof (fo_name _ _ _ _ _ _ _ _ _ _ Hf) as Hn.
  destruct (UpdateBlob_honest now send_errB pathB item p peerA msg rest j c hhB wB) as (wB' & Hu & Hb' & Hgh' & _);
    rewrite ?Hn; try done; try apply Hf. rewrite Hn in Hb', Hgh'.
  exists s', b', msg, wB'. split; [exact Hrun|]. split; [rewrite Hreq; exact Hsent|]. split; [exact Hu|]. split.
  - rewrite Hgh'. unfold header_of. rewrite Hall, Hn.
    by rewrite (fo_epoch _ _ _ _ _ _ _ _ _ _ Hf), (fo_size _ _ _ _ _ _ _ _ _ _ Hf).
  - intros sB t <-. exact (follower_reads _ _ _ _ _ _ _ _ _ _ _ _ _ _ _ _ _ t sB Hp Hf Hb').
Qed.
End propagation.

(** A second node, that has imported the name and has nothing else of it. *)
Definition second_world : World := mkWorld demo_db (stored_fs, NewPool) NewMultiLocker [].

Definition second_item : UpdateQueueItem :=
  mkItem (NewPeerSet [demo_peer]) (bs "foo") (CurrentEpoch 0 (bs "foo")) 1 (PubKey toy_key) 9 0.

Lemma second_follows bl :
  follower 0 (bs "blobs") (cli_session bl [(0, sector_a)]) toy_key second_item first_plan 0 zero_blob
    (mkHeld (λ _, 0) (λ _, 0)) second_world.
Proof.
  apply mkFollower; [reflexivity..| | | | | | | | | | ].
  - vm_compute. reflexivity.
  - discriminate.
  - split; [apply stored_name_blob|]. intros k. split_and!; [done..|by left].
  - apply zlen_zero_blob.
  - done.
  - split; vm_compute; reflexivity.
  - exists demo_info. split; [vm_compute; reflexivity|reflexivity].
  - exists 0. split; [vm_compute; reflexivity|done].
  - exists 0. vm_compute. reflexivity.
  - done.
Qed.

Lemma published_reaches_peer_witness :
  ∃ h s' b' res wB', publish (bs "blobs") 0 [(0, sector_a)] 1 true
      (cli_server, NewBlobWriter (NewSECP256k1Signer toy_key) (bs "foo") false) = (Ok h, (s', b')) ∧
    w_sent (onBlobReq 2 no_err (bs "blobs") 1000 demo_peer (mkBlobReq (bs "foo") 0 0) (sv_world s', NewCache)).2.1 =
      w_sent (sv_world s') ++ [ToPeer demo_peer (MBlobRes res)] ∧
    UpdateBlob 0 no_err (bs "blobs") second_item [(demo_peer, res)] second_world = (Ok tt, wB') ∧
    ∃ out y, readCmd (bs "blobs") 3 (NewServer wB', NewBlobReader (bs "foo")) = (Ok (out, None), y) ∧
      sectors_of 1 out = [sector_a].
Proof.
  destruct sector_a_publishable as (bl & ps & Hp).
  destruct (published_reaches_peer (bs "blobs") (bs "blobs") (cli_session bl [(0, sector_a)]) toy_key
    (cli_sig [(0, sector_a)]) 0 1 cli_server ps 0 _ true 2 no_err 1000 demo_peer NewCache 0 no_err second_item first_plan
    0 zero_blob _ second_world demo_peer [] Hp (second_follows bl)) as (s' & b' & res & wB' & Hr & Hs & Hu & _ & Hread).
  - reflexivity.
  - reflexivity.
  - destruct (Hread (NewServer wB') 3 eq_refl) as (out & y & Hy & Ho).
    exists (se_tip (cli_session bl [(0, sector_a)])), s', b', res, wB'.
    split; [exact Hr|]. split; [exact Hs|]. split; [exact Hu|]. exists out, y. split; [exact Hy|].
    rewrite cli_session_sectors in Ho by done. exact Ho.
Defined.
